(* ===== verification/_CoqProject ===== *)
-Q . S2P
Prelude.v
Machine.v
Board.v
Utility.v
Uart.v
ConsoleTheorems.v
Chain.v
BuddySpec.v
PageAlloc.v
Capacity.v
Buddy.v
BuddyProof.v
BuddyInit.v
BuddyInstance.v
BuddyClient.v
BuddyTheorems.v
Kmalloc.v
KmallocProof.v
KmallocTheorems.v
LinkedList.v
LinkedListProof.v
LinkedListTheorems.v
PageTable.v
PageTableProof.v
PageTableTheorems.v
KernelMap.v
Teardown.v
Task.v
Process.v
TaskTable.v
UserStack.v
UserMemory.v
UserMemoryTheorems.v
UserCopy.v
UserCopyTheorems.v
TaskCreate.v
TaskCreateTheorems.v
TaskFill.v
TaskFork.v
TaskForkTheorems.v
TaskElf.v
TaskElfTheorems.v
Scheduler.v
FirstProcess.v
FirstProcessTheorems.v
TaskBoard.v
ProcessTheorems.v
Trap.v
TrapProof.v
TrapTheorems.v
Boot.v
BootTheorems.v
MainTheorems.v
UserMachine.v
System.v
Ulib.v
Shell.v
UserProof.v
UserBoard.v
UserTheorems.v
ExecProof.v
ExecTheorems.v
ShellProof.v
ShellTheorems.v
