(* ===== verification/Prelude.v ===== *)
(** * A verification library for toy-riscv-kernel

    The program is a small RISC-V kernel in C (src/kernel) with a few user
    programs (src/user).  Its parts, from the bottom up:

    - the machine: registers, memory layout, devices (riscv.h, riscv_defs.h,
      memlayout.h, types.h) in Machine.v;
    - strings and bytes (utility.h) in Utility.v; console and interrupt
      controller (uart.c, print.c, panic.c, spinlock.h, plic.c) in Uart.v;
    - the page allocator, a buddy system (mem_manage.c to line 173) in Buddy.v;
    - the small-object allocator on top of it (mem_manage.c from line 223) in
      Kmalloc.v, and linked lists (single_linked_list.h) in LinkedList.v, whose
      nodes it allocates;
    - Sv39 page tables (virtual_memory.c) in PageTable.v, on the page allocator;
    - tasks and their user memory (process.c, elf.c) in Task.v; scheduler,
      processes and system calls (process.c) in Process.v; traps (trap.c) in
      Trap.v; start-up (start.c, main.c) in Boot.v;
    - user programs (src/user): the system call wrappers (system.c) in System.v,
      the library (ulib.h, ulib.c) in Ulib.v, the shell, echo and the test
      programs in Shell.v.

    ** How the code is modelled

    A kernel function becomes a computation of the monad [M] of Machine.v: a
    function from the machine state to an outcome.  The state holds the RAM byte
    by byte, the control and status registers, the scalar globals (the type
    [global]; their addresses are never taken), and the log of the device
    accesses.  Each control and status register is a cell of its own: sstatus,
    sie and sip are not views of mstatus, mie and mip (start.c, the only code
    that touches both kinds, does not rely on the connection).  Structures are accessed at their offsets, so aliasing, reuse of
    memory and corruption are as in C.  A [uint64] is a [Z] reduced modulo 2^64
    wherever C arithmetic can wrap; addresses that only add a field offset are
    not reduced, since an access outside the RAM is the outcome [Fault] anyway.
    Besides returning ([Ok]) and faulting, code can enter an empty endless loop
    ([Spin]), switch to another kernel thread ([Switch], switch.S; the
    continuation is what runs when that thread is resumed), or leave for user
    mode ([ToUser], trampoline.S).

    A C loop is [loop body x]: at most 2^64 iterations, then the outcome
    [Timeout].  No loop of the kernel that terminates needs more: theorems
    about [wp] (total correctness: the computation returns and the postcondition
    holds) prove that the bound is not reached.  The recursive functions have a
    fuel of 64: [deallocate] climbs at most 16 orders, [kmalloc] calls itself at
    most once per new block, and the printing functions divide a 64-bit number.

    A user program is a computation of the monad [U] of UserMachine.v: its state
    is the user memory, the static variable of [strtok] and the kernel as the
    program sees it.  The kernel is the class [UserWorld]: what a system call
    returns and does to the user memory.  An access to an unmapped address is
    the outcome [UFault], a system call that does not return is [UEnds], and
    [uwp] is total correctness.  UserBoard.v gives one concrete world.

    The placement of the kernel image, the addresses of assembly routines and
    the values that devices return are the fields of the class [Platform];
    [PlatformOk] says what kernel.ld guarantees.  Board.v gives one concrete
    platform, on which the witnesses run.

    ** Interfaces

    PageAlloc.v: [PageOps] is the interface of the page allocator (mem_manage.h)
    and [PageAllocator] its laws in terms of the set of free bytes.  Kmalloc,
    LinkedList, PageTable, Task and Process are written against it;
    BuddyInstance.v proves that the buddy allocator implements it.  UserProof.v:
    [Terminal] is what the kernel promises to user programs about the console: what
    they print is shown, and [get_char] returns the characters it delivers, one
    by one.  It does not promise to deliver all that was typed: [sys_get_char]
    drops a character that is ready when it starts ([sys_get_char_drops] in
    ProcessTheorems.v).

    ** Theorems

    - BuddyTheorems.v: boot builds the unique well-formed pool over the free RAM;
      allocation and release refine a textbook buddy system (BuddySpec.v), return,
      restore each other, and keep blocks disjoint along every sequence of calls
      (BuddyClient.v); one path of the release leaves interrupts disabled.
    - KmallocTheorems.v: chunks are disjoint, and no call writes those that stay
      in use, along every sequence of calls in which each request fits what is
      left of the block ([room]; the code does not check it); a request that does
      not fit overruns the block.
    - LinkedListTheorems.v: sequences of queue operations refine a mathematical
      list; [removeAt] on a found and on a missing element.
    - PageTableTheorems.v: mapping, unmapping and translation against an abstract
      page table ([vm_rep]); round trips; exhaustion of memory; double mapping.
    - KernelMap.v: the page table of the kernel, entry by entry ([kernel_entry]):
      identity on RAM and devices, no frame writable and executable, no page open
      to user programs; the 72 tables it needs fit in 72 free pairs of pages.
    - Teardown.v: which tables [free_pagetable] gives back, and which it loses.
    - UserMemoryTheorems.v (proofs in UserMemory.v): loading a segment at any
      address and releasing user pages ([user_byte] is what the program sees); the
      first page of a segment that starts inside a page is misplaced, so the
      theorems on whole programs are for segments that start on a page ([seg_ok]).
    - UserCopyTheorems.v (proofs in UserCopy.v): the copy of an address space by
      [copy_memory_with_pagetable] over two page tables that share the allocator
      ([two_vm]); what is released when memory runs out.
    - TaskCreateTheorems.v (proofs in TaskCreate.v): [new_task] succeeds while
      memory lasts (Capacity.v counts the free pairs of pages) and makes the task
      that the code describes, from memory that was free ([building]).
    - TaskFill.v: what is in place while the memory of a new task is filled, for
      [fork_process] and [load_elf] alike ([filled], [plan]).
    - TaskForkTheorems.v (proofs in TaskFork.v): [fork_process] from the new task
      to the queues: sections, pages, stack and registers of the child
      ([forked]); [new_task] and [set_stack] make a process that meets its
      hypotheses ([forkable]).
    - TaskElfTheorems.v (proofs in TaskElf.v): [load_elf] on a new task, from the
      headers of the file ([elf_at]) to the pages that the program sees
      ([program_loaded]).
    - FirstProcessTheorems.v (proofs in FirstProcess.v): [init_scheduler] from the
      empty heap to the run queue: program, stack and arguments of the first
      process ([first_process]).
    - MainTheorems.v: [main] from the loaded image to the first instruction of the
      first process ([first_instruction]), through the scheduler and the switch.
    - ConsoleTheorems.v: strings, number printing, the transmit ring, panics.
    - ProcessTheorems.v: the searches through all tasks (TaskTable.v), waiting and
      signals; [yield] rotates the run queue and, over any number of turns, every
      task gets its turn (Scheduler.v: [sched_rep] is the queue with the running
      task, [stacks_rep] the allocator beside the kernel stacks to be released);
      [sleep] on an empty queue.  TaskBoard.v has the concrete tasks of the
      instances.
    - TrapTheorems.v: from the trap to the return to user mode (TrapProof.v):
      preemption of user programs and of the kernel is transparent, system calls
      return behind their [ecall] with the handler's result, unknown ones repeat;
      page faults on the user stack are repaired (UserStack.v: [stack_rep] is the
      stack of a task with its page table).
    - UserTheorems.v: [printf] against a relation between formats and texts,
      [read_until] against a functional line editor ([edit]) on the characters
      that the kernel delivers.
    - ExecProof.v, ExecTheorems.v: exec on both sides of the system call.  The
      library writes the strings to the shared page ([message], [padded]); from
      such a page ([exec_page]) the kernel makes the vectors of the new program:
      the arguments come back, the environment does not ([exec_built]).  The first
      argument must not be empty, since the kernel skips empty strings there.
    - ShellTheorems.v (proofs in ShellProof.v): the parser of the shell, [strtok]
      included, is the reference tokenizer [words]; [execute_line] calls exec with
      the words of the line.
    - BootTheorems.v: the identity page table of the start-up code and the state
      it leaves to [main].

    ** Not modelled

    Interrupts that arrive while the kernel runs (the handlers are modelled, the
    asynchronous arrival is not); register contents (the C code does not see
    them); the assembly files other than the switch; code under test and debug
    macros, which is not built; the programs recursion.c, badcall.c and badinsn.c
    (a call stack without end, and illegal instructions).  Running out
    of memory in [fork_process], [load_elf] and [init_scheduler], and what
    [exec_process] does before and after it reads the arguments (the release of
    the old program, loading, mapping the vectors, the new name) have definitions
    but no theorems of their own. *)

From Stdlib Require Export Ascii String ZArith Lia.
From stdpp Require Export base numbers list sorting strings gmap functions.

Export list_basics.list list_relations.list list_monad.list list_misc.list list_numbers.list.

#[export] Set Default Goal Selector "!".
#[global] Open Scope Z_scope.
#[global] Open Scope list_scope.

Declare Scope kernel_scope.
Delimit Scope kernel_scope with kernel.
#[global] Open Scope kernel_scope.

(** Membership in a list whose elements are listed. *)
Ltac in_list := solve [repeat first [solve [left] | right]].

(** ** Machine integers

    A C [uint64] is a [Z] in [0 .. 2^64-1]; every operation that can leave the
    range is followed by the reduction [w64], as the hardware does. *)

Definition w64 (z : Z) : Z := z mod 2 ^ 64.
Definition w32 (z : Z) : Z := z mod 2 ^ 32.
Definition w8 (z : Z) : Z := z mod 2 ^ 8.

(** Reinterpretation of the low 32 or 64 bits as a signed integer. *)
Definition s32 (z : Z) : Z := let x := w32 z in if x <? 2 ^ 31 then x else x - 2 ^ 32.
Definition s64 (z : Z) : Z := let x := w64 z in if x <? 2 ^ 63 then x else x - 2 ^ 64.
(** [a << b] on [uint64]: the RV64 shift uses the low six bits of [b]. *)
Definition shl64 (a b : Z) : Z := w64 (Z.shiftl a (b mod 64)).
(** [~a] on [uint64]. *)
Definition not64 (a : Z) : Z := 2 ^ 64 - 1 - a.

(** C truth values. *)
Definition truth (z : Z) : bool := negb (z =? 0).

Notation "a +w b" := (w64 (a + b)) (at level 50, left associativity) : kernel_scope.
Notation "a -w b" := (w64 (a - b)) (at level 50, left associativity) : kernel_scope.
Notation "a *w b" := (w64 (a * b)) (at level 40, left associativity) : kernel_scope.

(** ** Tactics *)

(** Turn the boolean comparisons of the code into propositions. *)
Ltac bool_prop :=
  repeat match goal with
  | H : _ && _ = true |- _ => apply andb_true_iff in H; destruct H
  | H : _ && _ = false |- _ => apply andb_false_iff in H
  | H : _ || _ = false |- _ => apply orb_false_iff in H; destruct H
  | H : _ || _ = true |- _ => apply orb_true_iff in H
  | H : negb _ = true |- _ => apply negb_true_iff in H
  | H : negb _ = false |- _ => apply negb_false_iff in H
  | H : (_ =? _) = true |- _ => apply Z.eqb_eq in H
  | H : (_ =? _) = false |- _ => apply Z.eqb_neq in H
  | H : (_ <? _) = true |- _ => apply Z.ltb_lt in H
  | H : (_ <? _) = false |- _ => apply Z.ltb_ge in H
  | H : (_ <=? _) = true |- _ => apply Z.leb_le in H
  | H : (_ <=? _) = false |- _ => apply Z.leb_gt in H
  end.

(** ** Integers *)

Lemma w64_small z : 0 <= z < 2 ^ 64 -> w64 z = z.
Proof. intros. by apply Z.mod_small. Qed.

Lemma w64_range z : 0 <= w64 z < 2 ^ 64.
Proof. by apply Z.mod_pos_bound. Qed.

Lemma w8_range z : 0 <= w8 z < 2 ^ 8.
Proof. by apply Z.mod_pos_bound. Qed.

Lemma w8_small z : 0 <= z < 2 ^ 8 -> w8 z = z.
Proof. intros. by apply Z.mod_small. Qed.

(** Masking one bit: [a & (1 << n)] and [a & ~(1 << n)]. *)
Lemma land_pow2 a n :
  0 <= n -> Z.land a (2 ^ n) = if Z.testbit a n then 2 ^ n else 0.
Proof.
  intros Hn. apply Z.bits_inj'. intros i Hi.
  rewrite Z.land_spec, Z.pow2_bits_eqb by lia.
  destruct (Z.eqb_spec n i) as [->|Hne].
  - destruct (Z.testbit a i); simpl.
    + by rewrite Z.pow2_bits_true.
    + by rewrite Z.bits_0.
  - rewrite andb_false_r. destruct (Z.testbit a n).
    + by rewrite Z.pow2_bits_false.
    + by rewrite Z.bits_0.
Qed.

Lemma land_not_pow2 a n :
  0 <= n < 64 -> 0 <= a < 2 ^ 64 ->
  Z.land a (not64 (2 ^ n)) = if Z.testbit a n then a - 2 ^ n else a.
Proof.
  intros Hn Ha.
  replace (not64 (2 ^ n)) with (Z.ldiff (Z.ones 64) (2 ^ n)).
  2:{ unfold not64. replace (2 ^ 64 - 1 - 2 ^ n) with (Z.ones 64 - 2 ^ n)
        by (rewrite Z.ones_equiv; lia).
      symmetry. apply Z.sub_nocarry_ldiff.
      apply Z.bits_inj'. intros i Hi.
      rewrite Z.ldiff_spec, Z.pow2_bits_eqb, Z.bits_0 by lia.
      destruct (Z.eqb_spec n i) as [->|]; [|done].
      by rewrite Z.ones_spec_low by lia. }
  assert (Z.land a (Z.ldiff (Z.ones 64) (2 ^ n)) = Z.ldiff a (2 ^ n)) as ->.
  { apply Z.bits_inj'. intros i Hi.
    rewrite Z.land_spec, !Z.ldiff_spec.
    destruct (Z.lt_ge_cases i 64) as [Hlt|Hge].
    - rewrite Z.ones_spec_low by lia. by destruct (Z.testbit a i).
    - replace (Z.testbit a i) with false; [done|].
      rewrite <-(Z.mod_small a (2 ^ 64)) by lia.
      by rewrite Z.mod_pow2_bits_high by lia. }
  destruct (Z.testbit a n) eqn:Hb.
  - symmetry. apply Z.sub_nocarry_ldiff.
    apply Z.bits_inj'. intros i Hi.
    rewrite Z.ldiff_spec, Z.pow2_bits_eqb, Z.bits_0 by lia.
    destruct (Z.eqb_spec n i) as [->|]; [by rewrite Hb|done].
  - apply Z.bits_inj'. intros i Hi.
    rewrite Z.ldiff_spec, Z.pow2_bits_eqb by lia.
    destruct (Z.eqb_spec n i) as [->|]; simpl; [by rewrite Hb|].
    by rewrite andb_true_r.
Qed.

(** Clearing the low bits: [a & ~(2^n - 1)]. *)
Lemma land_not_ones a n :
  0 <= n <= 64 -> 0 <= a < 2 ^ 64 -> Z.land a (not64 (2 ^ n - 1)) = a - a mod 2 ^ n.
Proof.
  intros Hn Ha.
  assert (not64 (2 ^ n - 1) = Z.ldiff (Z.ones 64) (Z.ones n)) as ->.
  { unfold not64. replace (2 ^ n - 1) with (Z.ones n) by (rewrite Z.ones_equiv; lia).
    change (2 ^ 64 - 1) with (Z.ones 64). apply Z.sub_nocarry_ldiff.
    apply Z.bits_inj'. intros i Hi. rewrite Z.ldiff_spec, !Z.testbit_ones, Z.bits_0 by lia.
    destruct (Z.ltb_spec i n), (Z.ltb_spec i 64), (Z.leb_spec 0 i); simpl; lia || done. }
  rewrite <-Z.land_ones by lia.
  assert (Z.land a (Z.ldiff (Z.ones 64) (Z.ones n)) = Z.ldiff a (Z.land a (Z.ones n))) as ->.
  { apply Z.bits_inj'. intros i Hi.
    rewrite Z.land_spec, !Z.ldiff_spec, Z.land_spec, !Z.testbit_ones by lia.
    destruct (Z.lt_ge_cases i 64) as [Hlt|Hge].
    - rewrite (proj2 (Z.ltb_lt i 64)), (proj2 (Z.leb_le 0 i)) by lia.
      by destruct (Z.testbit a i), (i <? n).
    - replace (Z.testbit a i) with false; [done|].
      rewrite <-(Z.mod_small a (2 ^ 64)) by lia. by rewrite Z.mod_pow2_bits_high by lia. }
  symmetry. apply Z.sub_nocarry_ldiff.
  apply Z.bits_inj'. intros i Hi. rewrite Z.ldiff_spec, Z.land_spec, Z.bits_0.
  by destruct (Z.testbit a i), (Z.testbit (Z.ones n) i).
Qed.

Create HintDb kernel discriminated.
