(* ===== verification/Machine.v ===== *)
(** * The machine: memory, registers, devices and the effects of kernel code

    Models what the C code of [src/kernel] runs on: types.h (machine integers
    are in the prelude), riscv_defs.h, riscv.h and memlayout.h, a byte memory
    for the RAM of the qemu [virt] board, the control and status registers, the
    scalar globals of the kernel and the memory-mapped devices.  Kernel code is
    a computation of the monad [M]: a state transformer whose outcomes include
    the ways control leaves C code. *)

From S2P Require Import Prelude.

(** ** Constants: types.h, riscv_defs.h, memlayout.h, mem_manage.c *)

Definition NULL : Z := 0.

Definition MSTATUS_MPP_MASK : Z := Z.shiftl 3 11.
Definition MSTATUS_MPP_S : Z := Z.shiftl 1 11.
Definition MSTATUS_MIE : Z := Z.shiftl 1 3.

Definition SSTATUS_SPP : Z := Z.shiftl 1 8.
Definition SSTATUS_SPIE : Z := Z.shiftl 1 5.
Definition SSTATUS_SIE : Z := Z.shiftl 1 1.

Definition SIE_SEIE : Z := Z.shiftl 1 9.
Definition SIE_STIE : Z := Z.shiftl 1 5.
Definition SIE_SSIE : Z := Z.shiftl 1 1.
Definition MIE_MTIE : Z := Z.shiftl 1 7.

Definition SATP_SV39 : Z := Z.shiftl 8 60.
Definition MAKE_SATP (pagetable : Z) : Z := Z.lor SATP_SV39 (Z.shiftr pagetable 12).

Definition PGSIZE : Z := 4096.
Definition PGSHIFT : Z := 12.
Definition PGROUNDUP (sz : Z) : Z := Z.land (w64 (sz + PGSIZE - 1)) (not64 (PGSIZE - 1)).
Definition PGROUNDDOWN (a : Z) : Z := Z.land a (not64 (PGSIZE - 1)).
Definition PGOFFSET (va : Z) : Z := Z.land va (PGSIZE - 1).

Definition PTE_V : Z := Z.shiftl 1 0.
Definition PTE_R : Z := Z.shiftl 1 1.
Definition PTE_W : Z := Z.shiftl 1 2.
Definition PTE_X : Z := Z.shiftl 1 3.
Definition PTE_U : Z := Z.shiftl 1 4.

Definition PA2PTE (pa : Z) : Z := shl64 (Z.shiftr pa 12) 10.
Definition PTE2PA (pte : Z) : Z := shl64 (Z.shiftr pte 10) 12.
Definition PTE_FLAGS (pte : Z) : Z := Z.land pte 0x3FF.

Definition PXMASK : Z := 0x1FF.
Definition PXSHIFT (level : Z) : Z := PGSHIFT + 9 * level.
Definition PX (level va : Z) : Z := Z.land (Z.shiftr va (PXSHIFT level)) PXMASK.
Definition MAXVA : Z := Z.shiftl 1 (9 + 9 + 9 + 12 - 1).

Definition VIRT_TEST : Z := 0x100000.
Definition UART0 : Z := 0x10000000.
Definition UART0_IRQ : Z := 10.
Definition VIRTIO0 : Z := 0x10001000.
Definition VIRTIO0_IRQ : Z := 1.
Definition CLINT : Z := 0x2000000.
Definition CLINT_MTIMECMP (hartid : Z) : Z := CLINT + 0x4000 + 8 * hartid.
Definition CLINT_MTIME : Z := CLINT + 0xBFF8.
Definition PLIC : Z := 0x0c000000.
Definition PLIC_SENABLE (hart : Z) : Z := PLIC + 0x2080 + hart * 0x100.
Definition PLIC_SPRIORITY (hart : Z) : Z := PLIC + 0x201000 + hart * 0x2000.
Definition PLIC_SCLAIM (hart : Z) : Z := PLIC + 0x201004 + hart * 0x2000.

Definition KERNBASE : Z := 0x80000000.
Definition PHYSTOP : Z := KERNBASE + 128 * 1024 * 1024.
Definition TRAMPOLINE : Z := MAXVA - PGSIZE.
Definition TRAPFRAME : Z := TRAMPOLINE - PGSIZE.
Definition SHARED_MEMORY : Z := TRAMPOLINE - PGSIZE * 2.
Definition MIN_STACK_ADDR : Z := SHARED_MEMORY - PGSIZE * 1024.

(** ** Control and status registers (riscv.h), by their number in the ISA *)

Definition sstatus : Z := 0x100.
Definition sie : Z := 0x104.
Definition stvec : Z := 0x105.
Definition sepc : Z := 0x141.
Definition scause : Z := 0x142.
Definition stval : Z := 0x143.
Definition sip : Z := 0x144.
Definition satp : Z := 0x180.
Definition mstatus : Z := 0x300.
Definition medeleg : Z := 0x302.
Definition mideleg : Z := 0x303.
Definition mie : Z := 0x304.
Definition mtvec : Z := 0x305.
Definition mscratch : Z := 0x340.
Definition mepc : Z := 0x341.
Definition pmpcfg0 : Z := 0x3A0.
Definition pmpaddr0 : Z := 0x3B0.

(** ** Platform: what the build and the board supply

    Linker symbols are placed by the build, and the value a device register
    returns is chosen by the hardware: both are parameters of the model.
    [mmio a t] is what a load of device address [a] returns when it is the
    [t]-th device load of the run. *)

Class Platform := {
  kernel_end : Z;          (** entry.S: first byte after the kernel image *)
  etext : Z;               (** kernel.ld: end of the kernel text *)
  trampoline : Z;          (** trampoline.S, a page of the image *)
  user_vector : Z;         (** trampoline.S *)
  user_return : Z;         (** trampoline.S *)
  kernel_vector : Z;       (** kernel_vectors.S *)
  timer_vector : Z;        (** kernel_vectors.S *)
  user_trap_addr : Z;      (** address of [user_trap] *)
  user_trap_return_addr : Z; (** address of [user_trap_return] *)
  main_addr : Z;           (** address of [main] *)
  buddy_pool : Z;          (** mem_manage.c: the array of free-list heads *)
  now_context : Z;         (** process.c: the saved boot context *)
  uart_tx_buf : Z;         (** uart.c: the transmit ring *)
  boot_pagetable : Z;      (** start.c: [pagetable] *)
  timer_scratch : Z;       (** start.c *)
  init_program : Z;        (** init.S: the embedded ELF images *)
  sh_program : Z;
  echo_program : Z;
  mmio : Z -> nat -> Z     (** the devices *)
}.

(** What kernel.ld guarantees of the placement. *)
Class PlatformOk (P : Platform) : Prop := {
  kernel_end_aligned : (4096 | kernel_end);
  kernel_end_range : KERNBASE < kernel_end <= PHYSTOP;
  buddy_pool_aligned : (8 | buddy_pool);
  buddy_pool_in_image : KERNBASE <= buddy_pool /\ buddy_pool + 8 * 16 <= kernel_end
}.

(** ** State *)

(** Scalar kernel globals: their addresses are never taken. *)
Inductive global :=
  | block_list_head | block_list_tail          (* mem_manage.c *)
  | kernel_pagetable                           (* virtual_memory.c *)
  | next_pid | stack_to_remove | stack_to_remove_next
  | running_task | init_task_ptr | runnable_tasks | all_tasks (* process.c *)
  | panicked                                   (* panic.c *)
  | uart_tx_w | uart_tx_r                      (* uart.c *)
  | strtok_last.                               (* the static of strtok *)

#[export] Instance global_eq_dec : EqDecision global.
Proof. solve_decision. Defined.

(** Device traffic, most recent first. *)
Inductive event :=
  | MmioRead (a v : Z)
  | MmioWrite (a v : Z).

Record state := mkState {
  mem : gmap Z Z;              (** RAM, by byte; an absent byte is 0 *)
  csr : gmap Z Z;              (** CSRs; an absent register is 0 *)
  glob : global -> Z;          (** scalar globals *)
  clock : nat;                 (** device loads performed so far *)
  log : list event             (** device traffic *)
}.

Definition set_mem (m : gmap Z Z) (s : state) : state :=
  mkState m (csr s) (glob s) (clock s) (log s).
Definition set_csr (r v : Z) (s : state) : state :=
  mkState (mem s) (<[r := v]> (csr s)) (glob s) (clock s) (log s).
Definition set_glob (g : global) (v : Z) (s : state) : state :=
  mkState (mem s) (csr s) (<[g := v]> (glob s)) (clock s) (log s).
Definition set_io (t : nat) (l : list event) (s : state) : state :=
  mkState (mem s) (csr s) (glob s) t l.

(** ** Outcomes of kernel code

    C code that does not simply return leaves in one of these ways.  [Switch]
    is [switch_context]: the registers of the running kernel thread are saved
    in the context at [old] and those at [new] are loaded; the continuation
    runs when some later switch comes back to [old]. *)

Inductive outcome (A : Type) : Type :=
  | Ok (a : A) (s : state)                (** returns [a] *)
  | Spin (s : state)                      (** enters [for (;;) {}] *)
  | Fault (a : Z) (s : state)             (** access to [a] outside the RAM *)
  | Timeout (s : state)                   (** a loop ran for 2^64 iterations *)
  | Switch (old new : Z) (s : state) (k : state -> outcome A)
  | ToUser (entry satp_value : Z) (s : state). (** jumps to user_return, at [entry] *)
Arguments Ok {A}. Arguments Spin {A}. Arguments Fault {A}.
Arguments Timeout {A}. Arguments Switch {A}. Arguments ToUser {A}.

Fixpoint obind {A B} (f : A -> state -> outcome B) (o : outcome A) : outcome B :=
  match o with
  | Ok a s => f a s
  | Spin s => Spin s
  | Fault a s => Fault a s
  | Timeout s => Timeout s
  | Switch old new s k => Switch old new s (fun s' => obind f (k s'))
  | ToUser a v s => ToUser a v s
  end.

Definition M (A : Type) : Type := state -> outcome A.

#[export] Instance M_ret : MRet M := fun A a s => Ok a s.
#[export] Instance M_bind : MBind M := fun A B f m s => obind f (m s).

(** ** Loops

    [loop body x] runs [body] until it yields [inr], at most 2^64 times: more
    than any of the loops below can do on a 64-bit machine without repeating
    itself. *)
Fixpoint iterate {X A} (d : nat) (body : X -> M (X + A)) (x : X) : M (X + A) :=
  match d with
  | O => body x
  | S d => r ← iterate d body x;
           match r with
           | inl x' => iterate d body x'
           | inr a => mret (inr a)
           end
  end.

Definition timeout {A} : M A := fun s => Timeout s.

Definition loop {X A} (body : X -> M (X + A)) (x : X) : M A :=
  r ← iterate 64 body x;
  match r with
  | inr a => mret a
  | inl _ => timeout
  end.

(** [for (i = 0; i < n; i += step) body(i)]. *)
Definition for_range (n step : Z) (body : Z -> M unit) : M unit :=
  loop (fun i => if i <? n then body i;; mret (inl (i +w step)) else mret (inr tt)) 0.

(** ** Memory *)

Definition rd8 (m : gmap Z Z) (a : Z) : Z := w8 (default 0 (m !! a)).
Definition wr8 (m : gmap Z Z) (a v : Z) : gmap Z Z := <[a := w8 v]> m.

(** Little-endian words of [n] bytes. *)
Fixpoint rd (n : nat) (m : gmap Z Z) (a : Z) : Z :=
  match n with
  | O => 0
  | S n => rd8 m a + 256 * rd n m (a + 1)
  end.
Fixpoint wr (n : nat) (m : gmap Z Z) (a v : Z) : gmap Z Z :=
  match n with
  | O => m
  | S n => wr n (wr8 m a v) (a + 1) (v / 256)
  end.

Abbreviation rd64 := (rd 8).
Abbreviation wr64 := (wr 8).

Definition in_ram (a n : Z) : bool := (KERNBASE <=? a) && (a + n <=? PHYSTOP).

Definition load (n : nat) (a : Z) : M Z := fun s =>
  if in_ram a (Z.of_nat n) then Ok (rd n (mem s) a) s else Fault a s.
Definition store (n : nat) (a v : Z) : M unit := fun s =>
  if in_ram a (Z.of_nat n) then Ok tt (set_mem (wr n (mem s) a v) s) else Fault a s.

Abbreviation load8 := (load 1).
Abbreviation load16 := (load 2).
Abbreviation load32 := (load 4).
Abbreviation load64 := (load 8).
Abbreviation store8 := (store 1).
Abbreviation store32 := (store 4).
Abbreviation store64 := (store 8).

Definition fault {A} (a : Z) : M A := fun s => Fault a s.
Definition spin {A} : M A := fun s => Spin s.

(** switch.S and trampoline.S: where the C code hands over to assembly. *)
Definition switch_context (old new : Z) : M unit := fun s => Switch old new s (fun s' => Ok tt s').
Definition jump_user_return (entry satp_value : Z) : M unit := fun s => ToUser entry satp_value s.

(** ** Globals, CSRs and devices *)

Definition get (g : global) : M Z := fun s => Ok (glob s g) s.
Definition put (g : global) (v : Z) : M unit := fun s => Ok tt (set_glob g v s).

Definition csr_val (s : state) (r : Z) : Z := default 0 (csr s !! r).
Definition read_csr (r : Z) : M Z := fun s => Ok (csr_val s r) s.
Definition write_csr (r v : Z) : M unit := fun s => Ok tt (set_csr r v s).

Definition read_mstatus : M Z := read_csr mstatus.
Definition write_mstatus (x : Z) : M unit := write_csr mstatus x.
Definition write_mepc (x : Z) : M unit := write_csr mepc x.
Definition read_sstatus : M Z := read_csr sstatus.
Definition write_sstatus (x : Z) : M unit := write_csr sstatus x.
Definition read_sip : M Z := read_csr sip.
Definition write_sip (x : Z) : M unit := write_csr sip x.
Definition read_sie : M Z := read_csr sie.
Definition write_sie (x : Z) : M unit := write_csr sie x.
Definition read_mie : M Z := read_csr mie.
Definition write_mie (x : Z) : M unit := write_csr mie x.
Definition write_sepc (x : Z) : M unit := write_csr sepc x.
Definition read_sepc : M Z := read_csr sepc.
Definition write_medeleg (x : Z) : M unit := write_csr medeleg x.
Definition write_mideleg (x : Z) : M unit := write_csr mideleg x.
Definition write_stvec (x : Z) : M unit := write_csr stvec x.
Definition write_mtvec (x : Z) : M unit := write_csr mtvec x.
Definition write_pmpcfg0 (x : Z) : M unit := write_csr pmpcfg0 x.
Definition write_pmpaddr0 (x : Z) : M unit := write_csr pmpaddr0 x.
Definition write_satp (x : Z) : M unit := write_csr satp x.
Definition read_satp : M Z := read_csr satp.
Definition write_mscratch (x : Z) : M unit := write_csr mscratch x.
Definition read_scause : M Z := read_csr scause.
Definition read_stval : M Z := read_csr stval.

Definition interrupt_on : M unit :=
  x ← read_sstatus; write_sstatus (Z.lor x SSTATUS_SIE).
Definition interrupt_off : M unit :=
  x ← read_sstatus; write_sstatus (Z.land x (not64 SSTATUS_SIE)).
Definition interrupt_status : M Z :=
  x ← read_sstatus; mret (if truth (Z.land x SSTATUS_SIE) then 1 else 0).
Definition set_interrupt_status (status : Z) : M Z :=
  last_status ← interrupt_status;
  (if truth status then interrupt_on else interrupt_off);;
  mret last_status.

(** A fence orders memory accesses; the model is sequentially consistent. *)
Definition sfence_vma : M unit := mret tt.

Section Devices.
Context `{Hw : Platform}.

Definition mmio_read (a : Z) : M Z := fun s =>
  let v := mmio a (clock s) in Ok v (set_io (S (clock s)) (MmioRead a v :: log s) s).
Definition mmio_write (a v : Z) : M unit := fun s =>
  Ok tt (set_io (clock s) (MmioWrite a v :: log s) s).

End Devices.

(** ** Weakest preconditions

    [wp m Q s]: run from [s], the computation [m] returns, with a value and a
    state that satisfy [Q].  It is a statement of total correctness: no fault,
    no panic, no endless loop. *)

Definition wp {A} (m : M A) (Q : A -> state -> Prop) (s : state) : Prop :=
  match m s with Ok a s' => Q a s' | _ => False end.

(** [wlp m Q s]: if [m] returns, then with a value and a state that satisfy
    [Q].  Used beside a [wp] of the same computation, for properties that do not
    depend on the data structures it walks. *)
Definition wlp {A} (m : M A) (Q : A -> state -> Prop) (s : state) : Prop :=
  forall a s', m s = Ok a s' -> Q a s'.

(** [spins m Q s]: run from [s], the computation enters an endless loop, in a
    state that satisfies [Q]. *)
Definition spins {A} (m : M A) (Q : state -> Prop) (s : state) : Prop :=
  match m s with Spin s' => Q s' | _ => False end.

(** [switches m Q s]: from [s], [m] reaches a context switch from [old] to [new]
    in a state, and with a continuation, that satisfy [Q]. *)
Definition switches {A} (m : M A) (Q : Z -> Z -> state -> (state -> outcome A) -> Prop)
    (s : state) : Prop :=
  match m s with Switch old new s' k => Q old new s' k | _ => False end.

(** [leaves m Q s]: from [s], [m] jumps to user_return. *)
Definition leaves {A} (m : M A) (Q : Z -> Z -> state -> Prop) (s : state) : Prop :=
  match m s with ToUser entry v s' => Q entry v s' | _ => False end.

(** Interrupts are enabled. *)
Definition sie_on (s : state) : bool := truth (Z.land (csr_val s sstatus) SSTATUS_SIE).

(** [modifies F m m']: only the bytes of [F] may differ between the memories. *)
Definition modifies (F : Z -> Prop) (m m' : gmap Z Z) : Prop :=
  forall a, ~ F a -> rd8 m' a = rd8 m a.

(** [same_regs s s']: everything but the memory and the interrupt-enable
    register is unchanged. *)
Definition same_regs (s s' : state) : Prop :=
  glob s' = glob s /\ clock s' = clock s /\ log s' = log s /\
  forall r, r <> sstatus -> csr_val s' r = csr_val s r.

(** ** Memory laws *)

Lemma rd8_wr8 m a v b : rd8 (wr8 m a v) b = if decide (a = b) then w8 v else rd8 m b.
Proof.
  unfold rd8, wr8. case_decide as H.
  - subst. rewrite lookup_insert_eq. simpl. apply Z.mod_mod. lia.
  - by rewrite lookup_insert_ne.
Qed.

Lemma rd8_wr_out n m a v b : ~ (a <= b < a + Z.of_nat n) -> rd8 (wr n m a v) b = rd8 m b.
Proof.
  revert m a v. induction n as [|n IH]; intros m a v H; simpl; [done|].
  rewrite IH by lia. rewrite rd8_wr8, decide_False by lia. done.
Qed.

Lemma rd_ext n m m' a :
  (forall b, a <= b < a + Z.of_nat n -> rd8 m' b = rd8 m b) -> rd n m' a = rd n m a.
Proof.
  revert a. induction n as [|n IH]; intros a H; simpl; [done|].
  rewrite H, IH by (try intros; try apply H; lia). done.
Qed.

Lemma rd_wr_out n k m a v b :
  b + Z.of_nat k <= a \/ a + Z.of_nat n <= b -> rd k (wr n m a v) b = rd k m b.
Proof. intros H. apply rd_ext. intros c Hc. apply rd8_wr_out. lia. Qed.

Lemma rd_wr n m a v : rd n (wr n m a v) a = v mod 2 ^ (8 * Z.of_nat n).
Proof.
  revert m a v. induction n as [|n IH]; intros m a v.
  - simpl. by rewrite Z.mod_1_r.
  - change (rd (S n) (wr (S n) m a v) a)
      with (rd8 (wr n (wr8 m a v) (a + 1) (v / 256)) a
            + 256 * rd n (wr n (wr8 m a v) (a + 1) (v / 256)) (a + 1)).
    rewrite IH, rd8_wr_out, rd8_wr8, decide_True by lia.
    replace (8 * Z.of_nat (S n)) with (8 + 8 * Z.of_nat n) by lia.
    rewrite Z.pow_add_r by lia. rewrite Z.rem_mul_r by lia. done.
Qed.

Lemma rd_wr_same n m a v : 0 <= v < 2 ^ (8 * Z.of_nat n) -> rd n (wr n m a v) a = v.
Proof. intros. rewrite rd_wr. by apply Z.mod_small. Qed.

Lemma rd_range n m a : 0 <= rd n m a < 2 ^ (8 * Z.of_nat n).
Proof.
  revert a. induction n as [|n IH]; intros a; simpl rd; [lia|].
  specialize (IH (a + 1)). pose proof (w8_range (default 0 (m !! a))).
  unfold rd8. replace (8 * Z.of_nat (S n)) with (8 + 8 * Z.of_nat n) by lia.
  rewrite Z.pow_add_r by lia. lia.
Qed.

Lemma rd64_range m a : 0 <= rd64 m a < 2 ^ 64.
Proof. apply (rd_range 8). Qed.

Lemma rd64_wr64_same m a v : 0 <= v < 2 ^ 64 -> rd64 (wr64 m a v) a = v.
Proof. apply (rd_wr_same 8). Qed.

Lemma rd64_wr64_out m a v b : b + 8 <= a \/ a + 8 <= b -> rd64 (wr64 m a v) b = rd64 m b.
Proof. intros. apply rd_wr_out. simpl. lia. Qed.

(** Words at multiples of 8 never overlap partially. *)
Lemma rd64_wr64_ne m a v b :
  (8 | a) -> (8 | b) -> a <> b -> rd64 (wr64 m a v) b = rd64 m b.
Proof. intros [x ->] [y ->] H. apply rd64_wr64_out. lia. Qed.

#[global] Arguments rd : simpl never.
#[global] Arguments wr : simpl never.

(** ** Footprints *)

Lemma modifies_refl F m : modifies F m m.
Proof. done. Qed.

Lemma modifies_weaken (F G : Z -> Prop) m m' :
  (forall a, F a -> G a) -> modifies F m m' -> modifies G m m'.
Proof. intros HFG H a Ha. apply H. naive_solver. Qed.

Lemma modifies_trans F m1 m2 m3 : modifies F m1 m2 -> modifies F m2 m3 -> modifies F m1 m3.
Proof. intros H1 H2 a Ha. by rewrite H2, H1. Qed.

Lemma modifies_wr (F : Z -> Prop) n m a v :
  (forall b, a <= b < a + Z.of_nat n -> F b) -> modifies F m (wr n m a v).
Proof. intros H b Hb. apply rd8_wr_out. naive_solver. Qed.

Lemma modifies_rd F n m m' a :
  modifies F m m' -> (forall b, a <= b < a + Z.of_nat n -> ~ F b) ->
  rd n m' a = rd n m a.
Proof. intros H HF. apply rd_ext. intros b Hb. apply H. auto. Qed.

#[export] Instance same_regs_preorder : PreOrder same_regs.
Proof.
  split.
  - intros s. repeat split.
  - intros s1 s2 s3 (?&?&?&Ha) (?&?&?&Hb). repeat split; try congruence.
    intros r Hr. by rewrite Hb, Ha.
Qed.

Lemma glob_set_mem m s : glob (set_mem m s) = glob s.
Proof. done. Qed.

Lemma mem_set_mem m s : mem (set_mem m s) = m.
Proof. done. Qed.

Lemma same_regs_set_mem m s : same_regs s (set_mem m s).
Proof. repeat split. Qed.

Lemma same_regs_sstatus v s : same_regs s (set_csr sstatus v s).
Proof.
  repeat split. intros r Hr. unfold csr_val. simpl. by rewrite lookup_insert_ne.
Qed.

Lemma same_regs_mem_r m s s' : same_regs s s' -> same_regs s (set_mem m s').
Proof. intros. etrans; [done|apply same_regs_set_mem]. Qed.

Lemma same_regs_csr_r v s s' : same_regs s s' -> same_regs s (set_csr sstatus v s').
Proof. intros. etrans; [done|apply same_regs_sstatus]. Qed.

Lemma same_regs_refl s : same_regs s s.
Proof. done. Qed.

#[export] Hint Resolve same_regs_mem_r same_regs_csr_r same_regs_refl : kernel.

(** ** Rules for [wp] *)

Lemma wp_ret {A} (a : A) (Q : A -> state -> Prop) s : Q a s -> wp (mret a) Q s.
Proof. done. Qed.

Lemma wp_bind {A B} (m : M A) (f : A -> M B) Q s :
  wp m (fun a s' => wp (f a) Q s') s -> wp (m ≫= f) Q s.
Proof.
  unfold wp, mbind, M_bind. destruct (m s); simpl; done.
Qed.

Lemma bind_ok {A B} (m : M A) (f : A -> M B) s a s' : m s = Ok a s' -> (m ≫= f) s = f a s'.
Proof. unfold mbind, M_bind. by intros ->. Qed.

Lemma bind_timeout {A B} (m : M A) (f : A -> M B) s s' :
  m s = Timeout s' -> (m ≫= f) s = Timeout s'.
Proof. unfold mbind, M_bind. by intros ->. Qed.

Lemma wp_mono {A} (m : M A) (P Q : A -> state -> Prop) s :
  wp m P s -> (forall a s', P a s' -> Q a s') -> wp m Q s.
Proof. unfold wp. destruct (m s); naive_solver. Qed.

Lemma wp_ok {A} (m : M A) (Q : A -> state -> Prop) s a s' :
  m s = Ok a s' -> Q a s' -> wp m Q s.
Proof. unfold wp. by intros ->. Qed.

Lemma wp_ok_inv {A} (m : M A) (Q : A -> state -> Prop) s :
  wp m Q s -> exists a s', m s = Ok a s' /\ Q a s'.
Proof. unfold wp. destruct (m s); naive_solver. Qed.

Lemma wp_elim {A} (m : M A) (Q : A -> state -> Prop) s a s' :
  wp m Q s -> m s = Ok a s' -> Q a s'.
Proof. unfold wp. intros H E. by rewrite E in H. Qed.

Lemma wp_load n a (Q : Z -> state -> Prop) s :
  in_ram a (Z.of_nat n) = true -> Q (rd n (mem s) a) s -> wp (load n a) Q s.
Proof. unfold wp, load. by intros ->. Qed.

Lemma wp_store n a v (Q : unit -> state -> Prop) s :
  in_ram a (Z.of_nat n) = true -> Q tt (set_mem (wr n (mem s) a v) s) ->
  wp (store n a v) Q s.
Proof. unfold wp, store. by intros ->. Qed.

Lemma wp_get g (Q : Z -> state -> Prop) s : Q (glob s g) s -> wp (get g) Q s.
Proof. done. Qed.

Lemma wp_put g v (Q : unit -> state -> Prop) s : Q tt (set_glob g v s) -> wp (put g v) Q s.
Proof. done. Qed.

Lemma wp_read_csr r (Q : Z -> state -> Prop) s : Q (csr_val s r) s -> wp (read_csr r) Q s.
Proof. done. Qed.

Lemma wp_write_csr r v (Q : unit -> state -> Prop) s :
  Q tt (set_csr r v s) -> wp (write_csr r v) Q s.
Proof. done. Qed.

(** The loop rule: [I n x s] holds before each iteration with a measure [n]
    that decreases, so that [n] below 2^64 bounds the iterations. *)
Lemma wp_iterate {X A} (body : X -> M (X + A)) (I : Z -> X -> state -> Prop)
    (Q : A -> state -> Prop) :
  (forall n x s, I n x s -> 0 <= n /\
     wp (body x) (fun r s' => match r with
       | inl x' => exists n', n' < n /\ I n' x' s'
       | inr a => Q a s' end) s) ->
  forall d n x s, I n x s ->
  wp (iterate d body x) (fun r s' => match r with
       | inl x' => exists n', n' + 2 ^ Z.of_nat d <= n /\ I n' x' s'
       | inr a => Q a s' end) s.
Proof.
  intros Hbody. induction d as [|d IH]; intros n x s HI; simpl iterate.
  - destruct (Hbody n x s HI) as [_ H]. eapply wp_mono; [exact H|].
    intros [x'|a] s'; [|done]. intros (n' & ? & ?). exists n'. split; [|done].
    simpl. lia.
  - apply wp_bind. eapply wp_mono; [apply (IH _ _ _ HI)|].
    intros [x'|a] s'; [|done]. intros (n' & Hn' & HI').
    eapply wp_mono; [apply (IH _ _ _ HI')|].
    intros [x''|a] s''; [|done]. intros (n'' & Hn'' & HI'').
    exists n''. split; [|done]. rewrite Nat2Z.inj_succ, Z.pow_succ_r by lia. lia.
Qed.

Lemma wp_loop {X A} (I : Z -> X -> state -> Prop) n (body : X -> M (X + A)) x
    (Q : A -> state -> Prop) s :
  I n x s -> n < 2 ^ 64 ->
  (forall n x s, I n x s -> 0 <= n /\
     wp (body x) (fun r s' => match r with
       | inl x' => exists n', n' < n /\ I n' x' s'
       | inr a => Q a s' end) s) ->
  wp (loop body x) Q s.
Proof.
  intros HI Hn Hbody. unfold loop. apply wp_bind.
  eapply wp_mono; [apply (wp_iterate body I Q Hbody 64 n x s HI)|].
  intros [x'|a] s'; [|done]. intros (n' & Hn' & HI').
  destruct (Hbody _ _ _ HI') as [? _]. change (Z.of_nat 64) with 64 in Hn'. lia.
Qed.

(** The rule for [for_range]: the invariant is indexed by the counter. *)
Lemma wp_for_range (I : Z -> state -> Prop) n step (body : Z -> M unit)
    (Q : unit -> state -> Prop) s :
  0 < step -> 0 <= n -> n + step < 2 ^ 64 -> I 0 s ->
  (forall i s, (step | i) -> 0 <= i < n -> I i s -> wp (body i) (fun _ s' => I (i + step) s') s) ->
  (forall i s, (step | i) -> n <= i < n + step -> I i s -> Q tt s) ->
  wp (for_range n step body) Q s.
Proof.
  intros Hstep Hn Hmax HI Hbody HQ. unfold for_range.
  apply (wp_loop (fun m i s => m = Z.max 0 (n - i) /\ 0 <= i < n + step /\ (step | i) /\ I i s)
    (Z.max 0 n)); [|lia|].
  { split_and!; [lia|lia|lia|apply Z.divide_0_r|done]. }
  intros m i s' (-> & Hi & Hdiv & HI'). split; [lia|].
  destruct (Z.ltb_spec i n).
  - apply wp_bind. eapply wp_mono; [apply Hbody; [done|lia|done]|].
    intros [] s'' HI''. apply wp_ret. rewrite w64_small by lia.
    exists (Z.max 0 (n - (i + step))). split; [lia|].
    split_and!; [done|lia|lia|by apply Z.divide_add_r|done].
  - apply wp_ret. apply (HQ i); [done|lia|done].
Qed.

Lemma wp_if {A} (b : bool) (m1 m2 : M A) Q s :
  (b = true -> wp m1 Q s) -> (b = false -> wp m2 Q s) -> wp (if b then m1 else m2) Q s.
Proof. destruct b; auto. Qed.

(** ** Interrupt enabling *)

Lemma wp_set_interrupt_status v (Q : Z -> state -> Prop) s :
  (forall x, Q (if truth (Z.land (csr_val s sstatus) SSTATUS_SIE) then 1 else 0)
               (set_csr sstatus x s)) ->
  wp (set_interrupt_status v) Q s.
Proof.
  intros H. unfold set_interrupt_status, interrupt_status, interrupt_on, interrupt_off,
    read_sstatus, write_sstatus.
  unfold wp, mbind, M_bind, read_csr, write_csr. simpl.
  destruct (truth v); simpl; apply H.
Qed.

Lemma csr_val_set_mem m s r : csr_val (set_mem m s) r = csr_val s r.
Proof. done. Qed.

Lemma csr_val_set_csr r v s r' :
  csr_val (set_csr r v s) r' = if decide (r = r') then v else csr_val s r'.
Proof.
  unfold csr_val. simpl. case_decide as H.
  - subst. by rewrite lookup_insert_eq.
  - by rewrite lookup_insert_ne.
Qed.

Lemma wp_interrupt_off (Q : unit -> state -> Prop) s :
  (forall x, sie_on (set_csr sstatus x s) = false -> Q tt (set_csr sstatus x s)) ->
  wp interrupt_off Q s.
Proof.
  intros HQ. unfold interrupt_off, read_sstatus, write_sstatus, wp, mbind, M_bind, read_csr, write_csr.
  simpl. apply HQ. unfold sie_on. rewrite csr_val_set_csr, decide_True by done.
  unfold SSTATUS_SIE. change (Z.shiftl 1 1) with (2 ^ 1). rewrite land_pow2 by lia.
  rewrite Z.land_spec. unfold not64. by rewrite andb_false_r.
Qed.

Lemma wp_interrupt_on (Q : unit -> state -> Prop) s :
  (forall x, sie_on (set_csr sstatus x s) = true -> Q tt (set_csr sstatus x s)) ->
  wp interrupt_on Q s.
Proof.
  intros HQ. unfold interrupt_on, read_sstatus, write_sstatus, wp, mbind, M_bind, read_csr, write_csr.
  simpl. apply HQ. unfold sie_on. rewrite csr_val_set_csr, decide_True by done.
  unfold SSTATUS_SIE. change (Z.shiftl 1 1) with (2 ^ 1). rewrite land_pow2 by lia.
  by rewrite Z.lor_spec, (Z.pow2_bits_true 1), orb_true_r.
Qed.

(** The exact effect of [set_interrupt_status]. *)
Lemma set_interrupt_status_run v s : exists x,
  set_interrupt_status v s = Ok (if sie_on s then 1 else 0) (set_csr sstatus x s) /\
  sie_on (set_csr sstatus x s) = truth v.
Proof.
  unfold set_interrupt_status, interrupt_status, interrupt_on, interrupt_off,
    read_sstatus, write_sstatus, sie_on, mbind, M_bind, read_csr, write_csr. simpl.
  destruct (truth v); simpl; (eexists; split; [reflexivity|]);
    rewrite csr_val_set_csr, decide_True by done; unfold SSTATUS_SIE;
    change (Z.shiftl 1 1) with (2 ^ 1); rewrite land_pow2 by lia.
  - by rewrite Z.lor_spec, (Z.pow2_bits_true 1), orb_true_r.
  - rewrite Z.land_spec. unfold not64. by rewrite andb_false_r.
Qed.

(** ** Rules for [wlp] *)

Lemma wlp_bind {A B} (m : M A) (f : A -> M B) Q s :
  wlp m (fun a s' => wlp (f a) Q s') s -> wlp (m ≫= f) Q s.
Proof.
  unfold wlp, mbind, M_bind. intros H b s' E. destruct (m s) eqn:Em; simpl in E; try done.
  by eapply H.
Qed.

Lemma wlp_ret {A} (a : A) (Q : A -> state -> Prop) s : Q a s -> wlp (mret a) Q s.
Proof. by intros H ? ? [= <- <-]. Qed.

Lemma wlp_any {A} (m : M A) (Q : A -> state -> Prop) s : (forall a s', Q a s') -> wlp m Q s.
Proof. intros H ? ? _. apply H. Qed.

Lemma wlp_load n a (Q : Z -> state -> Prop) s : Q (rd n (mem s) a) s -> wlp (load n a) Q s.
Proof. unfold wlp, load. intros H ? ?. destruct (in_ram _ _); [|done]. by intros [= <- <-]. Qed.

Lemma wlp_store n a v (Q : unit -> state -> Prop) s :
  Q tt (set_mem (wr n (mem s) a v) s) -> wlp (store n a v) Q s.
Proof. unfold wlp, store. intros H [] ?. destruct (in_ram _ _); [|done]. by intros [= <-]. Qed.

Lemma wlp_set_interrupt_status v (Q : Z -> state -> Prop) s :
  (forall x, sie_on (set_csr sstatus x s) = truth v ->
    Q (if sie_on s then 1 else 0) (set_csr sstatus x s)) ->
  wlp (set_interrupt_status v) Q s.
Proof.
  intros H a s' E. destruct (set_interrupt_status_run v s) as (x & E' & Hx).
  rewrite E' in E. injection E as <- <-. by apply H.
Qed.

(** ** Rules for [spins] *)

Lemma spins_bind {A B} (m : M A) (f : A -> M B) Q s :
  wp m (fun a s' => spins (f a) Q s') s -> spins (m ≫= f) Q s.
Proof. unfold spins, wp, mbind, M_bind. by destruct (m s). Qed.

Lemma spins_bind_l {A B} (m : M A) (f : A -> M B) Q s :
  spins m Q s -> spins (m ≫= f) Q s.
Proof. unfold spins, mbind, M_bind. by destruct (m s). Qed.

Lemma spins_mono {A} (m : M A) (P Q : state -> Prop) s :
  spins m P s -> (forall s', P s' -> Q s') -> spins m Q s.
Proof. unfold spins. destruct (m s); naive_solver. Qed.

(** ** Rules for [switches] and [leaves] *)

Lemma switches_bind {A B} (m : M A) (f : A -> M B) Q s :
  wp m (fun a s' => switches (f a) Q s') s -> switches (m ≫= f) Q s.
Proof. unfold switches, wp, mbind, M_bind. by destruct (m s). Qed.

Lemma switches_bind_l {A B} (m : M A) (f : A -> M B) Q s :
  switches m (fun old new s' k => Q old new s' (fun s => obind f (k s))) s ->
  switches (m ≫= f) Q s.
Proof. unfold switches, mbind, M_bind. by destruct (m s). Qed.

Lemma switches_mono {A} (m : M A) (P Q : Z -> Z -> state -> (state -> outcome A) -> Prop) s :
  switches m P s -> (forall old new s' k, P old new s' k -> Q old new s' k) -> switches m Q s.
Proof. unfold switches. destruct (m s); naive_solver. Qed.

Lemma switches_elim {A} (m : M A) Q s old new s' k :
  switches m Q s -> m s = Switch old new s' k -> Q old new s' k.
Proof. unfold switches. intros H E. by rewrite E in H. Qed.

Lemma switches_eq {A} (m m' : M A) Q s s1 :
  m s = m' s1 -> switches m' Q s1 -> switches m Q s.
Proof. unfold switches. by intros ->. Qed.

Lemma leaves_eq {A} (m m' : M A) Q s s1 : m s = m' s1 -> leaves m' Q s1 -> leaves m Q s.
Proof. unfold leaves. by intros ->. Qed.

Lemma leaves_mono {A} (m : M A) (P Q : Z -> Z -> state -> Prop) s :
  leaves m P s -> (forall entry v s', P entry v s' -> Q entry v s') -> leaves m Q s.
Proof. unfold leaves. destruct (m s); naive_solver. Qed.

Lemma leaves_bind {A B} (m : M A) (f : A -> M B) Q s :
  wp m (fun a s' => leaves (f a) Q s') s -> leaves (m ≫= f) Q s.
Proof. unfold leaves, wp, mbind, M_bind. by destruct (m s). Qed.

(** ** Loops that never end *)

(** A loop whose body changes nothing runs out of its 2^64 iterations. *)
Lemma loop_stuck {X A} (body : X -> M (X + A)) x s :
  body x s = Ok (inl x) s -> loop body x s = Timeout s.
Proof.
  intros H. assert (Hit : forall d, iterate d body x s = Ok (inl x) s).
  { induction d as [|d IH]; simpl; [done|]. unfold mbind, M_bind. by rewrite IH. }
  unfold loop, mbind, M_bind. by rewrite Hit.
Qed.

(** A bound on the result of a computation that returns. *)
Lemma wp_wlp {A} (m : M A) (P Q : A -> state -> Prop) s :
  wp m P s -> wlp m Q s -> wp m (fun a s' => P a s' /\ Q a s') s.
Proof. unfold wp, wlp. intros HP HQ. destruct (m s) eqn:E; try done. split; auto. Qed.

#[export] Hint Resolve modifies_refl same_regs_set_mem same_regs_sstatus : kernel.

(** [wp_step] performs the next primitive step of a computation. *)
Ltac wp_step :=
  lazymatch goal with
  | |- wp (mret _) _ _ => apply wp_ret
  | |- wp (if true then ?m else _) ?Q ?s => change (wp m Q s)
  | |- wp (if false then _ else ?m) ?Q ?s => change (wp m Q s)
  | |- wp (_ ≫= _) _ _ => apply wp_bind
  | |- wp (load _ _) _ _ => apply wp_load; [try done|]
  | |- wp (store _ _ _) _ _ => apply wp_store; [try done|]
  | |- wp (get _) _ _ => apply wp_get
  | |- wp (put _ _) _ _ => apply wp_put
  | |- wp (read_csr _) _ _ => apply wp_read_csr
  | |- wp (write_csr _ _) _ _ => apply wp_write_csr
  | |- wp (set_interrupt_status _) _ _ => apply wp_set_interrupt_status; intros ?
  end.
Ltac wp_steps := repeat wp_step.

Ltac wlp_step :=
  lazymatch goal with
  | |- wlp (mret _) _ _ => apply wlp_ret
  | |- wlp (_ ≫= _) _ _ => apply wlp_bind
  | |- wlp (load _ _) _ _ => apply wlp_load
  | |- wlp (store _ _ _) _ _ => apply wlp_store
  | |- wlp (set_interrupt_status _) _ _ => apply wlp_set_interrupt_status; intros ? ?
  end.
Ltac wlp_steps := repeat wlp_step.

(** Reading back words written at addresses that [lia] separates. *)
Ltac mem_simp :=
  repeat first [rewrite rd64_wr64_same by lia | rewrite rd64_wr64_out by lia].

Lemma in_ram_true a n : KERNBASE <= a -> a + n <= PHYSTOP -> in_ram a n = true.
Proof. intros. unfold in_ram. by rewrite !(proj2 (Z.leb_le _ _)). Qed.

Lemma in_ram_8 a : KERNBASE <= a -> a + 8 <= PHYSTOP -> in_ram a (Z.of_nat 8) = true.
Proof. apply in_ram_true. Qed.

(** [wp_ram] is [wp_step] with the bounds of a memory access left to [lia]. *)
Ltac ram := simpl; apply in_ram_true; unfold PHYSTOP, KERNBASE in *; lia.
Ltac wp_ram :=
  lazymatch goal with
  | |- wp (load _ _) _ _ => apply wp_load; [ram|]
  | |- wp (store _ _ _) _ _ => apply wp_store; [ram|]; simpl mem;
      lazymatch goal with
      | |- context [set_mem ?a (set_mem ?b ?s)] =>
          change (set_mem a (set_mem b s)) with (set_mem a s)
      | _ => idtac
      end
  | _ => wp_step
  end.

(** The footprint of a sequence of writes, one goal per write, first to last. *)
Ltac modifies_steps :=
  lazymatch goal with
  | |- modifies ?F ?m (wr ?n ?m' ?a ?v) =>
      apply (modifies_trans F m m' (wr n m' a v));
      [modifies_steps | apply modifies_wr; simpl; intros ? ?]
  | |- modifies _ ?m ?m => apply modifies_refl
  | _ => idtac
  end.
