(* ===== verification/Board.v ===== *)
(** * A concrete placement

    One placement of the kernel image on the qemu [virt] board, with a device
    model: the UART is always ready to send and every other device register
    reads as 0.  The theorems hold for every platform; they are instantiated
    here on this one. *)

From S2P Require Import Prelude Machine.

Definition board_mmio (a : Z) (t : nat) : Z := if a =? UART0 + 5 then 0x20 else 0.

Definition board : Platform := {|
  kernel_end := 0x80020000;
  etext := 0x80008000;
  trampoline := 0x80007000;
  user_vector := 0x80007000;
  user_return := 0x80007100;
  kernel_vector := 0x80001000;
  timer_vector := 0x80001100;
  user_trap_addr := 0x80002000;
  user_trap_return_addr := 0x80002100;
  main_addr := 0x80002200;
  buddy_pool := 0x80010000;
  now_context := 0x80010100;
  uart_tx_buf := 0x80010200;
  boot_pagetable := 0x80011000;
  timer_scratch := 0x80012000;
  init_program := 0x80013000;
  sh_program := 0x80014000;
  echo_program := 0x80015000;
  mmio := board_mmio
|}.

Lemma board_ok : PlatformOk board.
Proof.
  split; [by exists 0x80020|done|by exists 0x10002000|done].
Qed.

(** Power-on: cleared memory, registers and globals. *)
Definition power_on : state := mkState ∅ ∅ (fun _ => 0) 0 [].

(** Concrete runs.  [after m s] is the state in which [m] returns; the lemmas
    below need only the value, which is cheap to compute. *)
Definition after {A} (m : M A) (s : state) : state :=
  match m s with Ok _ s' => s' | _ => s end.
Definition returns (m : M Z) (v : Z) (s : state) : bool :=
  match m s with Ok r _ => r =? v | _ => false end.
Definition finishes (m : M unit) (s : state) : bool :=
  match m s with Ok _ _ => true | _ => false end.

Lemma returns_ok m v s : returns m v s = true -> m s = Ok v (after m s).
Proof. unfold returns, after. destruct (m s); try done. by intros ->%Z.eqb_eq. Qed.

Lemma finishes_ok m s : finishes m s = true -> m s = Ok tt (after m s).
Proof. unfold finishes, after. by destruct (m s) as [[] s'| | | | |]. Qed.
