(* ===== verification/Utility.v ===== *)
(** * Strings and bytes: utility.h

    The inline functions of utility.h on the byte memory, and what each of them
    computes.  A [const char *] of the kernel is a string literal of the image
    or a pointer into the RAM ([cstr]). *)

From S2P Require Import Prelude Machine.

Inductive cstr :=
  | Lit (s : string)
  | Ptr (a : Z).

Definition code (c : Ascii.ascii) : Z := Z.of_N (Ascii.N_of_ascii c).

#[global] Arguments code _%_char_scope.

(** [str[i]]: a literal ends with a NUL, and reading past it is a fault. *)
Definition char_at (str : cstr) (i : Z) : M Z :=
  match str with
  | Ptr a => load8 (a +w i)
  | Lit l =>
      match String.get (Z.to_nat i) l with
      | Some c => mret (code c)
      | None => if i =? Z.of_nat (String.length l) then mret 0 else fault i
      end
  end.

Definition strlen (str : cstr) : M Z :=
  loop (fun len =>
    c ← char_at str len;
    if truth c then mret (inl (len +w 1)) else mret (inr len)) 0.

Definition strcpy (dest : Z) (src : cstr) (size : Z) : M unit :=
  for_range size 1 (fun i => c ← char_at src i; store8 (dest +w i) c);;
  store8 (dest +w size) 0.

(** The two pointers advance together: [i] is their common offset. *)
Definition strcmp (s1 s2 : cstr) : M Z :=
  i ← loop (fun i =>
        c1 ← char_at s1 i;
        if truth c1 then
          c2 ← char_at s2 i;
          if c1 =? c2 then mret (inl (i +w 1)) else mret (inr i)
        else mret (inr i)) 0;
  c1 ← char_at s1 i;
  c2 ← char_at s2 i;
  mret (c1 - c2).

Definition memcpy (dest src size : Z) : M unit :=
  for_range size 1 (fun i => c ← load8 (src +w i); store8 (dest +w i) c).

Definition memset (dest c size : Z) : M unit :=
  for_range size 1 (fun i => store8 (dest +w i) c).

(** The inner loop of [strtok]: is [c] a delimiter? *)
Definition is_delim (delim : cstr) (c : Z) : M bool :=
  loop (fun i =>
    d ← char_at delim i;
    if truth d then
      if c =? d then mret (inr true) else mret (inl (i +w 1))
    else mret (inr false)) 0.

Definition strtok (str : Z) (delim : cstr) : M Z :=
  (if truth str then put strtok_last str else mret tt);;
  last ← get strtok_last;
  if last =? NULL then mret NULL else
  let ret := last in
  found ← loop (fun _ : unit =>
    last ← get strtok_last;
    c ← load8 last;
    if truth c then
      hit ← is_delim delim c;
      if (hit : bool) then
        store8 last 0;;
        put strtok_last (last +w 1);;
        mret (inr true)
      else
        put strtok_last (last +w 1);;
        mret (inl tt)
    else mret (inr false)) tt;
  (if (found : bool) then mret tt else put strtok_last NULL);;
  mret ret.

(** ** Specifications *)

(** The bytes of [[a, a + n)] are RAM. *)
Definition ram_range (a n : Z) : Prop := KERNBASE <= a /\ a + n <= PHYSTOP /\ 0 <= n.

(** [str_at m str l]: at [str] is the NUL-terminated string [l]. *)
Fixpoint bytes_at (m : gmap Z Z) (a : Z) (l : list Z) : Prop :=
  match l with
  | [] => True
  | c :: r => rd8 m a = c /\ bytes_at m (a + 1) r
  end.

Definition codes (s : string) : list Z := code <$> String.list_ascii_of_string s.

Definition str_at (m : gmap Z Z) (str : cstr) (l : list Z) : Prop :=
  Forall (fun c => 0 < c < 256) l /\
  match str with
  | Lit s => codes s = l
  | Ptr a => ram_range a (Z.of_nat (length l) + 1) /\ bytes_at m a (l ++ [0])
  end.

(** Lexicographic comparison of the terminated strings: the difference of the
    first differing characters. *)
Fixpoint compare_bytes (l1 l2 : list Z) : Z :=
  match l1, l2 with
  | [], [] => 0
  | [], d :: _ => 0 - d
  | c :: _, [] => c - 0
  | c :: r1, d :: r2 => if c =? d then compare_bytes r1 r2 else c - d
  end.

Lemma ram_byte a n i : ram_range a n -> 0 <= i < n ->
  w64 (a + i) = a + i /\ in_ram (a + i) 1 = true.
Proof.
  unfold ram_range, KERNBASE, PHYSTOP. intros. split.
  - apply w64_small. unfold KERNBASE in *. lia.
  - unfold in_ram. apply andb_true_iff. rewrite !Z.leb_le.
    unfold PHYSTOP, KERNBASE in *. lia.
Qed.

Lemma rd_1 m a : rd 1 m a = rd8 m a.
Proof. unfold rd. lia. Qed.

Lemma rd8_wr1 m a v b : rd8 (wr 1 m a v) b = if decide (a = b) then w8 v else rd8 m b.
Proof. unfold wr. apply rd8_wr8. Qed.

Lemma bytes_at_lookup m a l i c :
  bytes_at m a l -> l !! i = Some c -> rd8 m (a + Z.of_nat i) = c.
Proof.
  revert a i. induction l as [|d l IH]; intros a i Hb Hi; [done|]. destruct Hb as [Hd Hb].
  destruct i as [|i]; simpl in Hi.
  - injection Hi as <-. by rewrite Z.add_0_r.
  - rewrite <-(IH (a + 1) i Hb Hi). f_equal. lia.
Qed.

Lemma bytes_at_app m a l1 l2 :
  bytes_at m a (l1 ++ l2) <-> bytes_at m a l1 /\ bytes_at m (a + Z.of_nat (length l1)) l2.
Proof.
  revert a. induction l1 as [|c l1 IH]; intros a; simpl.
  - rewrite Z.add_0_r. tauto.
  - rewrite IH. replace (a + 1 + Z.of_nat (length l1)) with (a + Z.pos (Pos.of_succ_nat (length l1))) by lia. tauto.
Qed.

Lemma bytes_at_ext m m' a l :
  (forall b, a <= b < a + Z.of_nat (length l) -> rd8 m' b = rd8 m b) -> bytes_at m a l -> bytes_at m' a l.
Proof.
  revert a. induction l as [|c l IH]; intros a H; simpl in *; [done|]. intros [Hc Hl]. split.
  - rewrite H by lia. done.
  - apply IH; [|done]. intros b Hb. apply H. lia.
Qed.

(** A run of bytes given by its elements. *)
Lemma bytes_at_intro m a l :
  (forall i c, l !! i = Some c -> rd8 m (a + Z.of_nat i) = c) -> bytes_at m a l.
Proof.
  revert a. induction l as [|c l IH]; intros a H; [done|]. split.
  - rewrite <-(Z.add_0_r a). by apply (H O).
  - apply IH. intros i d Hd. rewrite <-(H (S i) d Hd). f_equal. lia.
Qed.

Lemma bytes_at_take m a l n : bytes_at m a l -> bytes_at m a (take n l).
Proof. intros H. rewrite <-(take_drop n l) in H. by apply bytes_at_app in H as [? _]. Qed.

Lemma code_get s i : code <$> String.get i s = codes s !! i.
Proof.
  revert i. induction s as [|c s IH]; intros i; [by destruct i|].
  destruct i as [|i]; [done|]. simpl. apply IH.
Qed.

Lemma codes_length s : length (codes s) = String.length s.
Proof. induction s as [|c s IH]; [done|]. simpl. by f_equal. Qed.

(** Reading the characters of a string, the NUL included. *)
Lemma wp_char_at str l i (Q : Z -> state -> Prop) s :
  str_at (mem s) str l -> 0 <= i <= Z.of_nat (length l) ->
  Q (default 0 (l !! Z.to_nat i)) s -> wp (char_at str i) Q s.
Proof.
  intros [Hl Hs] Hi HQ. destruct str as [t|a]; simpl.
  - subst l. pose proof (code_get t (Z.to_nat i)) as Hg. rewrite <-Hg in HQ.
    rewrite codes_length in Hi.
    destruct (String.get (Z.to_nat i) t) eqn:E; simpl in *; [by apply wp_ret|].
    symmetry in Hg. apply lookup_ge_None in Hg. rewrite codes_length in Hg.
    rewrite (proj2 (Z.eqb_eq _ _)) by lia. by apply wp_ret.
  - destruct Hs as [Hr Hb]. destruct (ram_byte a _ i Hr) as [-> Hram]; [lia|].
    apply wp_load; [done|]. rewrite rd_1.
    destruct (l !! Z.to_nat i) as [c|] eqn:E.
    + rewrite <-(Z2Nat.id i) at 1 by lia.
      by rewrite (bytes_at_lookup _ _ _ _ c Hb) by (by apply lookup_app_l_Some).
    + apply lookup_ge_None in E. assert (i = Z.of_nat (length l)) as -> by lia.
      by rewrite (bytes_at_lookup _ _ _ _ 0 Hb) by (by rewrite list_lookup_middle).
Qed.

Lemma str_at_bound m str l : str_at m str l -> Z.of_nat (length l) < 2 ^ 63 ->
  Forall (fun c => 0 < c < 256) l.
Proof. by intros [? _]. Qed.

Lemma str_at_char m str l i : str_at m str l -> 0 <= i < Z.of_nat (length l) ->
  exists c, l !! Z.to_nat i = Some c /\ truth c = true.
Proof.
  intros [Hl _] Hi. destruct (lookup_lt_is_Some_2 l (Z.to_nat i)) as [c Hc]; [lia|].
  exists c. split; [done|]. rewrite Forall_lookup in Hl. specialize (Hl _ _ Hc).
  unfold truth. by rewrite (proj2 (Z.eqb_neq c 0)) by lia.
Qed.

Lemma strlen_ok str l s (Q : Z -> state -> Prop) :
  str_at (mem s) str l -> Z.of_nat (length l) < 2 ^ 63 ->
  Q (Z.of_nat (length l)) s -> wp (strlen str) Q s.
Proof.
  intros Hs Hlen HQ. unfold strlen.
  apply (wp_loop (fun n i s' => s' = s /\ 0 <= i <= Z.of_nat (length l) /\
    n = Z.of_nat (length l) - i) (Z.of_nat (length l))); [|lia|].
  { repeat split; lia. }
  intros n i s' (-> & Hi & ->). split; [lia|]. apply wp_bind.
  apply (wp_char_at str l); [done..|].
  destruct (decide (i = Z.of_nat (length l))) as [->|Hne].
  - rewrite lookup_ge_None_2 by lia. simpl. by apply wp_ret.
  - destruct (str_at_char _ _ _ i Hs) as (c & -> & Hc); [lia|]. simpl. rewrite Hc.
    apply wp_ret. rewrite w64_small by lia. exists (Z.of_nat (length l) - (i + 1)).
    repeat split; lia.
Qed.

Lemma compare_bytes_take l1 l2 i :
  take i l1 = take i l2 -> (i <= length l1)%nat -> (i <= length l2)%nat ->
  compare_bytes l1 l2 = compare_bytes (drop i l1) (drop i l2).
Proof.
  revert l1 l2. induction i as [|i IH]; intros l1 l2 Ht H1 H2; [done|].
  destruct l1 as [|c l1], l2 as [|d l2]; simpl in *; try lia.
  injection Ht as -> Ht. rewrite Z.eqb_refl. apply IH; [done|lia..].
Qed.

Lemma strcmp_ok s1 s2 l1 l2 s (Q : Z -> state -> Prop) :
  str_at (mem s) s1 l1 -> str_at (mem s) s2 l2 ->
  Z.of_nat (length l1) < 2 ^ 63 ->
  Q (compare_bytes l1 l2) s -> wp (strcmp s1 s2) Q s.
Proof.
  intros Hs1 Hs2 Hlen HQ. unfold strcmp. apply wp_bind.
  apply (wp_loop (fun n i s' => s' = s /\ 0 <= i /\
    (Z.to_nat i <= length l1)%nat /\ (Z.to_nat i <= length l2)%nat /\
    take (Z.to_nat i) l1 = take (Z.to_nat i) l2 /\
    n = Z.of_nat (length l1) - i) (Z.of_nat (length l1))); [|lia|].
  { repeat split; lia. }
  intros n i s' (-> & Hi0 & Hi1 & Hi2 & Ht & ->). split; [lia|].
  pose proof (compare_bytes_take l1 l2 _ Ht Hi1 Hi2) as Hcmp.
  assert (Hexit : forall c1 c2, default 0 (l1 !! Z.to_nat i) = c1 ->
    default 0 (l2 !! Z.to_nat i) = c2 -> compare_bytes l1 l2 = c1 - c2 ->
    wp (c1 ← char_at s1 i; c2 ← char_at s2 i; mret (c1 - c2)) Q s).
  { intros c1 c2 <- <- Hc. apply wp_bind, (wp_char_at s1 l1); [done|lia|].
    apply wp_bind, (wp_char_at s2 l2); [done|lia|]. apply wp_ret. by rewrite <-Hc. }
  apply wp_bind, (wp_char_at s1 l1); [done|lia|].
  destruct (l1 !! Z.to_nat i) as [c|] eqn:E1.
  - destruct (str_at_char _ _ _ i Hs1) as (c' & Hc' & Hct); [apply lookup_lt_Some in E1; lia|].
    rewrite E1 in Hc'. injection Hc' as <-. simpl. rewrite Hct.
    apply wp_bind, (wp_char_at s2 l2); [done|lia|].
    rewrite (drop_S _ _ _ E1) in Hcmp.
    destruct (l2 !! Z.to_nat i) as [d|] eqn:E2; simpl.
    + rewrite (drop_S _ _ _ E2) in Hcmp. simpl in Hcmp.
      destruct (Z.eqb_spec c d) as [->|Hne]; apply wp_ret.
      * exists (Z.of_nat (length l1) - (i + 1)). apply lookup_lt_Some in E1 as L1.
        apply lookup_lt_Some in E2 as L2. rewrite w64_small by lia. split; [lia|].
        replace (Z.to_nat (i + 1)) with (S (Z.to_nat i)) by lia.
        repeat split; [lia..| ]. by rewrite (take_S_r _ _ _ E1), (take_S_r _ _ _ E2), Ht.
      * by apply (Hexit c d).
    + apply lookup_ge_None in E2. rewrite (drop_ge l2) in Hcmp by lia. simpl in Hcmp.
      assert (c <> 0) by (intros ->; done).
      rewrite (proj2 (Z.eqb_neq c 0)) by done. apply wp_ret. by apply (Hexit c 0).
  - simpl. apply wp_ret. apply lookup_ge_None in E1. rewrite (drop_ge l1) in Hcmp by lia.
    destruct (l2 !! Z.to_nat i) as [d|] eqn:E2.
    + rewrite (drop_S _ _ _ E2) in Hcmp. by apply (Hexit 0 d).
    + apply lookup_ge_None in E2. rewrite (drop_ge l2) in Hcmp by lia. by apply (Hexit 0 0).
Qed.

(** ** Block operations *)

Definition range (a n b : Z) : Prop := a <= b < a + n.

Lemma set_mem_id s : set_mem (mem s) s = s.
Proof. by destruct s. Qed.

Lemma set_mem_set_mem m m' s : set_mem m (set_mem m' s) = set_mem m s.
Proof. done. Qed.

Lemma wr1_modifies a n i m v : range a n (a + i) -> modifies (range a n) m (wr 1 m (a + i) v).
Proof. intros H. apply modifies_wr. unfold range in *. lia. Qed.

(** A byte-filling loop whose [i]-th iteration stores [f i]. *)
Lemma fill_loop_ok dest n (f : Z -> Z) (body : Z -> M unit) s (Q : unit -> state -> Prop) :
  ram_range dest n ->
  (forall i s', 0 <= i < n -> modifies (range dest i) (mem s) (mem s') ->
     s' = set_mem (mem s') s ->
     wp (body i) (fun _ s'' => s'' = set_mem (wr 1 (mem s') (dest + i) (f i)) s') s') ->
  (forall m', (forall i, 0 <= i < n -> rd8 m' (dest + i) = w8 (f i)) ->
     modifies (range dest n) (mem s) m' -> Q tt (set_mem m' s)) ->
  wp (for_range n 1 body) Q s.
Proof.
  intros (Hlo & Hhi & Hn) Hbody HQ. unfold KERNBASE, PHYSTOP, KERNBASE in *.
  apply (wp_for_range (fun i s' => s' = set_mem (mem s') s /\
    modifies (range dest i) (mem s) (mem s') /\
    forall j, 0 <= j < i -> rd8 (mem s') (dest + j) = w8 (f j))); [lia..| | |].
  - split_and!; [by rewrite set_mem_id|done|]. unfold range. lia.
  - intros i s' _ Hi (Heq & Hmod & Hrd). eapply wp_mono; [apply Hbody; done|].
    intros [] s'' ->. simpl. split_and!.
    + transitivity (set_mem (wr 1 (mem s') (dest + i) (f i)) (set_mem (mem s') s)); [|done].
      by rewrite <-Heq.
    + intros b Hb. rewrite rd8_wr1, decide_False by (unfold range in *; lia).
      apply Hmod. unfold range in *. lia.
    + intros j Hj. rewrite rd8_wr1. case_decide as E.
      * by replace j with i by lia.
      * apply Hrd. unfold range in *. lia.
  - intros i s' _ Hi (Heq & Hmod & Hrd). assert (i = n) as -> by lia. rewrite Heq.
    by apply HQ.
Qed.

Lemma memset_ok dest c n s (Q : unit -> state -> Prop) :
  ram_range dest n ->
  (forall m', (forall i, 0 <= i < n -> rd8 m' (dest + i) = w8 c) ->
     modifies (range dest n) (mem s) m' -> Q tt (set_mem m' s)) ->
  wp (memset dest c n) Q s.
Proof.
  intros Hr HQ. apply (fill_loop_ok dest n (fun _ => c)); [done| |done].
  intros i s' Hi _ _. destruct (ram_byte dest n i Hr Hi) as [-> Hram]. by apply wp_store.
Qed.

(** The copy goes upwards, so the source may overlap the destination from above. *)
Lemma memcpy_ok dest src n s (Q : unit -> state -> Prop) :
  ram_range dest n -> ram_range src n -> dest <= src \/ src + n <= dest ->
  (forall m', (forall i, 0 <= i < n -> rd8 m' (dest + i) = rd8 (mem s) (src + i)) ->
     modifies (range dest n) (mem s) m' -> Q tt (set_mem m' s)) ->
  wp (memcpy dest src n) Q s.
Proof.
  intros Hd Hs Hdis HQ. apply (fill_loop_ok dest n (fun i => rd8 (mem s) (src + i))); [done| |].
  - intros i s' Hi Hmod _. destruct (ram_byte dest n i Hd Hi) as [-> Hram].
    destruct (ram_byte src n i Hs Hi) as [-> Hram'].
    apply wp_bind, wp_load; [done|]. rewrite rd_1, Hmod by (unfold range in *; lia).
    by apply wp_store.
  - intros m' Hm' Hmod. apply HQ; [|done]. intros i Hi. rewrite Hm' by done.
    apply w8_small, w8_range.
Qed.

Lemma strcpy_ok dest src l n s (Q : unit -> state -> Prop) :
  ram_range dest (n + 1) -> str_at (mem s) src l -> 0 <= n <= Z.of_nat (length l) + 1 ->
  (match src with Ptr a => a + Z.of_nat (length l) + 1 <= dest \/ dest + n + 1 <= a
                | Lit _ => True end) ->
  (forall m', (forall i, 0 <= i < n -> rd8 m' (dest + i) = default 0 (l !! Z.to_nat i)) ->
     rd8 m' (dest + n) = 0 ->
     modifies (range dest (n + 1)) (mem s) m' -> Q tt (set_mem m' s)) ->
  wp (strcpy dest src n) Q s.
Proof.
  intros Hd Hsrc Hn Hdis HQ. unfold strcpy. apply wp_bind.
  assert (Hd' : ram_range dest n) by (unfold ram_range in *; lia).
  apply (fill_loop_ok dest n (fun i => default 0 (l !! Z.to_nat i))); [done| |].
  - intros i s' Hi Hmod Heq. destruct (ram_byte dest n i Hd' Hi) as [-> Hram].
    apply wp_bind, (wp_char_at src l); [|unfold range in Hi; lia|by apply wp_store].
    destruct Hsrc as [Hl Hs]. split; [done|]. destruct src as [t|a]; [done|].
    destruct Hs as [Hr Hb]. split; [done|]. clear -Hb Hmod Hdis Hi.
    assert (forall b, a <= b < a + Z.of_nat (length (l ++ [0])) -> rd8 (mem s') b = rd8 (mem s) b)
      as Hsame.
    { intros b Hbr. apply Hmod. rewrite length_app in Hbr. simpl in Hbr.
      unfold range in *. lia. }
    clear Hmod Hdis Hi. revert a Hb Hsame. induction (l ++ [0]) as [|c r IH]; [done|].
    intros a [Hc Hb] Hsame. simpl in Hsame. split; [rewrite Hsame; [done|lia]|].
    apply IH; [done|]. intros b Hbr. apply Hsame. lia.
  - intros m' Hm' Hmod. destruct (ram_byte dest (n + 1) n Hd) as [-> Hram]; [lia|].
    apply wp_store; [done|]. simpl mem. rewrite set_mem_set_mem. apply HQ.
    + intros i Hi. rewrite rd8_wr1, decide_False by (unfold range in *; lia).
      rewrite Hm' by done. apply w8_small. destruct Hsrc as [Hl _].
      destruct (l !! Z.to_nat i) as [c|] eqn:E; simpl; [|done].
      rewrite Forall_lookup in Hl. specialize (Hl _ _ E). lia.
    + by rewrite rd8_wr1, decide_True.
    + intros b Hb. rewrite rd8_wr1, decide_False by (unfold range in *; lia).
      apply Hmod. unfold range in *. lia.
Qed.

(** The copy of the first [n] characters is a terminated string. *)
Lemma strcpy_str dest src l n s (Q : unit -> state -> Prop) :
  ram_range dest (n + 1) -> str_at (mem s) src l -> 0 <= n <= Z.of_nat (length l) ->
  (match src with Ptr a => a + Z.of_nat (length l) + 1 <= dest \/ dest + n + 1 <= a
                | Lit _ => True end) ->
  (forall m', str_at m' (Ptr dest) (take (Z.to_nat n) l) ->
     modifies (range dest (n + 1)) (mem s) m' -> Q tt (set_mem m' s)) ->
  wp (strcpy dest src n) Q s.
Proof.
  intros Hd Hsrc Hn Hdis HQ. pose proof Hsrc as [Hl _]. apply (strcpy_ok dest src l); [done|done|lia|done|]. intros m' Hm' Hend Hmod.
  assert (Hlen : length (take (Z.to_nat n) l) = Z.to_nat n) by (rewrite length_take; lia).
  apply HQ; [|done]. split; [by apply Forall_take|]. rewrite Hlen, Z2Nat.id by lia. split; [done|].
  apply bytes_at_intro. intros i c Hi. pose proof (lookup_lt_Some _ _ _ Hi) as Hlt. rewrite length_app, Hlen in Hlt. simpl in Hlt.
  destruct (decide (i = Z.to_nat n)) as [->|Hne].
  - rewrite list_lookup_middle in Hi by done. injection Hi as <-. by rewrite Z2Nat.id by lia.
  - rewrite lookup_app_l, lookup_take_lt in Hi by lia. rewrite Hm', Nat2Z.id by lia. by rewrite Hi.
Qed.

(** ** Tokens *)

(** The length of the first token: up to the first delimiter. *)
Fixpoint token_length (ds l : list Z) : nat :=
  match l with
  | [] => O
  | c :: r => if decide (c ∈ ds) then O else S (token_length ds r)
  end.

Lemma token_length_le ds l : (token_length ds l <= length l)%nat.
Proof. induction l; simpl; [lia|]. case_decide; lia. Qed.

(** The [i]-th character is a delimiter just when the token ends there. *)
Lemma token_length_lookup ds l i c :
  (i <= token_length ds l)%nat -> l !! i = Some c ->
  (c ∈ ds -> token_length ds l = i) /\ (c ∉ ds -> (i < token_length ds l)%nat).
Proof.
  revert i. induction l as [|d l IH]; intros i Hi Hc; [done|].
  simpl in *. destruct i as [|i]; simpl in Hc.
  - injection Hc as ->. case_decide; split; done || lia.
  - case_decide; [lia|]. destruct (IH i ltac:(lia) Hc) as [H1 H2].
    split; intros H'; [by rewrite H1|]. specialize (H2 H'). lia.
Qed.

Lemma is_delim_ok delim ds c s :
  str_at (mem s) delim ds -> Z.of_nat (length ds) < 2 ^ 63 ->
  wp (is_delim delim c) (fun b s' => b = bool_decide (c ∈ ds) /\ s' = s) s.
Proof.
  intros Hs Hlen. unfold is_delim.
  apply (wp_loop (fun n i s' => s' = s /\ 0 <= i <= Z.of_nat (length ds) /\
    n = Z.of_nat (length ds) - i /\ c ∉ take (Z.to_nat i) ds) (Z.of_nat (length ds))); [|lia|].
  { split_and!; [done|lia..|]. apply not_elem_of_nil. }
  intros n i s' (-> & Hi & -> & Hc). split; [lia|]. apply wp_bind, (wp_char_at delim ds); [done..|].
  destruct (decide (i = Z.of_nat (length ds))) as [->|Hne].
  - rewrite lookup_ge_None_2 by lia. simpl. apply wp_ret. split; [|done].
    rewrite Nat2Z.id, firstn_all in Hc. by rewrite bool_decide_false.
  - destruct (str_at_char _ _ _ i Hs) as (d & Hd & Ht); [lia|]. rewrite Hd. simpl. rewrite Ht.
    destruct (Z.eqb_spec c d) as [->|Hcd]; apply wp_ret.
    + split; [|done]. rewrite bool_decide_true; [done|]. by eapply list_elem_of_lookup_2.
    + exists (Z.of_nat (length ds) - (i + 1)). rewrite w64_small by lia.
      split_and!; [lia|done|lia..|].
      replace (Z.to_nat (i + 1)) with (S (Z.to_nat i)) by lia.
      rewrite (take_S_r _ _ _ Hd). set_solver.
Qed.

(** The state after [strtok] found the first token of [l] at [a]: the token is
    NUL-terminated in place and the rest is remembered, or nothing is left. *)
Definition token_split (a : Z) (ds l : list Z) (s s' : state) : Prop :=
  let n := Z.of_nat (token_length ds l) in
  csr s' = csr s /\ clock s' = clock s /\ log s' = log s /\
  (forall g, g <> strtok_last -> glob s' g = glob s g) /\
  if decide (n < Z.of_nat (length l))
  then mem s' = wr 1 (mem s) (a + n) 0 /\ glob s' strtok_last = a + n + 1
  else mem s' = mem s /\ glob s' strtok_last = NULL.

Lemma strtok_ok str a l delim ds s :
  a <> NULL -> str = a \/ (str = NULL /\ glob s strtok_last = a) ->
  str_at (mem s) (Ptr a) l -> str_at (mem s) delim ds -> Z.of_nat (length ds) < 2 ^ 63 ->
  wp (strtok str delim) (fun r s' => r = a /\ token_split a ds l s s') s.
Proof.
  intros Ha Hstr Hl Hds Hlen. pose proof Hl as [Hchars [Hram Hbytes]].
  pose proof (token_length_le ds l) as Hle. unfold strtok, token_split. wp_step.
  set (same := fun s' => csr s' = csr s /\ clock s' = clock s /\ log s' = log s /\
    (forall g, g <> strtok_last -> glob s' g = glob s g)).
  assert (Hput : forall v s', same s' -> same (set_glob strtok_last v s')).
  { intros v s' (?&?&?&Hg). split; [done|]. split; [done|]. split; [done|].
    intros g Hne. simpl. rewrite fn_lookup_insert_ne by done. by apply Hg. }
  assert (Hid : same s) by (by repeat split).
  assert (Hstart : wp (if truth str then put strtok_last str else mret tt)
    (fun _ s1 => same s1 /\ mem s1 = mem s /\ glob s1 strtok_last = a) s).
  { destruct Hstr as [->|[-> Hg]]; [|by apply wp_ret].
    unfold truth. rewrite (proj2 (Z.eqb_neq a 0) Ha). apply wp_put.
    split; [by apply Hput|]. split; [done|apply fn_lookup_insert]. }
  eapply wp_mono; [exact Hstart|]. intros [] s1 (Hs1 & Hm1 & Hg1). clear Hstart Hstr.
  wp_step. wp_step. rewrite Hg1, (proj2 (Z.eqb_neq a NULL) Ha). apply wp_bind.
  apply (wp_loop (fun m _ s' => exists i, 0 <= i <= Z.of_nat (token_length ds l) /\
    m = Z.of_nat (length l) - i /\ same s' /\ mem s' = mem s /\ glob s' strtok_last = a + i)
    (Z.of_nat (length l))).
  { exists 0. rewrite Z.add_0_r. split_and!; [lia..|done|done|done]. }
  { unfold ram_range, PHYSTOP, KERNBASE in Hram. lia. }
  intros m [] s' (i & Hi & -> & Hs' & Hm' & Hg'). split; [lia|].
  destruct (ram_byte a _ i Hram) as [Haddr Hin]; [lia|].
  assert (Hnext : a + i +w 1 = a + i + 1).
  { apply w64_small. unfold ram_range, PHYSTOP, KERNBASE in Hram. lia. }
  assert (Hchar : forall Q, Q (default 0 (l !! Z.to_nat i)) s' -> wp (load8 (a + i)) Q s').
  { intros Q HQ. rewrite <-Haddr. apply (wp_char_at (Ptr a) l); [by rewrite Hm'|lia|done]. }
  wp_step. wp_step. rewrite Hg'. apply wp_bind, Hchar.
  destruct (decide (i = Z.of_nat (length l))) as [->|Hne].
  - rewrite lookup_ge_None_2 by lia. simpl. change (truth 0) with false. wp_step. simpl. wp_steps.
    split; [done|]. destruct (Hput NULL s' Hs') as (?&?&?&?).
    split; [done|]. split; [done|]. split; [done|]. split; [done|].
    rewrite decide_False by lia. split; [done|apply fn_lookup_insert].
  - destruct (str_at_char _ _ _ i Hl) as (c & Hc & Ht); [lia|]. rewrite Hc. simpl. rewrite Ht.
    destruct (token_length_lookup ds l (Z.to_nat i) c) as [Hhit Hmiss]; [lia|done|].
    apply wp_bind. eapply wp_mono; [apply (is_delim_ok delim ds); [by rewrite Hm'|done]|].
    intros b s2 (-> & ->). destruct (decide (c ∈ ds)) as [Hin'|Hin'].
    + rewrite bool_decide_true by done. specialize (Hhit Hin').
      apply wp_bind, wp_store; [done|]. wp_step. wp_step. wp_step. simpl. wp_steps.
      rewrite Hnext. split; [done|].
      destruct (Hput (a + i + 1) (set_mem (wr 1 (mem s') (a + i) 0) s') Hs') as (?&?&?&?).
      split; [done|]. split; [done|]. split; [done|]. split; [done|].
      rewrite decide_True by lia. replace (Z.of_nat (token_length ds l)) with i by lia.
      split; [by rewrite <-Hm'|apply fn_lookup_insert].
    + rewrite bool_decide_false by done. specialize (Hmiss Hin').
      wp_steps. rewrite Hnext. exists (Z.of_nat (length l) - (i + 1)).
      split; [lia|]. exists (i + 1). split; [lia|]. split; [done|]. split; [by apply Hput|].
      split; [done|]. rewrite Z.add_assoc. apply fn_lookup_insert.
Qed.
