(* ===== verification/Uart.v ===== *)
(** * Console: spinlock.h, uart.c, print.c, panic.c and plic.c

    The driver of the 16550 UART with its transmit ring, the kernel's print
    functions, [panic], and the interrupt controller.  Every access to a device
    register appears in the log of the machine. *)

From S2P Require Import Prelude Machine Utility.

(** ** spinlock.h: the locks are empty on a single CPU *)

Definition initlock (lk : string) : M unit := mret tt.
Definition acquire (lk : string) : M unit := mret tt.
Definition release (lk : string) : M unit := mret tt.
Definition push_off : M unit := mret tt.
Definition pop_off : M unit := mret tt.

(** ** uart.c *)

Definition Reg (reg : Z) : Z := UART0 + reg.
Definition RHR : Z := 0.
Definition THR : Z := 0.
Definition IER : Z := 1.
Definition IER_RX_ENABLE : Z := Z.shiftl 1 0.
Definition IER_TX_ENABLE : Z := Z.shiftl 1 1.
Definition FCR : Z := 2.
Definition FCR_FIFO_ENABLE : Z := Z.shiftl 1 0.
Definition FCR_FIFO_CLEAR : Z := Z.shiftl 3 1.
Definition LCR : Z := 3.
Definition LCR_EIGHT_BITS : Z := Z.shiftl 3 0.
Definition LCR_BAUD_LATCH : Z := Z.shiftl 1 7.
Definition LSR : Z := 5.
Definition LSR_TX_IDLE : Z := Z.shiftl 1 5.
Definition UART_TX_BUF_SIZE : Z := 32.

Definition newline : string := String (Ascii.ascii_of_nat 10) EmptyString.

Section Code.
Context `{Hw : Platform}.

(** The registers are [volatile unsigned char]. *)
Definition ReadReg (reg : Z) : M Z := v ← mmio_read (Reg reg); mret (w8 v).
Definition WriteReg (reg v : Z) : M unit := mmio_write (Reg reg) (w8 v).

Definition uart_init : M unit :=
  WriteReg IER 0x00;;
  WriteReg LCR LCR_BAUD_LATCH;;
  WriteReg 0 0x03;;
  WriteReg 1 0x00;;
  WriteReg LCR LCR_EIGHT_BITS;;
  WriteReg FCR (Z.lor FCR_FIFO_ENABLE FCR_FIFO_CLEAR);;
  WriteReg IER (Z.lor IER_TX_ENABLE IER_RX_ENABLE);;
  initlock "uart".

(** [while (1)]: send buffered characters while the holding register is idle. *)
Definition uart_start : M unit :=
  loop (fun _ : unit =>
    w ← get uart_tx_w;
    r ← get uart_tx_r;
    if w =? r then mret (inr tt) else
    lsr ← ReadReg LSR;
    if Z.land lsr LSR_TX_IDLE =? 0 then mret (inr tt) else
    c ← load8 (uart_tx_buf + r mod UART_TX_BUF_SIZE);
    put uart_tx_r (r +w 1);;
    WriteReg THR c;;
    mret (inl tt)) tt.

Definition uart_putc (c : Z) : M unit :=
  acquire "uart";;
  p ← get panicked;
  (if truth p then spin else mret tt);;
  loop (fun _ : unit =>
    w ← get uart_tx_w;
    r ← get uart_tx_r;
    if w =? r +w UART_TX_BUF_SIZE then mret (inl tt) else mret (inr tt)) tt;;
  w ← get uart_tx_w;
  store8 (uart_tx_buf + w mod UART_TX_BUF_SIZE) c;;
  put uart_tx_w (w +w 1);;
  uart_start;;
  release "uart".

Definition uart_putc_sync (c : Z) : M unit :=
  push_off;;
  p ← get panicked;
  (if truth p then spin else mret tt);;
  loop (fun _ : unit =>
    lsr ← ReadReg LSR;
    if Z.land lsr LSR_TX_IDLE =? 0 then mret (inl tt) else mret (inr tt)) tt;;
  WriteReg THR c;;
  pop_off.

Definition uart_getc : M Z :=
  lsr ← ReadReg LSR;
  if truth (Z.land lsr 0x01) then ReadReg RHR else mret (-1).

Definition uart_intr : M unit :=
  loop (fun _ : unit =>
    c ← uart_getc;
    if c =? -1 then mret (inr tt) else mret (inl tt)) tt;;
  acquire "uart";;
  uart_start;;
  release "uart".

(** ** print.c *)

Definition print_char (c : Z) : M unit :=
  acquire "print";;
  uart_putc_sync c;;
  release "print".

Definition print_string (str : cstr) : M unit :=
  acquire "print";;
  loop (fun i =>
    c ← char_at str i;
    if truth c then uart_putc_sync c;; mret (inl (i +w 1)) else mret (inr tt)) 0;;
  release "print".

(** The recursions divide a [uint64] by the base: 64 levels are enough. *)
Fixpoint print_int_dec_rec (fuel : nat) (x : Z) : M unit :=
  match fuel with
  | O => timeout
  | S fuel =>
    if x =? 0 then uart_putc_sync (code "0")
    else
      (if 10 <=? x then print_int_dec_rec fuel (x / 10) else mret tt);;
      uart_putc_sync (code "0" + x mod 10)
  end.
Definition print_int_dec (x : Z) : M unit := print_int_dec_rec 64 x.

Fixpoint print_int_hex_rec (fuel : nat) (x : Z) : M unit :=
  match fuel with
  | O => timeout
  | S fuel =>
    if x =? 0 then uart_putc_sync (code "0")
    else
      (if 16 <=? x then print_int_hex_rec fuel (x / 16) else mret tt);;
      let digit := x mod 16 in
      if digit <? 10 then uart_putc_sync (code "0" + digit)
      else uart_putc_sync (code "a" + digit - 10)
  end.
Definition print_int_hex_without_header (x : Z) : M unit := print_int_hex_rec 64 x.

(** An unsupported [base] is printed by a recursive call with base 10. *)
Definition print_int (x base : Z) : M unit :=
  acquire "print";;
  (if base =? 10 then print_int_dec x
   else if base =? 16 then
     uart_putc_sync (code "0");;
     uart_putc_sync (code "x");;
     print_int_hex_without_header x
   else
     print_string (Lit "print_int: unsupported base: ");;
     acquire "print";;
     print_int_dec (w64 base);;
     release "print");;
  release "print".

(** ** panic.c *)

Definition panic {A} (msg : string) : M A :=
  interrupt_off;;
  print_string (Lit "panic: ");;
  print_string (Lit msg);;
  print_string (Lit newline);;
  spin.

(** ** plic.c *)

Definition cpuid : Z := 0.

Definition plicinit : M unit :=
  mmio_write (PLIC + UART0_IRQ * 4) 1;;
  mmio_write (PLIC + VIRTIO0_IRQ * 4) 1.

Definition plicinithart : M unit :=
  let hart := cpuid in
  mmio_write (PLIC_SENABLE hart) (Z.lor (Z.shiftl 1 UART0_IRQ) (Z.shiftl 1 VIRTIO0_IRQ));;
  mmio_write (PLIC_SPRIORITY hart) 0.

Definition plic_claim : M Z :=
  let hart := cpuid in
  irq ← mmio_read (PLIC_SCLAIM hart);
  mret (s32 irq).

Definition plic_complete (irq : Z) : M unit :=
  let hart := cpuid in
  mmio_write (PLIC_SCLAIM hart) (w32 irq).

(** ** Specifications *)

(** The characters transmitted so far, oldest first. *)
Fixpoint transmitted_rev (l : list event) : list Z :=
  match l with
  | [] => []
  | MmioWrite a v :: l =>
      if a =? Reg THR then v :: transmitted_rev l else transmitted_rev l
  | _ :: l => transmitted_rev l
  end.
Definition transmitted (s : state) : list Z := rev (transmitted_rev (log s)).

(** The documented behaviour of the UART the driver relies on: the holding
    register becomes idle again, within fewer than 2^64 polls. *)
Definition uart_responsive : Prop :=
  forall t, exists j : nat, Z.of_nat j < 2 ^ 64 /\
    Z.land (w8 (mmio (Reg LSR) (t + j))) LSR_TX_IDLE <> 0.

(** The digits of a number in a base, most significant first. *)
Fixpoint digits_rec (fuel : nat) (b x : Z) : list Z :=
  match fuel with
  | O => []
  | S fuel => (if b <=? x then digits_rec fuel b (x / b) else []) ++ [x mod b]
  end.
Definition digits (b x : Z) : list Z := digits_rec 64 b x.
Definition digit_char (d : Z) : Z := if d <? 10 then code "0" + d else code "a" + d - 10.
(** Reading digits back. *)
Definition number (b : Z) (l : list Z) : Z := fold_left (fun acc d => acc * b + d) l 0.

(** Console output changes nothing but the device log. *)
Definition same_but_io (s s' : state) : Prop :=
  mem s' = mem s /\ csr s' = csr s /\ glob s' = glob s.

(** The transmit ring: the characters between the two counters. *)
Fixpoint ring_of (m : gmap Z Z) (r : Z) (n : nat) : list Z :=
  match n with
  | O => []
  | S n => rd8 m (uart_tx_buf + r mod UART_TX_BUF_SIZE) :: ring_of m (r + 1) n
  end.
Definition ring (s : state) : list Z :=
  ring_of (mem s) (glob s uart_tx_r) (Z.to_nat (glob s uart_tx_w - glob s uart_tx_r)).

Definition ring_ok (s : state) : Prop :=
  0 <= glob s uart_tx_r <= glob s uart_tx_w /\
  glob s uart_tx_w <= glob s uart_tx_r + UART_TX_BUF_SIZE /\
  glob s uart_tx_w < 2 ^ 64 - UART_TX_BUF_SIZE /\
  ram_range uart_tx_buf UART_TX_BUF_SIZE.

End Code.

#[export] Instance same_but_io_preorder : PreOrder same_but_io.
Proof.
  split; [done|]. intros s1 s2 s3 (?&?&?) (?&?&?). unfold same_but_io. split_and!; congruence.
Qed.

Section Proof.
Context `{Hw : Platform}.

Lemma wp_ReadReg reg (Q : Z -> state -> Prop) s :
  Q (w8 (mmio (Reg reg) (clock s)))
    (set_io (S (clock s)) (MmioRead (Reg reg) (mmio (Reg reg) (clock s)) :: log s) s) ->
  wp (ReadReg reg) Q s.
Proof. done. Qed.

Lemma wp_WriteReg reg v (Q : unit -> state -> Prop) s :
  Q tt (set_io (clock s) (MmioWrite (Reg reg) (w8 v) :: log s) s) ->
  wp (WriteReg reg v) Q s.
Proof. done. Qed.

Lemma transmitted_write v t s :
  transmitted (set_io t (MmioWrite (Reg THR) v :: log s) s) = transmitted s ++ [v].
Proof. done. Qed.

Lemma transmitted_read a v t s :
  transmitted (set_io t (MmioRead a v :: log s) s) = transmitted s.
Proof. done. Qed.

(** [uart_putc_sync] transmits its argument. *)
Lemma uart_putc_sync_ok c s (Q : unit -> state -> Prop) :
  uart_responsive -> glob s panicked = 0 ->
  (forall s', same_but_io s s' -> transmitted s' = transmitted s ++ [w8 c] -> Q tt s') ->
  wp (uart_putc_sync c) Q s.
Proof.
  intros Hresp Hp HQ. unfold uart_putc_sync, push_off, pop_off.
  wp_step. wp_step. wp_step. wp_step. rewrite Hp. simpl.
  wp_step. wp_step. apply wp_bind.
  destruct (Hresp (clock s)) as (j & Hj & Hidle).
  apply (wp_loop (fun n _ s' => same_but_io s s' /\ transmitted s' = transmitted s /\
    0 <= n <= Z.of_nat j /\ Z.of_nat (clock s') + n = Z.of_nat (clock s + j)) (Z.of_nat j));
    [split_and!; done || lia|done|].
  intros n [] s' (Hio & Htr & Hn & Hclk). split; [lia|].
  apply wp_bind, wp_ReadReg.
  destruct (Z.eqb_spec (Z.land (w8 (mmio (Reg LSR) (clock s'))) LSR_TX_IDLE) 0) as [Hz|Hnz].
  - apply wp_ret. exists (n - 1). split; [lia|]. split; [done|]. split; [done|].
    simpl. assert (n <> 0); [|lia]. intros ->.
    assert (clock s' = clock s + j)%nat as Heq by lia. by rewrite Heq in Hz.
  - apply wp_ret, wp_bind, wp_WriteReg, wp_ret. apply HQ; [done|].
    rewrite transmitted_write. f_equal. done.
Qed.

Lemma print_string_ok str l s (Q : unit -> state -> Prop) :
  uart_responsive -> glob s panicked = 0 -> str_at (mem s) str l ->
  Z.of_nat (length l) < 2 ^ 63 ->
  (forall s', same_but_io s s' -> transmitted s' = transmitted s ++ l -> Q tt s') ->
  wp (print_string str) Q s.
Proof.
  intros Hresp Hp Hs Hlen HQ. unfold print_string, acquire, release.
  wp_step. wp_step. apply wp_bind.
  apply (wp_loop (fun n i s' => 0 <= i <= Z.of_nat (length l) /\
    n = Z.of_nat (length l) - i /\ same_but_io s s' /\
    transmitted s' = transmitted s ++ take (Z.to_nat i) l) (Z.of_nat (length l))); [|lia|].
  { split_and!; [lia..|done|]. by rewrite app_nil_r. }
  intros n i s' (Hi & -> & Hio & Htr). split; [lia|].
  pose proof Hio as (Hmem & Hcsr & Hglob).
  apply wp_bind, (wp_char_at str l); [by rewrite Hmem|done|].
  destruct (decide (i = Z.of_nat (length l))) as [->|Hne].
  - rewrite lookup_ge_None_2 by lia. simpl. apply wp_ret, wp_ret. apply HQ; [done|].
    by rewrite Nat2Z.id, firstn_all in Htr.
  - destruct (str_at_char _ _ _ i Hs) as (c & Hc & Ht); [lia|]. rewrite Hc. simpl. rewrite Ht.
    apply wp_bind, uart_putc_sync_ok; [done|by rewrite Hglob|].
    intros s'' Hio' Htr'. apply wp_ret. rewrite w64_small by lia.
    exists (Z.of_nat (length l) - (i + 1)). split; [lia|]. split_and!; [lia..| |].
    + by transitivity s'.
    + rewrite Htr', Htr, <-app_assoc. f_equal.
      replace (Z.to_nat (i + 1)) with (S (Z.to_nat i)) by lia.
      rewrite (take_S_r _ _ _ Hc). f_equal. f_equal. apply w8_small.
      destruct Hs as [Hl _]. rewrite Forall_lookup in Hl. specialize (Hl _ _ Hc). lia.
Qed.

Lemma digit_step b fuel x : 2 <= b -> 0 <= x < 2 ^ Z.of_nat (S fuel) ->
  0 <= x / b < 2 ^ Z.of_nat fuel.
Proof.
  intros Hb Hx. rewrite Nat2Z.inj_succ, Z.pow_succ_r in Hx by lia.
  split; [apply Z.div_pos; lia|]. apply Z.div_lt_upper_bound; [lia|]. nia.
Qed.

Lemma digits_zero fuel b x : x = 0 -> 2 <= b -> digits_rec (S fuel) b x = [0].
Proof. intros -> Hb. simpl. destruct (Z.leb_spec b 0); [lia|]. by rewrite Z.mod_0_l by lia. Qed.

Lemma print_int_dec_ok fuel x s (Q : unit -> state -> Prop) :
  uart_responsive -> glob s panicked = 0 -> (0 < fuel)%nat -> 0 <= x < 2 ^ Z.of_nat fuel ->
  (forall s', same_but_io s s' ->
     transmitted s' = transmitted s ++ (digit_char <$> digits_rec fuel 10 x) -> Q tt s') ->
  wp (print_int_dec_rec fuel x) Q s.
Proof.
  intros Hresp. revert x s Q. induction fuel as [|fuel IH]; intros x s Q Hp Hf Hx HQ; [lia|].
  simpl print_int_dec_rec. destruct (Z.eqb_spec x 0) as [Hz|Hnz].
  - apply uart_putc_sync_ok; [done..|]. intros s' Hio Htr. apply HQ; [done|].
    by rewrite digits_zero.
  - pose proof (Z.mod_pos_bound x 10 ltac:(lia)) as Hm.
    assert (Hd : w8 (code "0" + x mod 10) = digit_char (x mod 10)).
    { unfold digit_char. destruct (Z.ltb_spec (x mod 10) 10); [|lia].
      apply w8_small. change (code "0") with 48. lia. }
    apply wp_bind. simpl digits_rec in HQ. destruct (Z.leb_spec 10 x) as [Hge|Hlt].
    + apply IH; [done| |by apply digit_step|].
      { destruct fuel; [|lia]. simpl in Hx. change (2 ^ 1) with 2 in Hx. lia. }
      intros s' Hio Htr. pose proof Hio as (_ & _ & Hg).
      apply uart_putc_sync_ok; [done|by rewrite Hg|]. intros s'' Hio' Htr'.
      apply HQ; [by transitivity s'|]. by rewrite Htr', Htr, Hd, fmap_app, app_assoc.
    + apply wp_ret, uart_putc_sync_ok; [done..|]. intros s'' Hio' Htr'.
      apply HQ; [done|]. by rewrite Htr', Hd.
Qed.

Lemma print_int_hex_ok fuel x s (Q : unit -> state -> Prop) :
  uart_responsive -> glob s panicked = 0 -> (0 < fuel)%nat -> 0 <= x < 2 ^ Z.of_nat fuel ->
  (forall s', same_but_io s s' ->
     transmitted s' = transmitted s ++ (digit_char <$> digits_rec fuel 16 x) -> Q tt s') ->
  wp (print_int_hex_rec fuel x) Q s.
Proof.
  intros Hresp. revert x s Q. induction fuel as [|fuel IH]; intros x s Q Hp Hf Hx HQ; [lia|].
  simpl print_int_hex_rec. destruct (Z.eqb_spec x 0) as [Hz|Hnz].
  - apply uart_putc_sync_ok; [done..|]. intros s' Hio Htr. apply HQ; [done|].
    by rewrite digits_zero.
  - pose proof (Z.mod_pos_bound x 16 ltac:(lia)) as Hm.
    assert (Hput : forall s1 (Q' : unit -> state -> Prop), glob s1 panicked = 0 ->
      (forall s', same_but_io s1 s' ->
         transmitted s' = transmitted s1 ++ [digit_char (x mod 16)] -> Q' tt s') ->
      wp (if x mod 16 <? 10 then uart_putc_sync (code "0" + x mod 16)
          else uart_putc_sync (code "a" + x mod 16 - 10)) Q' s1).
    { intros s1 Q' Hp1 HQ'. unfold digit_char in HQ'.
      change (code "0") with 48 in *. change (code "a") with 97 in *.
      destruct (Z.ltb_spec (x mod 16) 10); (apply uart_putc_sync_ok; [done..|]);
        intros s' Hio Htr; (apply HQ'; [done|]); by rewrite w8_small in Htr by lia. }
    apply wp_bind. simpl digits_rec in HQ. destruct (Z.leb_spec 16 x) as [Hge|Hlt].
    + apply IH; [done| |by apply digit_step|].
      { destruct fuel; [|lia]. simpl in Hx. change (2 ^ 1) with 2 in Hx. lia. }
      intros s' Hio Htr. pose proof Hio as (_ & _ & Hg).
      apply Hput; [by rewrite Hg|]. intros s'' Hio' Htr'.
      apply HQ; [by transitivity s'|]. by rewrite Htr', Htr, fmap_app, app_assoc.
    + apply wp_ret, Hput; [done..|]. intros s'' Hio' Htr'. by apply HQ.
Qed.

Lemma number_app b l d : number b (l ++ [d]) = number b l * b + d.
Proof. unfold number. by rewrite fold_left_app. Qed.

(** Printing loses nothing: the digits denote the number. *)
Lemma digits_number fuel b x : 2 <= b -> (0 < fuel)%nat -> 0 <= x < 2 ^ Z.of_nat fuel ->
  number b (digits_rec fuel b x) = x.
Proof.
  intros Hb. revert x. induction fuel as [|fuel IH]; intros x Hf Hx; [lia|].
  simpl. rewrite number_app. destruct (Z.leb_spec b x) as [Hge|Hlt].
  - rewrite IH; [|destruct fuel; [simpl in Hx; change (2 ^ 1) with 2 in Hx|]; lia
      |by apply digit_step].
    rewrite Z.mul_comm. symmetry. apply Z.div_mod. lia.
  - rewrite Z.mod_small by lia. done.
Qed.

(** ** The transmit ring *)

Lemma ring_of_snoc m r n :
  ring_of m r (S n) = ring_of m r n ++ [rd8 m (uart_tx_buf + (r + Z.of_nat n) mod UART_TX_BUF_SIZE)].
Proof.
  revert r. induction n as [|n IH]; intros r.
  - simpl. by rewrite Z.add_0_r.
  - change (ring_of m r (S (S n)))
      with (rd8 m (uart_tx_buf + r mod UART_TX_BUF_SIZE) :: ring_of m (r + 1) (S n)).
    rewrite IH. by replace (r + 1 + Z.of_nat n) with (r + Z.of_nat (S n)) by lia.
Qed.

Lemma ring_of_frame m m' r n :
  (forall i, r <= i < r + Z.of_nat n ->
     rd8 m' (uart_tx_buf + i mod UART_TX_BUF_SIZE) = rd8 m (uart_tx_buf + i mod UART_TX_BUF_SIZE)) ->
  ring_of m' r n = ring_of m r n.
Proof.
  revert r. induction n as [|n IH]; intros r Hf; [done|]. simpl.
  rewrite Hf by lia. f_equal. apply IH. intros i Hi. apply Hf. lia.
Qed.

Lemma slot_in_ram s i : ring_ok s -> in_ram (uart_tx_buf + i mod UART_TX_BUF_SIZE) 1 = true.
Proof.
  intros (_ & _ & _ & Hr). eapply (ram_byte _ UART_TX_BUF_SIZE); [done|].
  by apply Z.mod_pos_bound.
Qed.

(** What a run of [uart_start] leaves: a prefix of the ring was transmitted in
    order, the rest is still buffered; something is left only if the device
    was last seen busy. *)
Definition drained (s s' : state) (queue : list Z) : Prop :=
  exists sent, queue = sent ++ ring s' /\ transmitted s' = transmitted s ++ sent /\
    ring_ok s' /\ glob s' uart_tx_w = glob s uart_tx_w /\ mem s' = mem s /\ csr s' = csr s /\
    (ring s' = [] \/
     exists t v l, log s' = MmioRead (Reg LSR) v :: l /\ v = mmio (Reg LSR) t /\
       Z.land (w8 v) LSR_TX_IDLE = 0).

Lemma uart_start_ok s (Q : unit -> state -> Prop) :
  ring_ok s -> (forall s', drained s s' (ring s) -> Q tt s') -> wp uart_start Q s.
Proof.
  intros Hok HQ. unfold uart_start.
  apply (wp_loop (fun n _ s' => ring_ok s' /\ n = glob s' uart_tx_w - glob s' uart_tx_r /\
    exists sent, ring s = sent ++ ring s' /\ transmitted s' = transmitted s ++ sent /\
      glob s' uart_tx_w = glob s uart_tx_w /\ mem s' = mem s /\ csr s' = csr s)
    (glob s uart_tx_w - glob s uart_tx_r)); [|destruct Hok as (?&?&?&?); unfold UART_TX_BUF_SIZE in *; lia|].
  { split_and!; [done|done|]. exists []. by rewrite app_nil_r. }
  intros n [] s' (Hok' & -> & sent & Hring & Htr & Hwr & Hmem & Hcsr).
  pose proof Hok' as (Hr & Hcap & Hmax & Hram). split; [lia|].
  wp_step. wp_step. wp_step. wp_step.
  destruct (Z.eqb_spec (glob s' uart_tx_w) (glob s' uart_tx_r)) as [Heq|Hne].
  { apply wp_ret, HQ. exists sent. split_and!; [done..|]. left.
    unfold ring. by rewrite Heq, Z.sub_diag. }
  apply wp_bind, wp_ReadReg.
  destruct (Z.eqb_spec (Z.land (w8 (mmio (Reg LSR) (clock s'))) LSR_TX_IDLE) 0) as [Hbusy|Hidle].
  { apply wp_ret, HQ. exists sent. split_and!; [done..|]. right. simpl.
    by exists (clock s'), (mmio (Reg LSR) (clock s')), (log s'). }
  wp_step. wp_step; [by eapply slot_in_ram|]. rewrite rd_1. wp_step. wp_step.
  apply wp_bind, wp_WriteReg, wp_ret. simpl.
  assert (Hsz : UART_TX_BUF_SIZE = 32) by done. rewrite Hsz in *.
  exists (glob s' uart_tx_w - (glob s' uart_tx_r + 1)).
  unfold ring_ok, ring in *. simpl. rewrite fn_lookup_insert, !fn_lookup_insert_ne by done.
  rewrite w64_small by lia. rewrite Hsz in *. split; [lia|]. split; [by split_and!; try lia|].
  split; [done|].
  exists (sent ++ [rd8 (mem s') (uart_tx_buf + glob s' uart_tx_r mod 32)]).
  split_and!; [| |done..].
  - rewrite Hring, <-app_assoc. f_equal.
    replace (Z.to_nat (glob s' uart_tx_w - glob s' uart_tx_r))
      with (S (Z.to_nat (glob s' uart_tx_w - (glob s' uart_tx_r + 1)))) by lia.
    done.
  - set (b := rd8 (mem s') (uart_tx_buf + glob s' uart_tx_r mod 32)).
    transitivity (transmitted s' ++ [w8 b]); [done|]. rewrite Htr, <-app_assoc.
    by rewrite (w8_small b) by apply w8_range.
Qed.

(** [uart_putc] with room in the ring appends its character to the queue. *)
Lemma uart_putc_ok c s (Q : unit -> state -> Prop) :
  ring_ok s -> glob s panicked = 0 ->
  glob s uart_tx_w < glob s uart_tx_r + UART_TX_BUF_SIZE ->
  glob s uart_tx_w + 1 < 2 ^ 64 - UART_TX_BUF_SIZE ->
  (forall s' s1, transmitted s1 = transmitted s -> drained s1 s' (ring s ++ [w8 c]) -> Q tt s') ->
  wp (uart_putc c) Q s.
Proof.
  intros Hok Hp Hroom Hmax HQ. pose proof Hok as (Hr & Hcap & _ & Hram).
  assert (Hsz : UART_TX_BUF_SIZE = 32) by done.
  unfold uart_putc, acquire, release. wp_step. wp_step. wp_step. wp_step. rewrite Hp. simpl.
  wp_step. wp_step. wp_step.
  apply (wp_loop (fun n _ s' => n = 0 /\ s' = s) 0); [done|done|].
  intros n [] s' (-> & ->). split; [done|]. wp_step. wp_step. wp_step. wp_step.
  rewrite w64_small by lia. rewrite (proj2 (Z.eqb_neq _ _)) by lia. wp_step.
  wp_step. wp_step. wp_step. wp_step; [by eapply slot_in_ram|]. wp_step. wp_step.
  rewrite w64_small by lia. set (s1 := set_glob _ _ _).
  assert (Hring : ring s1 = ring s ++ [w8 c]).
  { unfold ring, s1. simpl. rewrite fn_lookup_insert, fn_lookup_insert_ne by done.
    replace (Z.to_nat (glob s uart_tx_w + 1 - glob s uart_tx_r))
      with (S (Z.to_nat (glob s uart_tx_w - glob s uart_tx_r))) by lia.
    rewrite ring_of_snoc. rewrite Z2Nat.id by lia.
    replace (glob s uart_tx_r + (glob s uart_tx_w - glob s uart_tx_r))
      with (glob s uart_tx_w) by lia.
    rewrite rd8_wr1, decide_True by done. f_equal.
    apply ring_of_frame. intros i Hi. rewrite rd8_wr1, decide_False; [done|].
    rewrite Hsz in *. intros Heq. assert (i mod 32 = glob s uart_tx_w mod 32) as Hmod by lia.
    pose proof (Z.div_mod i 32). pose proof (Z.div_mod (glob s uart_tx_w) 32). lia. }
  assert (Hok1 : ring_ok s1).
  { unfold ring_ok, s1. simpl. rewrite fn_lookup_insert, fn_lookup_insert_ne by done.
    split_and!; [lia..|done]. }
  apply wp_bind, uart_start_ok; [done|]. intros s' Hd. apply wp_ret.
  apply (HQ s' s1); [done|]. by rewrite <-Hring.
Qed.

(** ** Panic *)

Lemma print_literal_ok t s (Q : unit -> state -> Prop) :
  uart_responsive -> glob s panicked = 0 -> Forall (fun c => 0 < c < 256) (codes t) ->
  Z.of_nat (String.length t) < 2 ^ 63 ->
  (forall s', same_but_io s s' -> transmitted s' = transmitted s ++ codes t -> Q tt s') ->
  wp (print_string (Lit t)) Q s.
Proof.
  intros Hresp Hp Ht Hlen HQ. apply (print_string_ok _ (codes t)); [done|done|by split| |done].
  by rewrite codes_length.
Qed.

(** [panic] disables interrupts, prints its message and never returns. *)
Lemma panic_ok {A} msg s (Q : state -> Prop) :
  uart_responsive -> glob s panicked = 0 -> Forall (fun c => 0 < c < 256) (codes msg) ->
  Z.of_nat (String.length msg) < 2 ^ 63 ->
  (forall s', mem s' = mem s -> glob s' = glob s -> sie_on s' = false ->
    transmitted s' = transmitted s ++ codes "panic: " ++ codes msg ++ codes newline -> Q s') ->
  spins (panic (A := A) msg) Q s.
Proof.
  intros Hresp Hp Hmsg Hlen HQ. unfold panic. apply spins_bind.
  apply wp_interrupt_off. intros x Hsie. set (s1 := set_csr sstatus x s) in *.
  assert (Hg : glob s1 = glob s) by done. assert (Hm : mem s1 = mem s) by done.
  assert (Hlog : log s1 = log s) by done.
  assert (Hs : forall s2 s', sie_on s2 = false -> same_but_io s2 s' -> sie_on s' = false).
  { intros s2 s' H2 (_ & Hc & _). unfold sie_on, csr_val in *. by rewrite Hc. }
  apply spins_bind, print_literal_ok; [done|by rewrite Hg|by repeat constructor|done|].
  intros s2 Hio2 Ht2. pose proof Hio2 as (Hm2 & Hc2 & Hg2).
  apply spins_bind, print_literal_ok; [done|by rewrite Hg2, Hg|done|done|].
  intros s3 Hio3 Ht3. pose proof Hio3 as (Hm3 & Hc3 & Hg3).
  apply spins_bind, print_literal_ok; [done|by rewrite Hg3, Hg2, Hg|by repeat constructor|done|].
  intros s4 Hio4 Ht4. pose proof Hio4 as (Hm4 & Hc4 & Hg4).
  unfold spins, spin. apply HQ; [congruence|congruence|eauto|].
  rewrite Ht4, Ht3, Ht2, <-!app_assoc. unfold transmitted. by rewrite Hlog.
Qed.

End Proof.
