(* ===== verification/ConsoleTheorems.v ===== *)
(** * Theorems on strings, console output and panics

    What utility.h computes on the byte memory, and what print.c, panic.c and
    the transmit ring of uart.c send to the device. *)

From S2P Require Import Prelude Machine Board Utility Uart.

Section Strings.

Lemma compare_bytes_refl l : compare_bytes l l = 0.
Proof. induction l as [|c l IH]; simpl; [done|]. by rewrite Z.eqb_refl. Qed.

Lemma compare_bytes_zero l1 l2 :
  Forall (fun c => 0 < c < 256) l1 -> Forall (fun c => 0 < c < 256) l2 ->
  compare_bytes l1 l2 = 0 -> l1 = l2.
Proof.
  revert l2. induction l1 as [|c l1 IH]; intros [|d l2] H1 H2; simpl; [done| | |].
  - apply Forall_cons in H2. lia.
  - apply Forall_cons in H1. lia.
  - apply Forall_cons in H1 as [_ H1]. apply Forall_cons in H2 as [_ H2].
    destruct (Z.eqb_spec c d) as [->|Hne]; intros Hc; [f_equal; by apply IH|lia].
Qed.

Lemma str_at_take m a l n :
  str_at m (Ptr a) l -> (n <= length l)%nat -> str_at (wr 1 m (a + Z.of_nat n) 0) (Ptr a) (take n l).
Proof.
  intros [Hl [Hr Hb]] Hn. split; [by apply Forall_take|]. split.
  { rewrite length_take. unfold ram_range in *. lia. }
  apply bytes_at_intro. intros i c Hi. rewrite rd8_wr1.
  pose proof (lookup_lt_Some _ _ _ Hi) as Hlt.
  rewrite length_app, length_take, Nat.min_l in Hlt by done. simpl in Hlt. case_decide as E.
  - assert (i = n) as -> by lia. rewrite list_lookup_middle in Hi; [by injection Hi as <-|].
    rewrite length_take. lia.
  - eapply bytes_at_lookup; [exact Hb|]. rewrite lookup_app_l in Hi by (rewrite length_take; lia).
    rewrite lookup_take_lt in Hi by lia. by apply lookup_app_l_Some.
Qed.

Lemma str_at_drop m a l n :
  str_at m (Ptr a) l -> (n < length l)%nat ->
  str_at (wr 1 m (a + Z.of_nat n) 0) (Ptr (a + Z.of_nat n + 1)) (drop (S n) l).
Proof.
  intros [Hl [Hr Hb]] Hn. split; [by apply Forall_drop|]. split.
  { rewrite length_drop. unfold ram_range in *. lia. }
  apply bytes_at_intro. intros i c Hi. rewrite rd8_wr1, decide_False by lia.
  rewrite <-(bytes_at_lookup m a (l ++ [0]) (S n + i) c Hb); [f_equal; lia|].
  rewrite <-Hi, <-lookup_drop. f_equal. by rewrite drop_app_le by lia.
Qed.

Lemma strtok_exhausted delim s : glob s strtok_last = NULL -> strtok NULL delim s = Ok NULL s.
Proof.
  intros Hg. unfold strtok. change (truth NULL) with false.
  cbv beta iota delta [mbind M_bind get obind mret M_ret]. by rewrite Hg.
Qed.

(** [strcmp] terminates, changes nothing, and returns the difference of the
    first two characters at which the strings differ; it is 0 exactly when the
    strings are equal. *)
Lemma strcmp_decides_equality s1 s2 l1 l2 s :
  str_at (mem s) s1 l1 -> str_at (mem s) s2 l2 -> Z.of_nat (length l1) < 2 ^ 63 ->
  wp (strcmp s1 s2) (fun r s' => s' = s /\ r = compare_bytes l1 l2 /\ (r = 0 <-> l1 = l2)) s.
Proof.
  intros H1 H2 Hlen. apply (strcmp_ok s1 s2 l1 l2); [done..|]. split; [done|]. split; [done|].
  split; [apply compare_bytes_zero; [apply H1|apply H2]|]. intros ->. apply compare_bytes_refl.
Qed.

(** A string copied with its own length compares equal to the original, and
    only the bytes of the copy are written. *)
Lemma strcpy_strcmp_roundtrip dest src l s :
  str_at (mem s) src l -> Z.of_nat (length l) < 2 ^ 63 ->
  ram_range dest (Z.of_nat (length l) + 1) ->
  (match src with Ptr a => a + Z.of_nat (length l) + 1 <= dest \/
     dest + Z.of_nat (length l) + 1 <= a | Lit _ => True end) ->
  wp (n ← strlen src; strcpy dest src n;; strcmp (Ptr dest) src) (fun r s' => r = 0 /\
    str_at (mem s') (Ptr dest) l /\
    modifies (range dest (Z.of_nat (length l) + 1)) (mem s) (mem s') /\ same_regs s s') s.
Proof.
  intros Hs Hlen Hd Hdis. apply wp_bind, (strlen_ok src l); [done..|].
  apply wp_bind, (strcpy_ok dest src l); [done..|lia|done|]. intros m' Hm' Hend Hmod.
  assert (Hcopy : str_at m' (Ptr dest) l).
  { destruct Hs as [Hl _]. split; [done|]. split; [done|]. apply bytes_at_intro.
    intros i c Hi. pose proof (lookup_lt_Some _ _ _ Hi) as Hlt. rewrite length_app in Hlt. simpl in Hlt.
    destruct (decide (i = length l)) as [->|Hne].
    - rewrite list_lookup_middle in Hi by done. injection Hi as <-. done.
    - rewrite Hm', Nat2Z.id by lia. rewrite lookup_app_l in Hi by lia. by rewrite Hi. }
  assert (Hsrc : str_at m' src l).
  { destruct Hs as [Hl Hs]. split; [done|]. destruct src as [t|a]; [done|].
    destruct Hs as [Hr Hb]. split; [done|]. apply bytes_at_intro. intros i c Hi.
    pose proof (lookup_lt_Some _ _ _ Hi) as Hlt. rewrite length_app in Hlt. simpl in Hlt.
    rewrite <-(bytes_at_lookup _ _ _ _ _ Hb Hi). apply Hmod. unfold range. lia. }
  apply (strcmp_ok _ _ l l); [done..|]. split; [apply compare_bytes_refl|].
  split; [done|]. split; [done|apply same_regs_set_mem].
Qed.

(** [memcpy] of [n] bytes leaves in the destination what the source held
    before, also when the source overlaps the destination from above, and
    writes nothing else. *)
Lemma memcpy_copies dest src n s :
  ram_range dest n -> ram_range src n -> dest <= src \/ src + n <= dest ->
  wp (memcpy dest src n) (fun _ s' => s' = set_mem (mem s') s /\
    forall b, rd8 (mem s') b =
      if decide (dest <= b < dest + n) then rd8 (mem s) (src + (b - dest)) else rd8 (mem s) b) s.
Proof.
  intros Hd Hs Hdis. apply memcpy_ok; [done..|]. intros m' Hm' Hmod. split; [done|]. intros b.
  case_decide as Hb.
  - rewrite <-Hm' by lia. simpl. f_equal. lia.
  - by apply Hmod.
Qed.

(** [strtok] on a string [l] at [a], given directly or remembered from the
    previous call, returns [a]: the characters before the first delimiter are
    now a terminated string there, and what follows the delimiter is the
    remembered string.  Without a delimiter the token is the whole string, the
    memory is unchanged, and every later [strtok(NULL)] returns NULL. *)
Lemma strtok_splits str a l delim ds s :
  a <> NULL -> str = a \/ (str = NULL /\ glob s strtok_last = a) ->
  str_at (mem s) (Ptr a) l -> str_at (mem s) delim ds -> Z.of_nat (length ds) < 2 ^ 63 ->
  wp (strtok str delim) (fun r s' => let n := token_length ds l in r = a /\
    str_at (mem s') (Ptr a) (take n l) /\
    (forall c, c ∈ take n l -> c ∉ ds) /\
    if decide (n < length l)%nat
    then (exists c, l !! n = Some c /\ c ∈ ds) /\
      glob s' strtok_last = a + Z.of_nat n + 1 /\
      str_at (mem s') (Ptr (glob s' strtok_last)) (drop (S n) l) /\
      modifies (range (a + Z.of_nat n) 1) (mem s) (mem s')
    else mem s' = mem s /\ strtok NULL delim s' = Ok NULL s') s.
Proof.
  intros Ha Hstr Hl Hds Hlen. eapply wp_mono; [by apply (strtok_ok str a l delim ds)|].
  intros r s' (-> & _ & _ & _ & _ & Hsplit). pose proof (token_length_le ds l) as Hle.
  cbv zeta. split; [done|].
  assert (Hfree : forall c, c ∈ take (token_length ds l) l -> c ∉ ds).
  { intros c [i Hi]%list_elem_of_lookup Hin. pose proof (lookup_lt_Some _ _ _ Hi) as Hlt.
    rewrite length_take in Hlt. rewrite lookup_take_lt in Hi by lia.
    destruct (token_length_lookup ds l i c) as [Hhit _]; [lia|done|]. specialize (Hhit Hin). lia. }
  destruct (decide (token_length ds l < length l)%nat) as [Hlt|Hge].
  - rewrite decide_True in Hsplit by lia. destruct Hsplit as [-> Hg].
    split; [by apply str_at_take|]. split; [done|]. split; [|split; [done|split]].
    + destruct (lookup_lt_is_Some_2 l _ Hlt) as [c Hc]. exists c. split; [done|].
      destruct (decide (c ∈ ds)) as [|Hn]; [done|].
      destruct (token_length_lookup ds l _ c (Nat.le_refl _) Hc) as [_ Hmiss].
      specialize (Hmiss Hn). lia.
    + rewrite Hg. by apply str_at_drop.
    + apply modifies_wr. unfold range. lia.
  - rewrite decide_False in Hsplit by lia. destruct Hsplit as [-> Hg].
    rewrite take_ge by lia. split; [done|]. split; [by rewrite take_ge in Hfree by lia|].
    split; [done|]. by apply strtok_exhausted.
Qed.

End Strings.

(** [l] is the numeral of [x] in base [b]: its value is [x], its digits are
    digits of the base, and it has no leading zero. *)
Definition numeral (b x : Z) (l : list Z) : Prop :=
  number b l = x /\ Forall (fun d => 0 <= d < b) l /\
  (l = [0] \/ exists d r, l = d :: r /\ 0 < d).

Lemma digits_numeral fuel b x :
  2 <= b -> (0 < fuel)%nat -> 0 <= x < 2 ^ Z.of_nat fuel -> numeral b x (digits_rec fuel b x).
Proof.
  intros Hb Hf Hx. split; [by apply digits_number|].
  revert x Hf Hx. induction fuel as [|fuel IH]; intros x Hf Hx; [lia|]. simpl.
  pose proof (Z.mod_pos_bound x b ltac:(lia)) as Hm.
  destruct (Z.leb_spec b x) as [Hge|Hlt].
  - pose proof (digit_step b fuel x Hb Hx) as Hdiv.
    assert (Hpos : 0 < x / b) by (apply Z.div_str_pos; lia).
    destruct (IH (x / b)) as [Hall Hhd]; [|done|].
    { destruct fuel; [|lia]. simpl in Hx. change (2 ^ 1) with 2 in Hx. lia. }
    split; [apply Forall_app; split; [done|by constructor]|]. right.
    destruct Hhd as [Hz|(d & r & Hd & Hd0)]; [|exists d, (r ++ [x mod b]); by rewrite Hd].
    exfalso. assert (number b (digits_rec fuel b (x / b)) = x / b) as Hn.
    { apply digits_number; [done| |done]. destruct fuel; [|lia]. discriminate. }
    rewrite Hz in Hn. unfold number in Hn. simpl in Hn. lia.
  - rewrite Z.mod_small in * by lia. split; [by constructor|].
    destruct (decide (x = 0)) as [->|Hne]; [by left|right]. exists x, []. split; [done|lia].
Qed.

Section Console.
Context `{Hw : Platform}.

(** For every 64-bit value [print_int] terminates and transmits, for base 10
    its decimal digits and for base 16 "0x" and its hexadecimal digits; for any
    other base it transmits a complaint and the base in decimal.  The digits are
    the numeral of the value: nothing is lost and there is no leading zero.
    Only the device log changes. *)
Lemma print_int_prints x base s :
  uart_responsive -> glob s panicked = 0 -> 0 <= x < 2 ^ 64 -> 0 <= base < 2 ^ 31 ->
  wp (print_int x base) (fun _ s' => same_but_io s s' /\ exists l,
    transmitted s' = transmitted s ++ l /\
    if base =? 10 then exists ds, numeral 10 x ds /\ l = (digit_char <$> ds)
    else if base =? 16 then exists ds, numeral 16 x ds /\ l = codes "0x" ++ (digit_char <$> ds)
    else exists ds, numeral 10 base ds /\
      l = codes "print_int: unsupported base: " ++ (digit_char <$> ds)) s.
Proof.
  intros Hresp Hp Hx Hbase. unfold print_int, acquire, release. wp_step. wp_step. wp_step.
  destruct (Z.eqb_spec base 10) as [->|H10]; [|destruct (Z.eqb_spec base 16) as [->|H16]].
  - apply (print_int_dec_ok 64); [done|done|lia|done|]. intros s' Hio Htr. wp_step.
    split; [done|]. exists (digit_char <$> digits_rec 64 10 x). split; [done|].
    exists (digits_rec 64 10 x). split; [|done]. apply digits_numeral; lia.
  - wp_step. apply uart_putc_sync_ok; [done..|]. intros s1 Hio1 Htr1.
    pose proof Hio1 as (_ & _ & Hg1). wp_step. apply uart_putc_sync_ok; [done|by rewrite Hg1|].
    intros s2 Hio2 Htr2. pose proof Hio2 as (_ & _ & Hg2).
    apply (print_int_hex_ok 64); [done|by rewrite Hg2, Hg1|lia|done|]. intros s3 Hio3 Htr3. wp_step.
    split; [by transitivity s1; [|transitivity s2]|].
    exists (codes "0x" ++ (digit_char <$> digits_rec 64 16 x)). split.
    + by rewrite Htr3, Htr2, Htr1, <-!app_assoc.
    + exists (digits_rec 64 16 x). split; [|done]. apply digits_numeral; lia.
  - wp_step. apply print_literal_ok; [done|done|by repeat constructor|done|]. intros s1 Hio1 Htr1.
    pose proof Hio1 as (_ & _ & Hg1). wp_step. wp_step. wp_step. rewrite w64_small by lia.
    apply (print_int_dec_ok 64); [done|by rewrite Hg1|lia|lia|]. intros s2 Hio2 Htr2.
    wp_step. wp_step. split; [by transitivity s1|].
    exists (codes "print_int: unsupported base: " ++ (digit_char <$> digits_rec 64 10 base)). split.
    + by rewrite Htr2, Htr1, <-!app_assoc.
    + exists (digits_rec 64 10 base). split; [|done]. apply digits_numeral; lia.
Qed.

(** [panic] switches interrupts off, transmits its message and never
    returns. *)
Lemma panic_reports_and_spins msg s :
  uart_responsive -> glob s panicked = 0 -> Forall (fun c => 0 < c < 256) (codes msg) ->
  Z.of_nat (String.length msg) < 2 ^ 63 ->
  spins (panic (A := unit) msg) (fun s' => sie_on s' = false /\
    transmitted s' = transmitted s ++ codes "panic: " ++ codes msg ++ codes newline) s.
Proof. intros. by apply panic_ok. Qed.

(** With room in the transmit ring [uart_putc] terminates with its character
    queued behind the others; of the queue, a prefix has been transmitted in
    order, the rest is still in the ring, and nothing is left unless the device
    was last seen busy. *)
Lemma uart_putc_queues c s :
  ring_ok s -> glob s panicked = 0 ->
  glob s uart_tx_w < glob s uart_tx_r + UART_TX_BUF_SIZE ->
  glob s uart_tx_w + 1 < 2 ^ 64 - UART_TX_BUF_SIZE ->
  wp (uart_putc c) (fun _ s' => ring_ok s' /\ exists sent,
    ring s ++ [w8 c] = sent ++ ring s' /\ transmitted s' = transmitted s ++ sent /\
    (ring s' = [] \/ exists t v l, log s' = MmioRead (Reg LSR) v :: l /\
       v = mmio (Reg LSR) t /\ Z.land (w8 v) LSR_TX_IDLE = 0)) s.
Proof.
  intros Hok Hp Hroom Hmax. apply uart_putc_ok; [done..|].
  intros s' s1 Htr (sent & Hq & Hsent & Hok' & _ & _ & _ & Hleft). split; [done|].
  exists sent. split; [done|]. split; [by rewrite Hsent, Htr|done].
Qed.

(** With a full ring [uart_putc] waits for room that only an interrupt could
    make: as long as none comes it never returns. *)
Lemma uart_putc_full_hangs c s :
  glob s panicked = 0 -> glob s uart_tx_w = glob s uart_tx_r +w UART_TX_BUF_SIZE ->
  uart_putc c s = Timeout s.
Proof.
  intros Hp Hfull. unfold uart_putc. rewrite (bind_ok _ _ _ tt s) by done.
  rewrite (bind_ok _ _ _ 0 s) by (unfold get; by rewrite Hp).
  change (truth 0) with false. rewrite (bind_ok _ _ _ tt s) by done.
  apply bind_timeout, loop_stuck.
  rewrite (bind_ok _ _ _ (glob s uart_tx_w) s) by done.
  rewrite (bind_ok _ _ _ (glob s uart_tx_r) s) by done. by rewrite Hfull, Z.eqb_refl.
Qed.

End Console.

(** ** Witnesses *)

#[local] Existing Instance board.

Lemma board_responsive : uart_responsive.
Proof. intros t. exists O. done. Qed.

(** The string "a b" at an address of the free RAM. *)
Definition text_addr : Z := 0x80030000.
Definition text : list Z := codes "a b".
Definition text_state : state := set_mem (wr 4 ∅ text_addr 0x622061) power_on.

Lemma text_at : str_at (mem text_state) (Ptr text_addr) text.
Proof. split; [by repeat constructor|]. split; [done|]. vm_compute. done. Qed.

Lemma strcmp_decides_equality_witness :
  wp (strcmp (Ptr text_addr) (Lit "a b")) (fun r s' => s' = text_state /\ r = 0) text_state.
Proof.
  eapply wp_mono; [apply (strcmp_decides_equality _ _ text text)|];
    [apply text_at|by split; [repeat constructor|]|done|].
  intros r s' (? & _ & Hr). split; [done|by apply Hr].
Defined.

Lemma strcpy_strcmp_roundtrip_witness :
  wp (n ← strlen (Ptr text_addr); strcpy (text_addr + 4) (Ptr text_addr) n;;
      strcmp (Ptr (text_addr + 4)) (Ptr text_addr))
    (fun r s' => r = 0 /\ str_at (mem s') (Ptr (text_addr + 4)) text) text_state.
Proof.
  eapply wp_mono; [apply (strcpy_strcmp_roundtrip (text_addr + 4) (Ptr text_addr) text)|];
    [apply text_at|done|done|left; done|].
  intros r s' (? & ? & _). split; assumption.
Defined.

Lemma memcpy_copies_witness :
  wp (memcpy text_addr (text_addr + 2) 2)
    (fun _ s' => rd8 (mem s') text_addr = code "b" /\ rd8 (mem s') (text_addr + 2) = code "b")
    text_state.
Proof.
  eapply wp_mono; [apply (memcpy_copies text_addr (text_addr + 2) 2); [done|done|by left]|].
  intros [] s' (_ & H). rewrite !H. split; vm_compute; reflexivity.
Defined.

Lemma strtok_splits_witness :
  wp (strtok text_addr (Lit " ")) (fun r s' => r = text_addr /\
    str_at (mem s') (Ptr text_addr) (codes "a") /\
    str_at (mem s') (Ptr (text_addr + 2)) (codes "b")) text_state.
Proof.
  eapply wp_mono; [apply (strtok_splits text_addr text_addr text (Lit " ") (codes " "));
    [done|by left|apply text_at|by split; [repeat constructor|]|done]|].
  intros r s' (? & Ht & _ & Hs). split; [assumption|]. split; [exact Ht|].
  destruct Hs as (_ & Hg & Hrest & _). rewrite Hg in Hrest. exact Hrest.
Defined.

Lemma print_int_prints_witness :
  wp (print_int 255 16) (fun _ s' => exists ds, numeral 16 255 ds /\
    transmitted s' = codes "0x" ++ (digit_char <$> ds)) power_on.
Proof.
  eapply wp_mono; [apply (print_int_prints 255 16); [apply board_responsive|done|lia|lia]|].
  intros [] s' (_ & l & Hl & ds & Hds & ->). exists ds. split; [exact Hds|exact Hl].
Defined.

Lemma panic_reports_and_spins_witness :
  spins (panic (A := unit) "no") (fun s' => transmitted s' = codes "panic: " ++ codes "no" ++ codes newline)
    power_on.
Proof.
  eapply spins_mono; [apply (panic_reports_and_spins "no");
    [apply board_responsive|done|by repeat constructor|done]|].
  intros s' [_ Ht]. exact Ht.
Defined.

Lemma uart_putc_queues_witness :
  wp (uart_putc 65) (fun _ s' => exists sent, [65] = sent ++ ring s' /\ transmitted s' = sent) power_on.
Proof.
  eapply wp_mono; [apply (uart_putc_queues 65); [by vm_compute|done|done|done]|].
  intros [] s' (_ & sent & Hq & Ht & _). exists sent. split; [exact Hq|exact Ht].
Defined.

Lemma uart_putc_full_hangs_witness :
  uart_putc 65 (set_glob uart_tx_w 32 power_on) = Timeout (set_glob uart_tx_w 32 power_on).
Proof. apply uart_putc_full_hangs; reflexivity. Defined.
