(* ===== verification/Chain.v ===== *)
(** * Linked chains in memory

    Nodes of the kernel's singly linked structures carry their [next] pointer in
    their first word: the free blocks of the buddy allocator (struct node of
    mem_manage.c) and the nodes of single_linked_list.h.  [chain m p l] says
    that the pointers starting in the word at [p] visit the nodes [l]. *)

From S2P Require Import Prelude Machine.

Definition last_node (p : Z) (l : list Z) : Z := default p (last l).
Definition hd0 (l : list Z) : Z := default 0 (head l).

(** [chain m p l]: following [next] from the node at [p] visits [l], then NULL. *)
Fixpoint chain (m : gmap Z Z) (p : Z) (l : list Z) : Prop :=
  match l with
  | [] => rd64 m p = NULL
  | x :: r => rd64 m p = x /\ chain m x r
  end.

(** ** Properties *)

Lemma hd0_cons x l : hd0 (x :: l) = x.
Proof. done. Qed.

Lemma hd0_elem l : hd0 l = 0 \/ hd0 l ∈ l.
Proof. destruct l; [by left|right]. rewrite hd0_cons. set_solver. Qed.

Lemma last_node_cons p x l : last_node p (x :: l) = last_node x l.
Proof.
  unfold last_node. destruct l as [|y l]; [done|]. simpl.
  change (last (x :: y :: l)) with (last (y :: l)).
  destruct (last (y :: l)) eqn:E; [done|]. by apply last_None in E.
Qed.

Lemma last_node_snoc p l x : last_node p (l ++ [x]) = x.
Proof. unfold last_node. by rewrite last_snoc. Qed.

Lemma last_node_app p l1 x l2 : last_node p (l1 ++ x :: l2) = last_node x l2.
Proof.
  revert p. induction l1 as [|y l1 IH]; intros p; simpl app; rewrite last_node_cons; [done|].
  apply IH.
Qed.

Lemma last_node_elem p l : last_node p l = p \/ last_node p l ∈ l.
Proof.
  revert p. induction l as [|x l IH]; intros p; [by left|].
  rewrite last_node_cons. right. destruct (IH x) as [->|?]; set_solver.
Qed.

Lemma chain_hd m p l : chain m p l -> rd64 m p = hd0 l.
Proof. destruct l; [done|]. by intros [? _]. Qed.

Lemma chain_tail m p l1 l2 : chain m p (l1 ++ l2) -> chain m (last_node p l1) l2.
Proof.
  revert p. induction l1 as [|x l1 IH]; intros p; [done|].
  rewrite last_node_cons. intros [_ H]. by apply IH.
Qed.

Lemma chain_frame m m' p l :
  chain m p l -> (forall y, y ∈ p :: l -> rd64 m' y = rd64 m y) -> chain m' p l.
Proof.
  revert p. induction l as [|x l IH]; intros p Hc Hf; simpl.
  - rewrite Hf by set_solver. done.
  - destruct Hc as [Hp Hc]. split; [rewrite Hf by set_solver; done|].
    apply IH; [done|]. intros y Hy. apply Hf. set_solver.
Qed.

(** The rest of a chain hung below another node. *)
Lemma chain_redirect m m' p q l :
  chain m p l -> rd64 m' q = hd0 l -> (forall y, y ∈ l -> rd64 m' y = rd64 m y) ->
  chain m' q l.
Proof.
  destruct l as [|x l]; simpl; [done|]. intros [_ Hc] Hq Hf. split; [done|].
  by eapply chain_frame.
Qed.

(** Replacing what follows a prefix. *)
Lemma chain_replace m m' p l1 l2 l' :
  chain m p (l1 ++ l2) -> NoDup (p :: l1) ->
  (forall y, y ∈ p :: l1 -> y <> last_node p l1 -> rd64 m' y = rd64 m y) ->
  chain m' (last_node p l1) l' -> chain m' p (l1 ++ l').
Proof.
  revert p. induction l1 as [|x l1 IH]; intros p Hc Hnd Hf Hl; [done|].
  rewrite last_node_cons in *. destruct Hc as [Hp Hc]. apply NoDup_cons in Hnd as [Hpx Hnd].
  split.
  - rewrite Hf; [done|set_solver|]. intros Heq. apply Hpx. rewrite Heq.
    destruct (last_node_elem x l1) as [->|?]; set_solver.
  - apply (IH x); [done..| |done]. intros y Hy Hne. apply Hf; [set_solver|done].
Qed.

Lemma chain_insert m m' p l1 x l2 :
  chain m p (l1 ++ l2) -> NoDup (p :: l1) ->
  rd64 m' (last_node p l1) = x -> rd64 m' x = hd0 l2 ->
  (forall y, y ∈ p :: l1 ++ l2 -> y <> last_node p l1 -> rd64 m' y = rd64 m y) ->
  (forall y, y ∈ l2 -> y <> last_node p l1) ->
  chain m' p (l1 ++ x :: l2).
Proof.
  intros Hc Hnd Hp Hx Hf Hl2. apply (chain_replace m m' p l1 l2); [done..| |].
  - intros y Hy. apply Hf. set_solver.
  - split; [done|]. apply (chain_redirect m m' (last_node p l1)); [by apply chain_tail|done|].
    intros y Hy. apply Hf; [set_solver|by apply Hl2].
Qed.

Lemma chain_remove m m' p l1 x l2 :
  chain m p (l1 ++ x :: l2) -> NoDup (p :: l1) ->
  rd64 m' (last_node p l1) = hd0 l2 ->
  (forall y, y ∈ p :: l1 ++ l2 -> y <> last_node p l1 -> rd64 m' y = rd64 m y) ->
  (forall y, y ∈ l2 -> y <> last_node p l1) ->
  chain m' p (l1 ++ l2).
Proof.
  intros Hc Hnd Hp Hf Hl2. apply (chain_replace m m' p l1 (x :: l2)); [done..| |].
  - intros y Hy. apply Hf. set_solver.
  - apply (chain_redirect m m' x); [|done|].
    + apply chain_tail in Hc. apply Hc.
    + intros y Hy. apply Hf; [set_solver|by apply Hl2].
Qed.
