(* ===== verification/BuddySpec.v ===== *)
(** * The buddy pool: abstract specification

    What the free lists of mem_manage.c mean, without pointers: a pool gives,
    for each order [k] in [0 .. 15], the ascending list of the addresses of the
    free blocks of size [PAGE_SIZE << k].  [pool_insert] is the textbook
    release operation; the set of free bytes determines the pool
    ([pool_canonical]), and a free aligned block always lies inside a listed
    block ([free_block_listed]). *)

From S2P Require Import Prelude Machine.

Definition BUDDY_MAX_ORDER : Z := 15.
Definition PAGE_SIZE : Z := 4096.

Abbreviation pool := (Z -> list Z).
Definition order (k : Z) : Prop := 0 <= k <= BUDDY_MAX_ORDER.

(** The size of a block of order [k], and the block it merges with. *)
Definition bsz (k : Z) : Z := 2 ^ (12 + k).
Definition odd_block (k x : Z) : bool := Z.testbit x (12 + k).
Definition buddy (k x : Z) : Z := if odd_block k x then x - bsz k else x + bsz k.

(** Free bytes. *)
Definition listed (P : pool) (k x : Z) : Prop := order k /\ x ∈ P k.
Definition free (P : pool) (a : Z) : Prop :=
  exists k x, listed P k x /\ x <= a < x + bsz k.

Definition disjoint_block (k x j y : Z) : Prop := x + bsz k <= y \/ y + bsz j <= x.

(** An aligned block of the managed region [lo .. hi]. *)
Definition good_block (lo hi k x : Z) : Prop :=
  order k /\ (bsz k | x) /\ lo <= x /\ x + bsz k <= hi.

Record pool_wf (lo hi : Z) (P : pool) : Prop := {
  wf_sorted : forall k, order k -> StronglySorted Z.lt (P k);
  wf_block : forall k x, listed P k x -> good_block lo hi k x;
  wf_disjoint : forall k x j y, listed P k x -> listed P j y ->
    (k, x) <> (j, y) -> disjoint_block k x j y;
  wf_coalesced : forall k x, listed P k x -> buddy k x ∉ P k
}.

(** Sorted insertion and removal of an address. *)
Fixpoint ins (x : Z) (l : list Z) : list Z :=
  match l with
  | [] => [x]
  | y :: r => if x <? y then x :: l else y :: ins x r
  end.
Definition del (x : Z) (l : list Z) : list Z := filter (fun y => y <> x) l.

(** Release of block [x] of order [k], merging upwards; [n] bounds the
    number of merges. *)
Fixpoint pool_insert (n : nat) (P : pool) (x k : Z) : pool :=
  match n with
  | O => P
  | S n =>
      if decide (buddy k x ∈ P k)
      then pool_insert n (<[k := del (buddy k x) (P k)]> P) (Z.min x (buddy k x)) (k + 1)
      else <[k := ins x (P k)]> P
  end.

(** ** Block sizes *)

Lemma bsz_pos k : 0 <= k -> 0 < bsz k.
Proof. intros. apply Z.pow_pos_nonneg; lia. Qed.

Lemma bsz_succ k : 0 <= k -> bsz (k + 1) = 2 * bsz k.
Proof. intros. unfold bsz. replace (12 + (k + 1)) with (Z.succ (12 + k)) by lia.
  by rewrite Z.pow_succ_r by lia. Qed.

Lemma bsz_add j k : 0 <= j <= k -> bsz k = 2 ^ (k - j) * bsz j.
Proof. intros. unfold bsz. rewrite <-Z.pow_add_r by lia. f_equal. lia. Qed.

Lemma bsz_ge k : 0 <= k -> 4096 <= bsz k.
Proof. intros. unfold bsz. change 4096 with (2 ^ 12). apply Z.pow_le_mono_r; lia. Qed.

Lemma bsz_mono j k : 0 <= j <= k -> bsz j <= bsz k.
Proof. intros. apply Z.pow_le_mono_r; lia. Qed.

Lemma bsz_divide j k : 0 <= j <= k -> (bsz j | bsz k).
Proof. intros. rewrite (bsz_add j k) by lia. apply Z.divide_factor_r. Qed.

Lemma bsz_page k : 0 <= k -> (4096 | bsz k).
Proof. intros. apply (bsz_divide 0 k). lia. Qed.

#[export] Hint Resolve bsz_pos : kernel.

(** Aligned blocks are nested or disjoint. *)
Lemma aligned_step k x y : 0 <= k -> (bsz k | x) -> (bsz k | y) -> x < y -> x + bsz k <= y.
Proof. intros Hk [p ->] [q ->] H. pose proof (bsz_pos k Hk).
  assert (p < q) by nia. nia. Qed.

Lemma nested j k x y a :
  0 <= j <= k -> (bsz j | x) -> (bsz k | y) ->
  x <= a < x + bsz j -> y <= a < y + bsz k -> y <= x /\ x + bsz j <= y + bsz k.
Proof.
  intros Hjk Hx Hy Ha Hb.
  assert (bsz j | y) by (etrans; [apply (bsz_divide j k); lia|done]).
  assert (bsz j | y + bsz k) by (apply Z.divide_add_r; [done|apply bsz_divide; lia]).
  split.
  - destruct (Z.le_gt_cases y x); [done|].
    pose proof (aligned_step j x y ltac:(lia) ltac:(done) ltac:(done) ltac:(lia)). lia.
  - apply (aligned_step j); [lia|done..|lia].
Qed.

(** ** Buddies *)

Lemma odd_block_spec k q : 0 <= k -> odd_block k (q * bsz k) = Z.odd q.
Proof.
  intros. unfold odd_block, bsz. rewrite <-(Z.shiftl_mul_pow2 q (12 + k)) by lia.
  rewrite Z.shiftl_spec by lia. rewrite Z.sub_diag. apply Z.bit0_odd.
Qed.

Lemma buddy_aligned k x : 0 <= k -> (bsz k | x) -> (bsz k | buddy k x).
Proof.
  intros. unfold buddy. destruct (odd_block k x).
  - by apply Z.divide_sub_r; [|apply Z.divide_refl].
  - by apply Z.divide_add_r; [|apply Z.divide_refl].
Qed.

Lemma buddy_odd_block k x : 0 <= k -> (bsz k | x) ->
  odd_block k (buddy k x) = negb (odd_block k x).
Proof.
  intros Hk [q ->]. unfold buddy. rewrite odd_block_spec by done.
  destruct (Z.odd q) eqn:Hq.
  - replace (q * bsz k - bsz k) with (Z.pred q * bsz k) by lia.
    rewrite odd_block_spec, Z.odd_pred, <-Z.negb_odd by done. by rewrite Hq.
  - replace (q * bsz k + bsz k) with (Z.succ q * bsz k) by lia.
    rewrite odd_block_spec, Z.odd_succ, <-Z.negb_odd by done. by rewrite Hq.
Qed.

Lemma buddy_involutive k x : 0 <= k -> (bsz k | x) -> buddy k (buddy k x) = x.
Proof.
  intros Hk Hx. unfold buddy at 1. rewrite buddy_odd_block by done.
  unfold buddy. destruct (odd_block k x); simpl; lia.
Qed.

Lemma buddy_ne k x : 0 <= k -> buddy k x <> x.
Proof. intros. pose proof (bsz_pos k). unfold buddy. destruct (odd_block k x); lia. Qed.

(** The union of a block and its buddy is the block of the next order. *)
Lemma merge_aligned k x : 0 <= k -> (bsz k | x) -> (bsz (k + 1) | Z.min x (buddy k x)).
Proof.
  intros Hk [q ->]. pose proof (bsz_pos k Hk). rewrite bsz_succ by done.
  unfold buddy. rewrite odd_block_spec by done. destruct (Z.odd q) eqn:Hq.
  - rewrite Z.min_r by lia. apply Z.odd_spec in Hq as [p ->]. exists p. lia.
  - rewrite Z.min_l by lia. assert (Z.even q = true) as He by (by rewrite <-Z.negb_odd, Hq).
    apply Z.even_spec in He as [p ->]. exists p. lia.
Qed.

Lemma merge_halves k x a : 0 <= k ->
  Z.min x (buddy k x) <= a < Z.min x (buddy k x) + bsz (k + 1) <->
  x <= a < x + bsz k \/ buddy k x <= a < buddy k x + bsz k.
Proof.
  intros. pose proof (bsz_pos k). rewrite bsz_succ by done. unfold buddy.
  destruct (odd_block k x); lia.
Qed.

(** ** Sorted lists *)

Lemma elem_of_ins x y l : y ∈ ins x l <-> y = x \/ y ∈ l.
Proof.
  induction l as [|z l IH]; simpl; [set_solver|].
  destruct (x <? z); set_solver.
Qed.

Lemma elem_of_del x y l : y ∈ del x l <-> y ∈ l /\ y <> x.
Proof. unfold del. rewrite list_elem_of_filter. naive_solver. Qed.

Lemma ins_split x l1 l2 :
  Forall (fun y => y < x) l1 -> Forall (fun y => x < y) l2 ->
  ins x (l1 ++ l2) = l1 ++ x :: l2.
Proof.
  intros H1 H2. induction H1 as [|y l1 Hy _ IH]; simpl.
  - destruct H2 as [|z l2 Hz _]; simpl; [done|].
    destruct (Z.ltb_spec x z); [done|lia].
  - destruct (Z.ltb_spec x y); [lia|]. by rewrite IH.
Qed.

Lemma sorted_split_at x l :
  StronglySorted Z.lt l -> x ∉ l -> exists l1 l2, l = l1 ++ l2 /\
    Forall (fun y => y < x) l1 /\ Forall (fun y => x < y) l2.
Proof.
  induction 1 as [|y l Hl IH Hy]; intros Hx.
  - by exists [], [].
  - apply not_elem_of_cons in Hx as [Hxy Hx]. destruct (Z.lt_ge_cases x y).
    + exists [], (y :: l). split_and!; [done..|]. constructor; [done|].
      eapply Forall_impl; [exact Hy|]. simpl. intros. lia.
    + destruct (IH Hx) as (l1 & l2 & -> & H1 & H2). exists (y :: l1), l2.
      split_and!; [done| |done]. constructor; [lia|done].
Qed.

Lemma sorted_ins x l : StronglySorted Z.lt l -> x ∉ l -> StronglySorted Z.lt (ins x l).
Proof.
  intros Hs Hx. destruct (sorted_split_at x l Hs Hx) as (l1 & l2 & -> & H1 & H2).
  rewrite ins_split by done. apply StronglySorted_app in Hs as (H12 & Hs1 & Hs2).
  apply StronglySorted_app. split_and!; [|done|constructor; [done|exact H2]].
  intros y z Hy Hz. rewrite Forall_forall in H1, H2. apply elem_of_cons in Hz.
  destruct Hz as [->|Hz]; [by apply H1|]. specialize (H1 y Hy). specialize (H2 z Hz). lia.
Qed.

Lemma sorted_del x l : StronglySorted Z.lt l -> StronglySorted Z.lt (del x l).
Proof.
  unfold del. induction 1 as [|y l Hl IH Hy]; [constructor|].
  rewrite filter_cons. case_decide; [|done]. constructor; [done|].
  rewrite Forall_forall in *. intros z. rewrite list_elem_of_filter. naive_solver.
Qed.

Lemma sorted_NoDup l : StronglySorted Z.lt l -> NoDup l.
Proof.
  induction 1 as [|y l Hl IH Hy]; constructor; [|done].
  rewrite Forall_forall in Hy. intros Hin. specialize (Hy y Hin). lia.
Qed.

Lemma del_split x l1 l2 : NoDup (l1 ++ x :: l2) -> del x (l1 ++ x :: l2) = l1 ++ l2.
Proof.
  intros Hnd. apply NoDup_app in Hnd as (H1 & H12 & H2). apply NoDup_cons in H2 as [H2 _].
  assert (forall l, x ∉ l -> del x l = l) as Hdel.
  { unfold del. induction l as [|y l IH]; [done|]. intros Hl.
    apply not_elem_of_cons in Hl as [? ?]. rewrite filter_cons, decide_True by done.
    f_equal. auto. }
  unfold del in *. rewrite filter_app, filter_cons, decide_False by naive_solver.
  rewrite !Hdel; [done|done|]. intros Hx. apply (H12 x Hx). set_solver.
Qed.

Lemma sorted_length l a b :
  StronglySorted Z.lt l -> Forall (fun x => a <= x < b) l -> a <= b ->
  Z.of_nat (length l) <= b - a.
Proof.
  intros Hs. revert a. induction Hs as [|y l Hl IH Hy]; intros a HF Hab; simpl; [lia|].
  apply Forall_cons in HF as [Hya HF].
  specialize (IH (y + 1)). rewrite Nat2Z.inj_succ.
  enough (Z.of_nat (length l) <= b - (y + 1)) by lia. apply IH; [|lia].
  rewrite Forall_forall in *. intros z Hz. specialize (HF z Hz). specialize (Hy z Hz). lia.
Qed.

#[export] Instance Zlt_antisymm : AntiSymm (=) Z.lt.
Proof. intros x y ? ?. lia. Qed.

(** ** Updating one list of a pool *)

Lemma listed_upd P k l j y :
  listed (<[k := l]> P) j y <-> order j /\ (if decide (k = j) then y ∈ l else y ∈ P j).
Proof.
  unfold listed. case_decide as H.
  - subst. by rewrite fn_lookup_insert.
  - by rewrite fn_lookup_insert_ne.
Qed.

Section Pool.
Context {lo hi : Z}.
Abbreviation wf := (pool_wf lo hi).
Abbreviation good := (good_block lo hi).

(** A block apart from every listed block. *)
Definition apart (P : pool) (k x : Z) : Prop :=
  forall j y, listed P j y -> disjoint_block k x j y.

Lemma apart_not_free P k x :
  0 <= k -> (forall a, x <= a < x + bsz k -> ~ free P a) ->
  (forall j y, listed P j y -> 0 < bsz j) -> apart P k x.
Proof.
  intros Hk Hx Hpos j y Hy. specialize (Hpos j y Hy). pose proof (bsz_pos k Hk).
  unfold disjoint_block.
  destruct (Z.le_gt_cases (x + bsz k) y); [by left|]. right.
  destruct (Z.le_gt_cases (y + bsz j) x); [done|].
  destruct (Hx (Z.max x y)); [lia|]. exists j, y. split; [done|lia].
Qed.

Lemma order_nonneg k : order k -> 0 <= k.
Proof. unfold order. lia. Qed.

Lemma listed_size P j y : listed P j y -> 0 < bsz j.
Proof. intros [? _]. apply bsz_pos. by apply order_nonneg. Qed.

Lemma apart_not_listed P k x : 0 <= k -> apart P k x -> x ∉ P k \/ ~ order k.
Proof.
  intros Hk Ha. destruct (decide (x ∈ P k)) as [Hx|]; [|by left]. right. intros Ho.
  pose proof (bsz_pos k Hk). destruct (Ha k x (conj Ho Hx)); lia.
Qed.

(** ** Removing and adding a block *)

Lemma wf_del P k x : wf P -> order k -> wf (<[k := del x (P k)]> P).
Proof.
  intros Hwf Ho.
  assert (Hsub : forall j y, listed (<[k := del x (P k)]> P) j y -> listed P j y).
  { intros j y [? Hy]%listed_upd. case_decide; [|done].
    subst. apply elem_of_del in Hy as [Hy _]. done. }
  split.
  - intros j Hj. destruct (decide (k = j)) as [->|].
    + rewrite fn_lookup_insert. by apply sorted_del, Hwf.
    + rewrite fn_lookup_insert_ne by done. by apply Hwf.
  - intros j y Hy. by apply Hwf, Hsub.
  - intros j y j' y' Hy Hy'. by apply Hwf; apply Hsub.
  - intros j y Hy Hb. destruct (wf_coalesced _ _ _ Hwf j y (Hsub _ _ Hy)).
    apply (Hsub j (buddy j y)). split; [apply Hy|done].
Qed.

Lemma free_del P k x a :
  wf P -> listed P k x ->
  free (<[k := del x (P k)]> P) a <-> free P a /\ ~ (x <= a < x + bsz k).
Proof.
  intros Hwf Hx. split.
  - intros (j & y & [Hj Hy]%listed_upd & Ha).
    assert (listed P j y /\ (k, x) <> (j, y)) as [Hl Hne].
    { case_decide; [subst|split; [done|congruence]].
      apply elem_of_del in Hy as [? ?]. split; [done|congruence]. }
    split; [by exists j, y|].
    destruct (wf_disjoint _ _ _ Hwf _ _ _ _ Hx Hl Hne); lia.
  - intros [(j & y & [Hj Hy] & Ha) Hn]. exists j, y. split; [|done].
    apply listed_upd. split; [done|]. case_decide; [subst|done].
    apply elem_of_del. split; [done|]. intros ->. done.
Qed.

Lemma wf_ins P k x :
  wf P -> good k x -> apart P k x -> buddy k x ∉ P k -> wf (<[k := ins x (P k)]> P).
Proof.
  intros Hwf Hg Ha Hb. pose proof Hg as (Ho & Hal & _). pose proof (order_nonneg _ Ho).
  assert (Hl : forall j y, listed (<[k := ins x (P k)]> P) j y <->
                           listed P j y \/ (j = k /\ y = x)).
  { intros j y. rewrite listed_upd. unfold listed. case_decide as E.
    - subst. rewrite elem_of_ins. naive_solver.
    - naive_solver. }
  split.
  - intros j Hj. destruct (decide (k = j)) as [->|].
    + rewrite fn_lookup_insert. apply sorted_ins; [by apply Hwf|].
      destruct (apart_not_listed P j x); done.
    + rewrite fn_lookup_insert_ne by done. by apply Hwf.
  - intros j y [Hy|[-> ->]]%Hl; [by apply Hwf|done].
  - intros j y j' y' [Hy|[-> ->]]%Hl [Hy'|[-> ->]]%Hl Hne.
    + by apply Hwf.
    + specialize (Ha _ _ Hy). unfold disjoint_block in *. lia.
    + by apply Ha.
    + done.
  - intros j y Hy Hy'. assert (listed P j (buddy j y) \/ (j = k /\ buddy j y = x)) as Hc.
    { apply Hl. split; [apply Hy|done]. }
    apply Hl in Hy as [Hy|[-> ->]]; destruct Hc as [Hc|[E Hc]].
    + by apply (wf_coalesced _ _ _ Hwf j y Hy), Hc.
    + subst j. apply Hb. rewrite <-Hc, buddy_involutive; [apply Hy|done|].
      by apply (wf_block _ _ _ Hwf) in Hy as (_ & ? & _).
    + apply Hb, Hc.
    + by apply (buddy_ne k x).
Qed.

Lemma free_ins P k x a :
  order k -> free (<[k := ins x (P k)]> P) a <-> free P a \/ x <= a < x + bsz k.
Proof.
  intros Ho. split.
  - intros (j & y & [Hj Hy]%listed_upd & Ha). case_decide.
    + subst. apply elem_of_ins in Hy as [->|Hy]; [by right|]. left. by exists j, y.
    + left. by exists j, y.
  - intros [(j & y & [Hj Hy] & Ha)|Ha].
    + exists j, y. split; [|done]. apply listed_upd. split; [done|].
      case_decide; [|done]. subst. apply elem_of_ins. by right.
    + exists k, x. split; [|done]. apply listed_upd. split; [done|].
      rewrite decide_True by done. apply elem_of_ins. by left.
Qed.

(** A block and its listed buddy make a good block of the next order; this
    needs room: the region is smaller than one block of order 16. *)
Hypothesis region : KERNBASE <= lo /\ hi <= PHYSTOP.

Lemma no_top_merge x : good 15 x -> good 15 (buddy 15 x) -> False.
Proof.
  intros (_ & [p Hp] & ? & ?) (_ & [q Hq] & ? & ?).
  assert (buddy 15 x <> x) as Hne by (apply buddy_ne; lia).
  unfold bsz, PHYSTOP, KERNBASE in *. lia.
Qed.

Lemma good_merge k x :
  good k x -> good k (buddy k x) -> good (k + 1) (Z.min x (buddy k x)).
Proof.
  intros Hx Hb. assert (k < 15) as Hk.
  { destruct (decide (k = 15)) as [->|]; [by destruct (no_top_merge x)|].
    destruct Hx as [[? ?] _]. unfold BUDDY_MAX_ORDER in *. lia. }
  destruct Hx as ([? ?] & ? & ? & ?), Hb as (_ & ? & ? & ?).
  split; [unfold order, BUDDY_MAX_ORDER; lia|]. split; [by apply merge_aligned|].
  pose proof (merge_halves k x (Z.min x (buddy k x) + bsz (k + 1) - 1)).
  pose proof (bsz_pos (k + 1)). lia.
Qed.

Lemma apart_merge P k x :
  wf P -> good k x -> apart P k x -> buddy k x ∈ P k ->
  apart (<[k := del (buddy k x) (P k)]> P) (k + 1) (Z.min x (buddy k x)).
Proof.
  intros Hwf (Ho & ? & _) Ha Hb. pose proof (order_nonneg _ Ho).
  apply apart_not_free; [lia| |intros; by eapply listed_size].
  intros a Hin Hf. apply free_del in Hf as [(j & y & Hl & Hy) Hn]; [|done..].
  apply merge_halves in Hin as [Hin|Hin]; [|done|done].
  specialize (Ha _ _ Hl). unfold disjoint_block in Ha. lia.
Qed.

(** ** Release *)

Lemma pool_insert_spec n P x k :
  wf P -> good k x -> apart P k x -> 16 - k <= Z.of_nat n ->
  wf (pool_insert n P x k) /\
  forall a, free (pool_insert n P x k) a <-> free P a \/ x <= a < x + bsz k.
Proof.
  revert P x k. induction n as [|n IH]; intros P x k Hwf Hg Ha Hn.
  - destruct Hg as ([? ?] & _). unfold BUDDY_MAX_ORDER in *. lia.
  - pose proof Hg as (Ho & Hal & _). pose proof (order_nonneg _ Ho).
    simpl. case_decide as Hb.
    + assert (good k (buddy k x)) as Hgb by (by apply (wf_block _ _ _ Hwf)).
      destruct (IH (<[k := del (buddy k x) (P k)]> P) (Z.min x (buddy k x)) (k + 1))
        as [Hwf' Hf'].
      { by apply wf_del. } { by apply good_merge. } { by apply apart_merge. } { lia. }
      split; [done|]. intros a. rewrite Hf', free_del by done.
      rewrite merge_halves by done. split; [|intros [?|?]].
      * intros [[? _]|[?|?]]; [by left|by right|left]. exists k, (buddy k x). done.
      * destruct (decide (buddy k x <= a < buddy k x + bsz k)); tauto.
      * tauto.
    + split; [by apply wf_ins|]. intros a. by apply free_ins.
Qed.

(** ** Maximal blocks *)

(** A completely free aligned block lies inside one listed block. *)
Lemma free_block_listed P k x :
  wf P -> order k -> (bsz k | x) -> (forall a, x <= a < x + bsz k -> free P a) ->
  exists j y, k <= j /\ listed P j y /\ y <= x /\ x + bsz k <= y + bsz j.
Proof.
  intros Hwf Ho. pose proof (order_nonneg _ Ho) as Hk. revert x Ho. pattern k.
  apply natlike_ind; [| |done]; clear k Hk.
  - intros x Ho Hx Hf. destruct (Hf x) as (j & y & Hl & Hy); [unfold bsz; simpl; lia|].
    exists j, y. pose proof Hl as [Hj _]. pose proof (order_nonneg _ Hj).
    split; [done|]. split; [done|]. apply (wf_block _ _ _ Hwf) in Hl as (_ & ? & _).
    apply (nested 0 j x y x); [lia|done..|unfold bsz; lia|done].
  - intros k Hk IH x Ho Hx Hf. change (Z.succ k) with (k + 1) in *.
    assert (Hok : order k) by (unfold order in *; lia).
    rewrite bsz_succ in * by done. pose proof (bsz_pos k Hk).
    assert (Hxk : (bsz k | x)) by (etrans; [|done]; apply Z.divide_factor_r).
    assert (Hxb : (bsz k | x + bsz k)) by (by apply Z.divide_add_r; [|apply Z.divide_refl]).
    destruct (IH x Hok Hxk) as (j1 & y1 & Hj1 & Hl1 & Hy1); [intros; apply Hf; lia|].
    destruct (IH (x + bsz k) Hok Hxb) as (j2 & y2 & Hj2 & Hl2 & Hy2);
      [intros; apply Hf; lia|].
    pose proof (wf_block _ _ _ Hwf _ _ Hl1) as (_ & Ha1 & _).
    pose proof (wf_block _ _ _ Hwf _ _ Hl2) as (_ & Ha2 & _).
    destruct (decide (k + 1 <= j1)) as [H1|H1].
    { exists j1, y1. split; [lia|]. split; [done|]. rewrite <-bsz_succ in * by done.
      pose proof (bsz_pos (k + 1)).
      apply (nested (k + 1) j1 x y1 x); [lia|done|done|lia|lia]. }
    destruct (decide (k + 1 <= j2)) as [H2|H2].
    { exists j2, y2. split; [lia|]. split; [done|]. rewrite <-bsz_succ in * by done.
      apply (nested (k + 1) j2 x y2 (x + bsz k)); [lia|done|done| |lia].
      rewrite bsz_succ by done. lia. }
    assert (j1 = k) as -> by lia. assert (j2 = k) as -> by lia.
    assert (y1 = x) as ->.
    { destruct (Z.lt_trichotomy y1 x) as [?|[?|?]]; [|done|lia].
      pose proof (aligned_step k y1 x). lia. }
    assert (y2 = x + bsz k) as ->.
    { destruct (Z.lt_trichotomy y2 (x + bsz k)) as [?|[?|?]]; [|done|lia].
      pose proof (aligned_step k y2 (x + bsz k)). lia. }
    exfalso. apply (wf_coalesced _ _ _ Hwf k x Hl1). destruct Hx as [q ->].
    unfold buddy. replace (q * (2 * bsz k)) with (2 * q * bsz k) in * by lia.
    rewrite odd_block_spec, Z.odd_mul by done. apply Hl2.
Qed.

(** The free bytes determine the pool. *)
Lemma pool_canonical_le P P' k x :
  wf P -> wf P' -> (forall a, free P a <-> free P' a) -> listed P k x -> listed P' k x.
Proof.
  intros Hwf Hwf' Hf Hl. pose proof Hl as [Ho _]. pose proof (order_nonneg _ Ho).
  pose proof (wf_block _ _ _ Hwf _ _ Hl) as (_ & Hal & _).
  destruct (free_block_listed P' k x Hwf' Ho Hal) as (j & y & Hj & Hl' & Hy).
  { intros a Ha. apply Hf. by exists k, x. }
  pose proof (wf_block _ _ _ Hwf' _ _ Hl') as (Hoj & Haly & _).
  destruct (free_block_listed P j y Hwf Hoj Haly) as (i & z & Hi & Hl'' & Hz).
  { intros a Ha. apply Hf. by exists j, y. }
  destruct (decide ((k, x) = (i, z))) as [[= -> ->]|Hne].
  - assert (j = i) as -> by lia. assert (y = z) as -> by lia. done.
  - pose proof (bsz_pos k ltac:(done)).
    destruct (wf_disjoint _ _ _ Hwf _ _ _ _ Hl Hl'' Hne); lia.
Qed.

Lemma pool_canonical P P' k :
  wf P -> wf P' -> (forall a, free P a <-> free P' a) -> order k -> P k = P' k.
Proof.
  intros Hwf Hwf' Hf Ho.
  apply (StronglySorted_unique Z.lt); [by apply Hwf|by apply Hwf'|].
  apply NoDup_Permutation; [by apply sorted_NoDup, Hwf|by apply sorted_NoDup, Hwf'|].
  intros x. split; intros Hx.
  - by apply (pool_canonical_le P P' k x).
  - apply (pool_canonical_le P' P k x); [done..| |done]. intros. by rewrite Hf.
Qed.

(** ** Small pools *)

Lemma wf_empty : wf (fun _ => []).
Proof.
  split; [constructor|intros ? ? [_ []%not_elem_of_nil]|intros ? ? ? ? [_ []%not_elem_of_nil]|].
  intros ? ? [_ []%not_elem_of_nil].
Qed.

Lemma apart_empty k x : apart (fun _ => []) k x.
Proof. by intros j y [_ ?%not_elem_of_nil]. Qed.

Lemma wf_one k x : good k x -> wf (<[k := [x]]> (fun _ => [])).
Proof.
  intros Hg. apply (wf_ins (fun _ => []) k x); [apply wf_empty|done|apply apart_empty|].
  apply not_elem_of_nil.
Qed.

End Pool.
