(* ===== verification/PageAlloc.v ===== *)
(** * The page allocator as its clients see it

    kmalloc, the page tables and the process code call [allocate] and
    [deallocate] of mem_manage.h.  [PageOps] is that header; [PageAllocator]
    states what the operations promise in terms of the set of free bytes, and
    the clients are verified against it.  BuddyInstance.v discharges it. *)

From S2P Require Import Prelude Machine BuddySpec.

Class PageOps := {
  allocate : Z -> M Z;
  deallocate : Z -> Z -> M unit
}.

(** The empty set of bytes. *)
Definition no_bytes (a : Z) : Prop := False.

(** The bytes of [F] outside the block [x] of order [k], and with it. *)
Definition without (F : Z -> Prop) (k x a : Z) : Prop := F a /\ ~ (x <= a < x + bsz k).
Definition with_block (F : Z -> Prop) (k x a : Z) : Prop := F a \/ x <= a < x + bsz k.

Class PageAllocator {Hw : Platform} (Ops : PageOps) := {
  (** [pool_owns m F]: the allocator data in [m] is consistent and its free
      bytes are those of [F]. *)
  pool_owns : gmap Z Z -> (Z -> Prop) -> Prop;
  (** The allocator's own data, outside the pages it manages. *)
  pool_private : Z -> Prop;
  pool_owns_proper :: Proper (eq ==> pointwise_relation Z iff ==> iff) pool_owns;
  pool_owns_frame m m' F :
    pool_owns m F -> (forall a, pool_private a \/ F a -> rd8 m' a = rd8 m a) ->
    pool_owns m' F;
  pool_owns_range m F a : pool_owns m F -> F a -> kernel_end <= a < PHYSTOP;
  pool_private_range a : pool_private a -> KERNBASE <= a < kernel_end;
  (** A block of order [power] is taken from the free bytes, or none is
      available and nothing changes. *)
  allocate_law F power s :
    pool_owns (mem s) F -> 0 <= power < 2 ^ 64 ->
    wp (allocate power) (fun r s' => same_regs s s' /\
      modifies (fun a => pool_private a \/ F a) (mem s) (mem s') /\
      ((r = NULL /\ mem s' = mem s /\
        forall y, good_block kernel_end PHYSTOP power y ->
          ~ (forall a, y <= a < y + bsz power -> F a)) \/
       (good_block kernel_end PHYSTOP power r /\ r <> NULL /\
        (forall a, r <= a < r + bsz power -> F a) /\
        pool_owns (mem s') (without F power r)))) s;
  (** A block that is not free becomes free. *)
  deallocate_law F power x s :
    pool_owns (mem s) F -> good_block kernel_end PHYSTOP power x ->
    (forall a, x <= a < x + bsz power -> ~ F a) ->
    wp (deallocate x power) (fun _ s' => same_regs s s' /\
      modifies (fun a => pool_private a \/ with_block F power x a) (mem s) (mem s') /\
      pool_owns (mem s') (with_block F power x)) s;
  (** Releasing NULL does nothing. *)
  deallocate_null power s : deallocate NULL power s = Ok tt s
}.
