(* ===== verification/Capacity.v ===== *)
(** * How much memory is left

    [capacity F n]: [n] separate blocks of two pages are free.  Taking a page or
    a pair of pages costs at most one of them, so a bound on the number of
    allocations of an operation is a bound on the capacity it needs. *)

From S2P Require Import Prelude Machine BuddySpec PageAlloc.

Section Capacity.
Context `{Hw : Platform}.

Definition free_pair (F : Z -> Prop) (y : Z) : Prop :=
  good_block kernel_end PHYSTOP 1 y /\ forall a, y <= a < y + bsz 1 -> F a.

Definition capacity (F : Z -> Prop) (n : nat) : Prop :=
  exists l, length l = n /\ NoDup l /\ Forall (free_pair F) l.

Lemma capacity_sublist F (l : list Z) n : NoDup l -> Forall (free_pair F) l -> (n <= length l)%nat -> capacity F n.
Proof.
  intros Hnd Hl Hn. exists (take n l). split; [rewrite length_take; lia|]. split.
  - rewrite <-(take_drop n l) in Hnd. by apply NoDup_app in Hnd as [? _].
  - by apply Forall_take.
Qed.

Lemma capacity_le F n k : (k <= n)%nat -> capacity F n -> capacity F k.
Proof. intros Hk (l & <- & Hnd & Hl). by apply (capacity_sublist F l). Qed.

(** Blocks of up to two pages lie in one pair. *)
Lemma capacity_take F k x n : 0 <= k <= 1 -> good_block kernel_end PHYSTOP k x ->
  capacity F (S n) -> capacity (without F k x) n.
Proof.
  intros Hk (_ & [q Hq] & _) (l & Hlen & Hnd & Hl).
  set (y := x - x mod 8192). apply (capacity_sublist _ (filter (fun z => z <> y) l)).
  - by apply NoDup_filter.
  - apply Forall_forall. intros z [Hz Hin]%list_elem_of_filter.
    destruct (proj1 (Forall_forall _ _) Hl z Hin) as [Hg HF]. split; [done|]. intros a Ha. split; [by apply HF|].
    intros Hx. destruct Hg as (_ & [r Hr] & _). change (bsz 1) with 8192 in *.
    assert (k = 0 \/ k = 1) as [-> | ->] by lia.
    + change (bsz 0) with 4096 in *. apply Hz. unfold y. subst x z.
      pose proof (Z.div_mod (q * 4096) 8192 ltac:(lia)). pose proof (Z.mod_pos_bound (q * 4096) 8192 ltac:(lia)). lia.
    + change (bsz 1) with 8192 in *. apply Hz. unfold y. subst x z. rewrite Z.mod_mul by lia. lia.
  - assert (Hone : (length (filter (fun z => z <> y) l) + length (filter (fun z => z = y) l) = length l)%nat).
    { clear. induction l as [|z l IH]; [done|]. rewrite !filter_cons. simpl. repeat case_decide; simpl; try lia; done. }
    assert (length (filter (fun z => z = y) l) <= 1)%nat.
    { apply (NoDup_filter (fun z => z = y)) in Hnd. destruct (filter (fun z => z = y) l) as [|a [|b r]] eqn:E; simpl; [lia|lia|].
      exfalso. assert (Ha : forall z, z ∈ a :: b :: r -> z = y).
      { intros z Hz. rewrite <-E in Hz. by apply list_elem_of_filter in Hz as [? _]. }
      apply NoDup_cons in Hnd as [Hn _]. apply Hn. rewrite (Ha a), (Ha b) by set_solver. by left. }
    lia.
Qed.

(** With a pair left, a page or a pair can be had. *)
Lemma capacity_some F k n : 0 <= k <= 1 -> capacity F (S n) ->
  (forall y, good_block kernel_end PHYSTOP k y -> ~ (forall a, y <= a < y + bsz k -> F a)) -> False.
Proof.
  intros Hk (l & Hlen & _ & Hl) He. destruct l as [|y l]; [done|]. apply Forall_cons in Hl as [[Hg HF] _].
  destruct Hg as (Ho & [q Hq] & Hlo & Hhi). change (bsz 1) with 8192 in *.
  assert (k = 0 \/ k = 1) as [-> | ->] by lia.
  - apply (He y); change (bsz 0) with 4096.
    + split; [done|]. split; [exists (2 * q); change (bsz 0) with 4096; lia|]. change (bsz 0) with 4096. lia.
    + intros a Ha. apply HF. lia.
  - apply (He y); [|done]. split; [done|]. split; [by exists q|done].
Qed.

Lemma capacity_iff F G n : (forall a, F a <-> G a) -> capacity F n -> capacity G n.
Proof.
  intros HFG (l & Hlen & Hnd & Hl). exists l. split; [done|]. split; [done|].
  eapply Forall_impl; [exact Hl|]. intros y [Hg HF]. split; [done|]. intros a Ha. by apply HFG, HF.
Qed.

(** A free range of [n] pairs. *)
Lemma capacity_range F base n : (8192 | base) -> kernel_end <= base -> base + 8192 * Z.of_nat n <= PHYSTOP ->
  (forall a, base <= a < base + 8192 * Z.of_nat n -> F a) -> capacity F n.
Proof.
  intros [q Hq] Hlo Hhi HF. exists ((fun i => base + 8192 * Z.of_nat i) <$> seq 0 n).
  split; [by rewrite length_fmap, length_seq|]. split.
  - apply NoDup_fmap; [intros i j; lia|apply NoDup_seq].
  - apply Forall_fmap, Forall_forall. intros i [_ Hi]%elem_of_seq. simpl in *. change (bsz 1) with 8192. split.
    + split; [done|]. change (bsz 1) with 8192. split; [exists (q + Z.of_nat i); lia|lia].
    + change (bsz 1) with 8192. intros a Ha. apply HF. lia.
Qed.

End Capacity.
