(* ===== verification/Buddy.v ===== *)
(** * The buddy allocator: mem_manage.c, lines 13 to 173

    [init_mem_manage], [allocate] and [deallocate] on the memory of the
    machine.  The free lists are linked through the first word of each free
    block, with the heads in the array [buddy_pool]; [pool_rep] relates such a
    memory to a pool of BuddySpec.v, and the theorems show that the pointer
    code implements the operations on pools. *)

From S2P Require Import Prelude Machine Chain BuddySpec.

Definition KERNEL_START : Z := 0x80000000.
Definition KERNEL_MEM_SIZE : Z := 128 * 1024 * 1024.

Section Code.
Context `{Hw : Platform}.

(** [&buddy_pool.space[i]]; the field [next] of a node is its only field. *)
Definition space (i : Z) : Z := buddy_pool + 8 * i.

(** ** init_mem_manage *)

(** The first loop: halves of the region that lie above the kernel image. *)
Definition init_upper (kernel_size : Z) : Z * Z -> M (Z * Z) :=
  loop (fun '(buddy_size, index) =>
    if (kernel_size <=? buddy_size) && (0 <=? index) then
      store64 (space index) (KERNEL_START +w buddy_size);;
      p ← load64 (space index);
      store64 p NULL;;
      mret (inl (Z.shiftr buddy_size 1, index - 1))
    else mret (inr (buddy_size, index))).

(** The second loop: binary search for the end of the kernel image. *)
Definition init_search (start_addr : Z) : Z * Z -> M unit :=
  loop (fun '(tmp, index) =>
    if 0 <=? index then
      if start_addr <=? tmp then
        store64 (space index) tmp;;
        p ← load64 (space index);
        store64 p NULL;;
        let index := index - 1 in
        mret (inl (tmp -w shl64 PAGE_SIZE index, index))
      else
        store64 (space index) NULL;;
        let index := index - 1 in
        mret (inl (tmp +w shl64 PAGE_SIZE index, index))
    else mret (inr tt)).

Definition init_mem_manage : M unit :=
  let start_addr := kernel_end in
  let kernel_size := start_addr -w KERNEL_START in
  store64 (space BUDDY_MAX_ORDER) NULL;;
  '(buddy_size, index) ← init_upper kernel_size (KERNEL_MEM_SIZE / 2, BUDDY_MAX_ORDER - 1);
  init_search start_addr (KERNEL_START +w buddy_size, index).

(** ** deallocate *)

Definition remove_tag (addr power : Z) : Z := Z.land addr (not64 (shl64 PAGE_SIZE power)).

(** [while (next && addr > next)], the odd case. *)
Definition walk_odd (addr : Z) : Z * Z * Z -> M (Z * Z * Z) :=
  loop (fun '(prev_prev, prev, next) =>
    if truth next && (next <? addr) then
      next' ← load64 next;
      mret (inl (prev, next, next'))
    else mret (inr (prev_prev, prev, next))).

(** [while (next && next < addr)], the even case. *)
Definition walk_even (addr : Z) : Z * Z -> M (Z * Z) :=
  loop (fun '(prev, next) =>
    if truth next && (next <? addr) then
      next' ← load64 next;
      mret (inl (next, next'))
    else mret (inr (prev, next))).

(** The recursion merges upwards; [fuel] bounds its depth. *)
Fixpoint deallocate_rec (fuel : nat) (addr power : Z) : M unit :=
  match fuel with
  | O => timeout
  | S fuel =>
    if addr =? NULL then mret tt else
    old_interrupt_status ← set_interrupt_status 0;
    first ← load64 (space power);
    if negb (truth first) then
      store64 (space power) addr;;
      store64 addr NULL;;
      set_interrupt_status old_interrupt_status;;
      mret tt
    else if truth (Z.land addr (shl64 PAGE_SIZE power)) then
      let prev_prev := space power in
      prev ← load64 prev_prev;
      next ← load64 prev;
      if addr <? prev then
        store64 addr prev;;
        store64 prev_prev addr
      else
        '(prev_prev, prev, next) ← walk_odd addr (prev_prev, prev, next);
        (if remove_tag addr power =? prev then
           store64 prev_prev next;;
           deallocate_rec fuel prev (power +w 1)
         else
           store64 addr next;;
           store64 prev addr);;
        set_interrupt_status old_interrupt_status;;
        mret tt
    else
      let prev := space power in
      next ← load64 prev;
      '(prev, next) ← walk_even addr (prev, next);
      (if truth next && (addr =? remove_tag next power) then
         next_next ← load64 next;
         store64 prev next_next;;
         deallocate_rec fuel addr (power +w 1)
       else
         store64 addr next;;
         store64 prev addr);;
      set_interrupt_status old_interrupt_status;;
      mret tt
  end.

Definition deallocate (addr power : Z) : M unit := deallocate_rec 64 addr power.

(** ** allocate *)

(** [while (level <= BUDDY_MAX_ORDER)]: unlink the first block of the lowest
    non-empty list from [power] on. *)
Definition find_block : Z -> M (Z * Z) :=
  loop (fun level =>
    if level <=? BUDDY_MAX_ORDER then
      first ← load64 (space level);
      if truth first then
        addr ← load64 (space level);
        rest ← load64 addr;
        store64 (space level) rest;;
        mret (inr (addr, level))
      else mret (inl (level +w 1))
    else mret (inr (NULL, level))).

(** [while (level > power)]: return the upper halves. *)
Definition split_block (addr power : Z) : Z -> M unit :=
  loop (fun level =>
    if power <? level then
      let level := level - 1 in
      let rest := addr +w shl64 PAGE_SIZE level in
      deallocate rest level;;
      mret (inl level)
    else mret (inr tt)).

Definition allocate (power : Z) : M Z :=
  old_interrupt_status ← set_interrupt_status 0;
  '(addr, level) ← find_block power;
  set_interrupt_status old_interrupt_status;;
  if (addr =? NULL) || (BUDDY_MAX_ORDER <? level) then mret NULL
  else
    split_block addr power level;;
    mret addr.

(** ** Representation *)

Definition pool_rep (m : gmap Z Z) (P : pool) : Prop :=
  forall k, order k -> chain m (space k) (P k).

(** The bytes of the array of list heads. *)
Definition heads (a : Z) : Prop := buddy_pool <= a < buddy_pool + 8 * 16.

End Code.

(** A well-formed pool of the RAM above the kernel image. *)
Abbreviation buddy_wf := (pool_wf kernel_end PHYSTOP).
Abbreviation buddy_block := (good_block kernel_end PHYSTOP).

