(* ===== verification/BuddyProof.v ===== *)
(** * Correctness of the buddy allocator

    The pointer code of Buddy.v refines the pools of BuddySpec.v: it never
    faults, its loops terminate, and it computes exactly the abstract
    operations. *)

From S2P Require Import Prelude Machine Chain BuddySpec Buddy.

Section Proof.
Context `{Hw : Platform} {HwOk : PlatformOk Hw}.

(** ** Walking a list *)

Definition node_ok (y : Z) : Prop := in_ram y 8 = true /\ y <> 0.

Lemma walk_even_ok x p l s (Q : Z * Z -> state -> Prop) :
  chain (mem s) p l -> Forall node_ok l -> Z.of_nat (length l) < 2 ^ 64 ->
  (forall l1 l2, l = l1 ++ l2 -> Forall (fun y => y < x) l1 ->
     Forall (fun y => x <= y) (take 1 l2) -> Q (last_node p l1, hd0 l2) s) ->
  wp (walk_even x (p, hd0 l)) Q s.
Proof.
  intros Hc Hok Hlen HQ. unfold walk_even.
  apply (wp_loop (fun n pn s' => s' = s /\ exists l1 l2, l = l1 ++ l2 /\
    Forall (fun y => y < x) l1 /\ pn = (last_node p l1, hd0 l2) /\
    n = Z.of_nat (length l2)) (Z.of_nat (length l))); [|done|].
  { split; [done|]. exists [], l. done. }
  intros n [prev next] s' (-> & l1 & l2 & -> & Hl1 & [= -> ->] & ->). split; [lia|].
  destruct l2 as [|z l2].
  - simpl. wp_steps. apply HQ; [done..|]. constructor.
  - rewrite hd0_cons. apply Forall_app in Hok as [_ [Hz Hok]%Forall_cons].
    destruct Hz as [Hr Hz]. unfold truth. rewrite (proj2 (Z.eqb_neq z 0) Hz). simpl.
    destruct (Z.ltb_spec z x); wp_steps.
    + apply chain_tail in Hc as [_ Hc]. rewrite (chain_hd _ _ _ Hc).
      exists (Z.of_nat (length l2)). simpl. split; [lia|]. split; [done|].
      exists (l1 ++ [z]), l2. rewrite last_node_snoc, <-app_assoc. split_and!; [done| |done..].
      apply Forall_app. by repeat constructor.
    + apply (HQ l1 (z :: l2)); [done..|]. by repeat constructor.
Qed.

Lemma walk_odd_ok x p z l s (Q : Z * Z * Z -> state -> Prop) :
  chain (mem s) p (z :: l) -> z < x -> Forall node_ok l -> Z.of_nat (length l) < 2 ^ 64 ->
  (forall l1 y l2, z :: l = l1 ++ y :: l2 -> Forall (fun y => y < x) (l1 ++ [y]) ->
     Forall (fun y => x <= y) (take 1 l2) -> Q (last_node p l1, y, hd0 l2) s) ->
  wp (walk_odd x (p, z, hd0 l)) Q s.
Proof.
  intros Hc Hzx Hok Hlen HQ. unfold walk_odd.
  apply (wp_loop (fun n ppn s' => s' = s /\ exists l1 y l2, z :: l = l1 ++ y :: l2 /\
    Forall (fun y => y < x) (l1 ++ [y]) /\ Forall node_ok l2 /\
    ppn = (last_node p l1, y, hd0 l2) /\
    n = Z.of_nat (length l2)) (Z.of_nat (length l))); [|done|].
  { split; [done|]. exists [], z, l. split_and!; [done| |done..]. by repeat constructor. }
  intros n [[pp prev] next] s' (-> & l1 & y & l2 & Hl & Hl1 & Hok2 & [= -> -> ->] & ->).
  split; [lia|]. destruct l2 as [|w l2].
  - simpl. wp_steps. apply (HQ _ _ []); [done..|]. constructor.
  - rewrite hd0_cons. apply Forall_cons in Hok2 as [[Hr Hw0] Hok2].
    unfold truth. rewrite (proj2 (Z.eqb_neq w 0) Hw0). simpl.
    destruct (Z.ltb_spec w x); wp_steps.
    + assert (rd64 (mem s) w = hd0 l2) as ->.
      { rewrite Hl in Hc. apply chain_tail in Hc as (_ & _ & Hc). by apply chain_hd. }
      exists (Z.of_nat (length l2)). simpl. split; [lia|]. split; [done|].
      exists (l1 ++ [y]), w, l2. rewrite last_node_snoc, <-app_assoc.
      split_and!; [done| |done..]. apply Forall_app. split; [done|]. by repeat constructor.
    + apply (HQ l1 y (w :: l2)); [done..|]. by repeat constructor.
Qed.

(** ** Cells: list heads and listed blocks *)

Abbreviation wf := buddy_wf.
Abbreviation good := buddy_block.

Lemma region_ok : KERNBASE <= kernel_end /\ PHYSTOP <= PHYSTOP.
Proof. pose proof kernel_end_range. lia. Qed.

Lemma order_range k : order k -> 0 <= k <= 15.
Proof. done. Qed.

Lemma space_ok k : order k ->
  (8 | space k) /\ in_ram (space k) 8 = true /\ space k + 8 <= kernel_end /\
  forall a, space k <= a < space k + 8 -> heads a.
Proof.
  intros Hk%order_range. unfold space, heads, in_ram.
  pose proof buddy_pool_in_image. pose proof kernel_end_range. split_and!.
  - apply Z.divide_add_r; [apply buddy_pool_aligned|apply Z.divide_factor_l].
  - apply andb_true_iff. rewrite !Z.leb_le. lia.
  - lia.
  - lia.
Qed.

Lemma space_inj j k : space j = space k -> j = k.
Proof. unfold space. lia. Qed.

Lemma block_ok k x : good k x -> (8 | x) /\ node_ok x /\ kernel_end <= x.
Proof.
  intros (Hk & Hx & Hlo & Hhi). pose proof (order_nonneg _ Hk).
  pose proof (bsz_ge k). pose proof kernel_end_range. unfold KERNBASE in *.
  split_and!; [|split|done].
  - etrans; [|done]. etrans; [|by apply bsz_page]. by exists 512.
  - unfold in_ram. apply andb_true_iff. rewrite !Z.leb_le. unfold KERNBASE. lia.
  - lia.
Qed.

Definition cell (P : pool) (k y : Z) : Prop := order k /\ (y = space k \/ y ∈ P k).

Lemma cell_aligned P k y : wf P -> cell P k y -> (8 | y).
Proof.
  intros Hwf [Hk [->|Hy]]; [by apply space_ok|].
  apply (block_ok k), (wf_block _ _ _ Hwf). done.
Qed.

Lemma cell_in_ram P k y : wf P -> cell P k y -> in_ram y 8 = true.
Proof.
  intros Hwf [Hk [->|Hy]]; [by apply space_ok|].
  by apply (block_ok k y (wf_block _ _ _ Hwf k y (conj Hk Hy))).
Qed.

Lemma cell_ne P j k y z : wf P -> cell P j y -> cell P k z -> j <> k -> y <> z.
Proof.
  intros Hwf [Hj Hy] [Hk Hz] Hne Heq. subst z.
  pose proof (space_ok j Hj) as (_ & _ & ? & _).
  pose proof (space_ok k Hk) as (_ & _ & ? & _).
  destruct Hy as [->|Hy], Hz as [Hz|Hz].
  - by apply Hne, space_inj.
  - pose proof (block_ok k _ (wf_block _ _ _ Hwf k _ (conj Hk Hz))) as (_ & _ & ?). lia.
  - subst y. pose proof (block_ok j _ (wf_block _ _ _ Hwf j _ (conj Hj Hy))) as (_ & _ & ?). lia.
  - destruct (wf_disjoint _ _ _ Hwf j y k y) as [H1|H1]; [done|done|congruence| |];
      pose proof (bsz_pos j (order_nonneg _ Hj)); pose proof (bsz_pos k (order_nonneg _ Hk)); lia.
Qed.

Lemma cell_fresh P j k x y : wf P -> good k x -> apart P k x -> cell P j y -> y <> x.
Proof.
  intros Hwf Hg Ha [Hj Hy] ->. pose proof (block_ok _ _ Hg) as (_ & _ & ?).
  destruct Hy as [->|Hy].
  - pose proof (space_ok j Hj) as (_ & _ & ? & _). lia.
  - destruct Hg as [Hk _]. pose proof (bsz_pos j (order_nonneg _ Hj)).
    pose proof (bsz_pos k (order_nonneg _ Hk)).
    destruct (Ha j x (conj Hj Hy)); lia.
Qed.

Lemma cells_NoDup P k : wf P -> order k -> NoDup (space k :: P k).
Proof.
  intros Hwf Hk. constructor; [|by apply sorted_NoDup, Hwf].
  intros Hin. pose proof (block_ok k _ (wf_block _ _ _ Hwf k _ (conj Hk Hin))) as (_ & _ & ?).
  pose proof (space_ok k Hk) as (_ & _ & ? & _). lia.
Qed.

Lemma list_nodes_ok P k : wf P -> order k -> Forall node_ok (P k).
Proof.
  intros Hwf Hk. apply Forall_forall. intros y Hy.
  by apply (block_ok k), (wf_block _ _ _ Hwf).
Qed.

(** Fuel for the walks: a list has at most as many nodes as the RAM has bytes. *)
Lemma list_length_bound P k : wf P -> order k -> Z.of_nat (length (P k)) < 2 ^ 64.
Proof.
  intros Hwf Hk.
  enough (Z.of_nat (length (P k)) <= PHYSTOP - 0) by (unfold PHYSTOP, KERNBASE in *; lia).
  apply sorted_length; [by apply Hwf| |done]. apply Forall_forall. intros y Hy.
  destruct (wf_block _ _ _ Hwf k y (conj Hk Hy)) as (_ & _ & ? & ?).
  pose proof kernel_end_range. pose proof (bsz_pos k (order_nonneg _ Hk)).
  unfold KERNBASE in *. lia.
Qed.

(** ** Changing one list in memory *)

Lemma rep_upd m m' P k l' :
  pool_rep m P -> chain m' (space k) l' ->
  (forall j y, cell P j y -> j <> k -> rd64 m' y = rd64 m y) ->
  pool_rep m' (<[k := l']> P).
Proof.
  intros Hr Hc Hf j Hj. destruct (decide (k = j)) as [->|Hne].
  - by rewrite fn_lookup_insert.
  - rewrite fn_lookup_insert_ne by done. eapply chain_frame; [by apply Hr|].
    intros y Hy%elem_of_cons. by apply (Hf j).
Qed.

Section Split.
Context (P : pool) (k : Z) (l1 l2 : list Z) (m m' : gmap Z Z).
Hypotheses (Hwf : wf P) (Hk : order k) (Hrep : pool_rep m P).
Let q := last_node (space k) l1.

Lemma prefix_cell : (exists r, P k = l1 ++ r) -> cell P k q.
Proof.
  intros [r Hr]. split; [done|]. destruct (last_node_elem (space k) l1) as [H|H].
  - by left.
  - right. rewrite Hr. apply elem_of_app. by left.
Qed.

Lemma prefix_NoDup r : P k = l1 ++ r ->
  NoDup (space k :: l1) /\ forall y, y ∈ r -> y <> q.
Proof.
  intros Hr. pose proof (cells_NoDup P k Hwf Hk) as Hnd. rewrite Hr in Hnd.
  rewrite app_comm_cons in Hnd. apply NoDup_app in Hnd as (H1 & H2 & _).
  split; [done|]. intros y Hy ->. apply (H2 q); [|done].
  apply elem_of_cons. apply last_node_elem.
Qed.

Lemma rep_insert x :
  P k = l1 ++ l2 -> good k x -> apart P k x ->
  rd64 m' q = x -> rd64 m' x = hd0 l2 ->
  (forall y, (8 | y) -> y <> x -> y <> q -> rd64 m' y = rd64 m y) ->
  pool_rep m' (<[k := l1 ++ x :: l2]> P).
Proof.
  intros Hs Hg Ha Hq Hx Hf. destruct (prefix_NoDup _ Hs) as [Hnd Hl2].
  assert (Hcell : forall j y, cell P j y -> y <> q -> rd64 m' y = rd64 m y).
  { intros j y Hy Hne. apply Hf; [by eapply cell_aligned|by eapply cell_fresh|done]. }
  apply (rep_upd m); [done| |].
  - apply (chain_insert m); [|done..| |done].
    + rewrite <-Hs. by apply Hrep.
    + intros y Hy Hne. apply (Hcell k); [|done]. split; [done|].
      rewrite Hs. by apply elem_of_cons.
  - intros j y Hy Hne. apply (Hcell j); [done|].
    apply (cell_ne P j k); [done..| |done]. apply prefix_cell. by exists l2.
Qed.

Lemma rep_remove x :
  P k = l1 ++ x :: l2 -> rd64 m' q = hd0 l2 ->
  (forall y, (8 | y) -> y <> q -> rd64 m' y = rd64 m y) ->
  pool_rep m' (<[k := l1 ++ l2]> P).
Proof.
  intros Hs Hq Hf. destruct (prefix_NoDup _ Hs) as [Hnd Hl2].
  apply (rep_upd m); [done| |].
  - apply (chain_remove m m' _ l1 x); [|done..| |].
    + rewrite <-Hs. by apply Hrep.
    + intros y Hy Hne. apply Hf; [|done]. apply (cell_aligned P k); [done|]. split; [done|].
      rewrite Hs. set_solver.
    + intros y Hy. apply Hl2. set_solver.
  - intros j y Hy Hne. apply Hf; [by eapply cell_aligned|].
    apply (cell_ne P j k); [done..| |done]. apply prefix_cell. by exists (x :: l2).
Qed.

End Split.

(** ** The tests on addresses *)

Lemma page_shift k : order k -> shl64 PAGE_SIZE k = bsz k.
Proof.
  intros Hk%order_range. unfold shl64, bsz, PAGE_SIZE.
  rewrite (Z.mod_small k 64), Z.shiftl_mul_pow2 by lia.
  change 4096 with (2 ^ 12). rewrite <-Z.pow_add_r by lia. apply w64_small.
  split; [apply Z.pow_nonneg; lia|]. apply Z.pow_lt_mono_r; lia.
Qed.

Lemma odd_test k x : order k -> truth (Z.land x (shl64 PAGE_SIZE k)) = odd_block k x.
Proof.
  intros Hk. rewrite page_shift by done. pose proof (order_range _ Hk).
  unfold bsz. rewrite land_pow2 by lia. unfold odd_block, truth.
  destruct (Z.testbit x (12 + k)); [|done].
  pose proof (bsz_pos k ltac:(lia)). unfold bsz in *.
  by rewrite (proj2 (Z.eqb_neq _ _)) by lia.
Qed.

Lemma remove_tag_spec k x : order k -> 0 <= x < 2 ^ 64 ->
  remove_tag x k = if odd_block k x then x - bsz k else x.
Proof.
  intros Hk Hx. unfold remove_tag. rewrite page_shift by done.
  pose proof (order_range _ Hk). apply land_not_pow2; [|done]. lia.
Qed.

Lemma block_range k x : good k x -> 0 <= x < 2 ^ 64.
Proof.
  intros (Hk & _ & ? & ?). pose proof (bsz_pos k (order_nonneg _ Hk)).
  pose proof kernel_end_range. unfold PHYSTOP, KERNBASE in *. lia.
Qed.

(** ** Where the buddy sits in a split list *)

Lemma split_gt l1 l2 x :
  StronglySorted Z.lt (l1 ++ l2) -> Forall (fun y => x <= y) (take 1 l2) ->
  x ∉ l1 ++ l2 -> Forall (fun y => x < y) l2.
Proof.
  intros Hs Hh Hx. apply StronglySorted_app_1_r in Hs.
  destruct l2 as [|z l2]; [done|]. apply Forall_cons in Hh as [Hz _].
  assert (x < z) by (assert (x <> z) by set_solver; lia).
  constructor; [done|]. apply StronglySorted_inv in Hs as [_ Hs].
  eapply Forall_impl; [exact Hs|]. simpl. intros. lia.
Qed.

Section Buddies.
Context (P : pool) (k x : Z).
Hypotheses (Hwf : wf P) (Hg : good k x) (Ha : apart P k x).

Lemma not_listed : x ∉ P k.
Proof.
  pose proof Hg as [Hk _]. destruct (apart_not_listed P k x); [by apply order_nonneg|done..].
Qed.

Lemma in_list_good y : y ∈ P k -> good k y.
Proof. intros. apply (wf_block _ _ _ Hwf). split; [apply Hg|done]. Qed.

Lemma gap y z : y ∈ P k \/ y = x -> z ∈ P k \/ z = x -> y < z -> y + bsz k <= z.
Proof.
  pose proof Hg as (Hk & _). intros Hy Hz. apply aligned_step; [by apply order_nonneg| |].
  - destruct Hy as [?%in_list_good| ->]; [|apply Hg]. apply H.
  - destruct Hz as [?%in_list_good| ->]; [|apply Hg]. apply H.
Qed.

(** Odd block above its predecessor [y]. *)
Lemma odd_buddy l1 y l2 :
  P k = l1 ++ y :: l2 -> Forall (fun z => z < x) (l1 ++ [y]) ->
  Forall (fun z => x < z) l2 -> odd_block k x = true ->
  (remove_tag x k =? y) = bool_decide (buddy k x ∈ P k) /\
  (buddy k x ∈ P k -> buddy k x = y).
Proof.
  intros Hs H1 H2 Hodd. pose proof Hg as [Hk _].
  pose proof (bsz_pos k (order_nonneg _ Hk)).
  rewrite remove_tag_spec, Hodd by (done || by eapply block_range).
  unfold buddy. rewrite Hodd.
  assert (x - bsz k ∈ P k -> x - bsz k = y) as Hb.
  { intros Hin. rewrite Forall_forall in H1, H2.
    assert (y ∈ P k) as Hy by (rewrite Hs; set_solver).
    assert (y < x) by (apply H1; set_solver).
    destruct (Z.lt_trichotomy (x - bsz k) y) as [Hlt|[Heq|Hgt]]; [|done|].
    - pose proof (gap _ y (or_introl Hin) (or_introl Hy) Hlt). lia.
    - pose proof (wf_sorted _ _ _ Hwf k Hk) as Hso. rewrite Hs in Hso, Hin.
      apply elem_of_app in Hin as [Hin|[->|Hin]%elem_of_cons]; [|lia|].
      + pose proof (StronglySorted_app_1_elem_of _ _ _ _ y Hso Hin ltac:(set_solver)). lia.
      + specialize (H2 _ Hin). lia. }
  split; [|done]. destruct (Z.eqb_spec (x - bsz k) y) as [Heq|Hne].
  - rewrite bool_decide_true; [done|]. rewrite Heq, Hs. set_solver.
  - rewrite bool_decide_false; [done|]. auto.
Qed.

(** Even block below its successors [l2]. *)
Lemma even_buddy l1 l2 :
  P k = l1 ++ l2 -> Forall (fun z => z < x) l1 -> Forall (fun z => x < z) l2 ->
  odd_block k x = false ->
  truth (hd0 l2) && (x =? remove_tag (hd0 l2) k) = bool_decide (buddy k x ∈ P k) /\
  (buddy k x ∈ P k -> exists l2', l2 = buddy k x :: l2').
Proof.
  intros Hs H1 H2 Hodd. pose proof Hg as [Hk _].
  pose proof (bsz_pos k (order_nonneg _ Hk)).
  assert (Hbx : buddy k x = x + bsz k) by (unfold buddy; by rewrite Hodd).
  assert (buddy k x ∈ P k -> exists l2', l2 = buddy k x :: l2') as Hb.
  { rewrite Hbx. intros Hin. pose proof Hin as Hin'. rewrite Hs in Hin'.
    rewrite Forall_forall in H1, H2. apply elem_of_app in Hin' as [Hin'|Hin'].
    { specialize (H1 _ Hin'). lia. }
    destruct l2 as [|z l2]; [by apply not_elem_of_nil in Hin'|].
    assert (z ∈ P k) as Hz by (rewrite Hs; set_solver).
    assert (x < z) by (apply H2; set_solver).
    pose proof (gap x z (or_intror eq_refl) (or_introl Hz) ltac:(done)).
    apply elem_of_cons in Hin' as [->|Hin']; [by exists l2|].
    pose proof (wf_sorted _ _ _ Hwf k Hk) as Hso. rewrite Hs in Hso.
    apply StronglySorted_app_1_r, StronglySorted_inv in Hso as [_ Hso].
    rewrite Forall_forall in Hso. specialize (Hso _ Hin'). lia. }
  split; [|done]. destruct l2 as [|z l2].
  - simpl. rewrite bool_decide_false; [done|]. intros [? ?]%Hb. done.
  - rewrite hd0_cons.
    assert (z ∈ P k) as Hz by (rewrite Hs; set_solver).
    pose proof (in_list_good _ Hz) as Hgz. pose proof (block_ok _ _ Hgz) as (_ & [_ Hz0] & _).
    unfold truth. rewrite (proj2 (Z.eqb_neq z 0) Hz0). simpl.
    rewrite remove_tag_spec by (done || by eapply block_range).
    apply Forall_cons in H2 as [Hxz _].
    destruct (odd_block k z) eqn:Hoz.
    + destruct (Z.eqb_spec x (z - bsz k)) as [Heq|Hne].
      * rewrite bool_decide_true; [done|]. rewrite Hbx.
        by replace (x + bsz k) with z by lia.
      * rewrite bool_decide_false; [done|]. intros [l Hl]%Hb. injection Hl as -> ->. lia.
    + rewrite (proj2 (Z.eqb_neq x z)) by lia.
      rewrite bool_decide_false; [done|]. intros [l Hl]%Hb. injection Hl as -> ->.
      destruct Hg as (_ & Hal & _).
      rewrite buddy_odd_block, Hodd in Hoz by (done || by apply order_nonneg). done.
Qed.

End Buddies.

(** ** Release *)

(** What a release of block [x] of order [k] may write. *)
Definition touched (P : pool) (k x a : Z) : Prop :=
  heads a \/ free P a \/ x <= a < x + bsz k.

Lemma touched_cell P k x y a :
  wf P -> cell P k y -> y <= a < y + 8 -> touched P k x a.
Proof.
  intros Hwf [Hk [->|Hy]] Ha.
  - left. by apply (space_ok k).
  - right. left. exists k, y. split; [done|]. pose proof (bsz_ge k (order_nonneg _ Hk)). lia.
Qed.

Lemma touched_block P k x a : order k -> x <= a < x + 8 -> touched P k x a.
Proof.
  intros Hk Ha. right. right. pose proof (bsz_ge k (order_nonneg _ Hk)). lia.
Qed.

Definition release_post (n : nat) (P : pool) (k x : Z) (s s' : state) : Prop :=
  pool_rep (mem s') (pool_insert n P x k) /\ same_regs s s' /\
  modifies (touched P k x) (mem s) (mem s').

Lemma release_post_csr n P k x s s' v :
  release_post n P k x s s' -> release_post n P k x s (set_csr sstatus v s').
Proof. intros (?&?&?). split_and!; [done|by apply same_regs_csr_r|done]. Qed.

Section Step.
Context (P : pool) (k x : Z) (n : nat) (s s' : state).
Hypotheses (Hwf : wf P) (Hg : good k x) (Ha : apart P k x) (Hrep : pool_rep (mem s) P).

Lemma release_insert l1 l2 :
  P k = l1 ++ l2 -> Forall (fun y => y < x) l1 -> Forall (fun y => x < y) l2 ->
  buddy k x ∉ P k -> same_regs s s' ->
  mem s' = wr64 (wr64 (mem s) x (hd0 l2)) (last_node (space k) l1) x \/
  mem s' = wr64 (wr64 (mem s) (last_node (space k) l1) x) x (hd0 l2) ->
  release_post (S n) P k x s s'.
Proof.
  intros Hs H1 H2 Hb Hregs Hm. pose proof Hg as [Hk _].
  assert (Hcell : cell P k (last_node (space k) l1)) by (by apply prefix_cell; [|exists l2]).
  set (q := last_node (space k) l1) in *.
  pose proof (cell_aligned _ _ _ Hwf Hcell) as Hq8.
  pose proof (cell_fresh _ _ _ _ _ Hwf Hg Ha Hcell) as Hqx.
  destruct (block_ok _ _ Hg) as (Hx8 & _ & _).
  assert (Hxr : 0 <= x < 2 ^ 64) by by eapply block_range.
  assert (Hh : 0 <= hd0 l2 < 2 ^ 64).
  { destruct l2 as [|z l2]; [done|]. apply (block_range k).
    apply (wf_block _ _ _ Hwf). split; [done|]. simpl. rewrite Hs. set_solver. }
  split_and!; [|done|].
  - simpl. rewrite decide_False by done. rewrite Hs, ins_split by done.
    apply (rep_insert P k l1 l2 (mem s)); [done..| | |].
    + destruct Hm as [-> | ->].
      * by rewrite rd64_wr64_same.
      * by rewrite rd64_wr64_ne, rd64_wr64_same.
    + destruct Hm as [-> | ->].
      * by rewrite rd64_wr64_ne, rd64_wr64_same.
      * by rewrite rd64_wr64_same.
    + intros y Hy Hne1 Hne2. destruct Hm as [-> | ->]; by rewrite !rd64_wr64_ne.
  - assert (forall m v, modifies (touched P k x) m (wr64 m x v)) as Hmx.
    { intros m v. apply modifies_wr. intros b Hbr. by apply touched_block. }
    assert (forall m v, modifies (touched P k x) m (wr64 m q v)) as Hmq.
    { intros m v. apply modifies_wr. intros b Hbr. by eapply touched_cell. }
    destruct Hm as [-> | ->].
    + apply (modifies_trans _ _ _ _ (Hmx _ _) (Hmq _ _)).
    + apply (modifies_trans _ _ _ _ (Hmq _ _) (Hmx _ _)).
Qed.

(** Unlinking the listed buddy and releasing the merged block. *)
Lemma release_merge l1 l2 m1 s1 :
  P k = l1 ++ buddy k x :: l2 -> mem s1 = m1 -> same_regs s s1 ->
  m1 = wr64 (mem s) (last_node (space k) l1) (hd0 l2) ->
  let P1 := <[k := l1 ++ l2]> P in
  let y := Z.min x (buddy k x) in
  wf P1 /\ good (k + 1) y /\ apart P1 (k + 1) y /\ pool_rep m1 P1 /\
  (release_post n P1 (k + 1) y s1 s' -> release_post (S n) P k x s s').
Proof.
  intros Hs Hs1 Hregs Hm1 P1 y. pose proof Hg as [Hk _].
  pose proof (order_nonneg _ Hk) as Hk0. subst m1.
  assert (Hb : buddy k x ∈ P k) by (rewrite Hs; set_solver).
  assert (Hdel : P1 = <[k := del (buddy k x) (P k)]> P).
  { subst P1. rewrite Hs. rewrite del_split; [done|]. rewrite <-Hs.
    by apply sorted_NoDup, Hwf. }
  assert (Hcell : cell P k (last_node (space k) l1)).
  { apply prefix_cell; [done|]. by exists (buddy k x :: l2). }
  pose proof (cell_aligned _ _ _ Hwf Hcell) as Hq8.
  assert (Hh : 0 <= hd0 l2 < 2 ^ 64).
  { destruct l2 as [|z l2]; [done|]. apply (block_range k).
    apply (wf_block _ _ _ Hwf). split; [done|]. simpl. rewrite Hs. set_solver. }
  split_and!.
  - rewrite Hdel. by apply wf_del.
  - apply (good_merge region_ok); [done|]. by apply (wf_block _ _ _ Hwf).
  - rewrite Hdel. by apply (apart_merge (lo := kernel_end) (hi := PHYSTOP)).
  - rewrite Hm1. apply (rep_remove P k l1 l2 (mem s) _ Hwf Hk Hrep (buddy k x)); [done| |].
    + by rewrite rd64_wr64_same.
    + intros z Hz Hne. by rewrite rd64_wr64_ne.
  - intros (Hrep' & Hregs' & Hmod). split_and!.
    + simpl. rewrite decide_True by done. by rewrite <-Hdel.
    + by transitivity s1.
    + apply (modifies_trans _ _ (mem s1)).
      * rewrite Hm1. apply modifies_wr. intros b Hbr. by eapply touched_cell.
      * eapply modifies_weaken; [|exact Hmod]. intros a [?|[Hf|Hf]]; [by left| |].
        -- right. left. rewrite Hdel in Hf. by apply (free_del P k (buddy k x) a Hwf) in Hf as [? _].
        -- apply merge_halves in Hf as [Hf|Hf]; [by right; right| |done].
           right. left. by exists k, (buddy k x).
Qed.

End Step.

(** The correctness of one level, given that of the levels above. *)
Definition rec_ok (n : nat) : Prop := forall P k x s,
  wf P -> good k x -> apart P k x -> pool_rep (mem s) P -> 16 - k <= Z.of_nat n ->
  wp (deallocate_rec n x k) (fun _ s' => release_post n P k x s s') s.

Section Level.
Context (P : pool) (k x v : Z) (n : nat) (s : state).
Hypotheses (Hwf : wf P) (Hg : good k x) (Ha : apart P k x) (Hrep : pool_rep (mem s) P).
Hypotheses (Hn : 16 - k <= Z.of_nat (S n)) (IH : rec_ok n).

(** The two ends of a level: the writes that link the block, and the write
    that unlinks the buddy before the recursive call. *)
Lemma link_ok l1 l2 :
  P k = l1 ++ l2 -> Forall (fun y => y < x) l1 -> Forall (fun y => x < y) l2 ->
  buddy k x ∉ P k ->
  wp (store64 x (hd0 l2);; store64 (last_node (space k) l1) x)
     (fun _ s' => release_post (S n) P k x s s') (set_csr sstatus v s).
Proof.
  intros Hs H1 H2 Hb. destruct (block_ok _ _ Hg) as (_ & [Hx _] & _).
  wp_steps.
  - apply (cell_in_ram P k); [done|]. apply prefix_cell; [apply Hg|]. by exists l2.
  - apply (release_insert P k x n s _ Hwf Hg Ha Hrep l1 l2); [done..|eauto with kernel|by left].
Qed.

Lemma unlink_ok l1 l2 y :
  P k = l1 ++ buddy k x :: l2 -> y = Z.min x (buddy k x) ->
  wp (store64 (last_node (space k) l1) (hd0 l2);; deallocate_rec n y (k +w 1))
     (fun _ s' => release_post (S n) P k x s s') (set_csr sstatus v s).
Proof.
  intros Hs ->. pose proof Hg as [Hk _]. pose proof (order_range _ Hk).
  wp_steps.
  { apply (cell_in_ram P k); [done|]. apply prefix_cell; [done|]. by eexists. }
  rewrite w64_small by lia.
  set (s1 := set_mem _ _).
  assert (same_regs s s1) as Hregs by eauto with kernel.
  destruct (release_merge P k x n s s Hwf Hg Ha Hrep l1 l2 _ s1 Hs eq_refl Hregs eq_refl)
    as (H1 & H2 & H3 & H4 & _).
  eapply wp_mono; [apply (IH _ _ _ _ H1 H2 H3 H4); lia|].
  intros [] s' Hpost.
  by apply (release_merge P k x n s s' Hwf Hg Ha Hrep l1 l2 _ s1 Hs eq_refl Hregs eq_refl).
Qed.

Lemma odd_level z l :
  P k = z :: l -> odd_block k x = true -> z < x ->
  wp (walk_odd x (space k, z, hd0 l)) (fun '(prev_prev, prev, next) =>
      wp (if remove_tag x k =? prev
          then store64 prev_prev next;; deallocate_rec n prev (k +w 1)
          else store64 x next;; store64 prev x)
         (fun _ s' => release_post (S n) P k x s s')) (set_csr sstatus v s).
Proof.
  intros HPk Hodd Hzx. pose proof Hg as [Hk _]. pose proof (Hrep k Hk) as Hc.
  pose proof (list_nodes_ok P k Hwf Hk) as Hnodes.
  pose proof (list_length_bound P k Hwf Hk) as Hlen.
  rewrite HPk in Hc, Hnodes, Hlen. apply Forall_cons in Hnodes as [_ Hnodes].
  apply walk_odd_ok; [done..|simpl in Hlen; lia|].
  intros l1 y l2 Hsplit Hl1 Hl2. rewrite Hsplit in HPk.
  assert (Hxnl : x ∉ P k) by by apply not_listed.
  assert (Hgt : Forall (fun y => x < y) l2).
  { apply (split_gt (l1 ++ [y])); rewrite <-?app_assoc; simpl; rewrite <-?HPk;
      [by apply Hwf|done..]. }
  destruct (odd_buddy P k x Hwf Hg Ha l1 y l2 HPk Hl1 Hgt Hodd) as [-> Hby].
  case_bool_decide as Hb.
  - rewrite <-(Hby Hb) in *.
    apply unlink_ok; [done|].
    unfold buddy. rewrite Hodd. pose proof (bsz_pos k (order_nonneg _ Hk)). lia.
  - pose proof (link_ok (l1 ++ [y]) l2) as Hlink.
    rewrite last_node_snoc in Hlink. apply Hlink; [by rewrite <-app_assoc|done..].
Qed.

Lemma even_level :
  odd_block k x = false ->
  wp (walk_even x (space k, hd0 (P k))) (fun '(prev, next) =>
      wp (if truth next && (x =? remove_tag next k)
          then next_next ← load64 next; store64 prev next_next;;
               deallocate_rec n x (k +w 1)
          else store64 x next;; store64 prev x)
         (fun _ s' => release_post (S n) P k x s s')) (set_csr sstatus v s).
Proof.
  intros Hodd. pose proof Hg as [Hk _]. pose proof (Hrep k Hk) as Hc.
  apply walk_even_ok; [done|by apply list_nodes_ok|by apply list_length_bound|].
  intros l1 l2 HPk Hl1 Hl2.
  assert (Hxnl : x ∉ P k) by by apply not_listed.
  assert (Hgt : Forall (fun y => x < y) l2).
  { apply (split_gt l1); rewrite <-?HPk; [by apply Hwf|done..]. }
  destruct (even_buddy P k x Hwf Hg Ha l1 l2 HPk Hl1 Hgt Hodd) as [-> Hby].
  case_bool_decide as Hb.
  - destruct (Hby Hb) as [l2' ->]. rewrite hd0_cons.
    apply wp_bind, wp_load.
    { apply (cell_in_ram P k); [done|]. split; [done|]. by right. }
    simpl mem. rewrite HPk in Hc. apply chain_tail in Hc as [_ Hc].
    rewrite (chain_hd _ _ _ Hc).
    apply unlink_ok; [done|].
    unfold buddy. rewrite Hodd. pose proof (bsz_pos k (order_nonneg _ Hk)). lia.
  - by apply link_ok.
Qed.

End Level.

Lemma deallocate_rec_ok n : rec_ok n.
Proof.
  induction n as [|n IH]; intros P k x s Hwf Hg Ha Hrep Hn.
  { destruct Hg as [?%order_range _]. lia. }
  pose proof Hg as [Hk _].
  destruct (block_ok _ _ Hg) as (_ & [Hxram Hx0] & _).
  pose proof (space_ok k Hk) as (_ & Hspram & _).
  pose proof (Hrep k Hk) as Hc.
  assert (Hso := wf_sorted _ _ _ Hwf k Hk).
  assert (Hxnl : x ∉ P k) by by apply not_listed.
  simpl deallocate_rec. unfold NULL in *. rewrite (proj2 (Z.eqb_neq x 0)) by done.
  wp_steps. simpl mem. rewrite (chain_hd _ _ _ Hc).
  destruct (P k) as [|z l] eqn:HPk.
  { simpl. wp_steps.
    eapply (release_insert P k x n s _ Hwf Hg Ha Hrep [] []);
      [done|constructor..|by rewrite HPk; apply not_elem_of_nil|eauto with kernel|by right]. }
  rewrite hd0_cons. pose proof (list_nodes_ok P k Hwf Hk) as Hnodes.
  rewrite HPk in Hnodes. apply Forall_cons in Hnodes as [[Hzram Hz0] _].
  assert (truth z = true) as -> by (unfold truth; by rewrite (proj2 (Z.eqb_neq z 0))).
  simpl negb. cbv iota. rewrite odd_test by done.
  destruct (odd_block k x) eqn:Hodd.
  - wp_step. wp_step. simpl mem. rewrite (chain_hd _ _ _ Hc), hd0_cons.
    wp_step. wp_step. simpl mem. destruct Hc as [_ Hc]. rewrite (chain_hd _ _ _ Hc).
    destruct (Z.ltb_spec x z) as [Hxz|Hxz].
    + apply (link_ok P k x _ n s Hwf Hg Ha Hrep [] (z :: l)); [done|constructor| |].
      * apply (split_gt [] (z :: l)); [done|by repeat constructor; lia|done].
      * rewrite HPk. intros Hb. unfold buddy in Hb. rewrite Hodd in Hb.
        apply StronglySorted_inv in Hso as [_ Hso]. rewrite Forall_forall in Hso.
        pose proof (bsz_pos k (order_nonneg _ Hk)).
        apply elem_of_cons in Hb as [Hb|Hb]; [lia|]. specialize (Hso _ Hb). lia.
    + assert (z < x) by (assert (x <> z) by set_solver; lia).
      apply wp_bind. eapply wp_mono; [by apply (odd_level P k x _ n s)|].
      intros [[pp prev] next] s' Hs'. apply wp_bind. eapply wp_mono; [exact Hs'|].
      intros [] s'' Hpost. wp_steps. by apply release_post_csr.
  - wp_step. wp_step. simpl mem. rewrite (chain_hd _ _ _ Hc), <-HPk.
    apply wp_bind. eapply wp_mono; [by apply (even_level P k x _ n s)|].
    intros [prev next] s' Hs'. apply wp_bind. eapply wp_mono; [exact Hs'|].
    intros [] s'' Hpost. wp_steps. by apply release_post_csr.
Qed.

Lemma deallocate_ok P k x s :
  wf P -> good k x -> apart P k x -> pool_rep (mem s) P ->
  wp (deallocate x k) (fun _ s' => release_post 64 P k x s s') s.
Proof.
  intros Hwf Hg Ha Hrep. apply deallocate_rec_ok; [done..|].
  destruct Hg as [?%order_range _]. lia.
Qed.

(** ** Acquisition *)

Lemma find_block_ok P power s :
  wf P -> pool_rep (mem s) P -> 0 <= power < 2 ^ 64 ->
  wp (find_block power) (fun '(addr, level) s' =>
    (addr = NULL /\ 15 < level /\ s' = s /\ (forall j, power <= j <= 15 -> P j = [])) \/
    (power <= level <= 15 /\ (forall j, power <= j < level -> P j = []) /\
     exists l, P level = addr :: l /\
       s' = set_mem (wr64 (mem s) (space level) (hd0 l)) s)) s.
Proof.
  intros Hwf Hrep Hp. unfold find_block.
  apply (wp_loop (fun n level s' => s' = s /\ power <= level < 2 ^ 64 /\ n = Z.max 0 (16 - level) /\
    (forall j, power <= j < level -> j <= 15 -> P j = [])) (Z.max 0 (16 - power))); [|lia|].
  { repeat split; [lia..|]. intros. lia. }
  intros n level s' (-> & Hlev & -> & Hempty). split; [lia|].
  unfold BUDDY_MAX_ORDER. destruct (Z.leb_spec level 15) as [Hle|Hgt].
  2:{ wp_steps. left. split_and!; [done|lia|done|]. intros j Hj. apply Hempty; lia. }
  assert (Ho : order level) by (unfold order, BUDDY_MAX_ORDER; lia).
  pose proof (space_ok level Ho) as (_ & Hram & _). pose proof (Hrep level Ho) as Hc.
  wp_step. wp_step. rewrite (chain_hd _ _ _ Hc).
  destruct (P level) as [|x l] eqn:HP.
  - simpl. wp_steps. exists (Z.max 0 (16 - (level + 1))). rewrite w64_small by lia. split; [lia|].
    repeat split; [lia..|]. intros j Hj Hj'.
    destruct (decide (j = level)) as [->|]; [done|]. apply Hempty; lia.
  - pose proof (list_nodes_ok P level Hwf Ho) as Hnodes. rewrite HP in Hnodes.
    apply Forall_cons in Hnodes as [[Hxram Hx] _].
    assert (truth (hd0 (x :: l)) = true) as ->.
    { unfold truth. by rewrite hd0_cons, (proj2 (Z.eqb_neq x 0) Hx). }
    wp_step. wp_step. rewrite (chain_hd _ _ _ Hc), hd0_cons. destruct Hc as [_ Hc].
    wp_steps. right. split; [lia|]. split; [intros j Hj; apply Hempty; lia|].
    exists l. by rewrite (chain_hd _ _ _ Hc).
Qed.

(** The free bytes, and what an acquisition may write. *)
Definition carved (F : Z -> Prop) (x k a : Z) : Prop := F a /\ ~ (x <= a < x + bsz k).
Definition taken (P : pool) (a : Z) : Prop := heads a \/ free P a.

Lemma good_half k x j : good k x -> 0 <= j < k -> good j (x + bsz j).
Proof.
  intros (Hk%order_range & Hx & ? & ?) Hj.
  assert (bsz (j + 1) <= bsz k) by (apply bsz_mono; lia). rewrite bsz_succ in * by lia.
  split; [unfold order, BUDDY_MAX_ORDER; lia|]. pose proof (bsz_pos j). split_and!; [|lia..].
  apply Z.divide_add_r; [|done]. etrans; [|exact Hx]. apply bsz_divide. lia.
Qed.

Lemma good_shrink k x j : good k x -> 0 <= j <= k -> good j x.
Proof.
  intros (Hk%order_range & Hx & ? & ?) Hj.
  assert (bsz j <= bsz k) by (apply bsz_mono; lia).
  split; [unfold order, BUDDY_MAX_ORDER; lia|]. split_and!; [|lia..].
  etrans; [|exact Hx]. by apply bsz_divide.
Qed.

Lemma split_block_ok P0 P x k power s :
  wf P -> good k x -> pool_rep (mem s) P -> 0 <= power <= k ->
  (forall a, free P a <-> carved (free P0) x k a) ->
  (forall a, x <= a < x + bsz k -> free P0 a) ->
  wp (split_block x power k) (fun _ s' => exists P',
    wf P' /\ pool_rep (mem s') P' /\ same_regs s s' /\
    modifies (taken P0) (mem s) (mem s') /\
    (forall a, free P' a <-> carved (free P0) x power a)) s.
Proof.
  intros Hwf Hg Hrep Hpow HF Hx0. unfold split_block.
  apply (wp_loop (fun n level s' => power <= level <= k /\ n = level - power /\ exists P',
    wf P' /\ pool_rep (mem s') P' /\ same_regs s s' /\
    modifies (taken P0) (mem s) (mem s') /\
    (forall a, free P' a <-> carved (free P0) x level a)) (k - power));
    [| destruct Hg as [?%order_range _]; lia |].
  { repeat split; [lia..|]. by exists P. }
  clear P Hwf Hrep HF.
  intros n level s' (Hlev & -> & P & Hwf & Hrep & Hregs & Hmod & HF). split; [lia|].
  destruct (Z.ltb_spec power level); [|assert (level = power) as -> by lia; wp_steps; by exists P].
  pose proof Hg as (Hk%order_range & _).
  assert (Hgh : good (level - 1) (x + bsz (level - 1))) by (apply (good_half k); [done|lia]).
  assert (Ho : order (level - 1)) by apply Hgh.
  pose proof (bsz_pos (level - 1) ltac:(lia)).
  assert (Hbs : bsz level = 2 * bsz (level - 1)).
  { rewrite <-bsz_succ by lia. f_equal. lia. }
  assert (bsz level <= bsz k) by (apply bsz_mono; lia).
  rewrite page_shift, (w64_small (x + _)) by (done || by eapply block_range).
  apply wp_bind. eapply wp_mono; [apply (deallocate_ok P); [done..| |done]|].
  { apply apart_not_free; [lia| |by intros; eapply listed_size].
    intros a Ha [_ Hn]%HF. lia. }
  intros [] s1 (Hrep1 & Hregs1 & Hmod1). wp_steps.
  destruct (pool_insert_spec region_ok 64 P (x + bsz (level - 1)) (level - 1)) as [Hwf1 HF1];
    [done..| |lia|].
  { apply apart_not_free; [lia| |by intros; eapply listed_size].
    intros a Ha [_ Hn]%HF. lia. }
  exists (level - 1 - power). split; [lia|]. split; [lia|]. split; [done|].
  eexists. split_and!; [exact Hwf1|done|by transitivity s'| |].
  - eapply modifies_trans; [done|]. eapply modifies_weaken; [|exact Hmod1].
    intros a [?|[[? _]%HF|?]]; [by left|by right|]. right. apply Hx0. lia.
  - intros a. rewrite HF1, HF. unfold carved. rewrite Hbs.
    destruct (decide (x + bsz (level - 1) <= a < x + bsz (level - 1) + bsz (level - 1))).
    + split; [intros _; split; [apply Hx0|]; lia|by right].
    + split; [intros [[? ?]|?]; [split; [done|lia]|lia]|].
      intros [? ?]. left. split; [done|lia].
Qed.

Lemma allocate_ok P power s :
  wf P -> pool_rep (mem s) P -> 0 <= power < 2 ^ 64 ->
  wp (allocate power) (fun r s' => exists P',
    wf P' /\ pool_rep (mem s') P' /\ same_regs s s' /\
    modifies (taken P) (mem s) (mem s') /\
    ((r = NULL /\ P' = P /\ mem s' = mem s /\ forall j, power <= j <= 15 -> P j = []) \/
     (good power r /\ (forall a, r <= a < r + bsz power -> free P a) /\
      forall a, free P' a <-> carved (free P) r power a))) s.
Proof.
  intros Hwf Hrep Hp. unfold allocate. wp_step. wp_step.
  apply wp_bind. eapply wp_mono; [by apply (find_block_ok P)|].
  intros [addr level] s' [(-> & Hlev & -> & He)|(Hlev & He & l & HP & ->)].
  - wp_step. wp_step. simpl. wp_steps. exists P.
    split_and!; [done|done|by eauto with kernel|done|]. left. done.
  - assert (Ho : order level) by (unfold order, BUDDY_MAX_ORDER; lia).
    assert (Hl : listed P level addr) by (split; [done|]; rewrite HP; set_solver).
    pose proof (wf_block _ _ _ Hwf _ _ Hl) as Hg.
    destruct (block_ok _ _ Hg) as (_ & [_ Hne] & _).
    wp_step. wp_step. rewrite (proj2 (Z.eqb_neq addr NULL) Hne).
    rewrite (proj2 (Z.ltb_ge BUDDY_MAX_ORDER level)) by (unfold BUDDY_MAX_ORDER; lia). simpl.
    assert (Hdel : <[level := l]> P = <[level := del addr (P level)]> P).
    { rewrite HP. change (addr :: l) with ([] ++ addr :: l). rewrite del_split; [done|].
      rewrite <-HP. by apply sorted_NoDup, Hwf. }
    assert (0 <= hd0 l < 2 ^ 64).
    { destruct l as [|z l]; [done|]. apply (block_range level).
      apply (wf_block _ _ _ Hwf). split; [done|]. simpl. rewrite HP. set_solver. }
    apply wp_bind. eapply wp_mono.
    { apply (split_block_ok P (<[level := l]> P) addr level power); [|done| |lia| |].
      - rewrite Hdel. by apply wf_del.
      - pose proof (space_ok level Ho) as (Hs8 & _).
        apply (rep_remove P level [] l (mem s) _ Hwf Ho Hrep addr); [done| |].
        + by apply rd64_wr64_same.
        + intros y Hy Hne'. by apply rd64_wr64_ne.
      - intros a. rewrite Hdel. by apply (free_del P level addr a Hwf).
      - intros a Ha. by exists level, addr. }
    intros [] s'' (P' & Hwf' & Hrep' & Hregs' & Hmod' & HF'). wp_steps.
    exists P'. split_and!; [done|done| | |].
    + etrans; [|exact Hregs']. eauto with kernel.
    + eapply modifies_trans; [|exact Hmod']. apply modifies_wr. intros b Hb. left.
      by apply (space_ok level Ho).
    + right. split; [apply (good_shrink level); [done|lia]|]. split; [|done].
      intros a Ha. exists level, addr. split; [done|].
      assert (bsz power <= bsz level) by (apply bsz_mono; lia). lia.
Qed.

End Proof.
