(* ===== verification/BuddyInit.v ===== *)
(** * Initialisation of the buddy allocator

    [init_mem_manage] builds, from the address of the end of the kernel image,
    the pool whose free bytes are exactly the RAM above it. *)

From S2P Require Import Prelude Machine Chain BuddySpec Buddy BuddyProof.

Section Init.
Context `{Hw : Platform} {HwOk : PlatformOk Hw}.
Abbreviation wf := buddy_wf.
Abbreviation good := buddy_block.

(** The lists above order [i] are in memory, the others are empty so far, and
    the free bytes are those from [base] on. *)
Record built (m : gmap Z Z) (i base : Z) (P : pool) : Prop := {
  built_wf : wf P;
  built_low : forall j, j <= i -> P j = [];
  built_rep : forall j, i < j <= 15 -> chain m (space j) (P j);
  built_free : forall a, free P a <-> base <= a < PHYSTOP
}.

Lemma built_apart m i base P x :
  built m i base P -> 0 <= i -> x + bsz i <= base -> apart P i x.
Proof.
  intros Hb Hi Hx. apply apart_not_free; [done| |by intros; eapply listed_size].
  intros a Ha Hf. apply (built_free _ _ _ _ Hb) in Hf. lia.
Qed.

(** Writing a list of at most one block. *)
Lemma built_link m i base P x :
  built m i base P -> good i x -> x + bsz i = base -> bsz i <= x ->
  built (wr64 (wr64 m (space i) x) x NULL) (i - 1) x (<[i := [x]]> P).
Proof.
  intros Hb Hg Hx Hlo. pose proof Hg as [Ho _]. pose proof (order_range _ Ho).
  pose proof (bsz_pos i ltac:(lia)).
  assert (Ha : apart P i x) by (eapply built_apart; [done|lia..]).
  pose proof (built_low _ _ _ _ Hb i ltac:(lia)) as HPi.
  destruct (space_ok i Ho) as (Hs8 & _ & Hs & _). destruct (block_ok _ _ Hg) as (Hx8 & _ & ?).
  assert (Hins : <[i := [x]]> P = <[i := ins x (P i)]> P) by by rewrite HPi.
  split.
  - rewrite Hins. apply wf_ins; [apply Hb|done|done|]. rewrite HPi. apply not_elem_of_nil.
  - intros j Hj. rewrite fn_lookup_insert_ne by lia. apply Hb. lia.
  - intros j Hj. destruct (decide (i = j)) as [<-|Hne].
    + rewrite fn_lookup_insert. simpl. assert (x <> space i) by lia.
      rewrite rd64_wr64_ne, !rd64_wr64_same by (done || by eapply block_range). done.
    + rewrite fn_lookup_insert_ne by done. eapply chain_frame; [apply Hb; lia|].
      assert (Hoj : order j) by (unfold order, BUDDY_MAX_ORDER; lia).
      intros y Hy%elem_of_cons. assert (Hc : cell P j y) by done.
      pose proof (cell_aligned _ _ _ (built_wf _ _ _ _ Hb) Hc).
      rewrite !rd64_wr64_ne; [done|done|done| |done|done|].
      * apply (cell_ne P i j); [apply Hb|by split; [|left]|done|done].
      * symmetry. eapply cell_fresh; [apply Hb|done..].
  - destruct Hg as (_ & _ & _ & ?). intros a. rewrite Hins, free_ins by done. rewrite (built_free _ _ _ _ Hb). lia.
Qed.

Lemma built_skip m i base P :
  built m i base P -> order i -> built (wr64 m (space i) NULL) (i - 1) base P.
Proof.
  intros Hb Ho. pose proof (order_range _ Ho).
  destruct (space_ok i Ho) as (Hs8 & _). split; [apply Hb| | |apply Hb].
  - intros j Hj. apply Hb. lia.
  - intros j Hj. destruct (decide (i = j)) as [<-|Hne].
    + rewrite (built_low _ _ _ _ Hb i) by lia. simpl. by rewrite rd64_wr64_same.
    + eapply chain_frame; [apply Hb; lia|].
      assert (Hoj : order j) by (unfold order, BUDDY_MAX_ORDER; lia).
      intros y Hy%elem_of_cons. assert (Hc : cell P j y) by done.
      rewrite rd64_wr64_ne; [done|done|by eapply cell_aligned; [apply Hb|]|].
      apply (cell_ne P i j); [apply Hb|by split; [|left]|done|done].
Qed.

Definition touched_init (a : Z) : Prop := heads a \/ kernel_end <= a < PHYSTOP.

Lemma init_link_mod m i x : good i x ->
  modifies touched_init m (wr64 (wr64 m (space i) x) x NULL).
Proof.
  intros Hg. pose proof Hg as (Ho & _ & ? & ?). pose proof (bsz_ge i (order_nonneg _ Ho)).
  apply (modifies_trans _ _ (wr64 m (space i) x)); apply modifies_wr; intros b Hb.
  - left. by apply (space_ok i Ho).
  - right. lia.
Qed.

(** The first loop. *)
Lemma init_upper_ok s :
  built (mem s) 14 PHYSTOP (fun _ => []) ->
  wp (init_upper (kernel_end - KERNEL_START) (bsz 14, 14)) (fun '(size, i) s' =>
    exists P, -1 <= i <= 14 /\ size = bsz i /\
      built (mem s') i (KERNEL_START + bsz (i + 1)) P /\
      kernel_end <= KERNEL_START + bsz (i + 1) /\ same_regs s s' /\
      modifies touched_init (mem s) (mem s')) s.
Proof.
  intros Hb0. pose proof kernel_end_range as Hke. unfold KERNBASE, KERNEL_START in *.
  assert (PHYSTOP = 0x80000000 + bsz 15) as Hstop by done.
  apply (wp_loop (fun n '(size, i) s' => n = i + 1 /\ exists P, -1 <= i <= 14 /\
      size = bsz i /\ built (mem s') i (0x80000000 + bsz (i + 1)) P /\
      kernel_end <= 0x80000000 + bsz (i + 1) /\ same_regs s s' /\
      modifies touched_init (mem s) (mem s')) 15); [|done|].
  { split; [done|]. exists (fun _ => []). split_and!; [done|done|done| | |done|done].
    - change (14 + 1) with 15. by rewrite <-Hstop.
    - change (14 + 1) with 15. lia. }
  intros n [size i] s' (-> & P & Hi & -> & Hb & Hend & Hregs & Hmod). split; [lia|].
  destruct (Z.leb_spec (kernel_end - 0x80000000) (bsz i)); [destruct (Z.leb_spec 0 i)|]; simpl;
    [|wp_steps; exists P; split_and!; (done || lia)..].
  assert (Ho : order i) by (unfold order, BUDDY_MAX_ORDER; lia).
  pose proof (bsz_pos i ltac:(lia)). rewrite bsz_succ in * by lia.
  assert (Hle : bsz (i + 1) <= bsz 15) by (apply bsz_mono; lia). rewrite bsz_succ in Hle by lia.
  assert (Hg : good i (0x80000000 + bsz i)).
  { split; [done|]. split_and!; [|lia..]. apply Z.divide_add_r; [|done].
    etrans; [apply (bsz_divide i 15); lia|]. by exists 16. }
  pose proof (block_range _ _ Hg) as Hr. rewrite (w64_small (_ + _)) by done.
  destruct (space_ok i Ho) as (_ & Hram & _). destruct (block_ok _ _ Hg) as (_ & [Hxram _] & _).
  wp_step. wp_step. wp_step. wp_step. simpl mem. rewrite rd64_wr64_same by done. wp_steps.
  exists (i - 1 + 1). split; [lia|]. split; [done|]. eexists. split_and!; [lia|lia| | | | |].
  - unfold bsz. rewrite Z.shiftr_div_pow2 by lia.
    replace (12 + i) with (12 + (i - 1) + 1) by lia. rewrite Z.pow_add_r by lia.
    by rewrite Z.div_mul by lia.
  - replace (i - 1 + 1) with i by lia. eapply built_link; [exact Hb|done|lia|lia].
  - replace (i - 1 + 1) with i by lia. lia.
  - eauto with kernel.
  - eapply modifies_trans; [done|]. by apply init_link_mod.
Qed.

(** The second loop. *)
Lemma init_search_ok s i base P :
  -1 <= i <= 14 -> built (mem s) i (base + bsz (i + 1)) P ->
  base < kernel_end <= base + bsz (i + 1) -> (bsz (i + 1) | base) ->
  KERNBASE <= base -> base + bsz (i + 1) <= PHYSTOP ->
  wp (init_search kernel_end (base + bsz i, i)) (fun _ s' => exists P',
    built (mem s') (-1) kernel_end P' /\ same_regs s s' /\
    modifies touched_init (mem s) (mem s')) s.
Proof.
  intros Hi0 Hb0 Hend0 Hal0 Hlo0 Hhi0.
  apply (wp_loop (fun n '(tmp, i) s' => n = i + 1 /\ exists base P, -1 <= i <= 14 /\
      (0 <= i -> tmp = base + bsz i) /\
      built (mem s') i (base + bsz (i + 1)) P /\ base < kernel_end <= base + bsz (i + 1) /\
      (bsz (i + 1) | base) /\ KERNBASE <= base /\ base + bsz (i + 1) <= PHYSTOP /\
      same_regs s s' /\ modifies touched_init (mem s) (mem s')) (i + 1)); [|lia|].
  { split; [done|]. by exists base, P. }
  clear Hi0 Hb0 Hend0 Hal0 Hlo0 Hhi0 base P i.
  intros n [tmp i] s' (-> & base & P & Hi & Htmp & Hb & Hend & Hal & Hlo & Hhi & Hregs & Hmod).
  split; [lia|]. destruct (Z.leb_spec 0 i) as [Hi0|Hi0].
  2:{ assert (i = -1) as -> by lia. wp_steps. exists P. split_and!; [|done|done].
      change (bsz (-1 + 1)) with 4096 in *.
      destruct kernel_end_aligned as [p Hp], Hal as [q Hq].
      by replace kernel_end with (base + 4096) by lia. }
  specialize (Htmp Hi0). subst tmp.
  assert (Ho : order i) by (unfold order, BUDDY_MAX_ORDER; lia).
  pose proof (bsz_pos i ltac:(lia)). rewrite bsz_succ in * by lia.
  destruct (space_ok i Ho) as (_ & Hram & _). unfold PHYSTOP, KERNBASE in *.
  assert (Hali : (bsz i | base)) by (etrans; [|exact Hal]; by exists 2).
  assert (Hnext : 0 <= i - 1 -> bsz i = 2 * bsz (i - 1) /\ shl64 PAGE_SIZE (i - 1) = bsz (i - 1)).
  { intros. split; [rewrite <-bsz_succ by lia; f_equal; lia|]. apply page_shift.
    unfold order, BUDDY_MAX_ORDER. lia. }
  assert (Hprev : i - 1 + 1 = i) by lia.
  destruct (Z.leb_spec kernel_end (base + bsz i)).
  - assert (Hg : good i (base + bsz i)).
    { split; [done|]. split_and!; [|lia|unfold PHYSTOP, KERNBASE; lia].
      by apply Z.divide_add_r. }
    pose proof (block_range _ _ Hg). destruct (block_ok _ _ Hg) as (_ & [Hxram _] & _).
    wp_step. wp_step. wp_step. wp_step. simpl mem. rewrite rd64_wr64_same by done. wp_steps.
    exists (i - 1 + 1). split; [lia|]. split; [done|]. exists base. eexists.
    rewrite Hprev. split_and!; [lia|lia| | |lia|lia|done|lia|lia|eauto with kernel|].
    + intros Hi'. destruct (Hnext Hi') as [? ->]. pose proof (bsz_pos (i - 1) Hi').
      rewrite w64_small; lia.
    + eapply built_link; [exact Hb|done|lia|].
      assert (bsz i <= bsz 14) by (apply bsz_mono; lia). change (bsz 14) with 0x4000000 in *. lia.
    + eapply modifies_trans; [done|]. by apply init_link_mod.
  - wp_steps. exists (i - 1 + 1). split; [lia|]. split; [done|]. exists (base + bsz i), P.
    rewrite Hprev. replace (base + bsz i + bsz i) with (base + 2 * bsz i) by lia.
    split_and!; [lia|lia| |by apply built_skip|lia|lia|by apply Z.divide_add_r|lia|lia
      |eauto with kernel|].
    + intros Hi'. destruct (Hnext Hi') as [? ->]. pose proof (bsz_pos (i - 1) Hi').
      rewrite w64_small; lia.
    + eapply modifies_trans; [done|]. apply modifies_wr. intros b Hbr. left.
      by apply (space_ok i Ho).
Qed.

Lemma init_mem_manage_ok s :
  wp init_mem_manage (fun _ s' => exists P,
    wf P /\ pool_rep (mem s') P /\ (forall a, free P a <-> kernel_end <= a < PHYSTOP) /\
    same_regs s s' /\ modifies touched_init (mem s) (mem s')) s.
Proof.
  pose proof kernel_end_range as Hke. unfold init_mem_manage.
  assert (Ho : order BUDDY_MAX_ORDER) by done.
  destruct (space_ok _ Ho) as (Hs8 & Hram & _).
  wp_step. wp_step.
  rewrite (w64_small (kernel_end - KERNEL_START))
    by (unfold PHYSTOP, KERNEL_START, KERNBASE in *; lia).
  apply wp_bind. eapply wp_mono; [apply init_upper_ok|].
  { simpl mem. apply (built_skip _ 15 PHYSTOP (fun _ => [])); [|done]. split.
    - split; [constructor|intros ? ? [_ []%not_elem_of_nil]|intros ? ? ? ? [_ []%not_elem_of_nil]|].
      intros ? ? [_ []%not_elem_of_nil].
    - done.
    - lia.
    - intros a. split; [intros (? & ? & [_ []%not_elem_of_nil] & _)|lia]. }
  intros [size i] s1 (P & Hi & -> & Hb & Hend & Hregs & Hmod).
  assert (Hle : bsz (i + 1) <= bsz 15) by (apply bsz_mono; lia).
  assert (0 < bsz i) by (apply Z.pow_pos_nonneg; lia).
  assert (bsz (i + 1) = 2 * bsz i) as Hdbl.
  { unfold bsz. replace (12 + (i + 1)) with (Z.succ (12 + i)) by lia.
    apply Z.pow_succ_r. lia. }
  unfold KERNEL_START, KERNBASE, PHYSTOP in *. change (bsz 15) with 0x8000000 in *.
  rewrite w64_small by lia.
  eapply wp_mono; [apply (init_search_ok _ i 0x80000000 P); [done|done|lia| | |]|].
  - etrans; [apply (bsz_divide (i + 1) 15); lia|]. by exists 16.
  - done.
  - unfold PHYSTOP, KERNBASE. lia.
  - intros [] s2 (P' & Hb' & Hregs' & Hmod'). exists P'. split_and!.
    + apply Hb'.
    + intros k Hk%order_range. apply Hb'. lia.
    + apply Hb'.
    + etrans; [|exact Hregs']. etrans; [|exact Hregs]. eauto with kernel.
    + eapply modifies_trans; [|exact Hmod']. eapply modifies_trans; [|exact Hmod].
      apply modifies_wr. intros b Hbr. left. by apply (space_ok _ Ho).
Qed.

End Init.
