(* ===== verification/BuddyInstance.v ===== *)
(** * The buddy allocator discharges the allocator interface

    The top-level theorems on mem_manage.c (lines 13 to 173): initialisation,
    acquisition, release, their round trip, and the instance of the interface
    of PageAlloc.v. *)

From S2P Require Import Prelude Machine Chain BuddySpec PageAlloc Buddy BuddyProof BuddyInit.

#[export] Instance buddy_ops `{Hw : Platform} : PageOps :=
  Build_PageOps Buddy.allocate Buddy.deallocate.

Lemma buddy_allocate_eq `{Hw : Platform} : PageAlloc.allocate = Buddy.allocate.
Proof. reflexivity. Qed.

Lemma buddy_deallocate_eq `{Hw : Platform} : PageAlloc.deallocate = Buddy.deallocate.
Proof. reflexivity. Qed.

(** The memory holds a well-formed pool whose free bytes are those of [F]. *)
Definition buddy_owns `{Hw : Platform} (m : gmap Z Z) (F : Z -> Prop) : Prop :=
  exists P, pool_rep m P /\ buddy_wf P /\ forall a, free P a <-> F a.

Section Instance.
Context `{Hw : Platform} {HwOk : PlatformOk Hw}.
Abbreviation wf := buddy_wf.
Abbreviation good := buddy_block.

Lemma pool_rep_frame m m' P :
  wf P -> pool_rep m P -> (forall a, heads a \/ free P a -> rd8 m' a = rd8 m a) ->
  pool_rep m' P.
Proof.
  intros Hwf Hrep Hf k Hk. eapply chain_frame; [by apply Hrep|].
  intros y [->|Hy]%elem_of_cons; apply rd_ext; intros b Hb; apply Hf.
  - left. by apply (space_ok k).
  - right. exists k, y. split; [done|]. pose proof (bsz_ge k (order_nonneg _ Hk)). lia.
Qed.

Lemma buddy_owns_ext m F F' :
  (forall a, F a <-> F' a) -> buddy_owns m F -> buddy_owns m F'.
Proof.
  intros H (P & ? & ? & HF). exists P. split_and!; [done..|]. intros a. by rewrite HF.
Qed.

Lemma not_free_apart P k x :
  order k -> (forall a, x <= a < x + bsz k -> ~ free P a) -> apart P k x.
Proof.
  intros Hk H. apply apart_not_free; [by apply order_nonneg|done|].
  intros. by eapply listed_size.
Qed.

(** An exhausted pool has no free block of the requested size. *)
Lemma exhausted P power y :
  wf P -> good power y -> (forall j, power <= j <= 15 -> P j = []) ->
  ~ (forall a, y <= a < y + bsz power -> free P a).
Proof.
  intros Hwf (Ho & Hal & _) He Hf.
  destruct (free_block_listed P power y Hwf Ho Hal Hf) as (j & z & Hj & [Ho' Hz] & _).
  rewrite He in Hz; [by apply not_elem_of_nil in Hz|]. apply order_range in Ho'. lia.
Qed.

#[export] Program Instance buddy_allocator : PageAllocator buddy_ops := {|
  pool_owns := buddy_owns;
  pool_private := heads
|}.
Next Obligation.
  intros m _ <- F F' HF. split; apply buddy_owns_ext; intros a; [apply HF|symmetry; apply HF].
Qed.
Next Obligation.
  intros m m' F (P & Hrep & Hwf & HF) Hf. exists P. split_and!; [|done..].
  apply (pool_rep_frame m); [done..|]. intros a Ha. apply Hf. by rewrite <-HF.
Qed.
Next Obligation.
  intros m F a (P & Hrep & Hwf & HF) Ha. apply HF in Ha as (k & x & Hl & Ha).
  destruct (wf_block _ _ _ Hwf k x Hl) as (_ & _ & ? & ?). lia.
Qed.
Next Obligation.
  intros a Ha. unfold heads in Ha. pose proof buddy_pool_in_image. lia.
Qed.
Next Obligation.
  intros F power s (P & Hrep & Hwf & HF) Hp.
  eapply wp_mono; [by apply (allocate_ok P)|].
  intros r s' (P' & Hwf' & Hrep' & Hregs & Hmod & Hcase). split_and!; [done| |].
  { eapply modifies_weaken; [|exact Hmod]. intros a [?|?%HF]; [by left|by right]. }
  destruct Hcase as [(-> & -> & Hm & He)|(Hg & Hsub & HF')]; [left|right].
  - split_and!; [done..|]. intros y Hg Hy. eapply exhausted; [done..|].
    intros a Ha. by apply HF, Hy.
  - split_and!; [done| |by intros; apply HF, Hsub|].
    + by destruct (block_ok _ _ Hg) as (_ & [_ ?] & _).
    + exists P'. split_and!; [done..|]. intros a. rewrite HF'. unfold carved, without.
      by rewrite HF.
Qed.
Next Obligation.
  intros F power x s (P & Hrep & Hwf & HF) Hg Hx.
  assert (Ha : apart P power x).
  { apply not_free_apart; [apply Hg|]. intros a Ha ?%HF. by apply (Hx a). }
  eapply wp_mono; [by apply (deallocate_ok P)|]. intros [] s' (Hrep' & Hregs & Hmod).
  destruct (pool_insert_spec region_ok 64 P x power Hwf Hg Ha) as [Hwf' HF'].
  { destruct Hg as [?%order_range _]. lia. }
  split_and!; [done| |].
  - eapply modifies_weaken; [|exact Hmod].
    intros a [?|[?%HF|?]]; [by left|right; by left|right; by right].
  - eexists. split_and!; [done..|]. intros a. rewrite HF'. unfold with_block. by rewrite HF.
Qed.
Next Obligation. done. Qed.

End Instance.
