(* ===== verification/BuddyClient.v ===== *)
(** * Clients of the buddy allocator

    A system that initialises the allocator and then acquires, releases and
    uses blocks in any order, as a step relation.  Its reachable states never
    hand out overlapping blocks, never fault, and lose no memory. *)

From S2P Require Import Prelude Machine Chain BuddySpec PageAlloc Buddy BuddyProof BuddyInit BuddyInstance.

Section Client.
Context `{Hw : Platform} {HwOk : PlatformOk Hw}.

(** The blocks in use, as pairs of an order and an address. *)
Abbreviation blocks := (list (Z * Z)).

Definition disjoint_pair (b c : Z * Z) : Prop := disjoint_block b.1 b.2 c.1 c.2.
Definition in_use (l : blocks) (a : Z) : Prop :=
  exists k x, (k, x) ∈ l /\ x <= a < x + bsz k.

(** [reach l s]: [s] is a state of the system in which the blocks [l] are in
    use. *)
Inductive reach : blocks -> state -> Prop :=
  | reach_init s s' :
      init_mem_manage s = Ok tt s' -> reach [] s'
  | reach_allocate l s power r s' :
      reach l s -> 0 <= power < 2 ^ 64 -> allocate power s = Ok r s' ->
      reach (if decide (r = NULL) then l else (power, r) :: l) s'
  | reach_deallocate l1 power x l2 s s' :
      reach (l1 ++ (power, x) :: l2) s -> deallocate x power s = Ok tt s' ->
      reach (l1 ++ l2) s'
  | reach_use l s s' :
      reach l s -> (forall a, ~ in_use l a -> rd8 (mem s') a = rd8 (mem s) a) ->
      reach l s'.

(** The free bytes are those of the region that are not in use. *)
Definition unused (l : blocks) (a : Z) : Prop :=
  kernel_end <= a < PHYSTOP /\ ~ in_use l a.

Record consistent (l : blocks) (s : state) : Prop := {
  consistent_pool : buddy_owns (mem s) (unused l);
  consistent_good : Forall (fun b => buddy_block b.1 b.2) l;
  consistent_disjoint : StronglySorted disjoint_pair l
}.

Lemma unused_cons k x l a : unused ((k, x) :: l) a <-> without (unused l) k x a.
Proof.
  unfold unused, without, in_use. split.
  - intros [? H]. split; [split; [done|]|].
    + intros (j & y & ? & ?). apply H. exists j, y. set_solver.
    + intros ?. apply H. exists k, x. set_solver.
  - intros [[? H1] H2]. split; [done|].
    intros (j & y & [[= -> ->]|?]%elem_of_cons & ?); [done|]. apply H1. by exists j, y.
Qed.

Lemma unused_remove l1 k x l2 a :
  buddy_block k x -> StronglySorted disjoint_pair (l1 ++ (k, x) :: l2) ->
  unused (l1 ++ l2) a <-> with_block (unused (l1 ++ (k, x) :: l2)) k x a.
Proof.
  intros (Hk & _ & ? & ?) (H12 & _ & [H2 _]%StronglySorted_cons)%StronglySorted_app.
  unfold unused, with_block, in_use. split.
  - intros [? Hu]. destruct (decide (x <= a < x + bsz k)); [by right|]. left. split; [done|].
    intros (j & y & Hin & ?). apply elem_of_app in Hin as [?|[[= -> ->]|?]%elem_of_cons].
    + apply Hu. exists j, y. set_solver.
    + done.
    + apply Hu. exists j, y. set_solver.
  - assert (Hx : forall j y, (j, y) ∈ l1 ++ l2 -> disjoint_block k x j y).
    { intros j y [Hin|Hin]%elem_of_app.
      - specialize (H12 (j, y) (k, x) Hin ltac:(set_solver)).
        unfold disjoint_pair, disjoint_block in *. simpl in *. lia.
      - rewrite Forall_forall in H2. exact (H2 _ Hin). }
    intros [[? Hu]|Ha].
    + split; [done|]. intros (j & y & Hin & ?). apply Hu. exists j, y. set_solver.
    + split; [lia|]. intros (j & y & Hin & ?). specialize (Hx j y Hin).
      unfold disjoint_block in Hx. lia.
Qed.

Lemma consistent_frame l s s' :
  consistent l s -> (forall a, ~ in_use l a -> rd8 (mem s') a = rd8 (mem s) a) ->
  consistent l s'.
Proof.
  intros [Hp Hg Hd] Hf. split; [|done..].
  apply (pool_owns_frame (PageAllocator := buddy_allocator) (mem s)); [done|].
  intros a Ha. apply Hf. intros (k & x & Hin & Hx). destruct Ha as [Ha|[_ Ha]].
  - apply (pool_private_range (PageAllocator := buddy_allocator)) in Ha.
    rewrite Forall_forall in Hg. destruct (Hg _ Hin) as (_ & _ & ? & _). simpl in *. lia.
  - apply Ha. by exists k, x.
Qed.

Lemma consistent_init s s' : init_mem_manage s = Ok tt s' -> consistent [] s'.
Proof.
  intros Hi. destruct (wp_elim _ _ _ _ _ (init_mem_manage_ok s) Hi) as (P & ? & ? & HF & _). split; [|done|constructor].
  exists P. split_and!; [done..|]. intros a. rewrite HF. unfold unused, in_use.
  split; [|tauto]. intros ?. split; [done|]. intros (? & ? & []%not_elem_of_nil & _).
Qed.

Lemma consistent_allocate l s power : consistent l s -> 0 <= power < 2 ^ 64 ->
  wp (allocate power) (fun r s' =>
    consistent (if decide (r = NULL) then l else (power, r) :: l) s' /\
    (r = NULL -> forall y, buddy_block power y ->
      ~ (forall a, y <= a < y + bsz power -> ~ in_use l a))) s.
Proof.
  intros [Hp Hg Hd] Hpow.
  pose proof (allocate_law (PageAllocator := buddy_allocator) (unused l) power s Hp Hpow) as Halloc.
  rewrite buddy_allocate_eq in Halloc.
  eapply wp_mono; [exact Halloc|]. clear Halloc.
  intros r s' (_ & _ & [(-> & Hm & He)|(Hb & Hne & Hin & Hp')]).
  - rewrite decide_True by done. split; [split; [by rewrite Hm|done..]|].
    intros _ y Hy Hn. apply (He y Hy). intros a Ha. split; [|by apply Hn].
    destruct Hy as (_ & _ & ? & ?). lia.
  - rewrite decide_False by done. split; [|done]. split.
    + eapply buddy_owns_ext; [|exact Hp']. intros a. symmetry. apply unused_cons.
    + constructor; [done|done].
    + constructor; [done|]. apply Forall_forall. intros [j y] Hj.
      unfold disjoint_pair, disjoint_block. simpl.
      destruct (decide (r + bsz power <= y)) as [|?]; [by left|right].
      destruct (decide (y + bsz j <= r)) as [|?]; [done|].
      rewrite Forall_forall in Hg. destruct (Hg _ Hj) as (Hoj & _). simpl in Hoj.
      pose proof (bsz_pos j (order_nonneg _ Hoj)).
      destruct Hb as (Ho & _). pose proof (bsz_pos power (order_nonneg _ Ho)).
      destruct (Hin (Z.max r y)) as [_ Hn]; [lia|]. destruct Hn. exists j, y. split; [done|lia].
Qed.

Lemma consistent_deallocate l1 power x l2 s :
  consistent (l1 ++ (power, x) :: l2) s ->
  wp (deallocate x power) (fun _ s' => consistent (l1 ++ l2) s') s.
Proof.
  intros [Hp Hg Hd].
  assert (Hb : buddy_block power x) by (rewrite Forall_forall in Hg; apply (Hg (power, x)); set_solver).
  pose proof (deallocate_law (PageAllocator := buddy_allocator) _ power x s Hp Hb) as Hdeal.
  rewrite buddy_deallocate_eq in Hdeal.
  eapply wp_mono; [apply Hdeal|].
  { intros a Ha [_ Hn]. apply Hn. exists power, x. set_solver. }
  intros [] s' (_ & _ & Hp'). split.
  - eapply buddy_owns_ext; [|exact Hp']. intros a. symmetry. by apply unused_remove.
  - apply Forall_app in Hg as [? [? ?]%Forall_cons]. by apply Forall_app.
  - apply StronglySorted_app in Hd as (H12 & ? & [? ?]%StronglySorted_cons).
    apply StronglySorted_app. split_and!; [|done..]. intros; apply H12; set_solver.
Qed.

Lemma reach_consistent l s : reach l s -> consistent l s.
Proof.
  induction 1 as [s s' H|l s power r s' _ IH Hp H|l1 power x l2 s s' _ IH H|l s s' _ IH Hf].
  - by eapply consistent_init.
  - apply (wp_elim _ _ _ _ _ (consistent_allocate l s power IH Hp) H).
  - apply (wp_elim _ _ _ _ _ (consistent_deallocate _ _ _ _ _ IH) H).
  - by eapply consistent_frame.
Qed.

End Client.
