(* ===== verification/BuddyTheorems.v ===== *)
(** * Theorems on the buddy allocator

    What mem_manage.c (lines 13 to 173) guarantees, for every placement of the
    kernel image that kernel.ld allows: boot, acquisition, release, the
    combination of both, and every sequence of calls. *)

From S2P Require Import Prelude Machine Board Chain BuddySpec PageAlloc Buddy BuddyProof BuddyInit BuddyInstance BuddyClient.

Section Interrupts.
Context `{Hw : Platform}.

(** The path of [deallocate] that returns before the restoring call: an odd
    block below the first one of its list. *)
Definition early_return (P : pool) (x k : Z) : bool :=
  match P k with
  | [] => false
  | y :: _ => odd_block k x && (x <? y)
  end.

Lemma restored v (Q : bool) s :
  Q = truth v -> wlp (set_interrupt_status v;; mret tt) (fun _ s' => sie_on s' = Q) s.
Proof. intros ->. by wlp_steps. Qed.

Lemma truth_bool (b : bool) : b = truth (if b then 1 else 0).
Proof. by destruct b. Qed.

Lemma deallocate_wlp {HwOk : PlatformOk Hw} n P k x s :
  buddy_wf P -> buddy_block k x -> pool_rep (mem s) P ->
  wlp (deallocate_rec (S n) x k) (fun _ s' =>
    sie_on s' = if early_return P x k then false else sie_on s) s.
Proof.
  intros Hwf Hg Hrep. pose proof Hg as [Hk _]. destruct (block_ok _ _ Hg) as (_ & [_ Hx] & _).
  pose proof (Hrep k Hk) as Hc. unfold early_return. simpl deallocate_rec.
  rewrite (proj2 (Z.eqb_neq x NULL) Hx), odd_test by done.
  wlp_step. wlp_step. wlp_step. wlp_step. simpl mem. rewrite (chain_hd _ _ _ Hc).
  destruct (P k) as [|y l] eqn:HPk.
  { simpl. wlp_steps. rewrite truth_bool. done. }
  destruct Hc as [Hy Hc]. rewrite hd0_cons.
  assert (truth y = true) as ->.
  { assert (Hgy : buddy_block k y) by (apply (wf_block _ _ _ Hwf); split; [done|]; rewrite HPk; set_solver).
    destruct (block_ok _ _ Hgy) as (_ & [_ Hne] & _). unfold truth.
    by rewrite (proj2 (Z.eqb_neq y 0) Hne). }
  simpl negb. cbv iota. destruct (odd_block k x); simpl andb.
  - wlp_step. wlp_step. simpl mem. rewrite Hy. wlp_step. wlp_step. destruct (x <? y).
    + wlp_step. wlp_step. by wlp_step.
    + wlp_step. apply wlp_any. intros [[? ?] ?] ?. wlp_step. apply wlp_any. intros _ ?.
      apply restored, truth_bool.
  - wlp_step. wlp_step. wlp_step. apply wlp_any. intros [? ?] ?.
    wlp_step. apply wlp_any. intros _ ?. apply restored, truth_bool.
Qed.

End Interrupts.

Lemma deallocate_null_eq `{Hw : Platform} power s : deallocate NULL power s = Ok tt s.
Proof. done. Qed.

Section Theorems.
Context `{Hw : Platform} {HwOk : PlatformOk Hw}.

(** C2: from any state, [init_mem_manage] returns, writes only the list heads
    and free memory, and leaves in memory the free lists of a well-formed pool
    whose free bytes are exactly the RAM above the kernel image; it is the only
    such pool. *)
Theorem init_mem_manage_boot s :
  wp init_mem_manage (fun _ s' => exists P,
    buddy_wf P /\ pool_rep (mem s') P /\
    (forall a, free P a <-> kernel_end <= a < PHYSTOP) /\
    (forall P', buddy_wf P' -> (forall a, free P' a <-> kernel_end <= a < PHYSTOP) ->
      forall k, order k -> P' k = P k) /\
    same_regs s s' /\ modifies touched_init (mem s) (mem s')) s.
Proof.
  eapply wp_mono; [apply init_mem_manage_ok|].
  intros [] s' (P & Hwf & Hrep & HF & Hregs & Hmod). exists P. split_and!; [done..| |done|done].
  intros P' Hwf' HF' k Hk. apply (pool_canonical (lo := kernel_end) (hi := PHYSTOP)); [done..| |done].
  intros a. by rewrite HF, HF'.
Qed.

(** C3: releasing a block that is not free returns, with the lists of the
    textbook release [pool_insert] in memory (the recursive merging of buddies
    included), and that pool is well formed with the block's bytes added. *)
Theorem deallocate_refines_insert P k x s :
  buddy_wf P -> pool_rep (mem s) P -> buddy_block k x ->
  (forall a, x <= a < x + bsz k -> ~ free P a) ->
  wp (deallocate x k) (fun _ s' =>
    pool_rep (mem s') (pool_insert 64 P x k) /\ buddy_wf (pool_insert 64 P x k) /\
    (forall a, free (pool_insert 64 P x k) a <-> free P a \/ x <= a < x + bsz k) /\
    same_regs s s' /\ modifies (touched P k x) (mem s) (mem s')) s.
Proof.
  intros Hwf Hrep Hg Hx. assert (Ha : apart P k x) by (apply not_free_apart; [apply Hg|done]).
  eapply wp_mono; [by apply (deallocate_ok P)|]. intros [] s' (Hrep' & Hregs & Hmod).
  destruct (pool_insert_spec region_ok 64 P x k Hwf Hg Ha) as [Hwf' HF'].
  { destruct Hg as [?%order_range _]. lia. }
  done.
Qed.

(** C4: [allocate] returns; either an aligned block of the requested size that
    was free, with exactly its bytes taken out of the pool, or NULL with the
    memory unchanged, and then no aligned block of that size is free. *)
Theorem allocate_takes_free_block P power s :
  buddy_wf P -> pool_rep (mem s) P -> 0 <= power < 2 ^ 64 ->
  wp (allocate power) (fun r s' => exists P', buddy_wf P' /\ pool_rep (mem s') P' /\
    same_regs s s' /\ modifies (taken P) (mem s) (mem s') /\
    ((r = NULL /\ P' = P /\ mem s' = mem s /\
      forall y, buddy_block power y -> ~ (forall a, y <= a < y + bsz power -> free P a)) \/
     (buddy_block power r /\ (forall a, r <= a < r + bsz power -> free P a) /\
      forall a, free P' a <-> free P a /\ ~ (r <= a < r + bsz power)))) s.
Proof.
  intros Hwf Hrep Hp. eapply wp_mono; [by apply (allocate_ok P)|].
  intros r s' (P' & Hwf' & Hrep' & Hregs & Hmod & Hcase). exists P'. split_and!; [done..|].
  destruct Hcase as [(-> & -> & Hm & He)|?]; [left|by right]. split_and!; [done..|].
  intros y Hy. by apply (exhausted P power).
Qed.

(** C34: acquiring a block and releasing it at once restores every free list,
    element by element, whatever was split on the way. *)
Theorem allocate_deallocate_restores P power s :
  buddy_wf P -> pool_rep (mem s) P -> 0 <= power < 2 ^ 64 ->
  wp (r ← allocate power; deallocate r power;; mret r) (fun r s' =>
    pool_rep (mem s') P /\ same_regs s s') s.
Proof.
  intros Hwf Hrep Hp. apply wp_bind. eapply wp_mono; [by apply (allocate_ok P)|].
  intros r s' (P' & Hwf' & Hrep' & Hregs & Hmod & Hcase). apply wp_bind.
  destruct Hcase as [(-> & -> & Hm & He)|(Hg & Hsub & HF')].
  { eapply wp_ok; [by apply deallocate_null_eq|]. by wp_step. }
  assert (Ha : apart P' power r).
  { apply not_free_apart; [apply Hg|]. intros a Ha [_ Hn]%HF'. done. }
  eapply wp_mono; [by apply (deallocate_ok P')|]. intros [] s'' (Hrep'' & Hregs' & _).
  wp_step. split; [|by etrans]. intros k Hk.
  destruct (pool_insert_spec region_ok 64 P' r power Hwf' Hg Ha) as [Hwf'' HF''].
  { destruct Hg as [?%order_range _]. lia. }
  rewrite (pool_canonical (lo := kernel_end) (hi := PHYSTOP) P (pool_insert 64 P' r power));
    [by apply Hrep''|done..| |done].
  intros a. rewrite HF'', HF'. unfold carved.
  destruct (decide (r <= a < r + bsz power)); [|tauto].
  split; [by right|intros _; by apply Hsub].
Qed.

(** C39: [deallocate] leaves interrupts as they were, except on the path that
    links an odd block in front of its list: there they end up disabled,
    whatever they were before. *)
Theorem deallocate_interrupts P k x s :
  buddy_wf P -> pool_rep (mem s) P -> buddy_block k x ->
  (forall a, x <= a < x + bsz k -> ~ free P a) ->
  wp (deallocate x k) (fun _ s' =>
    sie_on s' = if early_return P x k then false else sie_on s) s.
Proof.
  intros Hwf Hrep Hg Hx. assert (Ha : apart P k x) by (apply not_free_apart; [apply Hg|done]).
  eapply wp_mono; [apply (wp_wlp _ _ _ _ (deallocate_ok P k x s Hwf Hg Ha Hrep)
    (deallocate_wlp 63 P k x s Hwf Hg Hrep))|]. by intros ? ? [_ ?].
Qed.

(** C1: in every state that any sequence of acquisitions, releases and uses of
    blocks reaches from boot, the blocks in use are aligned, lie above the
    kernel image, and are pairwise disjoint; the free lists in memory are those
    of a well-formed pool, whose free bytes are exactly the RAM above the image
    that is in no block in use: a block in use has no free byte, and no byte is
    lost. *)
Theorem reach_blocks_disjoint l s :
  reach l s ->
  Forall (fun b => buddy_block b.1 b.2) l /\ StronglySorted disjoint_pair l /\
  exists P, buddy_wf P /\ pool_rep (mem s) P /\
    forall a, free P a <-> kernel_end <= a < PHYSTOP /\ ~ in_use l a.
Proof. intros H. destruct (reach_consistent l s H) as [(P & ? & ? & ?) ? ?]. split_and!; [done..|by exists P]. Qed.

(** C35: in every reachable state each call returns: a block in use can be
    released, and an acquisition of any size returns, with NULL only when every
    aligned block of that size overlaps a block in use. *)
Theorem reach_calls_return l s :
  reach l s ->
  (forall power x, (power, x) ∈ l -> exists s', deallocate x power s = Ok tt s') /\
  (forall power, 0 <= power < 2 ^ 64 -> exists r s', allocate power s = Ok r s' /\
    (r = NULL -> forall y, buddy_block power y ->
      ~ (forall a, y <= a < y + bsz power -> ~ in_use l a))).
Proof.
  intros H%reach_consistent. split.
  - intros power x (l1 & l2 & ->)%list_elem_of_split.
    apply consistent_deallocate in H.
    destruct (wp_ok_inv _ _ _ H) as ([] & s' & E & _). exists s'. exact E.
  - intros power Hp. pose proof (consistent_allocate l s power H Hp) as Hwp.
    destruct (wp_ok_inv _ _ _ Hwp) as (r & s' & E & _ & Hn). exists r, s'. split; [exact E|exact Hn].
Qed.

(** Once every block has been released, in whatever order, the free lists
    are element by element those of a fresh boot: no memory is lost. *)
Lemma reach_no_leak s s0 s1 :
  reach [] s -> init_mem_manage s0 = Ok tt s1 ->
  exists P, buddy_wf P /\ pool_rep (mem s1) P /\ pool_rep (mem s) P.
Proof.
  intros [(P & Hrep & Hwf & HF) _ _]%reach_consistent
    [(P' & Hrep' & Hwf' & HF') _ _]%consistent_init.
  exists P'. split_and!; [done..|]. intros k Hk.
  rewrite (pool_canonical (lo := kernel_end) (hi := PHYSTOP) P' P k); [by apply Hrep|done..| |done].
  intros a. by rewrite HF, HF'.
Qed.

End Theorems.

(** ** Instances on a concrete machine *)

Section Witnesses.
#[local] Existing Instances board board_ok.

(** Free lists with the single free page 0x80020000, and with none. *)
Definition page : Z := 0x80020000.
Definition one_page : pool := <[0 := [page]]> (fun _ => []).
Definition one_page_state : state := set_mem (wr64 ∅ (space 0) page) power_on.

Lemma page_ok k : 0 <= k <= 5 -> buddy_block k page.
Proof.
  intros Hk. assert (bsz k <= bsz 5) by (apply bsz_mono; lia).
  split; [unfold order, BUDDY_MAX_ORDER; lia|]. split.
  - etrans; [apply (bsz_divide k 5); lia|]. by exists 0x4001.
  - unfold page, PHYSTOP, KERNBASE. simpl. change (bsz 5) with 0x20000 in *. lia.
Qed.

Lemma empty_rep : pool_rep (mem power_on) (fun _ => []).
Proof. intros k _. done. Qed.

Lemma one_page_rep : pool_rep (mem one_page_state) one_page.
Proof.
  intros k Hk%order_range. unfold one_page. destruct (decide (k = 0)) as [->|Hne].
  - by vm_compute.
  - rewrite fn_lookup_insert_ne by done. simpl chain. unfold one_page_state, space. simpl mem.
    rewrite rd64_wr64_out; [done|]. lia.
Qed.

Lemma one_page_wf : buddy_wf one_page.
Proof. apply wf_one, page_ok. lia. Qed.

Lemma init_mem_manage_boot_witness :
  wp init_mem_manage (fun _ s' => exists P, buddy_wf P /\ pool_rep (mem s') P /\
    (forall a, free P a <-> 0x80020000 <= a < 0x88000000)) power_on.
Proof.
  eapply wp_mono; [apply (init_mem_manage_boot power_on)|].
  intros [] s' (P & ? & ? & ? & _). by exists P.
Defined.

Lemma deallocate_refines_insert_witness :
  wp (deallocate (page + 4096) 0) (fun _ s' =>
    pool_rep (mem s') (pool_insert 64 one_page (page + 4096) 0)) one_page_state /\
  pool_insert 64 one_page (page + 4096) 0 1 = [page].
Proof.
  split; [|by vm_compute].
  eapply wp_mono; [apply (deallocate_refines_insert one_page 0 (page + 4096) one_page_state)|].
  - apply one_page_wf.
  - apply one_page_rep.
  - split; [done|]. split; [by exists 0x80021|done].
  - intros a Ha (k & x & [Hk Hx] & Hb). unfold one_page in Hx.
    destruct (decide (k = 0)) as [->|Hne].
    + rewrite fn_lookup_insert in Hx. apply list_elem_of_singleton in Hx as ->.
      change (bsz 0) with 4096 in *. lia.
    + rewrite fn_lookup_insert_ne in Hx by done. by apply not_elem_of_nil in Hx.
  - by intros [] s' [? _].
Defined.

Lemma allocate_takes_free_block_witness :
  exists s', allocate 0 one_page_state = Ok page s' /\
  wp (allocate 0) (fun r _ => r = NULL \/ buddy_block 0 r) one_page_state.
Proof.
  eexists. split; [vm_compute; reflexivity|].
  eapply wp_mono; [apply (allocate_takes_free_block one_page 0 one_page_state)|].
  - apply one_page_wf.
  - apply one_page_rep.
  - done.
  - intros r s' (P' & _ & _ & _ & _ & [[? _]|[? _]]); [by left|by right].
Defined.

Lemma allocate_deallocate_restores_witness :
  wp (r ← allocate 0; deallocate r 0;; mret r)
    (fun _ s' => pool_rep (mem s') one_page) one_page_state.
Proof.
  eapply wp_mono; [apply (allocate_deallocate_restores one_page 0 one_page_state)|].
  - apply one_page_wf.
  - apply one_page_rep.
  - done.
  - by intros r s' [? _].
Defined.

(** The single free page 0x80022000, with interrupts enabled. *)
Definition later_page : pool := <[0 := [page + 8192]]> (fun _ => []).
Definition later_page_state : state :=
  set_csr sstatus SSTATUS_SIE (set_mem (wr64 ∅ (space 0) (page + 8192)) power_on).

Lemma later_page_wf : buddy_wf later_page.
Proof. apply wf_one. split; [done|]. split; [by exists 0x80022|done]. Qed.

Lemma later_page_rep : pool_rep (mem later_page_state) later_page.
Proof.
  intros k Hk%order_range. unfold later_page. destruct (decide (k = 0)) as [->|Hne].
  - by vm_compute.
  - rewrite fn_lookup_insert_ne by done. unfold later_page_state, space. simpl.
    rewrite rd64_wr64_out; [done|]. lia.
Qed.

Lemma deallocate_interrupts_witness :
  sie_on later_page_state = true /\
  wp (deallocate (page + 4096) 0) (fun _ s' => sie_on s' = false) later_page_state.
Proof.
  split; [done|].
  apply (deallocate_interrupts later_page 0 (page + 4096) later_page_state).
  - apply later_page_wf.
  - apply later_page_rep.
  - split; [done|]. split; [by exists 0x80021|done].
  - intros a Ha (k & x & [Hk Hx] & Hb). unfold later_page in Hx.
    destruct (decide (k = 0)) as [->|Hne].
    + rewrite fn_lookup_insert in Hx. apply list_elem_of_singleton in Hx as ->.
      change (bsz 0) with 4096 in *. lia.
    + rewrite fn_lookup_insert_ne in Hx by done. by apply not_elem_of_nil in Hx.
Defined.

(** A boot, one page acquired: the state reached is safe and loses nothing. *)
Definition booted : state := after init_mem_manage power_on.

Lemma booted_ok : init_mem_manage power_on = Ok tt booted.
Proof. apply finishes_ok. vm_compute. reflexivity. Qed.

Definition one_taken : state := after (allocate 0) booted.

Lemma one_taken_ok : allocate 0 booted = Ok page one_taken.
Proof. apply returns_ok. vm_compute. reflexivity. Qed.

Lemma reach_one_taken : reach [(0, page)] one_taken.
Proof.
  apply (reach_allocate [] booted 0 page).
  - by eapply reach_init, booted_ok.
  - done.
  - apply one_taken_ok.
Qed.

Lemma reach_blocks_disjoint_witness :
  reach [(0, page)] one_taken /\ Forall (fun b => buddy_block b.1 b.2) [(0, page)].
Proof.
  split; [apply reach_one_taken|]. apply (reach_blocks_disjoint _ _ reach_one_taken).
Defined.

Lemma reach_calls_return_witness : exists s', deallocate page 0 one_taken = Ok tt s'.
Proof. apply (reach_calls_return _ _ reach_one_taken). set_solver. Defined.

Lemma reach_no_leak_witness :
  exists P, buddy_wf P /\ pool_rep (mem booted) P /\
    pool_rep (mem (after (deallocate page 0) one_taken)) P.
Proof.
  apply (reach_no_leak _ power_on booted); [|exact booted_ok].
  apply (reach_deallocate [] 0 page [] one_taken); [exact reach_one_taken|].
  apply finishes_ok. vm_compute. reflexivity.
Defined.

End Witnesses.
