(* ===== verification/Kmalloc.v ===== *)
(** * kmalloc and kfree: mem_manage.c, lines 223 to 332

    The allocator of small chunks: pages taken from the page allocator, each
    with a [block_meta] in front, chunks behind it with a [header] each.  The
    first part is the code; the second states what it maintains (an [arena])
    and proves it against the interface of PageAlloc.v. *)

From S2P Require Import Prelude Machine BuddySpec PageAlloc.

(** sizeof and offsets of [struct block_meta]: power 0, count 8, free 16,
    next 24, prev 32; of [struct header]: size 0, block 8. *)
Definition sizeof_block_meta : Z := 40.
Definition sizeof_header : Z := 16.

Section Code.
Context `{Hw : Platform} {Ops : PageOps}.

Definition remained_size (block : Z) : M Z :=
  power ← load64 block;
  free ← load64 (block + 16);
  mret (shl64 PAGE_SIZE power -w free).

Definition align (size : Z) : Z := Z.land (size +w 7) (not64 7).
Definition gross_size (size : Z) : Z := align size +w sizeof_header.

Definition tail_not_enough (size : Z) : M bool :=
  tail ← get block_list_tail;
  if tail =? NULL then mret true
  else r ← remained_size tail; mret (r <? gross_size size).

Definition init_block (block power : Z) : M Z :=
  if block =? NULL then mret NULL
  else
    store64 block power;;
    store64 (block + 8) 0;;
    store64 (block + 16) (block +w sizeof_block_meta);;
    store64 (block + 24) NULL;;
    store64 (block + 32) NULL;;
    mret block.

(** [while ((PAGE_SIZE << power) < need_size) power++;] *)
Definition need_power (need_size : Z) : M Z :=
  loop (fun power =>
    if shl64 PAGE_SIZE power <? need_size then mret (inl (power +w 1))
    else mret (inr power)) 0.

(** Appending a new block to the block list. *)
Definition append_block (block : Z) : M unit :=
  tail ← get block_list_tail;
  store64 (block + 32) tail;;
  head ← get block_list_head;
  if head =? NULL then
    put block_list_head block;;
    put block_list_tail block
  else
    tail ← get block_list_tail;
    store64 (tail + 24) block;;
    tail ← get block_list_tail;
    store64 (block + 32) tail;;
    put block_list_tail block.

(** Taking a chunk from the last block. *)
Definition carve (size : Z) : M Z :=
  block ← get block_list_tail;
  header ← load64 (block + 16);
  let ret := header +w sizeof_header in
  free ← load64 (block + 16);
  store64 (block + 16) (free +w gross_size size);;
  count ← load64 (block + 8);
  store64 (block + 8) (count +w 1);;
  store64 header (align size);;
  store64 (header + 8) block;;
  mret ret.

(** The code calls itself after adding a block; [fuel] bounds the depth. *)
Fixpoint kmalloc_rec (fuel : nat) (size : Z) : M Z :=
  match fuel with
  | O => timeout
  | S fuel =>
    old_interrupt_status ← set_interrupt_status 0;
    not_enough ← tail_not_enough size;
    if (not_enough : bool) then
      let need_size := sizeof_block_meta +w gross_size size in
      power ← need_power need_size;
      page ← allocate power;
      block ← init_block page power;
      if block =? NULL then mret NULL
      else
        append_block block;;
        set_interrupt_status old_interrupt_status;;
        kmalloc_rec fuel size
    else
      ret ← carve size;
      set_interrupt_status old_interrupt_status;;
      mret ret
  end.

Definition kmalloc (size : Z) : M Z := kmalloc_rec 64 size.

(** Unlinking a block of the block list. *)
Definition unlink_block (block : Z) : M unit :=
  head ← get block_list_head;
  (if block =? head then next ← load64 (block + 24); put block_list_head next else mret tt);;
  tail ← get block_list_tail;
  (if block =? tail then prev ← load64 (block + 32); put block_list_tail prev else mret tt);;
  prev ← load64 (block + 32);
  (if truth prev then next ← load64 (block + 24); store64 (prev + 24) next else mret tt);;
  next ← load64 (block + 24);
  (if truth next then prev ← load64 (block + 32); store64 (next + 32) prev else mret tt).

Definition kfree (addr : Z) : M unit :=
  if addr =? NULL then mret tt
  else
    old_interrupt_status ← set_interrupt_status 0;
    let header := addr -w sizeof_header in
    block ← load64 (header + 8);
    count ← load64 (block + 8);
    store64 (block + 8) (count -w 1);;
    count ← load64 (block + 8);
    (if count =? 0 then
       unlink_block block;;
       power ← load64 block;
       deallocate block power
     else
       free ← load64 (block + 16);
       size ← load64 header;
       if free =? addr +w size then store64 (block + 16) (addr -w sizeof_header)
       else mret tt);;
    set_interrupt_status old_interrupt_status;;
    mret tt.

End Code.

(** ** What the code maintains *)

(** A block of order [a_power] at [a_block] with unused space from [a_free] on
    and the chunks [a_live] in use, as pairs of address and size, highest
    first. *)
Record arena := mkArena {
  a_block : Z; a_power : Z; a_free : Z; a_live : list (Z * Z)
}.

(** Chunks of [l], each behind its header, lie one below the other between
    [lo] and [hi]. *)
Fixpoint stacked (lo hi : Z) (l : list (Z * Z)) : Prop :=
  match l with
  | [] => lo <= hi
  | (a, n) :: l => 0 <= n /\ (8 | a) /\ (8 | n) /\ a + n <= hi /\
                   stacked lo (a - sizeof_header) l
  end.

Section Spec.
Context `{Hw : Platform} {Ops : PageOps} {HA : PageAllocator Ops}.

Definition arena_wf (A : arena) : Prop :=
  good_block kernel_end PHYSTOP (a_power A) (a_block A) /\ (8 | a_free A) /\
  a_free A <= a_block A + bsz (a_power A) /\
  stacked (a_block A + sizeof_block_meta) (a_free A) (a_live A).

Definition headers (m : gmap Z Z) (b : Z) (l : list (Z * Z)) : Prop :=
  Forall (fun c => rd64 m (c.1 - 16) = c.2 /\ rd64 m (c.1 - 8) = b) l.

Definition arena_rep (m : gmap Z Z) (A : arena) : Prop :=
  rd64 m (a_block A) = a_power A /\
  rd64 m (a_block A + 8) = Z.of_nat (length (a_live A)) /\
  rd64 m (a_block A + 16) = a_free A /\
  rd64 m (a_block A + 24) = NULL /\ rd64 m (a_block A + 32) = NULL /\
  headers m (a_block A) (a_live A).

(** The small-chunk heap [h], over an allocator whose free bytes are [F]. *)
Definition heap_rep (s : state) (F : Z -> Prop) (h : option arena) : Prop :=
  pool_owns (mem s) F /\
  match h with
  | None => glob s block_list_head = NULL /\ glob s block_list_tail = NULL
  | Some A =>
      glob s block_list_head = a_block A /\ glob s block_list_tail = a_block A /\
      arena_wf A /\ a_live A <> [] /\ arena_rep (mem s) A /\
      forall a, a_block A <= a < a_block A + bsz (a_power A) -> ~ F a
  end.

(** Everything but the memory, the interrupt enable and the two block list
    pointers is unchanged. *)
Definition same_but_heap (s s' : state) : Prop :=
  clock s' = clock s /\ log s' = log s /\
  (forall r, r <> sstatus -> csr_val s' r = csr_val s r) /\
  (forall g, g <> block_list_head -> g <> block_list_tail -> glob s' g = glob s g).

(** The bytes of the chunks in use. *)
Definition data (l : list (Z * Z)) (x : Z) : Prop :=
  exists a n, (a, n) ∈ l /\ a <= x < a + n.

(** What [kmalloc] and [kfree] may write: never a chunk in use. *)
Definition heap_touch (F : Z -> Prop) (h : option arena) (x : Z) : Prop :=
  pool_private x \/ F x \/
  match h with
  | None => False
  | Some A => a_block A <= x < a_block A + bsz (a_power A) /\ ~ data (a_live A) x
  end.

(** The order chosen for a new block: the least that holds [need] bytes. *)
Definition least_power (need p : Z) : Prop :=
  need <= bsz p /\ forall q, 0 <= q < p -> bsz q < need.

(** [kmalloc size] turns [h] into [h'] and the free bytes [F] into [F']. *)
Definition heap_alloc (size r : Z) (F F' : Z -> Prop) (h h' : option arena) : Prop :=
  match h with
  | None => exists b p,
      least_power (sizeof_block_meta + gross_size size) p /\
      good_block kernel_end PHYSTOP p b /\ (forall a, b <= a < b + bsz p -> F a) /\
      r = b + 56 /\ F' = without F p b /\
      h' = Some (mkArena b p (b + 56 + align size) [(r, align size)])
  | Some A =>
      r = a_free A + sizeof_header /\ F' = F /\
      h' = Some (mkArena (a_block A) (a_power A) (a_free A + gross_size size)
                   ((r, align size) :: a_live A))
  end.

(** Releasing the chunk of [n] bytes at [a] leaves the chunks [rest]; the space
    of the topmost chunk is reused at once, and the last chunk takes its block
    with it. *)
Definition heap_free (A : arena) (a n : Z) (rest : list (Z * Z)) : option arena :=
  match rest with
  | [] => None
  | _ => Some (mkArena (a_block A) (a_power A)
                 (if a_free A =? a + n then a - sizeof_header else a_free A) rest)
  end.
Definition pool_free (F : Z -> Prop) (A : arena) (rest : list (Z * Z)) : Z -> Prop :=
  match rest with
  | [] => with_block F (a_power A) (a_block A)
  | _ => F
  end.

End Spec.
