(* ===== verification/KmallocProof.v ===== *)
(** * kmalloc and kfree maintain the heap

    Proofs for Kmalloc.v, against the page allocator's interface. *)

From S2P Require Import Prelude Machine BuddySpec PageAlloc Kmalloc.

(** ** Sizes *)

Lemma align_eq size : 0 <= size < 2 ^ 62 -> align size = size + 7 - (size + 7) mod 8.
Proof.
  intros. unfold align. rewrite w64_small by lia. apply (land_not_ones (size + 7) 3); lia.
Qed.

Lemma align_spec size : 0 <= size < 2 ^ 62 ->
  (8 | align size) /\ size <= align size < size + 8.
Proof.
  intros H. rewrite align_eq by done. pose proof (Z.mod_pos_bound (size + 7) 8).
  split; [|lia]. exists ((size + 7) / 8). pose proof (Z.div_mod (size + 7) 8). lia.
Qed.

Lemma gross_size_eq size : 0 <= size < 2 ^ 62 -> gross_size size = align size + 16.
Proof.
  intros H. destruct (align_spec size H). unfold gross_size, sizeof_header.
  apply w64_small. lia.
Qed.

(** ** Stacks of chunks *)

Lemma stacked_length lo hi l : stacked lo hi l -> lo + 16 * Z.of_nat (length l) <= hi.
Proof.
  revert hi. induction l as [|[a n] l IH]; intros hi; simpl stacked; [simpl; lia|].
  intros (? & _ & _ & ? & H%IH). unfold sizeof_header in *. simpl length. lia.
Qed.

Lemma stacked_mono lo hi hi' l : hi <= hi' -> stacked lo hi l -> stacked lo hi' l.
Proof. destruct l as [|[a n] l]; simpl; [lia|]. intros ? (?&?&?&?&?). split_and!; auto. lia. Qed.

Lemma stacked_elem lo hi l a n : stacked lo hi l -> (a, n) ∈ l ->
  lo + 16 <= a /\ a + n <= hi /\ 0 <= n /\ (8 | a) /\ (8 | n).
Proof.
  revert hi. induction l as [|[a' n'] l IH]; intros hi Hs Hin; [by apply not_elem_of_nil in Hin|].
  destruct Hs as (? & ? & ? & ? & Hs). unfold sizeof_header in *.
  pose proof (stacked_length _ _ _ Hs).
  apply elem_of_cons in Hin as [[= -> ->]|Hin].
  - split_and!; [lia|lia|done..].
  - destruct (IH _ Hs Hin) as (? & ? & ? & ? & ?). split_and!; [lia|lia|done..].
Qed.

Lemma stacked_remove lo hi l1 c l2 :
  stacked lo hi (l1 ++ c :: l2) -> stacked lo hi (l1 ++ l2).
Proof.
  revert hi. induction l1 as [|[a n] l1 IH]; intros hi; simpl.
  - destruct c as [a n]. intros (? & ? & ? & ? & H). eapply stacked_mono; [|exact H].
    unfold sizeof_header. lia.
  - intros (? & ? & ? & ? & ?). split_and!; auto.
Qed.

(** Chunks above and below a given one. *)
Lemma stacked_split lo hi l1 a n l2 :
  stacked lo hi (l1 ++ (a, n) :: l2) ->
  stacked (a + n) hi l1 /\ 0 <= n /\ (8 | a) /\ (8 | n) /\ stacked lo (a - 16) l2.
Proof.
  revert hi. induction l1 as [|[a' n'] l1 IH]; intros hi; simpl.
  - intros (? & ? & ? & ? & ?). done.
  - intros (? & ? & ? & ? & H%IH). naive_solver.
Qed.

(** ** The order of a new block *)

Lemma shl_page power : 0 <= power <= 51 -> shl64 PAGE_SIZE power = bsz power.
Proof.
  intros. unfold shl64. rewrite Z.mod_small, Z.shiftl_mul_pow2 by lia.
  unfold bsz, PAGE_SIZE. rewrite Z.pow_add_r by lia. apply w64_small.
  assert (2 ^ power <= 2 ^ 51) by (apply Z.pow_le_mono_r; lia). lia.
Qed.

Lemma need_power_ok need s : 0 <= need <= 2 ^ 63 ->
  wp (need_power need) (fun p s' => s' = s /\ 0 <= p <= 51 /\ least_power need p) s.
Proof.
  intros Hn. unfold need_power.
  apply (wp_loop (fun n p s' => s' = s /\ n = 51 - p /\ 0 <= p <= 51 /\
    forall q, 0 <= q < p -> bsz q < need) 51); [|lia|].
  { split_and!; [done|lia..]. }
  intros n p s' (-> & -> & Hp & Hq). split; [lia|].
  rewrite shl_page by done. destruct (Z.ltb_spec (bsz p) need).
  - assert (p <> 51). { intros ->. unfold bsz in *. lia. }
    wp_step. exists (50 - p). rewrite w64_small by lia. split_and!; [lia|done|lia..|].
    intros q Hq'. destruct (decide (q = p)) as [->|]; [done|]. apply Hq. lia.
  - wp_step. split_and!; [done|lia..|]. by split.
Qed.

Section Proofs.
Context `{Hw : Platform} {HwOk : PlatformOk Hw} {Ops : PageOps} {HA : PageAllocator Ops}.

(** What [carve] may write: the metadata and the unused space of the block. *)
Definition spare (A : arena) (x : Z) : Prop :=
  a_block A <= x < a_block A + bsz (a_power A) /\ ~ data (a_live A) x.

(** The arena after taking a chunk from it. *)
Definition arena_alloc (A : arena) (size : Z) : arena :=
  mkArena (a_block A) (a_power A) (a_free A + gross_size size)
    ((a_free A + sizeof_header, align size) :: a_live A).

Lemma arena_bounds A : arena_wf A ->
  0 <= a_power A <= 15 /\ KERNBASE < a_block A /\
  a_block A + bsz (a_power A) <= PHYSTOP /\ (8 | a_block A) /\
  a_block A + 40 + 16 * Z.of_nat (length (a_live A)) <= a_free A /\
  a_free A <= a_block A + bsz (a_power A) /\ 4096 <= bsz (a_power A).
Proof.
  intros ((Ho & Hal & ? & ?) & _ & ? & Hs). pose proof kernel_end_range.
  pose proof (stacked_length _ _ _ Hs). unfold sizeof_block_meta, order, BUDDY_MAX_ORDER in *.
  pose proof (bsz_ge (a_power A)). split_and!; try lia.
  etrans; [|exact Hal]. etrans; [|apply bsz_page; lia]. by exists 512.
Qed.

Lemma arena_alloc_wf A size :
  arena_wf A -> 0 <= size < 2 ^ 62 ->
  a_free A + gross_size size <= a_block A + bsz (a_power A) ->
  arena_wf (arena_alloc A size).
Proof.
  intros (Hg & Hf & ? & Hs) Hsz. rewrite gross_size_eq by done.
  destruct (align_spec size Hsz) as [Hal ?]. intros Hroom.
  unfold arena_wf, arena_alloc. simpl. rewrite gross_size_eq by done. unfold sizeof_header.
  assert (8 | a_free A + 16) by (apply Z.divide_add_r; [done|by exists 2]).
  split_and!; [done| |lia|lia|done|done|lia|].
  - replace (a_free A + (align size + 16)) with (a_free A + 16 + align size) by lia.
    by apply Z.divide_add_r.
  - by replace (a_free A + 16 - 16) with (a_free A) by lia.
Qed.

Lemma data_range A x : arena_wf A -> data (a_live A) x ->
  a_block A + 56 <= x < a_free A.
Proof.
  intros (_ & _ & _ & Hs) (a & n & Hin & Hx). apply (stacked_elem _ _ _ _ _ Hs) in Hin.
  unfold sizeof_block_meta in *. lia.
Qed.

Lemma headers_frame m m' b l :
  headers m b l ->
  (forall a n, (a, n) ∈ l -> forall x, a - 16 <= x < a -> rd8 m' x = rd8 m x) ->
  headers m' b l.
Proof.
  unfold headers. rewrite !Forall_forall. intros H Hf [a n] Hin. simpl.
  destruct (H _ Hin) as [? ?]. specialize (Hf _ _ Hin).
  split; (rewrite (rd_ext 8 m); [done|]; intros; apply Hf; lia).
Qed.

(** The writes of [carve]. *)
Lemma arena_rep_alloc A size m m' : arena_wf A -> arena_rep m A -> 0 <= size < 2 ^ 62 ->
  a_free A + gross_size size <= a_block A + bsz (a_power A) ->
  m' = wr64 (wr64 (wr64 (wr64 m (a_block A + 16) (a_free A + gross_size size))
         (a_block A + 8) (Z.of_nat (length (a_live A)) + 1))
         (a_free A) (align size)) (a_free A + 8) (a_block A) ->
  arena_rep m' (arena_alloc A size) /\ modifies (spare A) m m'.
Proof.
  intros Hwf (Hp & Hc & Hf & Hn & Hpr & Hh) Hsz. unfold arena_alloc.
  rewrite gross_size_eq by done. intros Hroom ->.
  set (m' := wr64 _ _ _).
  destruct (arena_bounds A Hwf) as (? & ? & ? & ? & ? & ? & ?).
  destruct (align_spec size Hsz) as [Hal ?].
  pose proof (rd64_range m (a_block A)).
  unfold PHYSTOP, KERNBASE in *.
  assert (Hlive : forall x, (a_block A <= x < a_block A + 40 \/ a_free A <= x < a_free A + 16) ->
    spare A x).
  { intros x Hx. split; [lia|]. intros Hd%data_range; [lia|done]. }
  assert (Hmod : modifies (spare A) m m').
  { unfold m'. do 4 (eapply modifies_trans; [|apply modifies_wr; intros; apply Hlive; simpl in *; lia]).
    done. }
  split; [|done]. unfold arena_rep. simpl a_block. simpl a_power. simpl a_free.
  simpl a_live. unfold sizeof_header in *.
  split_and!; [unfold m'; mem_simp; first [done | simpl length; lia]..|].
  constructor.
  - simpl. replace (a_free A + 16 - 16) with (a_free A) by lia.
    replace (a_free A + 16 - 8) with (a_free A + 8) by lia. split; unfold m'; by mem_simp.
  - eapply headers_frame; [done|]. intros a n Hin x Hx. unfold m'.
    destruct Hwf as (_ & _ & _ & Hs). destruct (stacked_elem _ _ _ _ _ Hs Hin) as (? & ? & ? & _).
    unfold sizeof_block_meta in *. rewrite !rd8_wr_out by (simpl; lia). done.
Qed.

(** The run of [carve], whether or not there is room. *)
Lemma carve_run t f size s (Q : Z -> state -> Prop) :
  glob s block_list_tail = t -> rd64 (mem s) (t + 16) = f ->
  KERNBASE <= t -> t + 40 <= f -> f + 16 <= PHYSTOP ->
  Q (f + 16) (set_mem (wr64 (wr64 (wr64 (wr64 (mem s) (t + 16) (f +w gross_size size))
       (t + 8) (rd64 (mem s) (t + 8) +w 1)) f (align size)) (f + 8) t) s) ->
  wp (carve size) Q s.
Proof.
  intros Htail Hf ? ? ? HQ. unfold PHYSTOP, KERNBASE in *.
  unfold carve, sizeof_header.
  repeat wp_ram. rewrite Htail. repeat wp_ram. rewrite Hf. rewrite (w64_small (f + 16)) by lia.
  mem_simp. exact HQ.
Qed.

Lemma carve_ok A size s :
  glob s block_list_tail = a_block A -> arena_wf A -> arena_rep (mem s) A ->
  0 <= size < 2 ^ 62 -> a_free A + gross_size size <= a_block A + bsz (a_power A) ->
  wp (carve size) (fun r s' => r = a_free A + sizeof_header /\
    arena_rep (mem s') (arena_alloc A size) /\
    modifies (spare A) (mem s) (mem s') /\ s' = set_mem (mem s') s) s.
Proof.
  intros Htail Hwf Hrep Hsz Hroom.
  destruct (arena_rep_alloc A size (mem s) _ Hwf Hrep Hsz Hroom eq_refl) as [Hrep' Hmod].
  destruct Hrep as (_ & Hc & Hf & _).
  destruct (arena_bounds A Hwf) as (? & ? & ? & ? & ? & ? & ?).
  destruct (align_spec size Hsz) as [Hal ?]. rewrite gross_size_eq in Hroom by done.
  pose proof (bsz_mono (a_power A) 15 ltac:(lia)). change (bsz 15) with 0x8000000 in *.
  apply (carve_run (a_block A) (a_free A)); [done|done|lia|lia|lia|].
  rewrite Hc, (w64_small (Z.of_nat _ + 1)) by lia.
  rewrite (w64_small (a_free A + _)); [done|].
  rewrite gross_size_eq by done. unfold PHYSTOP, KERNBASE in *. lia.
Qed.

(** A chunk from the last block. With the code's test no block is ever full. *)
Lemma tail_enough A size s :
  glob s block_list_tail = a_block A -> arena_wf A -> arena_rep (mem s) A ->
  0 <= size < 2 ^ 62 ->
  wp (tail_not_enough size) (fun b s' => b = false /\ s' = s) s.
Proof.
  intros Htail Hwf (Hp & _ & Hf & _) Hsz.
  destruct (arena_bounds A Hwf) as (? & ? & ? & ? & ? & ? & ?).
  destruct (align_spec size Hsz) as [_ ?].
  pose proof (bsz_mono (a_power A) 15 ltac:(lia)). change (bsz 15) with 0x8000000 in *.
  unfold PHYSTOP, KERNBASE in *.
  unfold tail_not_enough, remained_size. wp_ram. wp_ram. rewrite Htail.
  rewrite (proj2 (Z.eqb_neq _ NULL)) by (unfold NULL; lia).
  repeat wp_ram. rewrite Hp, Hf, shl_page, gross_size_eq by lia. split; [|done].
  apply Z.ltb_ge. unfold w64.
  rewrite <-(Z.mod_unique_pos _ (2 ^ 64) (-1) (bsz (a_power A) - a_free A + 2 ^ 64)); lia.
Qed.

(** With a last block, [kmalloc] goes straight to [carve]. *)
Lemma kmalloc_rec_tail n A size s (Q : Z -> state -> Prop) :
  glob s block_list_tail = a_block A -> arena_wf A -> arena_rep (mem s) A ->
  0 <= size < 2 ^ 62 ->
  (forall s1, mem s1 = mem s -> same_regs s s1 -> forall v,
    wp (ret ← carve size; set_interrupt_status v;; mret ret) Q s1) ->
  wp (kmalloc_rec (S n) size) Q s.
Proof.
  intros Htail Hwf Hrep Hsz HQ. simpl kmalloc_rec. wp_step. wp_step. wp_step.
  eapply wp_mono; [by apply (tail_enough A)|]. intros _ s' [-> ->].
  apply HQ; [done|apply same_regs_sstatus].
Qed.

Lemma kmalloc_carve n A size s :
  glob s block_list_tail = a_block A -> arena_wf A -> arena_rep (mem s) A ->
  0 <= size < 2 ^ 62 -> a_free A + gross_size size <= a_block A + bsz (a_power A) ->
  wp (kmalloc_rec (S n) size) (fun r s' => r = a_free A + sizeof_header /\
    arena_rep (mem s') (arena_alloc A size) /\
    modifies (spare A) (mem s) (mem s') /\ same_regs s s') s.
Proof.
  intros Htail Hwf Hrep Hsz Hroom. apply (kmalloc_rec_tail n A); [done..|].
  intros s1 Hm1 Hregs1 v. wp_step. eapply wp_mono; [apply (carve_ok A); try done|].
  { destruct Hregs1 as (-> & _). done. } { by rewrite Hm1. }
  intros r s' (-> & Hrep' & Hmod & ->). rewrite Hm1 in Hmod.
  wp_steps. split_and!; [done..|]. eauto with kernel.
Qed.

Lemma same_regs_heap s s' : same_regs s s' -> same_but_heap s s'.
Proof. intros (Hg & ? & ? & ?). split_and!; [done..|]. by rewrite Hg. Qed.

#[export] Instance same_but_heap_preorder : PreOrder same_but_heap.
Proof.
  split.
  - intros s. done.
  - intros s1 s2 s3 (? & ? & Hr & Hg) (? & ? & Hr' & Hg'). split_and!; [congruence..| |].
    + intros r Hne. by rewrite Hr', Hr.
    + intros g Hne1 Hne2. by rewrite Hg', Hg.
Qed.

Lemma same_but_heap_put g v s : g = block_list_head \/ g = block_list_tail ->
  same_but_heap s (set_glob g v s).
Proof.
  intros Hg. split_and!; [done..|]. intros g' ? ?. simpl. rewrite fn_lookup_insert_ne; [done|].
  destruct Hg; congruence.
Qed.

(** A fresh block, before its first chunk. *)
Definition fresh (b p : Z) : arena := mkArena b p (b + sizeof_block_meta) [].

Lemma fresh_wf b p : good_block kernel_end PHYSTOP p b -> arena_wf (fresh b p).
Proof.
  intros Hg. pose proof Hg as (Ho & Hal & _). unfold order in Ho.
  pose proof (bsz_ge p ltac:(lia)). split_and!; [done| |simpl; unfold sizeof_block_meta; lia|].
  - apply Z.divide_add_r; [|by exists 5]. etrans; [|exact Hal]. etrans; [|apply bsz_page; lia].
    by exists 512.
  - simpl. lia.
Qed.

Lemma new_block_ok b p s (next : M Z) (Q : Z -> state -> Prop) :
  good_block kernel_end PHYSTOP p b ->
  glob s block_list_head = NULL -> glob s block_list_tail = NULL ->
  (forall s', arena_rep (mem s') (fresh b p) ->
    modifies (fun x => b <= x < b + 40) (mem s) (mem s') ->
    glob s' block_list_head = b -> glob s' block_list_tail = b -> same_but_heap s s' ->
    wp next Q s') ->
  wp (block ← init_block b p;
      if block =? NULL then mret NULL else append_block block;; next) Q s.
Proof.
  intros Hg Hhead Htail HQ.
  destruct (arena_bounds _ (fresh_wf b p Hg)) as (? & ? & ? & ? & _ & _ & ?).
  simpl in *. pose proof (bsz_mono p 15 ltac:(lia)). change (bsz 15) with 0x8000000 in *.
  unfold PHYSTOP, KERNBASE in *.
  assert (Hb : (b =? NULL) = false) by (apply Z.eqb_neq; unfold NULL; lia).
  wp_step. unfold init_block. rewrite Hb. repeat wp_ram. rewrite Hb.
  unfold append_block. repeat wp_ram. simpl glob. rewrite Hhead, Htail.
  simpl. repeat wp_ram. unfold sizeof_block_meta. rewrite (w64_small (b + 40)) by lia.
  apply HQ; clear HQ.
  - simpl mem. unfold arena_rep, fresh. simpl a_block. simpl a_power. simpl a_free. simpl a_live.
    simpl length. unfold sizeof_block_meta, NULL.
    split_and!; [by mem_simp..|constructor].
  - do 6 (eapply modifies_trans; [|apply modifies_wr; simpl; lia]). done.
  - simpl. by rewrite fn_lookup_insert_ne, fn_lookup_insert.
  - simpl. by rewrite fn_lookup_insert.
  - etrans; [|apply same_but_heap_put; by right]. etrans; [|apply same_but_heap_put; by left].
    apply same_regs_heap. eauto 10 with kernel.
Qed.

(** [size] fits in what is left of the block in use, if there is one. *)
Definition fits (h : option arena) (size : Z) : Prop :=
  match h with
  | None => True
  | Some A => a_free A + gross_size size <= a_block A + bsz (a_power A)
  end.

Lemma pool_owns_spare m m' F A :
  pool_owns m F -> arena_wf A ->
  (forall a, a_block A <= a < a_block A + bsz (a_power A) -> ~ F a) ->
  modifies (fun x => a_block A <= x < a_block A + bsz (a_power A)) m m' -> pool_owns m' F.
Proof.
  intros Hp Hwf HF Hm. eapply pool_owns_frame; [done|]. intros a Ha. apply Hm. intros Hin.
  destruct Ha as [Ha%pool_private_range|Ha]; [|by apply (HF a)].
  destruct Hwf as ((_ & _ & ? & _) & _). lia.
Qed.

Lemma modifies_spare A m m' : modifies (spare A) m m' ->
  modifies (fun x => a_block A <= x < a_block A + bsz (a_power A)) m m'.
Proof. apply modifies_weaken. by intros a [? _]. Qed.

Lemma heap_rep_alloc F A size s s' :
  heap_rep s F (Some A) -> 0 <= size < 2 ^ 62 -> fits (Some A) size ->
  arena_rep (mem s') (arena_alloc A size) -> modifies (spare A) (mem s) (mem s') ->
  same_regs s s' -> heap_rep s' F (Some (arena_alloc A size)).
Proof.
  intros (Hp & Hh & Ht & Hwf & _ & _ & HF) Hsz Hfit Hrep' Hmod (Hg & _).
  split_and!; simpl; rewrite ?Hg; [|done|done|by apply arena_alloc_wf|done|done|done].
  eapply pool_owns_spare; [exact Hp|exact Hwf|done|by apply modifies_spare].
Qed.

(** The result of [kmalloc]. *)
Definition kmalloc_post (F : Z -> Prop) (h : option arena) (size : Z) (s : state)
    (r : Z) (s' : state) : Prop :=
  same_but_heap s s' /\ modifies (heap_touch F h) (mem s) (mem s') /\
  ((r = NULL /\ h = None /\ heap_rep s' F None /\ mem s' = mem s /\
    forall p, least_power (sizeof_block_meta + gross_size size) p ->
    forall y, good_block kernel_end PHYSTOP p y -> ~ (forall a, y <= a < y + bsz p -> F a)) \/
   (exists F' h', heap_alloc size r F F' h h' /\ heap_rep s' F' h')).

Lemma least_power_unique need p q :
  0 <= p -> 0 <= q -> least_power need p -> least_power need q -> p = q.
Proof.
  intros Hp Hq [Hp1 Hp2] [Hq1 Hq2]. destruct (Z.lt_trichotomy p q) as [?|[?|?]]; [|done|].
  - specialize (Hq2 p ltac:(lia)). lia.
  - specialize (Hp2 q ltac:(lia)). lia.
Qed.

(** The first chunk of a new block. *)
Lemma kmalloc_first n F p b size s s1 :
  pool_owns (mem s1) (without F p b) -> good_block kernel_end PHYSTOP p b ->
  (forall a, b <= a < b + bsz p -> F a) ->
  least_power (sizeof_block_meta + gross_size size) p -> 0 <= size < 2 ^ 62 ->
  arena_rep (mem s) (fresh b p) -> modifies (fun x => b <= x < b + 40) (mem s1) (mem s) ->
  glob s block_list_head = b -> glob s block_list_tail = b ->
  wp (kmalloc_rec (S n) size) (fun r s' => same_but_heap s s' /\
    modifies (fun x => b <= x < b + bsz p) (mem s1) (mem s') /\
    exists F' h', heap_alloc size r F F' None h' /\ heap_rep s' F' h') s.
Proof.
  intros Hp Hg HF Hleast Hsz Hrep Hmod Hh Ht. pose proof (fresh_wf b p Hg) as Hwf.
  destruct (arena_bounds _ Hwf) as (_ & _ & _ & _ & _ & _ & ?). simpl in *.
  destruct (align_spec size Hsz). pose proof (proj1 Hleast) as Hroom.
  pose proof (gross_size_eq size Hsz).
  assert (Hfit : a_free (fresh b p) + gross_size size <= b + bsz p).
  { simpl. unfold sizeof_block_meta in *. lia. }
  assert (Hmod' : modifies (fun x => b <= x < b + bsz p) (mem s1) (mem s)).
  { eapply modifies_weaken; [|exact Hmod]. intros a ?. simpl in *. lia. }
  eapply wp_mono; [by apply (kmalloc_carve n (fresh b p))|].
  intros r s' (-> & Hrep' & Hmod2 & Hregs).
  assert (Hall : modifies (fun x => b <= x < b + bsz p) (mem s1) (mem s')).
  { eapply modifies_trans; [exact Hmod'|]. by apply (modifies_spare (fresh b p)). }
  split_and!; [by apply same_regs_heap|done|].
  exists (without F p b), (Some (arena_alloc (fresh b p) size)). split.
  - exists b, p. do 3 (split; [done|]). split; [|split; [done|]].
    + simpl. unfold sizeof_block_meta, sizeof_header. lia.
    + unfold arena_alloc, fresh. simpl a_block. simpl a_power. simpl a_free. simpl a_live.
      unfold sizeof_block_meta, sizeof_header. 
      replace (b + 40 + 16) with (b + 56) by lia.
      by replace (b + 40 + gross_size size) with (b + 56 + align size) by lia.
  - destruct Hregs as (Hgl & _). split_and!; simpl; rewrite ?Hgl;
      [|done|done|by apply arena_alloc_wf|done|done|by intros a ? [_ ?]].
    eapply (pool_owns_spare (mem s1) _ _ (fresh b p)); [done|done| |done].
    by intros a ? [_ ?].
Qed.

Lemma kmalloc_new m n F size s : m = S n -> heap_rep s F None -> 0 <= size < 2 ^ 62 ->
  wp (kmalloc_rec (S m) size) (kmalloc_post F None size s) s.
Proof.
  intros Hmn (Hp & Hh & Ht) Hsz. destruct (align_spec size Hsz).
  pose proof (gross_size_eq size Hsz). unfold sizeof_block_meta.
  simpl kmalloc_rec. wp_step. wp_step. wp_step. unfold tail_not_enough at 1.
  wp_step. wp_step. simpl glob. rewrite Ht. simpl (_ =? _). cbv iota. wp_step.
  rewrite (w64_small (sizeof_block_meta + _)) by (unfold sizeof_block_meta; lia).
  wp_step. eapply wp_mono; [apply need_power_ok; unfold sizeof_block_meta; lia|].
  intros p s1 (-> & Hp51 & Hleast). set (s1 := set_csr _ _ _).
  wp_step. eapply wp_mono; [apply (allocate_law F p s1); [done|lia]|].
  intros b s2 (Hregs & Hmod & [(-> & Hm & Hnone)|(Hg & Hb & HF & Hp')]).
  - unfold init_block. simpl (_ =? _). cbv iota. wp_step. wp_step. simpl (_ =? _). cbv iota. wp_step.
    split; [|split].
    + etrans; [apply (same_regs_heap _ s1); apply same_regs_sstatus|].
      by apply same_regs_heap.
    + by rewrite Hm.
    + destruct Hregs as (Hgl & _). left.
      split; [done|]. split; [done|]. split; [unfold heap_rep; by rewrite Hm, Hgl|]. split; [done|].
      intros q Hq y Hy. assert (H2 : 0 <= q) by (by destruct Hy as ([? _] & _)).
      assert (q = p) as -> by (by apply (least_power_unique _ q p H2 ltac:(lia) Hq)).
      by apply Hnone.
  - apply new_block_ok; [done|..].
    { destruct Hregs as (-> & _). done. } { destruct Hregs as (-> & _). done. }
    intros s3 Hrep Hmod3 Hh3 Ht3 Hsame. wp_step. wp_step. rewrite Hmn.
    eapply wp_mono; [apply (kmalloc_first n F p b size _ s2); try done|].
    intros r s4 (Hsame4 & Hmod4 & Hres). split; [|split].
    + etrans; [apply (same_regs_heap _ s1); apply same_regs_sstatus|].
      etrans; [by apply same_regs_heap|]. etrans; [exact Hsame|].
      etrans; [apply same_regs_heap, same_regs_sstatus|]. exact Hsame4.
    + eapply modifies_trans.
      * eapply modifies_weaken; [|exact Hmod]. intros a [?|?]; [by left|by right; left].
      * eapply modifies_weaken; [|exact Hmod4]. intros a Ha. right. left. by apply HF.
    + by right.
Qed.

Lemma kmalloc_ok F h size s :
  heap_rep s F h -> 0 <= size < 2 ^ 62 -> fits h size ->
  wp (kmalloc size) (kmalloc_post F h size s) s.
Proof.
  intros Hrep Hsz Hfit. destruct h as [A|]; [|by apply (kmalloc_new 63 62)].
  pose proof Hrep as (Hp & Hh & Ht & Hwf & _ & Har & HF).
  eapply wp_mono; [by apply (kmalloc_carve 63 A)|].
  intros r s' (-> & Hrep' & Hmod & Hregs). split; [|split].
  - by apply same_regs_heap.
  - eapply modifies_weaken; [|exact Hmod]. intros a ?. by right; right.
  - right. exists F, (Some (arena_alloc A size)). split; [done|]. by eapply heap_rep_alloc.
Qed.

(** ** Release *)

(** What [kfree] may write: the allocator's data, and in the block nothing of
    the chunks [rest] that stay. *)
Definition free_touch (F : Z -> Prop) (A : arena) (rest : list (Z * Z)) (x : Z) : Prop :=
  pool_private x \/ F x \/
  (a_block A <= x < a_block A + bsz (a_power A) /\ ~ data rest x).

Definition kfree_post (F : Z -> Prop) (A : arena) (a n : Z) (rest : list (Z * Z))
    (s s' : state) : Prop :=
  same_but_heap s s' /\ modifies (free_touch F A rest) (mem s) (mem s') /\
  heap_rep s' (pool_free F A rest) (heap_free A a n rest).

(** Unlinking the only block of the list. *)
Lemma unlink_only b s (Q : unit -> state -> Prop) :
  KERNBASE <= b -> b + 40 <= PHYSTOP ->
  glob s block_list_head = b -> glob s block_list_tail = b ->
  rd64 (mem s) (b + 24) = NULL -> rd64 (mem s) (b + 32) = NULL ->
  (forall s', mem s' = mem s -> glob s' block_list_head = NULL ->
    glob s' block_list_tail = NULL -> same_but_heap s s' -> Q tt s') ->
  wp (unlink_block b) Q s.
Proof.
  intros ? ? Hh Ht Hn Hp HQ. unfold unlink_block. do 2 wp_ram. rewrite Hh, Z.eqb_refl.
  repeat wp_ram. simpl glob. rewrite fn_lookup_insert_ne, Ht, Z.eqb_refl by done.
  repeat wp_ram. simpl mem. rewrite Hp. change (truth NULL) with false. cbv iota. repeat wp_ram. simpl mem.
  rewrite Hn. change (truth NULL) with false. cbv iota. wp_step. apply HQ.
  - done.
  - simpl. by rewrite fn_lookup_insert_ne, fn_lookup_insert.
  - simpl. by rewrite fn_lookup_insert.
  - etrans; [apply (same_but_heap_put block_list_head); by left|].
    apply same_but_heap_put. by right.
Qed.

Section Kfree.
Context (F : Z -> Prop) (A : arena) (l1 : list (Z * Z)) (a n : Z) (l2 : list (Z * Z)) (s : state).
Hypotheses (Hrep : heap_rep s F (Some A)) (Hl : a_live A = l1 ++ (a, n) :: l2).
Abbreviation b := (a_block A).
Abbreviation p := (a_power A).
Abbreviation rest := (l1 ++ l2).

Lemma kfree_facts :
  arena_wf A /\ 0 <= p <= 15 /\ KERNBASE < b /\ b + bsz p <= PHYSTOP /\ 4096 <= bsz p /\
  b + 56 <= a /\ a + n <= a_free A /\ a_free A <= b + bsz p /\ 0 <= n /\ (8 | a) /\ (8 | n) /\
  rd64 (mem s) (a - 16) = n /\ rd64 (mem s) (a - 8) = b /\
  rd64 (mem s) (b + 8) = Z.of_nat (S (length rest)) /\
  b + 40 + 16 * Z.of_nat (length rest) <= a_free A.
Proof.
  destruct Hrep as (_ & _ & _ & Hwf & _ & (_ & Hc & _ & _ & _ & Hh) & _).
  destruct (arena_bounds A Hwf) as (? & ? & ? & ? & ? & ? & ?).
  destruct Hwf as (Hg & ? & ? & Hs). rewrite Hl in Hs.
  destruct (stacked_elem _ _ _ a n Hs ltac:(set_solver)) as (? & ? & ? & ? & ?).
  pose proof (stacked_length _ _ _ (stacked_remove _ _ _ _ _ Hs)).
  unfold headers in Hh. rewrite Hl in Hh. apply Forall_app in Hh as [_ [[? ?] _]%Forall_cons].
  unfold sizeof_block_meta in *. simpl in *.
  split; [|split_and!; try done; try lia].
  - split_and!; [apply Hg..|done|done|by rewrite Hl].
  - rewrite Hc, Hl, !length_app. simpl. lia.
Qed.

Lemma rest_data x : b <= x < b + 40 -> ~ data rest x.
Proof.
  destruct Hrep as (_ & _ & _ & (_ & _ & _ & Hs) & _). rewrite Hl in Hs.
  apply stacked_remove in Hs. intros Hx (a' & n' & Hin & Ha).
  destruct (stacked_elem _ _ _ _ _ Hs Hin) as (? & _). unfold sizeof_block_meta in *. lia.
Qed.

Lemma kfree_post_csr v s' :
  kfree_post F A a n rest s s' -> kfree_post F A a n rest s (set_csr sstatus v s').
Proof.
  intros (? & ? & ?). split; [|by split]. etrans; [done|]. apply same_regs_heap, same_regs_sstatus.
Qed.

(** The last chunk: its block goes back to the page allocator. *)
Lemma kfree_last s0 : rest = [] ->
  mem s0 = wr64 (mem s) (b + 8) 0 -> same_regs s s0 ->
  wp (unlink_block b;; power ← load64 b; deallocate b power)
     (fun _ s' => kfree_post F A a n rest s s') s0.
Proof.
  intros Hrest Hm0 Hregs0. pose proof (proj1 Hregs0) as Hgl0. pose proof Hrep as (Hp & Hh & Ht & Hwf & _ & (Hpw & _ & _ & Hnx & Hpv & _) & HF).
  destruct kfree_facts as (_ & ? & ? & ? & ? & _). wp_step.
  apply unlink_only; [lia|lia|by rewrite Hgl0|by rewrite Hgl0|rewrite Hm0; by mem_simp..|].
  intros s1 Hm Hh1 Ht1 Hsame. wp_ram. wp_ram. rewrite Hm0 in Hm. rewrite Hm. mem_simp. rewrite Hpw.
  assert (Hmod : modifies (fun x => b <= x < b + bsz p) (mem s) (wr64 (mem s) (b + 8) 0)).
  { apply modifies_wr. simpl. lia. }
  assert (Hp1 : pool_owns (mem s1) F).
  { rewrite Hm. by eapply pool_owns_spare. }
  eapply wp_mono; [apply (deallocate_law F p b s1 Hp1); [apply Hwf|done]|].
  intros [] s2 (Hregs & Hmod2 & Hp2). unfold kfree_post. rewrite Hrest.
  split; [|split].
  - etrans; [by apply same_regs_heap|].
    etrans; [exact Hsame|]. by apply same_regs_heap.
  - eapply modifies_trans; [|rewrite Hm in Hmod2; eapply modifies_weaken; [|exact Hmod2]].
    + eapply modifies_weaken; [|exact Hmod]. intros y Hy. right. right. split; [done|].
      intros (? & ? & []%not_elem_of_nil & _).
    + intros y [?|[?|?]]; [by left|by right; left|]. right. right. split; [done|].
      intros (? & ? & []%not_elem_of_nil & _).
  - destruct Hregs as (Hgl & _). split_and!; simpl; rewrite ?Hgl; done.
Qed.

(** Another chunk: the block stays. *)
Lemma kfree_more m : rest <> [] ->
  m = wr64 (mem s) (b + 8) (Z.of_nat (length rest)) ->
  arena_rep m (mkArena b p (a_free A) rest).
Proof.
  intros Hrest ->. pose proof Hrep as (_ & _ & _ & Hwf & _ & (Hpw & _ & Hf & Hnx & Hpv & Hh) & _).
  destruct kfree_facts as (_ & ? & ? & ? & ? & ? & ? & ? & _ & _ & _ & _ & _ & _ & Hcnt).
  unfold PHYSTOP, KERNBASE in *.
  pose proof (bsz_mono p 15 ltac:(lia)). change (bsz 15) with 0x8000000 in *.
  unfold arena_rep. simpl a_block. simpl a_power. simpl a_free. simpl a_live.
  split_and!; [by mem_simp..|]. destruct Hwf as (_ & _ & _ & Hs). rewrite Hl in *.
  apply (headers_frame (mem s)).
  - unfold headers in *. apply Forall_app in Hh as [? [_ ?]%Forall_cons]. by apply Forall_app.
  - intros a' n' Hin x Hx. apply stacked_remove in Hs.
    destruct (stacked_elem _ _ _ _ _ Hs Hin) as (? & _). unfold sizeof_block_meta in *.
    rewrite rd8_wr_out; [done|]. simpl. lia.
Qed.

Lemma kfree_wf : arena_wf (mkArena b p (if a_free A =? a + n then a - 16 else a_free A) rest).
Proof.
  destruct Hrep as (_ & _ & _ & (Hg & H8 & Hmax & Hs) & _). rewrite Hl in Hs.
  destruct (stacked_split _ _ _ _ _ _ Hs) as (Hs1 & ? & ? & ? & Hs2).
  destruct (Z.eqb_spec (a_free A) (a + n)) as [E|].
  - pose proof (stacked_length _ _ _ Hs1). destruct l1; [|simpl length in *; lia].
    split_and!; simpl; [apply Hg..| |lia|done].
    apply Z.divide_sub_r; [done|by exists 2].
  - split_and!; simpl; [apply Hg..|done|done|by eapply stacked_remove].
Qed.

Lemma arena_rep_free m A' f : arena_wf A' -> arena_rep m A' -> 0 <= f < 2 ^ 64 ->
  arena_rep (wr64 m (a_block A' + 16) f) (mkArena (a_block A') (a_power A') f (a_live A')).
Proof.
  intros Hwf (? & ? & ? & ? & ? & Hh) Hf. destruct Hwf as (_ & _ & _ & Hs).
  unfold arena_rep. simpl a_block. simpl a_power. simpl a_free. simpl a_live.
  split_and!; [by mem_simp..|]. apply (headers_frame m); [done|].
  intros a' n' Hin x Hx. destruct (stacked_elem _ _ _ _ _ Hs Hin) as (? & _).
  unfold sizeof_block_meta in *. rewrite rd8_wr_out; [done|]. simpl. lia.
Qed.

(** The memory after the release of a chunk of a block that stays. *)
Lemma kfree_stay m f s' : rest <> [] ->
  m = wr64 (mem s) (b + 8) (Z.of_nat (length rest)) ->
  f = (if a_free A =? a + n then a - 16 else a_free A) ->
  mem s' = (if a_free A =? a + n then wr64 m (b + 16) f else m) -> same_regs s s' ->
  kfree_post F A a n rest s s'.
Proof.
  intros Hrest Hm Hf Hs' Hregs. pose proof (kfree_more m Hrest Hm) as Hrep1.
  pose proof kfree_wf as Hwf'. rewrite <-Hf in Hwf'.
  pose proof Hrep as (Hp & Hh & Ht & Hwf & _ & _ & HF).
  destruct kfree_facts as (_ & ? & ? & ? & ? & ? & ? & ? & ? & _).
  assert (Hmod : modifies (fun x => b <= x < b + 40) (mem s) (mem s')).
  { rewrite Hs', Hm. destruct (_ =? _).
    - eapply modifies_trans; apply modifies_wr; simpl; lia.
    - apply modifies_wr; simpl; lia. }
  split; [by apply same_regs_heap|split].
  - eapply modifies_weaken; [|exact Hmod]. intros x Hx. simpl in Hx. right. right.
    split; [lia|by apply rest_data].
  - assert (Hh' : heap_rep s' F (Some (mkArena b p f rest))).
    { destruct Hregs as (Hgl & _). split_and!; simpl; rewrite ?Hgl; [|done|done|apply Hwf'..|done| |done].
      - eapply pool_owns_spare; [exact Hp|exact Hwf|done|].
        eapply modifies_weaken; [|exact Hmod]. intros x ?. simpl in *. lia.
      - rewrite Hs'. destruct (_ =? _) eqn:E.
        + apply (arena_rep_free m (mkArena b p (a_free A) rest)); [|done|].
          * destruct Hwf as (Hg & ? & ? & Hs). rewrite Hl in Hs.
            split_and!; simpl; [apply Hg..|done|done|by eapply stacked_remove].
          * subst f. unfold PHYSTOP, KERNBASE in *. lia.
        + subst f. exact Hrep1. }
    unfold heap_free, pool_free, sizeof_header. subst f. by destruct rest.
Qed.

Lemma kfree_ok : wp (kfree a) (fun _ s' => kfree_post F A a n rest s s') s.
Proof.
  destruct kfree_facts as (Hwf & ? & ? & ? & ? & ? & ? & ? & ? & _ & _ & Hn & Hb & Hc & ?).
  pose proof Hrep as (_ & _ & _ & _ & _ & (_ & _ & Hf & _) & _).
  unfold PHYSTOP, KERNBASE in *.
  pose proof (bsz_mono p 15 ltac:(lia)). change (bsz 15) with 0x8000000 in *.
  unfold kfree. rewrite (proj2 (Z.eqb_neq _ NULL)) by (unfold NULL; lia). wp_step. wp_step.
  unfold sizeof_header. rewrite (w64_small (a - 16)) by lia.
  replace (a - 16 + 8) with (a - 8) by lia. simpl.
  wp_ram. wp_ram. simpl mem. rewrite Hb. repeat wp_ram. rewrite Hc.
  replace (Z.of_nat (S (length rest)) - 1) with (Z.of_nat (length rest)) by lia.
  rewrite (w64_small (Z.of_nat (length rest))) by lia. simpl mem. mem_simp.
  set (s0 := set_mem _ _).
  assert (Hregs : same_regs s s0) by (unfold s0; eauto with kernel).
  destruct (Z.eqb_spec (Z.of_nat (length rest)) 0) as [E|E].
  - assert (Hrest : rest = []) by (apply nil_length_inv; lia).
    eapply wp_mono; [apply (kfree_last s0 Hrest); [|done]|].
    { unfold s0. simpl mem. by rewrite E. }
    intros [] s2 Hpost. wp_steps. by apply kfree_post_csr.
  - assert (Hrest : rest <> []) by (intros Hr; rewrite Hr in E; done).
    pose proof (kfree_more _ Hrest eq_refl) as (_ & _ & Hf1 & _). simpl in Hf1.
    repeat wp_ram. simpl mem. rewrite Hf1. mem_simp. rewrite Hn, (w64_small (a + n)) by lia.
    destruct (a_free A =? a + n) eqn:Efree; repeat wp_ram.
    + eapply kfree_stay; [done|done|done|by rewrite Efree|]. unfold s0. eauto with kernel.
    + eapply kfree_stay; [done|done|done|by rewrite Efree|]. unfold s0. eauto with kernel.
Qed.

End Kfree.

(** ** Frame *)

(** The metadata does not depend on the contents of the chunks. *)
Lemma arena_rep_frame m m' A :
  arena_wf A ->
  (forall a, a_block A <= a < a_block A + bsz (a_power A) -> ~ data (a_live A) a ->
    rd8 m' a = rd8 m a) -> arena_rep m A -> arena_rep m' A.
Proof.
  intros Hwf Hm (Hp & Hc & Hf & Hn & Hpr & Hh). pose proof Hwf as (_ & _ & _ & Hs).
  destruct (arena_bounds A Hwf) as (_ & _ & _ & _ & ? & ? & ?).
  assert (Hmeta : forall y, a_block A <= y -> y + 8 <= a_block A + 40 -> rd64 m' y = rd64 m y).
  { intros y ? ?. apply rd_ext. intros x Hx. simpl in Hx. apply Hm; [lia|]. intros Hd.
    apply (data_range A x Hwf) in Hd. lia. }
  split_and!; [rewrite Hmeta by lia; done..|].
  eapply headers_frame; [exact Hh|]. intros a n Hin x Hx.
  destruct (stacked_elem _ _ _ _ _ Hs Hin) as (? & ? & ? & _). unfold sizeof_block_meta in *.
  apply Hm; [lia|].
  intros (a' & n' & Hin' & Hx'). apply list_elem_of_split in Hin as (l1 & l2 & E).
  rewrite E in Hs, Hin'. destruct (stacked_split _ _ _ _ _ _ Hs) as (Hs1 & ? & _ & _ & Hs2).
  apply elem_of_app in Hin' as [Hin'|[[= -> ->]|Hin']%elem_of_cons].
  - destruct (stacked_elem _ _ _ _ _ Hs1 Hin'). lia.
  - lia.
  - destruct (stacked_elem _ _ _ _ _ Hs2 Hin'). lia.
Qed.

(** Writes outside what [kfree] may touch leave the heap alone. *)
Lemma heap_rep_frame F A rest s s' :
  heap_rep s F (Some A) -> (forall a, data rest a -> data (a_live A) a) ->
  modifies (fun a => ~ free_touch F A rest a) (mem s) (mem s') -> glob s' = glob s ->
  heap_rep s' F (Some A).
Proof.
  intros (Hp & Hh & Ht & Hwf & Hne & Hrep & HF) Hsub Hm Hg.
  assert (Hf : forall a, (pool_private a \/ F a) \/
    (a_block A <= a < a_block A + bsz (a_power A) /\ ~ data (a_live A) a) ->
    rd8 (mem s') a = rd8 (mem s) a).
  { intros a Ha. apply Hm. intros Hn. apply Hn. unfold free_touch. naive_solver. }
  unfold heap_rep. rewrite Hg. split; [|split_and!; try done].
  - eapply pool_owns_frame; [done|]. intros a Ha. apply Hf. by left.
  - apply (arena_rep_frame (mem s)); [done| |done]. intros a ? ?. apply Hf. by right.
Qed.

(** The same after the release. *)
Lemma heap_rep_frame_free F A a n rest s s' :
  heap_rep s (pool_free F A rest) (heap_free A a n rest) ->
  modifies (fun x => ~ free_touch F A rest x) (mem s) (mem s') -> glob s' = glob s ->
  heap_rep s' (pool_free F A rest) (heap_free A a n rest).
Proof.
  intros Hrep Hm Hg. destruct rest as [|c rest].
  - destruct Hrep as (Hp & Hh). split; [|by rewrite Hg].
    eapply pool_owns_frame; [exact Hp|]. intros x Hx. apply Hm. intros Hn. apply Hn.
    destruct Hx as [Hx|[Hx|Hx]]; [by left|by right; left|]. right. right. split; [done|].
    intros (? & ? & []%not_elem_of_nil & _).
  - apply (heap_rep_frame F _ (c :: rest) s s' Hrep); [done| |done].
    eapply modifies_weaken; [|exact Hm]. done.
Qed.

End Proofs.
