(* ===== verification/KmallocTheorems.v ===== *)
(** * Theorems on kmalloc and kfree

    The functional behaviour of both, their round trip, every sequence of
    calls, and what happens when a block is full. *)

From S2P Require Import Prelude Machine Board Chain BuddySpec PageAlloc Buddy BuddyProof BuddyInstance BuddyClient BuddyTheorems Kmalloc KmallocProof.

Section Sequences.
Context `{Hw : Platform} {HwOk : PlatformOk Hw} {Ops : PageOps} {HA : PageAllocator Ops}.

(** There is room for [size] more bytes in the last block, if there is one. *)
Definition room (s : state) (size : Z) : Prop :=
  let t := glob s block_list_tail in
  t <> NULL -> rd64 (mem s) (t + 16) + gross_size size <= t + bsz (rd64 (mem s) t).

(** A client of kmalloc and kfree, from a heap without blocks: [run F0 l s] when
    the chunks [l] (address and requested size) are in use in [s]. *)
Inductive run (F0 : Z -> Prop) : list (Z * Z) -> state -> Prop :=
  | run_start s : heap_rep s F0 None -> run F0 [] s
  | run_kmalloc l s size r s' :
      run F0 l s -> 0 <= size < 2 ^ 62 -> room s size -> kmalloc size s = Ok r s' ->
      run F0 (if decide (r = NULL) then l else (r, size) :: l) s'
  | run_kfree l1 a n l2 s s' :
      run F0 (l1 ++ (a, n) :: l2) s -> kfree a s = Ok tt s' -> run F0 (l1 ++ l2) s'
  | run_use l s s' :
      run F0 l s -> (forall x, ~ data l x -> rd8 (mem s') x = rd8 (mem s) x) ->
      glob s' = glob s -> run F0 l s'.

(** The chunks as the heap records them: sizes are rounded up. *)
Definition rounded (l : list (Z * Z)) : list (Z * Z) := (fun c => (c.1, align c.2)) <$> l.

Lemma data_rounded l x : Forall (fun c => 0 <= c.2 < 2 ^ 62) l -> data l x -> data (rounded l) x.
Proof.
  intros Hs (a & n & Hin & Ha). exists a, (align n).
  split; [by apply (list_elem_of_fmap_2 (fun c => (c.1, align c.2)) l (a, n))|].
  rewrite Forall_forall in Hs. specialize (Hs _ Hin). destruct (align_spec n Hs). lia.
Qed.

(** The bytes of the block are neither free nor the allocator's own. *)
Lemma heap_block_apart s F A a : heap_rep s F (Some A) ->
  a_block A <= a < a_block A + bsz (a_power A) -> ~ F a /\ ~ pool_private a.
Proof.
  intros (_ & _ & _ & Hwf & _ & _ & HF) Ha. split; [by apply HF|]. intros Hp%pool_private_range.
  destruct Hwf as ((_ & _ & Hlo & _) & _). lia.
Qed.

Definition region (h : option arena) (x : Z) : Prop :=
  match h with
  | None => False
  | Some A => a_block A <= x < a_block A + bsz (a_power A)
  end.
Definition chunks (h : option arena) : list (Z * Z) :=
  match h with None => [] | Some A => a_live A end.

Record run_inv (F0 : Z -> Prop) (l : list (Z * Z)) (s : state) : Prop := {
  run_sizes : Forall (fun c => 0 <= c.2 < 2 ^ 62) l;
  run_heap : exists F h, heap_rep s F h /\ chunks h = rounded l /\
    forall x, F0 x <-> F x \/ region h x
}.

Lemma room_fits s F h size : heap_rep s F h -> room s size -> fits h size.
Proof.
  destruct h as [A|]; [|done]. intros (_ & _ & Ht & Hwf & _ & (Hp & _ & Hf & _) & _) Hr.
  unfold room in Hr. rewrite Ht, Hp, Hf in Hr. apply Hr.
  destruct (arena_bounds A Hwf) as (_ & ? & _). unfold NULL, KERNBASE in *. lia.
Qed.

Lemma heap_rep_proper s F F' h :
  (forall a, F a <-> F' a) -> heap_rep s F h -> heap_rep s F' h.
Proof.
  intros HF (Hp & Hh). split.
  - by apply (pool_owns_proper (mem s) (mem s) eq_refl F F').
  - destruct h as [A|]; [|done]. destruct Hh as (? & ? & ? & ? & ? & Hn).
    split_and!; try done. intros a Ha. rewrite <-HF. by apply Hn.
Qed.

Lemma run_inv_kmalloc F0 l s size :
  run_inv F0 l s -> 0 <= size < 2 ^ 62 -> room s size ->
  wp (kmalloc size) (fun r s' =>
    run_inv F0 (if decide (r = NULL) then l else (r, size) :: l) s') s.
Proof.
  intros [Hs (F & h & Hrep & Hl & HF)] Hsz Hroom.
  eapply wp_mono; [by apply (kmalloc_ok F h), (room_fits s F h)|].
  intros r s' (_ & _ & [(-> & -> & Hrep' & _)|(F' & h' & Halloc & Hrep')]).
  - rewrite decide_True by done. split; [done|]. by exists F, None.
  - assert (Hr : r <> NULL /\ chunks h' = (r, align size) :: chunks h /\
              forall x, F x \/ region h x <-> F' x \/ region h' x).
    { destruct h as [A|]; simpl in Halloc.
      - destruct Halloc as (-> & -> & ->). split; [|done].
        destruct Hrep as (_ & _ & _ & Hwf & _). destruct (arena_bounds A Hwf) as (_ & ? & _ & _ & ? & _).
        unfold NULL, KERNBASE, sizeof_header in *. lia.
      - destruct Halloc as (b & p & _ & Hg & HFb & -> & -> & ->). split; [|split; [done|]].
        + destruct Hg as (_ & _ & ? & _). pose proof kernel_end_range.
          unfold NULL, KERNBASE in *. lia.
        + intros x. unfold without. simpl. destruct (decide (b <= x < b + bsz p)).
          * split; [by right|]. intros _. left. by apply HFb.
          * tauto. }
    destruct Hr as (Hr & Hc & HF'). rewrite decide_False by done. split; [by constructor|].
    exists F', h'. split; [done|]. split; [by rewrite Hc, Hl|]. intros x. by rewrite HF, HF'.
Qed.

Lemma run_inv_kfree F0 l1 a n l2 s :
  run_inv F0 (l1 ++ (a, n) :: l2) s ->
  wp (kfree a) (fun _ s' => run_inv F0 (l1 ++ l2) s') s.
Proof.
  intros [Hs (F & h & Hrep & Hl & HF)].
  destruct h as [A|]; [|by destruct l1]. simpl in Hl. unfold rounded in Hl.
  rewrite fmap_app, fmap_cons in Hl. simpl in Hl.
  eapply wp_mono; [apply (kfree_ok F A _ a (align n) _ s Hrep Hl)|].
  intros [] s' (_ & _ & Hrep'). apply Forall_app in Hs as [Hs1 [_ Hs2]%Forall_cons].
  split; [by apply Forall_app|].
  eexists _, _. split; [exact Hrep'|]. rewrite <-fmap_app. fold (rounded (l1 ++ l2)).
  unfold heap_free, pool_free. destruct (rounded (l1 ++ l2)); split; try done.
  intros x. rewrite HF. simpl. unfold with_block. tauto.
Qed.

Lemma run_inv_use F0 l s s' :
  run_inv F0 l s -> (forall x, ~ data l x -> rd8 (mem s') x = rd8 (mem s) x) ->
  glob s' = glob s -> run_inv F0 l s'.
Proof.
  intros [Hs (F & h & (Hp & Hh) & Hl & HF)] Hx Hg. split; [done|]. exists F, h.
  split; [|done]. destruct h as [A|].
  - destruct Hh as (? & ? & Hwf & ? & Hrep & Hn). simpl in Hl.
    assert (Hmod : modifies (data (a_live A)) (mem s) (mem s')).
    { intros x Hnx. apply Hx. intros Hd. apply Hnx. rewrite Hl. by apply data_rounded. }
    assert (Hin : modifies (fun x => a_block A + 56 <= x < a_free A) (mem s) (mem s')).
    { eapply modifies_weaken; [|exact Hmod]. intros x. by apply data_range. }
    destruct (arena_bounds A Hwf) as (? & ? & ? & ? & ? & ? & ?).
    split; [|rewrite Hg; split_and!; try done].
    { eapply pool_owns_spare; [done|done|done|]. eapply modifies_weaken; [|exact Hin].
      simpl. lia. }
    apply (arena_rep_frame (mem s)); [done| |done]. intros a _ Ha. by apply Hmod.
  - split; [|by rewrite Hg]. simpl in Hl. destruct l; [|done].
    eapply pool_owns_frame; [done|]. intros a _. apply Hx. intros (? & ? & []%not_elem_of_nil & _).
Qed.

Lemma run_inv_reach F0 l s : run F0 l s -> run_inv F0 l s.
Proof.
  induction 1 as [s H|l s size r s' _ IH Hsz Hr H|l1 a n l2 s s' _ IH H|l s s' _ IH Hx Hg].
  - split; [done|]. exists F0, None. split; [done|]. split; [done|]. simpl. tauto.
  - apply (wp_elim _ _ _ _ _ (run_inv_kmalloc _ _ _ _ IH Hsz Hr) H).
  - apply (wp_elim _ _ _ _ _ (run_inv_kfree _ _ _ _ _ _ IH) H).
  - by eapply run_inv_use.
Qed.

(** A call leaves the data of the other chunks alone. *)
Lemma run_inv_keeps F0 l s size : run_inv F0 l s -> 0 <= size < 2 ^ 62 -> room s size ->
  wp (kmalloc size) (fun _ s' => forall x, data l x -> rd8 (mem s') x = rd8 (mem s) x) s.
Proof.
  intros [Hs (F & h & Hrep & Hl & _)] Hsz Hroom. eapply wp_mono; [by apply (kmalloc_ok F h), (room_fits s F h)|].
  intros r s' (_ & Hm & _) x Hx%data_rounded; [|done]. apply Hm. rewrite <-Hl in Hx. destruct h as [A|]; simpl in Hx.
  - pose proof Hrep as (_ & _ & _ & Hwf & _). pose proof (data_range A x Hwf Hx). destruct (arena_bounds A Hwf) as (_ & _ & _ & _ & _ & ? & _).
    destruct (heap_block_apart s F A x Hrep) as [HnF Hnp]; [lia|]. by intros [?|[?|[_ ?]]].
  - by destruct Hx as (? & ? & []%not_elem_of_nil & _).
Qed.

Lemma run_inv_keeps_others F0 l1 a n l2 s : run_inv F0 (l1 ++ (a, n) :: l2) s ->
  wp (kfree a) (fun _ s' => forall x, data (l1 ++ l2) x -> rd8 (mem s') x = rd8 (mem s) x) s.
Proof.
  intros [Hs (F & h & Hrep & Hl & _)]. destruct h as [A|]; [|by destruct l1]. simpl in Hl. unfold rounded in Hl.
  rewrite fmap_app, fmap_cons in Hl. simpl in Hl. eapply wp_mono; [apply (kfree_ok F A _ a (align n) _ s Hrep Hl)|].
  apply Forall_app in Hs as [Hs1 [_ Hs2]%Forall_cons].
  intros [] s' (_ & Hm & _) x Hx%data_rounded; [|by apply Forall_app]. apply Hm. unfold rounded in Hx. rewrite fmap_app in Hx.
  assert (Hin : data (a_live A) x).
  { destruct Hx as (b & k & Hin & Hx). exists b, k. split; [|done]. rewrite Hl. set_solver. }
  pose proof Hrep as (_ & _ & _ & Hwf & _). pose proof (data_range A x Hwf Hin). destruct (arena_bounds A Hwf) as (_ & _ & _ & _ & _ & ? & _).
  destruct (heap_block_apart s F A x Hrep) as [HnF Hnp]; [lia|]. by intros [?|[?|[_ ?]]].
Qed.

(** A request when there is a block, with or without room. *)
Lemma kmalloc_rec_overrun A size s (Q : Z -> state -> Prop) :
  glob s block_list_tail = a_block A -> arena_wf A -> arena_rep (mem s) A ->
  0 <= size < 2 ^ 62 -> a_free A + 16 <= PHYSTOP ->
  (forall s', mem s' = wr64 (wr64 (wr64 (wr64 (mem s) (a_block A + 16)
       (a_free A +w gross_size size)) (a_block A + 8) (rd64 (mem s) (a_block A + 8) +w 1))
       (a_free A) (align size)) (a_free A + 8) (a_block A) ->
     same_regs s s' -> Q (a_free A + 16) s') ->
  wp (kmalloc size) Q s.
Proof.
  intros Htail Hwf Hrep Hsz Hram HQ. apply (kmalloc_rec_tail 63 A); [done..|].
  intros s1 Hm1 Hregs1 v. destruct (arena_bounds A Hwf) as (? & ? & ? & ? & ? & ? & ?).
  apply wp_bind, (carve_run (a_block A) (a_free A)); [|by rewrite Hm1; apply Hrep|lia|lia|done|].
  { destruct Hregs1 as (-> & _). done. }
  wp_steps. apply HQ; [simpl; by rewrite Hm1|]. eauto with kernel.
Qed.

End Sequences.

Section Theorems.
Context `{Hw : Platform} {HwOk : PlatformOk Hw} {Ops : PageOps} {HA : PageAllocator Ops}.

(** C14: [kmalloc] of a size that fits returns: a new chunk behind its header,
    in a block taken from the page allocator when there was none, with every
    chunk in use and everything outside the heap unchanged; or NULL with the
    memory unchanged when the page allocator has no block of the least order
    that holds the request. *)
Theorem kmalloc_spec F h size s :
  heap_rep s F h -> 0 <= size < 2 ^ 62 -> fits h size ->
  wp (kmalloc size) (fun r s' =>
    same_but_heap s s' /\ modifies (heap_touch F h) (mem s) (mem s') /\
    ((r = NULL /\ h = None /\ heap_rep s' F None /\ mem s' = mem s /\
      forall p, least_power (sizeof_block_meta + gross_size size) p ->
      forall y, good_block kernel_end PHYSTOP p y ->
        ~ (forall a, y <= a < y + bsz p -> F a)) \/
     (exists F' h', heap_alloc size r F F' h h' /\ heap_rep s' F' h'))) s.
Proof. apply kmalloc_ok. Qed.

(** C15: [kfree] of a chunk in use returns with that chunk removed: the space of
    the topmost chunk becomes available again, the last chunk gives its block
    back to the page allocator, and no other chunk is written. *)
Theorem kfree_spec F A l1 a n l2 s :
  heap_rep s F (Some A) -> a_live A = l1 ++ (a, n) :: l2 ->
  wp (kfree a) (fun _ s' =>
    same_but_heap s s' /\ modifies (free_touch F A (l1 ++ l2)) (mem s) (mem s') /\
    heap_rep s' (pool_free F A (l1 ++ l2)) (heap_free A a n (l1 ++ l2))) s.
Proof. apply kfree_ok. Qed.

(** A chunk that is freed right after it was taken leaves the heap and the
    free pages as they were. *)
Lemma kmalloc_kfree_restores F h size s :
  heap_rep s F h -> 0 <= size < 2 ^ 62 -> fits h size ->
  wp (r ← kmalloc size; kfree r) (fun _ s' => heap_rep s' F h /\ same_but_heap s s') s.
Proof.
  intros Hrep Hsz Hfit. wp_step. eapply wp_mono; [by apply (kmalloc_ok F h)|].
  intros r s1 (Hsame & _ & [(-> & -> & Hrep' & _)|(F' & h' & Halloc & Hrep')]).
  { unfold kfree. simpl (_ =? _). cbv iota. by wp_step. }
  destruct h as [A|]; simpl in Halloc.
  - destruct Halloc as (-> & -> & ->).
    eapply wp_mono; [exact (kfree_ok F _ [] (a_free A + sizeof_header) (align size) (a_live A) s1 Hrep' eq_refl)|].
    intros [] s2 (Hsame2 & _ & Hrep2). split; [|by etrans]. simpl in Hrep2.
    pose proof Hrep as (_ & _ & _ & _ & Hne & _).
    unfold heap_free, pool_free in Hrep2. destruct A as [b p f l]. simpl in *.
    destruct l as [|c l]; [done|]. rewrite (gross_size_eq size Hsz) in Hrep2.
    unfold sizeof_header in *. replace (f + 16 - 16) with f in Hrep2 by lia.
    by replace (f + (align size + 16) =? f + 16 + align size) with true in Hrep2
      by (symmetry; apply Z.eqb_eq; lia).
  - destruct Halloc as (b & p & _ & Hg & HFb & -> & -> & ->).
    eapply wp_mono; [exact (kfree_ok _ _ [] (b + 56) (align size) [] s1 Hrep' eq_refl)|].
    intros [] s2 (Hsame2 & _ & Hrep2). split; [|by etrans]. simpl in Hrep2.
    eapply heap_rep_proper; [|exact Hrep2]. intros a. unfold with_block, without. simpl.
    destruct (decide (b <= a < b + bsz p)); [|tauto].
    split; [intros _; by apply HFb|by right].
Qed.

(** C13: through any sequence of kmalloc, kfree and uses of chunks in which every
    request fits what is left of the block in use ([room], which the code does
    not check), the chunks in use are 8-byte aligned, at least as large as
    requested, stacked without overlap inside one block of the region, and that
    block together with the free pages is what was free at the start; when no
    chunk is in use everything is free again.  The next call, a request that
    fits or the release of a chunk in use, returns and writes no byte of a chunk
    that stays in use. *)
Theorem run_safe F0 l s :
  run F0 l s ->
  (exists F h, heap_rep s F h /\ chunks h = rounded l /\
    Forall (fun c => c.2 <= align c.2) l /\
    (forall x, F0 x <-> F x \/ region h x) /\
    (l = [] -> h = None)) /\
  (forall size, 0 <= size < 2 ^ 62 -> room s size ->
    wp (kmalloc size) (fun _ s' => forall x, data l x -> rd8 (mem s') x = rd8 (mem s) x) s) /\
  (forall l1 a n l2, l = l1 ++ (a, n) :: l2 ->
    wp (kfree a) (fun _ s' => forall x, data (l1 ++ l2) x -> rd8 (mem s') x = rd8 (mem s) x) s).
Proof.
  intros Hinv%run_inv_reach. split; [|split].
  - destruct Hinv as [Hs (F & h & Hrep & Hl & HF)]. exists F, h. split; [done|]. split; [done|]. split; [|split; [done|]].
    + eapply Forall_impl; [exact Hs|]. intros [a n] Hn. simpl in *. destruct (align_spec n Hn). lia.
    + intros ->. destruct h as [A|]; [|done]. by destruct Hrep as (_ & _ & _ & _ & ? & _).
  - intros size Hsz Hroom. by eapply run_inv_keeps.
  - intros l1 a n l2 ->. by eapply run_inv_keeps_others.
Qed.

(** C40: when the last block has no room, [kmalloc] does not start another one
    (the test compares with a size from which an absolute address was
    subtracted): it returns a chunk that reaches beyond the block, as long as
    the chunk's header is in the RAM. *)
Theorem kmalloc_overruns_block F A size s :
  heap_rep s F (Some A) -> 0 <= size < 2 ^ 62 -> ~ fits (Some A) size ->
  a_free A + 16 <= PHYSTOP ->
  wp (kmalloc size) (fun r s' =>
    r = a_free A + 16 /\ a_block A + bsz (a_power A) < r + align size /\
    rd64 (mem s') (r - 16) = align size /\ rd64 (mem s') (r - 8) = a_block A /\
    glob s' = glob s) s.
Proof.
  intros (_ & _ & Ht & Hwf & _ & Hrep & _) Hsz Hfit Hram. unfold fits in Hfit.
  pose proof Hrep as (_ & _ & Hf & _). destruct (align_spec size Hsz).
  destruct (arena_bounds A Hwf) as (? & ? & ? & ? & ? & ? & ?).
  rewrite gross_size_eq in Hfit by done. apply (kmalloc_rec_overrun A); [done|done|done|done|done|].
  cbv beta. intros s' Hm (Hgl & _). split; [done|]. split; [lia|].
  unfold PHYSTOP, KERNBASE in *. rewrite Hm.
  replace (a_free A + 16 - 16) with (a_free A) by lia.
  replace (a_free A + 16 - 8) with (a_free A + 8) by lia.
  split; [by mem_simp|]. split; [by mem_simp|done].
Qed.

End Theorems.

(** ** Instances on a booted machine *)

Section Witnesses.
#[local] Existing Instances board board_ok.
#[local] Opaque booted.

Definition boot_free (a : Z) : Prop := 0x80020000 <= a < 0x88000000.

Lemma booted_heap : heap_rep booted boot_free None.
Proof.
  destruct (wp_elim _ _ _ _ _ (BuddyInit.init_mem_manage_ok power_on) booted_ok)
    as (P & Hwf & Hrep & HF & (Hg & _) & _).
  unfold heap_rep. rewrite Hg. clear Hg. split; [|by split].
  change (buddy_owns (mem booted) boot_free). exists P. split; [exact Hrep|]. by split.
Qed.

(** After a request of 100 bytes. *)
Definition chunk : Z := page + 56.
Definition chunk_state : state := after (kmalloc 100) booted.
Definition chunk_arena : arena := mkArena page 0 (chunk + 104) [(chunk, 104)].

Lemma chunk_ok : kmalloc 100 booted = Ok chunk chunk_state.
Proof. apply returns_ok. vm_compute. reflexivity. Qed.

#[local] Opaque chunk_state.

Lemma chunk_heap : heap_rep chunk_state (without boot_free 0 page) (Some chunk_arena).
Proof.
  pose proof (wp_elim _ _ _ _ _ (kmalloc_ok boot_free None 100 booted booted_heap
    ltac:(done) I) chunk_ok) as (_ & _ & [(? & _)|(F' & h' & Halloc & Hrep)]); [done|].
  destruct Halloc as (b & p & Hleast & Hg & HF & Hr & -> & ->).
  assert (b = page) as -> by (unfold chunk in Hr; lia).
  assert (p = 0) as ->.
  { apply (least_power_unique (sizeof_block_meta + gross_size 100)); [apply Hg|done|done|].
    split; [done|lia]. }
  exact Hrep.
Qed.

Lemma kmalloc_spec_witness :
  kmalloc 100 booted = Ok chunk chunk_state /\
  wp (kmalloc 100) (fun _ s' => clock s' = 0%nat) booted.
Proof.
  split; [exact chunk_ok|].
  eapply wp_mono; [apply (kmalloc_spec boot_free None 100 booted booted_heap); done|].
  intros r s' ((Hc & _) & _). by rewrite Hc.
Defined.

Lemma kfree_spec_witness :
  wp (kfree chunk) (fun _ s' =>
    heap_rep s' (with_block (without boot_free 0 page) 0 page) None) chunk_state.
Proof.
  eapply wp_mono; [apply (kfree_spec _ chunk_arena [] chunk 104 [] _ chunk_heap eq_refl)|].
  by intros [] s' (_ & _ & H).
Defined.

Lemma kmalloc_kfree_restores_witness :
  wp (r ← kmalloc 64; kfree r) (fun _ s' =>
    heap_rep s' (without boot_free 0 page) (Some chunk_arena)) chunk_state.
Proof.
  eapply wp_mono; [apply (kmalloc_kfree_restores _ _ 64 _ chunk_heap); done|].
  by intros [] s' [H _].
Defined.

Lemma run_safe_witness :
  run boot_free [(chunk, 100)] chunk_state /\
  exists F h, heap_rep chunk_state F h /\ chunks h = [(chunk, 104)].
Proof.
  assert (Hrun : run boot_free [(chunk, 100)] chunk_state).
  { apply (run_kmalloc boot_free [] booted 100 chunk); [by apply run_start, booted_heap|done| |exact chunk_ok].
    intros Ht. destruct (Ht (proj2 (proj2 booted_heap))). }
  split; [exact Hrun|].
  destruct (run_safe boot_free _ _ Hrun) as ((F & h & Hr & Hc & _) & _). exists F, h. split; [exact Hr|exact Hc].
Defined.

Lemma kmalloc_overruns_block_witness :
  ~ fits (Some chunk_arena) 5000 /\
  wp (kmalloc 5000) (fun r s' => r = page + 56 + 104 + 16 /\ page + 4096 < r + 5000)
    chunk_state.
Proof.
  split; [by intros []|].
  eapply wp_mono; [apply (kmalloc_overruns_block _ _ 5000 _ chunk_heap); [done|by intros []|done]|].
  intros r s' (-> & ? & _). split; [done|].
  change (align 5000) with 5000 in *. simpl in *. done.
Defined.

End Witnesses.
