(* ===== verification/LinkedList.v ===== *)
(** * Singly linked lists: single_linked_list.h

    The list the kernel keeps tasks, memory sections and channels in.  A node is
    [next; data], a list is [head; tail; size]; nodes come from kmalloc. *)

From S2P Require Import Prelude Machine Chain BuddySpec PageAlloc Kmalloc KmallocProof.

(** sizeof(struct single_linked_list) and of its nodes; offsets: head 0,
    tail 8, size 16; next 0, data 8. *)
Definition sizeof_list : Z := 24.
Definition sizeof_node : Z := 16.

Section Code.
Context `{Hw : Platform} {Ops : PageOps}.

Definition init_single_linked_list (list : Z) : M unit :=
  store64 list NULL;;
  store64 (list + 8) NULL;;
  store64 (list + 16) 0.

Definition create_single_linked_list : M Z :=
  list ← kmalloc sizeof_list;
  if list =? NULL then mret NULL
  else init_single_linked_list list;; mret list.

Definition clear_single_linked_list (list : Z) : M unit :=
  if list =? NULL then mret tt
  else
    node ← load64 list;
    loop (fun node =>
      if truth node then
        next ← load64 node;
        kfree node;;
        mret (inl next)
      else mret (inr tt)) node;;
    init_single_linked_list list.

Definition single_linked_list_destroy (list : Z) : M unit :=
  if list =? NULL then mret tt
  else clear_single_linked_list list;; kfree list.

Definition head (list : Z) : M Z := node ← load64 list; load64 (node + 8).
Definition head_node (list : Z) : M Z := load64 list.
Definition tail (list : Z) : M Z := node ← load64 (list + 8); load64 (node + 8).
Definition tail_node (list : Z) : M Z := load64 (list + 8).

Definition pop_head_without_free (list : Z) : M unit :=
  head ← load64 list;
  if head =? NULL then mret tt
  else
    tail ← load64 (list + 8);
    (if head =? tail then
       store64 list NULL;;
       store64 (list + 8) NULL
     else
       next ← load64 head;
       store64 list next);;
    size ← load64 (list + 16);
    store64 (list + 16) (size -w 1).

Definition pop_head (list : Z) : M unit :=
  node ← load64 list;
  pop_head_without_free list;;
  kfree node.

Definition make_single_linked_list_node (data : Z) : M Z :=
  node ← kmalloc sizeof_node;
  if node =? NULL then mret NULL
  else
    store64 (node + 8) data;;
    store64 node NULL;;
    mret node.

Definition push_head (list node : Z) : M Z :=
  head ← load64 list;
  store64 node head;;
  store64 list node;;
  tail ← load64 (list + 8);
  (if tail =? NULL then store64 (list + 8) node else mret tt);;
  size ← load64 (list + 16);
  store64 (list + 16) (size +w 1);;
  mret 0.

Definition push_tail (list node : Z) : M Z :=
  tail ← load64 (list + 8);
  (if tail =? NULL then
     store64 list node;;
     store64 (list + 8) node
   else
     store64 tail node;;
     store64 (list + 8) node);;
  size ← load64 (list + 16);
  store64 (list + 16) (size +w 1);;
  store64 node NULL;;
  mret 0.

Definition single_linked_list_size (list : Z) : M Z :=
  size ← load64 (list + 16); mret (s64 size).

Definition for_each_node (list : Z) (func : Z -> M unit) : M unit :=
  node ← load64 list;
  loop (fun node =>
    if truth node then
      data ← load64 (node + 8);
      func data;;
      next ← load64 node;
      mret (inl next)
    else mret (inr tt)) node.

(** The found node is unlinked and freed. *)
Definition remove_node (list prev node : Z) : M unit :=
  (if prev =? NULL then next ← load64 node; store64 list next
   else next ← load64 node; store64 prev next);;
  tail ← load64 (list + 8);
  (if node =? tail then store64 (list + 8) prev else mret tt);;
  kfree node;;
  size ← load64 (list + 16);
  store64 (list + 16) (size -w 1).

Definition removeAt (list addr : Z) : M Z :=
  node ← load64 list;
  if node =? NULL then mret (-1)
  else
    let prev := node in
    node ← load64 node;
    loop (fun '(prev, node) =>
      if truth node then
        data ← load64 (node + 8);
        if data =? addr then
          remove_node list prev node;;
          mret (inr 0)
        else
          next ← load64 node;
          mret (inl (node, next))
      else mret (inr (-1))) (prev, node).

End Code.

(** ** Representation *)

(** The [n] bytes at [x] and the [k] bytes at [y] do not overlap. *)
Definition sep (x n y k : Z) : Prop := x + n <= y \/ y + k <= x.

(** The list at [L] and its nodes [xs] lie in the RAM without overlap. *)
Record list_ok (L : Z) (xs : list Z) : Prop := {
  list_ram : KERNBASE <= L /\ L + sizeof_list <= PHYSTOP;
  node_ram : forall x, x ∈ xs -> KERNBASE <= x /\ x + sizeof_node <= PHYSTOP;
  list_sep : forall x, x ∈ xs -> sep L sizeof_list x sizeof_node;
  node_sep : forall x y, x ∈ xs -> y ∈ xs -> x <> y -> sep x sizeof_node y sizeof_node;
  node_nodup : NoDup xs
}.

(** [list_rep m L l]: the list at [L] holds the nodes and data of [l]. *)
Record list_rep (m : gmap Z Z) (L : Z) (l : list (Z * Z)) : Prop := {
  rep_ok : list_ok L l.*1;
  rep_chain : chain m L l.*1;
  rep_tail : rd64 m (L + 8) = last_node NULL l.*1;
  rep_size : rd64 m (L + 16) = Z.of_nat (length l);
  rep_data : Forall (fun c => rd64 m (c.1 + 8) = c.2) l
}.

(** A node that can be added: apart from the list and its nodes. *)
Definition node_fresh (L : Z) (xs : list Z) (x : Z) : Prop :=
  KERNBASE <= x /\ x + sizeof_node <= PHYSTOP /\ sep L sizeof_list x sizeof_node /\
  forall y, y ∈ xs -> sep x sizeof_node y sizeof_node.

(** What an operation on the list may write besides [extra]. *)
Definition list_touch (L : Z) (xs : list Z) (a : Z) : Prop :=
  L <= a < L + sizeof_list \/ exists x, x ∈ xs /\ x <= a < x + 8.
