(* ===== verification/LinkedListProof.v ===== *)
(** * Operations on linked lists preserve the representation

    Proofs for LinkedList.v. *)

From S2P Require Import Prelude Machine Chain BuddySpec PageAlloc Kmalloc KmallocProof LinkedList.

Lemma range_length (xs : list Z) a b :
  NoDup xs -> (forall x, x ∈ xs -> a <= x < b) -> a <= b -> Z.of_nat (length xs) <= b - a.
Proof.
  intros Hnd Hr Hab. assert (Hs : xs ⊆+ seqZ a (b - a)).
  { apply NoDup_submseteq; [done|]. intros x Hx. apply elem_of_seqZ.
    specialize (Hr x Hx). lia. }
  apply submseteq_length in Hs. rewrite length_seqZ in Hs. lia.
Qed.

Lemma list_length L xs : list_ok L xs -> Z.of_nat (length xs) < 2 ^ 32.
Proof.
  intros [_ Hr _ _ Hnd]. pose proof (range_length xs KERNBASE PHYSTOP Hnd) as H.
  unfold PHYSTOP, KERNBASE in *. assert (0x80000000 <= 0x80000000 + 128 * 1024 * 1024) by lia.
  unfold sizeof_node in *.
  enough (Z.of_nat (length xs) <= 0x80000000 + 128 * 1024 * 1024 - 0x80000000) by lia.
  apply H; [|lia]. intros x Hx. specialize (Hr x Hx). lia.
Qed.

Lemma last_node_null xs : last_node NULL xs = NULL -> (forall x, x ∈ xs -> x <> NULL) -> xs = [].
Proof.
  intros H Hx. destruct xs as [|x xs]; [done|]. exfalso.
  destruct (last_node_elem NULL (x :: xs)) as [E|E].
  - rewrite last_node_cons in E. destruct (last_node_elem x xs) as [E'|E'].
    + rewrite E' in E. by apply (Hx x); [set_solver|].
    + rewrite E in E'. by apply (Hx NULL); [set_solver|].
  - rewrite H in E. by apply (Hx NULL).
Qed.

Lemma last_node_change p q xs : xs <> [] -> last_node p xs = last_node q xs.
Proof. destruct xs as [|x xs]; [done|]. by rewrite !last_node_cons. Qed.

Section Proofs.
Context (L : Z) (l : list (Z * Z)) (m : gmap Z Z).
Hypothesis Hrep : list_rep m L l.

Lemma rep_nonnull x : x ∈ l.*1 -> x <> NULL.
Proof.
  intros Hx%(node_ram _ _ (rep_ok _ _ _ Hrep)). unfold NULL, KERNBASE in *. lia.
Qed.

Lemma rep_range : KERNBASE <= L /\ L + 24 <= PHYSTOP /\ 0 <= Z.of_nat (length l) < 2 ^ 32.
Proof.
  destruct (list_ram _ _ (rep_ok _ _ _ Hrep)). pose proof (list_length _ _ (rep_ok _ _ _ Hrep)).
  rewrite length_fmap in *. unfold sizeof_list in *. lia.
Qed.

Lemma rep_node x d : (x, d) ∈ l -> KERNBASE <= x /\ x + 16 <= PHYSTOP /\ sep L 24 x 16.
Proof.
  intros Hx. assert (Hx' : x ∈ l.*1) by (by apply (list_elem_of_fmap_2 fst l (x, d))).
  pose proof (node_ram _ _ (rep_ok _ _ _ Hrep) x Hx').
  pose proof (list_sep _ _ (rep_ok _ _ _ Hrep) x Hx'). unfold sep, sizeof_node, sizeof_list in *. lia.
Qed.

(** The representation depends only on the list's and the nodes' bytes. *)
Lemma rep_frame m' :
  (forall a, L <= a < L + 24 -> rd8 m' a = rd8 m a) ->
  (forall x a, x ∈ l.*1 -> x <= a < x + 16 -> rd8 m' a = rd8 m a) -> list_rep m' L l.
Proof.
  intros HL Hx. destruct Hrep as [Hok Hc Ht Hs Hd]. split; [done|..].
  - eapply chain_frame; [done|]. intros y [->|Hy]%elem_of_cons; apply rd_ext; intros a Ha.
    + apply HL. lia.
    + apply (Hx y); [done|lia].
  - rewrite <-Ht. apply rd_ext. intros a Ha. apply HL. lia.
  - rewrite <-Hs. apply rd_ext. intros a Ha. apply HL. lia.
  - rewrite Forall_forall in *. intros [x d] Hin. rewrite <-(Hd _ Hin). apply rd_ext.
    intros a Ha. apply (Hx x); [|simpl in *; lia].
    by apply (list_elem_of_fmap_2 fst l (x, d)).
Qed.

(** A cell holding a [next] pointer: the head field or a node. *)
Lemma cells_sep y z : y ∈ L :: l.*1 -> z ∈ L :: l.*1 -> y <> z -> y + 8 <= z \/ z + 8 <= y.
Proof.
  destruct Hrep as [[_ _ Hs Hn _] _ _ _ _]. unfold sep, sizeof_node, sizeof_list in *.
  intros [->|Hy]%elem_of_cons [->|Hz]%elem_of_cons Hne; [done|..].
  - specialize (Hs z Hz). lia.
  - specialize (Hs y Hy). lia.
  - specialize (Hn y z Hy Hz Hne). lia.
Qed.

Lemma cell_other y : y ∈ L :: l.*1 ->
  (y + 8 <= L + 8 \/ L + 24 <= y) /\ KERNBASE <= y /\ y + 16 <= PHYSTOP /\
  (forall x, node_fresh L l.*1 x -> y + 8 <= x \/ x + 16 <= y).
Proof.
  destruct Hrep as [[HL Hr Hs _ _] _ _ _ _]. unfold node_fresh, sep, sizeof_node, sizeof_list in *.
  intros [->|Hy]%elem_of_cons.
  - split_and!; try lia.
  - specialize (Hr y Hy). specialize (Hs y Hy). split_and!; try lia.
    intros x (_ & _ & _ & Hx). specialize (Hx y Hy). lia.
Qed.

Lemma data_other y : y ∈ l.*1 ->
  (y + 16 <= L \/ L + 24 <= y) /\
  (forall z, z ∈ L :: l.*1 -> z + 8 <= y + 8 \/ y + 16 <= z) /\
  (forall x, node_fresh L l.*1 x -> y + 16 <= x \/ x + 16 <= y).
Proof.
  destruct Hrep as [[HL Hr Hs Hn _] _ _ _ _]. unfold node_fresh, sep, sizeof_node, sizeof_list in *.
  intros Hy. specialize (Hs y Hy). split_and!; [lia| |].
  - intros z [->|Hz]%elem_of_cons; [lia|]. destruct (decide (y = z)) as [->|Hne]; [lia|].
    specialize (Hn y z Hy Hz Hne). lia.
  - intros x (_ & _ & _ & Hx). specialize (Hx y Hy). lia.
Qed.

Lemma cells_nodup : NoDup (L :: l.*1).
Proof.
  destruct Hrep as [[_ _ Hs _ Hnd] _ _ _ _]. constructor; [|done].
  intros HL. specialize (Hs L HL). unfold sep, sizeof_node, sizeof_list in *. lia.
Qed.

Lemma last_cell : last_node L l.*1 ∈ L :: l.*1.
Proof. destruct (last_node_elem L l.*1) as [->|?]; set_solver. Qed.

(** Writes that leave the data words of the nodes alone. *)
Lemma data_frame m' : (forall y, y ∈ l.*1 -> rd64 m' (y + 8) = rd64 m (y + 8)) ->
  Forall (fun c => rd64 m' (c.1 + 8) = c.2) l.
Proof.
  intros Hf. pose proof (rep_data _ _ _ Hrep) as Hd. rewrite Forall_forall in *.
  intros [y d] Hin. rewrite <-(Hd _ Hin). apply Hf.
  by apply (list_elem_of_fmap_2 fst l (y, d)).
Qed.

(** ** Adding a node *)

Section Push.
Context (x : Z).
Hypothesis Hx : node_fresh L l.*1 x.

Lemma fresh_not_in : x ∉ L :: l.*1.
Proof.
  destruct Hx as (_ & _ & HL & Hn). unfold sep, sizeof_node, sizeof_list in *.
  intros [->|Hin]%elem_of_cons; [lia|]. specialize (Hn x Hin). lia.
Qed.

Lemma push_ok xs' : l.*1 ++ [x] ≡ₚ xs' -> list_ok L xs'.
Proof.
  intros Hperm. destruct Hrep as [[HL Hr Hs Hn Hnd] _ _ _ _]. destruct Hx as (? & ? & Hsep & Hxs).
  assert (Hin : forall y, y ∈ xs' -> y ∈ l.*1 \/ y = x).
  { intros y. rewrite <-Hperm, elem_of_app, list_elem_of_singleton. done. }
  split; [done|..].
  - intros y [?| ->]%Hin; [by apply Hr|done].
  - intros y [?| ->]%Hin; [by apply Hs|done].
  - intros y z [?| ->]%Hin [?| ->]%Hin ?; [by apply Hn| |by apply Hxs|done].
    specialize (Hxs y ltac:(done)). unfold sep in *. lia.
  - rewrite <-Hperm. apply NoDup_app. split_and!; [done| |apply NoDup_singleton].
    intros y Hy ->%list_elem_of_singleton. apply fresh_not_in. set_solver.
Qed.

Lemma push_tail_rep m' n : n = Z.of_nat (length l) + 1 ->
  m' = wr64 (wr64 (wr64 (wr64 m (last_node L l.*1) x) (L + 8) x) (L + 16) n) x NULL ->
  list_rep m' L (l ++ [(x, rd64 m (x + 8))]).
Proof.
  intros -> ->. set (q := last_node L l.*1).
  pose proof Hx as (? & ? & HxL & _). destruct rep_range as (? & ? & ?).
  destruct (cell_other q last_cell) as (Hq1 & ? & ? & Hq2). specialize (Hq2 x Hx).
  unfold sep, sizeof_list, sizeof_node, PHYSTOP, KERNBASE in *.
  assert (Hcell : forall y, y ∈ L :: l.*1 -> y <> q ->
    rd64 (wr64 (wr64 (wr64 (wr64 m q x) (L + 8) x) (L + 16)
      (Z.of_nat (length l) + 1)) x NULL) y = rd64 m y).
  { intros y Hy Hne. destruct (cell_other y Hy) as (? & _ & _ & Hy2). specialize (Hy2 x Hx).
    pose proof (cells_sep y q Hy last_cell Hne). by mem_simp. }
  split.
  - apply push_ok. by rewrite fmap_app.
  - rewrite fmap_app. apply (chain_insert m _ L l.*1 x []).
    + rewrite app_nil_r. apply Hrep.
    + apply cells_nodup.
    + fold q. by mem_simp.
    + simpl. unfold NULL. by mem_simp.
    + intros y Hy. rewrite app_nil_r in Hy. by apply Hcell.
    + by intros y ?%not_elem_of_nil.
  - rewrite fmap_app. change (fst <$> [_]) with [x]. rewrite last_node_snoc. by mem_simp.
  - rewrite length_app. simpl length. mem_simp. lia.
  - apply Forall_app. split.
    + apply data_frame. intros y Hy. destruct (data_other y Hy) as (? & Hq & Hxy).
      specialize (Hq q last_cell). specialize (Hxy x Hx). by mem_simp.
    + constructor; [|done]. simpl. by mem_simp.
Qed.

Lemma push_head_rep m' n : n = Z.of_nat (length l) + 1 ->
  m' = wr64 (let m1 := wr64 (wr64 m x (hd0 l.*1)) L x in
             match l with [] => wr64 m1 (L + 8) x | _ => m1 end) (L + 16) n ->
  list_rep m' L ((x, rd64 m (x + 8)) :: l).
Proof.
  intros -> Hm'. pose proof Hx as (? & ? & HxL & _). destruct rep_range as (? & ? & ?).
  assert (Hhd : 0 <= hd0 l.*1 < 2 ^ 64).
  { destruct (hd0_elem l.*1) as [->|Hy]; [done|].
    destruct (cell_other (hd0 l.*1) ltac:(set_solver)) as (_ & ? & ? & _).
    unfold PHYSTOP, KERNBASE in *. lia. }
  unfold sep, sizeof_list, sizeof_node, PHYSTOP, KERNBASE in *.
  assert (Hcell : forall y, y ∈ l.*1 -> rd64 m' y = rd64 m y).
  { intros y Hy. destruct (cell_other y ltac:(set_solver)) as (? & _ & _ & Hy2).
    destruct (data_other y Hy) as (? & _). specialize (Hy2 x Hx). subst m'. destruct l; by mem_simp. }
  split.
  - apply push_ok. simpl. by rewrite Permutation_app_comm.
  - simpl. split; [subst m'; destruct l; by mem_simp|].
    eapply (chain_redirect m _ L); [apply Hrep| |by apply Hcell].
    subst m'; destruct l; by mem_simp.
  - simpl. rewrite last_node_cons. subst m'. destruct l as [|[y d] r]; [by mem_simp|].
    mem_simp. rewrite (rep_tail _ _ _ Hrep). simpl. by rewrite !last_node_cons.
  - subst m'. simpl length. mem_simp. lia.
  - constructor; [simpl; subst m'; destruct l; by mem_simp|].
    apply data_frame. intros y Hy. destruct (data_other y Hy) as (? & Hq & Hxy).
    specialize (Hq L ltac:(set_solver)). specialize (Hxy x Hx). subst m'. destruct l; by mem_simp.
Qed.

End Push.

End Proofs.

(** ** Unlinking a node *)

Lemma rep_sublist_ok L xs ys : list_ok L xs -> NoDup ys -> (forall y, y ∈ ys -> y ∈ xs) ->
  list_ok L ys.
Proof.
  intros [HL Hr Hs Hn _] Hnd Hsub. split; [done|..]; auto.
Qed.

Section Unlink.
Context (L : Z) (l1 : list (Z * Z)) (x d : Z) (l2 : list (Z * Z)) (m : gmap Z Z).
Hypothesis Hrep : list_rep m L (l1 ++ (x, d) :: l2).
Abbreviation p := (last_node L l1.*1).

Lemma unlink_fmap : (l1 ++ (x, d) :: l2).*1 = l1.*1 ++ x :: l2.*1.
Proof. by rewrite fmap_app. Qed.

Lemma unlink_prev : p ∈ L :: (l1 ++ (x, d) :: l2).*1.
Proof.
  rewrite unlink_fmap. destruct (last_node_elem L l1.*1) as [->|?]; set_solver.
Qed.

(** The memory after unlinking [x]: its successor hangs below its predecessor
    [p], and the tail moves to [t] if [x] was the last node. *)
Lemma unlink_rep m' t n : n = Z.of_nat (length (l1 ++ l2)) ->
  t = last_node NULL (l1 ++ l2).*1 ->
  (forall y a, y ∈ (l1 ++ l2).*1 -> y <= a < y + 16 -> a < p \/ p + 8 <= a ->
    rd8 m' a = rd8 m a) ->
  rd64 m' p = hd0 l2.*1 -> rd64 m' (L + 8) = t -> rd64 m' (L + 16) = n ->
  (p <> L -> rd64 m' L = rd64 m L) ->
  list_rep m' L (l1 ++ l2).
Proof.
  intros -> -> Hm Hp Ht Hn HL. destruct Hrep as [Hok Hc _ _ Hd].
  rewrite unlink_fmap in Hok, Hc.
  pose proof (node_nodup _ _ Hok) as Hnd. apply NoDup_app in Hnd as (Hnd1 & Hnd12 & Hnd2).
  apply NoDup_cons in Hnd2 as [Hx2 Hnd2].
  assert (Hnd : NoDup (l1 ++ l2).*1).
  { rewrite fmap_app. apply NoDup_app. split_and!; [done| |done]. intros y Hy Hy'.
    apply (Hnd12 y Hy). set_solver. }
  assert (Hin : forall y, y ∈ (l1 ++ l2).*1 -> y ∈ l1.*1 ++ x :: l2.*1 /\ y <> x).
  { intros y. rewrite fmap_app. intros [Hy|Hy]%elem_of_app; (split; [set_solver|]).
    - intros ->. apply (Hnd12 x Hy). set_solver.
    - by intros ->. }
  assert (Hxin : x ∈ l1.*1 ++ x :: l2.*1) by set_solver.
  assert (Hpc : p = L \/ (p ∈ l1.*1 ++ x :: l2.*1 /\ p <> x)).
  { destruct (last_node_elem L l1.*1) as [->|?]; [by left|right]. apply Hin.
    rewrite fmap_app. set_solver. }
  pose proof Hok as Hok0. destruct Hok as [HLr Hr Hs Hsep _].
  unfold sep, sizeof_list, sizeof_node in HLr, Hr, Hs, Hsep.
  (* bytes of the other nodes outside the cell of [p] are unchanged *)
  assert (Hother : forall y k, y ∈ (l1 ++ l2).*1 -> y <> p -> 0 <= k <= 8 ->
    rd64 m' (y + k) = rd64 m (y + k)).
  { intros y k Hyin Hyp Hk. apply rd_ext. intros a Ha. simpl in Ha.
    apply (Hm y); [done|lia|]. apply Hin in Hyin as [Hy Hyx].
    specialize (Hs y Hy). pose proof (Hsep y x Hy Hxin Hyx).
    destruct Hpc as [->|[Hpi Hpx]]; [lia|]. pose proof (Hsep y p Hy Hpi Hyp). lia. }
  assert (Hdata : forall y, y ∈ (l1 ++ l2).*1 -> rd64 m' (y + 8) = rd64 m (y + 8)).
  { intros y Hy. destruct (decide (y = p)) as [->|]; [|apply Hother; [done|done|lia]].
    apply rd_ext. intros a Ha. simpl in Ha. apply (Hm p); [done|lia|lia]. }
  split.
  - apply (rep_sublist_ok L (l1.*1 ++ x :: l2.*1)); [done|done|]. intros y Hy. by apply Hin.
  - rewrite fmap_app. apply (chain_remove m _ L l1.*1 x l2.*1); [done|..].
    + constructor; [|done]. intros HLin. specialize (Hs L ltac:(set_solver)). lia.
    + done.
    + intros y [->|Hy]%elem_of_cons Hne; [by apply HL|].
      rewrite <-(Z.add_0_r y). apply Hother; [by rewrite fmap_app|done|lia].
    + intros y Hy ->. destruct (last_node_elem L l1.*1) as [E|E].
      * rewrite E in Hy. specialize (Hs L ltac:(set_solver)). lia.
      * apply (Hnd12 _ E). set_solver.
  - done.
  - done.
  - apply Forall_forall. intros [y e] Hy. simpl. rewrite Hdata.
    + rewrite Forall_forall in Hd. apply (Hd (y, e)). set_solver.
    + by apply (list_elem_of_fmap_2 fst _ (y, e)).
Qed.

End Unlink.
