(* ===== verification/LinkedListTheorems.v ===== *)
(** * Theorems on linked lists

    Each operation of single_linked_list.h as an operation on the list of
    nodes it represents. *)

From S2P Require Import Prelude Machine Board Chain BuddySpec PageAlloc Buddy BuddyInstance BuddyTheorems Kmalloc KmallocProof KmallocTheorems LinkedList LinkedListProof.

Section Walk.
Context `{Hw : Platform} {Ops : PageOps}.

(** The rule for traversals: [I ds] holds when the data [ds] have been visited. *)
Lemma for_each_node_ok (I : list Z -> state -> Prop) L l func s :
  (forall ds s, I ds s -> list_rep (mem s) L l) ->
  (forall ds d ds' s, l.*2 = ds ++ d :: ds' -> I ds s ->
    wp (func d) (fun _ s' => I (ds ++ [d]) s') s) ->
  I [] s -> wp (for_each_node L func) (fun _ s' => I l.*2 s') s.
Proof.
  intros Hrep Hf HI. unfold for_each_node. pose proof (Hrep _ _ HI) as Hr.
  destruct (rep_range _ _ _ Hr) as (? & ? & ?). wp_ram. wp_ram.
  rewrite (chain_hd _ _ _ (rep_chain _ _ _ Hr)).
  apply (wp_loop (fun n node s => exists l1 l2, l = l1 ++ l2 /\ node = hd0 l2.*1 /\
    n = Z.of_nat (length l2) /\ I l1.*2 s) (Z.of_nat (length l))); [|lia|].
  { by exists [], l. }
  intros n node s' (l1 & l2 & -> & -> & -> & HI'). split; [lia|].
  destruct l2 as [|[x d] l2].
  - simpl. wp_step. by rewrite app_nil_r.
  - pose proof (Hrep _ _ HI') as Hr'. rewrite fmap_cons, hd0_cons. simpl fst.
    destruct (rep_node _ _ _ Hr' x d ltac:(set_solver)) as (? & ? & _).
    assert (truth x = true) as ->.
    { unfold truth. rewrite (proj2 (Z.eqb_neq x 0)); [done|]. unfold KERNBASE in *. lia. }
    wp_ram. wp_ram. pose proof (rep_data _ _ _ Hr') as Hd. apply Forall_app in Hd as [_ [Hd _]%Forall_cons].
    simpl in Hd. rewrite Hd. wp_step.
    eapply wp_mono; [apply (Hf l1.*2 d l2.*2); [by rewrite fmap_app|done]|].
    intros [] s'' HI''. wp_ram. wp_ram. wp_step.
    exists (Z.of_nat (length l2)). simpl length. split; [lia|].
    exists (l1 ++ [(x, d)]), l2. rewrite <-app_assoc. split; [done|]. split; [|split; [done|]].
    + pose proof (rep_chain _ _ _ (Hrep _ _ HI'')) as Hc.
      rewrite fmap_app in Hc. apply chain_tail in Hc. simpl in Hc. destruct Hc as [_ Hc].
      by rewrite (chain_hd _ _ _ Hc).
    + by rewrite fmap_app.
Qed.

End Walk.

Section Remove.
Context `{Hw : Platform} {HwOk : PlatformOk Hw} {Ops : PageOps} {HA : PageAllocator Ops}.

Lemma load64_run a s : KERNBASE <= a -> a + 8 <= PHYSTOP -> load64 a s = Ok (rd64 (mem s) a) s.
Proof. intros. unfold load. by rewrite in_ram_true. Qed.

Lemma nonnull_truth x : KERNBASE <= x -> truth x = true.
Proof.
  intros. unfold truth. rewrite (proj2 (Z.eqb_neq x 0)); [done|]. unfold KERNBASE in *. lia.
Qed.

(** The search of [removeAt] from its second node: it stops at the first node
    whose data is [addr] and runs [remove_node] there. *)
Lemma removeAt_search L c l1 l2 addr s (Q : Z -> state -> Prop) :
  list_rep (mem s) L (c :: l1 ++ l2) ->
  (forall e, e ∈ l1 -> e.2 <> addr) ->
  match l2 with
  | [] => Q (-1) s
  | (x, d) :: _ => d = addr /\
      wp (remove_node L (last_node c.1 l1.*1) x) (fun _ s' => Q 0 s') s
  end ->
  wp (removeAt L addr) Q s.
Proof.
  intros Hrep Hl1 HQ. destruct (rep_range _ _ _ Hrep) as (? & ? & Hlen).
  unfold removeAt. wp_ram. wp_ram. rewrite (chain_hd _ _ _ (rep_chain _ _ _ Hrep)), fmap_cons, hd0_cons.
  destruct c as [x0 d0]. simpl fst in *.
  destruct (rep_node _ _ _ Hrep x0 d0 ltac:(set_solver)) as (? & ? & _).
  rewrite (proj2 (Z.eqb_neq x0 NULL)) by (unfold NULL, KERNBASE in *; lia). wp_ram. wp_ram.
  pose proof (rep_chain _ _ _ Hrep) as [_ Hc]. simpl fst in Hc.
  rewrite (chain_hd _ _ _ Hc).
  apply (wp_loop (fun n '(prev, node) s' => s' = s /\ exists k1 k2, l1 = k1 ++ k2 /\
    prev = last_node x0 k1.*1 /\ node = hd0 (k2 ++ l2).*1 /\
    n = Z.of_nat (length (k2 ++ l2))) (Z.of_nat (length (l1 ++ l2)))).
  { split; [done|]. by exists [], l1. }
  { simpl length in Hlen. lia. }
  intros n [prev node] s' (-> & k1 & k2 & -> & -> & -> & ->). split; [lia|].
  assert (Hc2 : chain (mem s) (last_node x0 k1.*1) (k2 ++ l2).*1).
  { rewrite <-app_assoc, fmap_app in Hc. by apply chain_tail in Hc. }
  destruct k2 as [|[y e] k2].
  - rewrite app_nil_r in *. destruct l2 as [|[x d] l2].
    + simpl. by wp_step.
    + destruct HQ as [-> HQ]. simpl app. rewrite fmap_cons, hd0_cons. simpl fst.
      destruct (rep_node _ _ _ Hrep x addr ltac:(set_solver)) as (? & ? & _).
      rewrite nonnull_truth by done. wp_ram. wp_ram.
      pose proof (rep_data _ _ _ Hrep) as Hd. rewrite Forall_forall in Hd.
      specialize (Hd (x, addr) ltac:(set_solver)). simpl in Hd. rewrite Hd, Z.eqb_refl.
      wp_step. eapply wp_mono; [exact HQ|]. intros [] s' ?. by wp_step.
  - simpl app. rewrite fmap_cons, hd0_cons. simpl fst.
    destruct (rep_node _ _ _ Hrep y e ltac:(set_solver)) as (? & ? & _).
    rewrite nonnull_truth by done. wp_ram. wp_ram.
    pose proof (rep_data _ _ _ Hrep) as Hd. rewrite Forall_forall in Hd.
    specialize (Hd (y, e) ltac:(set_solver)). simpl in Hd. rewrite Hd.
    assert (Hne : e <> addr) by (apply (Hl1 (y, e)); set_solver).
    rewrite (proj2 (Z.eqb_neq _ _) Hne). wp_ram. wp_ram. wp_step.
    destruct Hc2 as [_ Hc2]. simpl fst in Hc2. rewrite (chain_hd _ _ _ Hc2).
    exists (Z.of_nat (length (k2 ++ l2))). simpl length. split; [lia|]. split; [done|].
    exists (k1 ++ [(y, e)]), k2. rewrite <-app_assoc. split; [done|]. split; [|done].
    rewrite fmap_app. change (fst <$> [(y, e)]) with [y]. by rewrite last_node_snoc.
Qed.

Section Found.
Context (L x0 d0 : Z) (l1 : list (Z * Z)) (x addr : Z) (l2 : list (Z * Z)).
Context (F : Z -> Prop) (A : arena) (k1 : list (Z * Z)) (n : Z) (k2 : list (Z * Z)) (s : state).
Abbreviation rest := (k1 ++ k2).
Abbreviation p := (last_node x0 l1.*1).
Abbreviation left := ((x0, d0) :: l1 ++ l2).
Hypotheses (Hrep : list_rep (mem s) L ((x0, d0) :: l1 ++ (x, addr) :: l2))
  (Hheap : heap_rep s F (Some A)) (Hlive : a_live A = k1 ++ (x, n) :: k2)
  (HL : forall a, L <= a < L + 24 -> ~ free_touch F A rest a)
  (Hnodes : forall y a, y ∈ x0 :: l1.*1 ++ l2.*1 -> y <= a < y + 16 -> ~ free_touch F A rest a).

Lemma found_facts :
  p ∈ x0 :: l1.*1 /\ KERNBASE <= L /\ L + 24 <= PHYSTOP /\
  KERNBASE <= p /\ p + 16 <= PHYSTOP /\ KERNBASE <= x /\ x + 16 <= PHYSTOP /\
  sep L 24 p 16 /\ sep L 24 x 16 /\ sep p 16 x 16 /\ rd64 (mem s) x = hd0 l2.*1 /\
  rd64 (mem s) (L + 16) = Z.of_nat (length left) + 1 /\ Z.of_nat (length left) < 2 ^ 32.
Proof.
  destruct (rep_range _ _ _ Hrep) as (? & ? & Hlen).
  assert (Hpin : p ∈ x0 :: l1.*1).
  { destruct (last_node_elem x0 l1.*1) as [->|?]; set_solver. }
  assert (Hpc : p ∈ ((x0, d0) :: l1 ++ (x, addr) :: l2).*1).
  { rewrite fmap_cons, fmap_app. set_solver. }
  pose proof (rep_ok _ _ _ Hrep) as Hok. destruct (node_ram _ _ Hok p Hpc) as [? ?].
  pose proof (list_sep _ _ Hok p Hpc) as HpL.
  destruct (rep_node _ _ _ Hrep x addr ltac:(set_solver)) as (? & ? & HxL).
  assert (Hpx : p <> x).
  { intros E. pose proof (node_nodup _ _ Hok) as Hnd. rewrite fmap_cons, fmap_app in Hnd.
    rewrite E in Hpin. simpl in Hnd. rewrite NoDup_cons, NoDup_app in Hnd. set_solver. }
  assert (Hsep : sep p 16 x 16).
  { apply (node_sep _ _ Hok); [done| |done]. rewrite fmap_cons, fmap_app. set_solver. }
  rewrite (rep_size _ _ _ Hrep). simpl length in *. rewrite !length_app in *. simpl length in *.
  split_and!; try done; try lia. pose proof (rep_chain _ _ _ Hrep) as [_ Hc].
  rewrite fmap_app in Hc. apply chain_tail in Hc. destruct Hc as [_ Hc].
  exact (chain_hd _ _ _ Hc).
Qed.

(** [x] freed and the count updated, once [x] is unlinked. *)
Lemma remove_finish m2 : rd64 m2 p = hd0 l2.*1 -> rd64 m2 (L + 8) = last_node NULL left.*1 ->
  rd64 m2 (L + 16) = rd64 (mem s) (L + 16) -> rd64 m2 L = rd64 (mem s) L ->
  modifies (fun a => p <= a < p + 8 \/ L <= a < L + 24) (mem s) m2 ->
  wp (kfree x;; size ← load64 (L + 16); store64 (L + 16) (size -w 1))
    (fun _ s' => list_rep (mem s') L left /\
      heap_rep s' (pool_free F A rest) (heap_free A x n rest) /\ same_but_heap s s')
    (set_mem m2 s).
Proof.
  intros Hm2p Hm2t Hm2n Hm2L Hm2. set (s2 := set_mem m2 s).
  destruct found_facts as (Hpin & ? & ? & ? & ? & ? & ? & HLp & HLx & Hpx & Hnext & Hsize & Hlen).
  unfold sep in HLp, HLx, Hpx.
  assert (Hheap2 : heap_rep s2 F (Some A)).
  { apply (heap_rep_frame F A rest s); [done| | |done].
    - intros a (b & k & Hin & ?). exists b, k. rewrite Hlive. split; [set_solver|done].
    - eapply modifies_weaken; [|exact Hm2]. intros a [?|?]; [|by apply HL].
      apply (Hnodes p); [set_solver|lia]. }
  wp_step. eapply wp_mono; [apply (kfree_ok F A k1 x n k2 s2 Hheap2 Hlive)|].
  intros [] s3 (Hsame & Hmod & Hheap3). repeat wp_ram. simpl mem.
  assert (HLeq : forall a, L <= a -> a + 8 <= L + 24 -> rd64 (mem s3) a = rd64 m2 a).
  { intros a ? ?. apply (modifies_rd _ 8 _ _ _ Hmod). simpl. intros b ?. apply HL. lia. }
  rewrite (HLeq (L + 16)), Hm2n, Hsize, w64_small by lia. rewrite Z.add_simpl_r.
  split; [|split].
  - apply (unlink_rep L ((x0, d0) :: l1) x addr l2 (mem s) Hrep _ (last_node NULL left.*1)
      (Z.of_nat (length left))); simpl app; rewrite ?fmap_cons, ?last_node_cons; simpl fst;
      [done|done| |..].
    + intros y a Hy Ha Hap.
      assert (Hy' : y ∈ ((x0, d0) :: l1 ++ (x, addr) :: l2).*1).
      { rewrite !fmap_cons, !fmap_app in *. rewrite !elem_of_cons, !elem_of_app in *.
        rewrite fmap_cons, elem_of_cons. naive_solver. }
      pose proof (list_sep _ _ (rep_ok _ _ _ Hrep) y Hy'). unfold sep, sizeof_list, sizeof_node in *.
      rewrite rd8_wr_out by (simpl; lia). rewrite Hmod; [apply Hm2; lia|].
      apply (Hnodes y); [|done]. rewrite <-fmap_app. set_solver.
    + rewrite rd64_wr64_out by lia. rewrite <-Hm2p.
      apply (modifies_rd _ 8 _ _ _ Hmod). simpl. intros b ?. apply (Hnodes p); [set_solver|lia].
    + mem_simp. rewrite (HLeq (L + 8)), Hm2t, fmap_cons, last_node_cons by lia. done.
    + by mem_simp.
    + intros _. mem_simp. by rewrite (HLeq L) by lia.
  - apply (heap_rep_frame_free F A x n rest s3); [done| |done]. apply modifies_wr. simpl.
    intros b ?. apply HL. lia.
  - etrans; [eapply same_regs_heap, (same_regs_set_mem m2)|].
    etrans; [exact Hsame|]. apply same_regs_heap, same_regs_set_mem.
Qed.

Lemma remove_node_ok :
  wp (remove_node L p x) (fun _ s' => list_rep (mem s') L left /\
      heap_rep s' (pool_free F A rest) (heap_free A x n rest) /\ same_but_heap s s') s.
Proof.
  destruct found_facts as (Hpin & ? & ? & ? & ? & ? & ? & HLp & HLx & Hpx & Hnext & Hsize & Hlen).
  unfold sep in HLp, HLx, Hpx.
  assert (Hh : 0 <= hd0 l2.*1 < 2 ^ 64) by (rewrite <-Hnext; apply rd64_range).
  unfold remove_node. rewrite (proj2 (Z.eqb_neq p NULL)) by (unfold NULL, KERNBASE in *; lia).
  repeat wp_ram. simpl mem. mem_simp. rewrite Hnext, (rep_tail _ _ _ Hrep).
  rewrite fmap_cons, last_node_cons, fmap_app, fmap_cons, last_node_app. simpl fst.
  destruct (Z.eqb_spec x (last_node x l2.*1)) as [E|E].
  - assert (l2 = []) as Hl2.
    { destruct l2 as [|[y e] r]; [done|]. exfalso. rewrite fmap_cons, last_node_cons in E.
      pose proof (node_nodup _ _ (rep_ok _ _ _ Hrep)) as Hnd.
      rewrite fmap_cons, fmap_app in Hnd. simpl in Hnd, E.
      rewrite NoDup_cons, NoDup_app, NoDup_cons in Hnd. destruct Hnd as (_ & _ & _ & Hx & _).
      apply Hx. rewrite E. destruct (last_node_elem y r.*1) as [->|?]; set_solver. }
    wp_ram. apply remove_finish; [by mem_simp| |by mem_simp..|].
    + rewrite rd64_wr64_same by (unfold PHYSTOP, KERNBASE in *; lia).
      by rewrite fmap_cons, last_node_cons, Hl2, app_nil_r.
    + modifies_steps; lia.
  - wp_step. apply remove_finish; [by mem_simp| |by mem_simp..|].
    + rewrite rd64_wr64_out by lia. rewrite (rep_tail _ _ _ Hrep), !fmap_cons, !last_node_cons, !fmap_app.
      destruct l2 as [|[y e] r]; [done|]. rewrite !fmap_cons. simpl fst.
      by rewrite !last_node_app, last_node_cons.
    + modifies_steps; lia.
Qed.

End Found.

End Remove.

Section Theorems.
Context `{Hw : Platform} {HwOk : PlatformOk Hw} {Ops : PageOps} {HA : PageAllocator Ops}.

(** [push_tail] returns 0 with the node at the end of the list; only the
    list, its last node and the new node's link are written. *)
Lemma push_tail_ok L l x s :
  list_rep (mem s) L l -> node_fresh L l.*1 x ->
  wp (push_tail L x) (fun r s' => r = 0 /\ s' = set_mem (mem s') s /\
    list_rep (mem s') L (l ++ [(x, rd64 (mem s) (x + 8))]) /\
    modifies (list_touch L (l.*1 ++ [x])) (mem s) (mem s')) s.
Proof.
  intros Hrep Hx. destruct (rep_range _ _ _ Hrep) as (? & ? & Hlen).
  pose proof Hx as (? & ? & Hsep & _). pose proof (last_cell L l _ Hrep) as Hq.
  destruct (cell_other _ _ _ Hrep _ Hq) as (? & ? & ? & _).
  unfold sep, sizeof_list, sizeof_node in *.
  unfold push_tail. wp_ram. wp_ram. rewrite (rep_tail _ _ _ Hrep).
  set (n := Z.of_nat (length l) + 1).
  set (m' := wr64 (wr64 (wr64 (wr64 (mem s) (last_node L l.*1) x) (L + 8) x) (L + 16) n) x NULL).
  assert (Hm' : list_rep m' L (l ++ [(x, rd64 (mem s) (x + 8))]) /\
    modifies (list_touch L (l.*1 ++ [x])) (mem s) m').
  { split; [by apply (push_tail_rep L l (mem s) Hrep x Hx m' n)|]. unfold m', list_touch, sizeof_list.
    modifies_steps.
    - destruct (last_node_elem L l.*1) as [E|E]; [left; lia|].
      right. exists (last_node L l.*1). split; [set_solver|lia].
    - left. lia.
    - left. lia.
    - right. exists x. split; [set_solver|lia]. }
  assert (Hend : forall s1, s1 = set_mem (wr64 (wr64 (mem s) (last_node L l.*1) x) (L + 8) x) s ->
    wp (size ← load64 (L + 16); store64 (L + 16) (size +w 1);; store64 x NULL;; mret 0)
      (fun r s' => r = 0 /\ s' = set_mem (mem s') s /\
        list_rep (mem s') L (l ++ [(x, rd64 (mem s) (x + 8))]) /\
        modifies (list_touch L (l.*1 ++ [x])) (mem s) (mem s')) s1).
  { intros s1 ->. repeat wp_ram. simpl mem. mem_simp. rewrite (rep_size _ _ _ Hrep).
    rewrite w64_small by lia. destruct Hm'. done. }
  wp_step. destruct (Z.eqb_spec (last_node NULL l.*1) NULL) as [E|E].
  - assert (Hl : l.*1 = []).
    { apply last_node_null; [done|]. intros y. by apply (rep_nonnull L l (mem s)). }
    wp_step. wp_ram. wp_ram. apply Hend. by rewrite Hl.
  - rewrite (last_node_change NULL L) in * by (by intros El; rewrite El in E).
    wp_step. wp_ram. wp_ram. by apply Hend.
Qed.

(** [push_head] returns 0 with the node in front of the list. *)
Lemma push_head_ok L l x s :
  list_rep (mem s) L l -> node_fresh L l.*1 x ->
  wp (push_head L x) (fun r s' => r = 0 /\ s' = set_mem (mem s') s /\
    list_rep (mem s') L ((x, rd64 (mem s) (x + 8)) :: l) /\
    modifies (list_touch L [x]) (mem s) (mem s')) s.
Proof.
  intros Hrep Hx. destruct (rep_range _ _ _ Hrep) as (? & ? & Hlen).
  pose proof Hx as (? & ? & Hsep & _). unfold sep, sizeof_list, sizeof_node in *.
  unfold push_head. wp_ram. wp_ram. rewrite (chain_hd _ _ _ (rep_chain _ _ _ Hrep)).
  repeat wp_ram. simpl mem. mem_simp. rewrite (rep_tail _ _ _ Hrep).
  assert (Hl : (last_node NULL l.*1 =? NULL) = match l with [] => true | _ => false end).
  { destruct l as [|[y d] r]; [done|]. apply Z.eqb_neq. intros E.
    apply last_node_null in E; [done|]. by intros z; apply (rep_nonnull L _ (mem s)). }
  rewrite Hl. set (n := Z.of_nat (length l) + 1).
  set (m1 := wr64 (wr64 (mem s) x (hd0 l.*1)) L x).
  set (m' := wr64 (match l with [] => wr64 m1 (L + 8) x | _ => m1 end) (L + 16) n).
  assert (Hm' : list_rep m' L ((x, rd64 (mem s) (x + 8)) :: l) /\
    modifies (list_touch L [x]) (mem s) m').
  { split; [by apply (push_head_rep L l (mem s) Hrep x Hx m' n)|].
    unfold m', m1, list_touch, sizeof_list.
    destruct l; modifies_steps; first [left; lia | right; exists x; split; [set_solver|lia]]. }
  assert (Hend : forall s1, mem s1 = match l with [] => wr64 m1 (L + 8) x | _ => m1 end ->
    s1 = set_mem (mem s1) s ->
    wp (size ← load64 (L + 16); store64 (L + 16) (size +w 1);; mret 0)
      (fun r s' => r = 0 /\ s' = set_mem (mem s') s /\
        list_rep (mem s') L ((x, rd64 (mem s) (x + 8)) :: l) /\
        modifies (list_touch L [x]) (mem s) (mem s')) s1).
  { intros s1 Hm1 ->. rewrite Hm1. repeat wp_ram. simpl mem.
    replace (rd64 _ (L + 16)) with (Z.of_nat (length l)).
    - rewrite w64_small by lia. destruct Hm'. done.
    - rewrite <-(rep_size _ _ _ Hrep). unfold m1. destruct l; by mem_simp. }
  destruct l; repeat (wp_step; [ram|]); apply Hend; done.
Qed.

(** [pop_head_without_free] unlinks the first node, if there is one, and
    writes nothing but the list itself. *)
Lemma pop_head_without_free_ok L l s :
  list_rep (mem s) L l ->
  wp (pop_head_without_free L) (fun _ s' => s' = set_mem (mem s') s /\
    list_rep (mem s') L (drop 1 l) /\ modifies (list_touch L []) (mem s) (mem s')) s.
Proof.
  intros Hrep. destruct (rep_range _ _ _ Hrep) as (? & ? & Hlen).
  unfold pop_head_without_free. wp_ram. wp_ram.
  rewrite (chain_hd _ _ _ (rep_chain _ _ _ Hrep)).
  destruct l as [|[x d] r].
  { simpl. wp_step. split_and!; [by destruct s|done..]. }
  rewrite fmap_cons, hd0_cons. simpl fst. destruct (rep_node _ _ _ Hrep x d ltac:(set_solver)) as (? & ? & ?).
  unfold sep in *. rewrite (proj2 (Z.eqb_neq x NULL)) by (unfold NULL, KERNBASE in *; lia).
  wp_ram. wp_ram. rewrite (rep_tail _ _ _ Hrep), fmap_cons, last_node_cons. simpl fst.
  pose proof (node_nodup _ _ (rep_ok _ _ _ Hrep)) as [Hx Hnd]%NoDup_cons.
  assert (Hnext : rd64 (mem s) x = hd0 r.*1).
  { pose proof (rep_chain _ _ _ Hrep) as [_ Hc]. exact (chain_hd _ _ _ Hc). }
  assert (Hhd : 0 <= hd0 r.*1 < 2 ^ 64).
  { rewrite <-Hnext. apply rd64_range. }
  assert (Hend : forall m1 t, t = last_node NULL r.*1 -> rd64 m1 L = hd0 r.*1 ->
    rd64 m1 (L + 8) = t -> rd64 m1 (L + 16) = rd64 (mem s) (L + 16) ->
    (forall a, a < L \/ L + 24 <= a -> rd8 m1 a = rd8 (mem s) a) ->
    wp (size ← load64 (L + 16); store64 (L + 16) (size -w 1))
      (fun _ s' => s' = set_mem (mem s') s /\ list_rep (mem s') L r /\
        modifies (list_touch L []) (mem s) (mem s')) (set_mem m1 s)).
  { intros m1 t Ht HL HL8 HL16 Hm1. repeat wp_ram. simpl mem.
    rewrite HL16, (rep_size _ _ _ Hrep). simpl length in *.
    rewrite w64_small by lia. replace (Z.of_nat (S _) - 1) with (Z.of_nat (length r)) by lia.
    split; [done|]. split.
    - apply (unlink_rep L [] x d r (mem s) Hrep _ t (Z.of_nat (length r))); simpl; try done;
        [|change (last_node L []) with L; by mem_simp..].
      intros y a Hy ? ?. pose proof (list_sep _ _ (rep_ok _ _ _ Hrep) y ltac:(simpl; set_solver)).
      unfold sep, sizeof_list, sizeof_node in *.
      rewrite rd8_wr_out by (simpl; lia). apply Hm1. lia.
    - intros a Ha. assert (~ (L <= a < L + 24)) by (intros ?; apply Ha; by left).
      rewrite rd8_wr_out by (simpl; lia). apply Hm1. lia. }
  wp_step. destruct (Z.eqb_spec x (last_node x r.*1)) as [E|E].
  - assert (r = []) as ->.
    { destruct r as [|[y e] r]; [done|]. rewrite fmap_cons, last_node_cons in E. simpl in E.
      destruct Hx. rewrite E. destruct (last_node_elem y r.*1) as [->|?]; set_solver. }
    wp_step. wp_ram. wp_ram. apply (Hend _ NULL); [done|change (hd0 [].*1) with NULL; unfold NULL; by mem_simp..|].
    intros a Ha. by rewrite !rd8_wr_out by (simpl; lia).
  - wp_ram. wp_ram. wp_ram. rewrite Hnext.
    apply (Hend _ (last_node NULL r.*1)); [done|by mem_simp|mem_simp|by mem_simp|].
    + rewrite (rep_tail _ _ _ Hrep), fmap_cons, last_node_cons. apply last_node_change.
      intros Er. by rewrite Er in E.
    + intros a Ha. by rewrite rd8_wr_out by (simpl; lia).
Qed.

(** The observers: [head] and [tail] return the data of the first and the
    last node, [single_linked_list_size] the number of nodes, and [head] of an
    empty list dereferences NULL. *)
Lemma list_observers L l s :
  list_rep (mem s) L l ->
  single_linked_list_size L s = Ok (Z.of_nat (length l)) s /\
  head_node L s = Ok (hd0 l.*1) s /\ tail_node L s = Ok (last_node NULL l.*1) s /\
  (forall c r, l = c :: r -> head L s = Ok c.2 s) /\
  (forall r c, l = r ++ [c] -> tail L s = Ok c.2 s) /\
  (l = [] -> head L s = Fault 8 s).
Proof.
  intros Hrep. destruct (rep_range _ _ _ Hrep) as (? & ? & Hlen).
  pose proof (rep_data _ _ _ Hrep) as Hd. rewrite Forall_forall in Hd.
  pose proof (chain_hd _ _ _ (rep_chain _ _ _ Hrep)) as Hh.
  assert (H8 : load64 (L + 8) s = Ok (last_node NULL l.*1) s).
  { rewrite load64_run by lia. by rewrite (rep_tail _ _ _ Hrep). }
  assert (H0' : load64 L s = Ok (hd0 l.*1) s) by (rewrite load64_run by lia; by rewrite Hh).
  unfold single_linked_list_size, head_node, tail_node, head, tail, mbind, M_bind.
  rewrite (load64_run (L + 16)), H8, H0', (rep_size _ _ _ Hrep) by lia. simpl obind.
  split_and!; try done.
  - unfold mret, M_ret, s64. rewrite w64_small by lia.
    by rewrite (proj2 (Z.ltb_lt (Z.of_nat (length l)) _)) by lia.
  - intros [x d] r ->. rewrite fmap_cons, hd0_cons. simpl.
    destruct (rep_node _ _ _ Hrep x d ltac:(set_solver)) as (? & ? & _).
    rewrite load64_run by lia. specialize (Hd (x, d) ltac:(set_solver)). simpl in Hd. by rewrite Hd.
  - intros r [x d] ->. rewrite fmap_app. change (fst <$> [(x, d)]) with [x].
    rewrite last_node_snoc. simpl.
    destruct (rep_node _ _ _ Hrep x d ltac:(set_solver)) as (? & ? & _).
    rewrite load64_run by lia. specialize (Hd (x, d) ltac:(set_solver)). simpl in Hd. by rewrite Hd.
  - by intros ->.
Qed.

(** ** Sequences of queue operations *)

(** The operations that need no allocator, as the run queue uses them. *)
Inductive queue_op :=
  | PushHead (x : Z) | PushTail (x : Z) | Pop | Size | Head | Tail.

Definition run_op (L : Z) (o : queue_op) : M Z :=
  match o with
  | PushHead x => push_head L x
  | PushTail x => push_tail L x
  | Pop => pop_head_without_free L;; mret 0
  | Size => single_linked_list_size L
  | Head => head L
  | Tail => tail L
  end.

Fixpoint run_ops (L : Z) (os : list queue_op) : M (list Z) :=
  match os with
  | [] => mret []
  | o :: os => r ← run_op L o; rs ← run_ops L os; mret (r :: rs)
  end.

(** The specification: a list of nodes with their data; [d] gives the data of
    the nodes that get pushed. *)
Definition spec_op (d : Z -> Z) (l : list (Z * Z)) (o : queue_op) : list (Z * Z) * Z :=
  match o with
  | PushHead x => ((x, d x) :: l, 0)
  | PushTail x => (l ++ [(x, d x)], 0)
  | Pop => (drop 1 l, 0)
  | Size => (l, Z.of_nat (length l))
  | Head => (l, hd0 l.*2)
  | Tail => (l, last_node 0 l.*2)
  end.

Fixpoint spec_ops (d : Z -> Z) (l : list (Z * Z)) (os : list queue_op) : list (Z * Z) * list Z :=
  match os with
  | [] => (l, [])
  | o :: os =>
      let '(l1, r) := spec_op d l o in
      let '(l2, rs) := spec_ops d l1 os in (l2, r :: rs)
  end.

(** Admissible uses: a pushed node is one of [us] and not in the list, and the
    ends of an empty list are not asked for. *)
Definition op_ok (us : list Z) (l : list (Z * Z)) (o : queue_op) : Prop :=
  match o with
  | PushHead x | PushTail x => x ∈ us /\ x ∉ l.*1
  | Head | Tail => l <> []
  | _ => True
  end.
Fixpoint ops_ok (us : list Z) (d : Z -> Z) (l : list (Z * Z)) (os : list queue_op) : Prop :=
  match os with
  | [] => True
  | o :: os => op_ok us l o /\ ops_ok us d (spec_op d l o).1 os
  end.

Section Queue.
Context (L : Z) (us : list Z).
Hypothesis Hus : list_ok L us.

Lemma fresh_among xs x : (forall y, y ∈ xs -> y ∈ us) -> x ∈ us -> x ∉ xs -> node_fresh L xs x.
Proof using Hus.
  intros Hsub Hx Hn. destruct Hus as [_ Hr Hs Hsep _]. destruct (Hr x Hx).
  split; [done|]. split; [done|]. split; [by apply Hs|].
  intros y Hy. apply Hsep; [done|by apply Hsub|by intros ->].
Qed.

(** The list operations write no data word of a node. *)
Lemma touch_data_word xs x : (forall y, y ∈ xs -> y ∈ us) -> x ∈ us ->
  forall a, x + 8 <= a < x + 16 -> ~ list_touch L xs a.
Proof using Hus.
  intros Hsub Hx a Ha. destruct Hus as [_ _ Hs Hsep _]. pose proof (Hs x Hx) as HLx.
  unfold list_touch, sep, sizeof_list, sizeof_node in *. intros [HL|(y & Hy & Hay)]; [lia|].
  destruct (decide (y = x)) as [->|Hne]; [lia|]. pose proof (Hsep x y Hx (Hsub y Hy) ltac:(done)). lia.
Qed.

Lemma touch_among xs a : (forall y, y ∈ xs -> y ∈ us) -> list_touch L xs a -> list_touch L us a.
Proof. intros Hsub [?|(y & Hy & ?)]; [by left|]. right. exists y. auto. Qed.

Lemma run_op_ok d l o s :
  list_rep (mem s) L l -> (forall x, x ∈ l.*1 -> x ∈ us) -> op_ok us l o ->
  (forall x, x ∈ us -> rd64 (mem s) (x + 8) = d x) ->
  wp (run_op L o) (fun r s' => r = (spec_op d l o).2 /\
    list_rep (mem s') L (spec_op d l o).1 /\ (forall x, x ∈ (spec_op d l o).1.*1 -> x ∈ us) /\
    (forall x, x ∈ us -> rd64 (mem s') (x + 8) = d x) /\
    s' = set_mem (mem s') s /\ modifies (list_touch L us) (mem s) (mem s')) s.
Proof using All.
  intros Hrep Hsub Hok Hd.
  assert (Hframe : forall xs m', (forall y, y ∈ xs -> y ∈ us) ->
    modifies (list_touch L xs) (mem s) m' ->
    (forall x, x ∈ us -> rd64 m' (x + 8) = d x) /\ modifies (list_touch L us) (mem s) m').
  { intros xs m' Hxs Hmod. split.
    - intros x Hx. rewrite <-Hd by done. apply (modifies_rd _ 8 _ _ _ Hmod).
      intros b Hb. apply (touch_data_word xs x Hxs Hx). lia.
    - eapply modifies_weaken; [|exact Hmod]. intros a. by apply touch_among. }
  assert (Hsame : forall r, r = (spec_op d l o).2 -> (spec_op d l o).1 = l ->
    r = (spec_op d l o).2 /\ list_rep (mem s) L (spec_op d l o).1 /\
    (forall x, x ∈ (spec_op d l o).1.*1 -> x ∈ us) /\
    (forall x, x ∈ us -> rd64 (mem s) (x + 8) = d x) /\
    s = set_mem (mem s) s /\ modifies (list_touch L us) (mem s) (mem s)).
  { intros r Hr ->. split; [done|]. split; [done|]. split; [done|]. split; [done|].
    split; [by destruct s|done]. }
  destruct (list_observers L l s Hrep) as (Hsize & _ & _ & Hhead & Htail & _).
  destruct o as [x|x| | | |]; simpl run_op; simpl in Hok.
  - destruct Hok as [Hx Hn]. eapply wp_mono; [by apply (push_head_ok L l), fresh_among|].
    intros r s' (-> & Hs & Hrep' & Hmod). rewrite Hd in Hrep' by done. simpl.
    destruct (Hframe [x] (mem s')) as [? ?]; [set_solver|done|].
    split; [done|]. split; [done|]. split; [|done].
    intros y [->|Hy]%elem_of_cons; [done|by apply Hsub].
  - destruct Hok as [Hx Hn]. eapply wp_mono; [by apply (push_tail_ok L l), fresh_among|].
    intros r s' (-> & Hs & Hrep' & Hmod). rewrite Hd in Hrep' by done. simpl.
    assert (Hall : forall y, y ∈ l.*1 ++ [x] -> y ∈ us).
    { intros y [Hy| ->%list_elem_of_singleton]%elem_of_app; [by apply Hsub|done]. }
    destruct (Hframe (l.*1 ++ [x]) (mem s')) as [? ?]; [done|done|].
    split; [done|]. split; [done|]. split; [|done]. intros y. rewrite fmap_app. apply Hall.
  - wp_step. eapply wp_mono; [by apply (pop_head_without_free_ok L l)|].
    intros [] s' (Hs & Hrep' & Hmod). wp_step. simpl.
    destruct (Hframe [] (mem s')) as [? ?]; [by intros ? ?%not_elem_of_nil|done|].
    split; [done|]. split; [done|]. split; [|done]. intros y Hy. apply Hsub.
    rewrite fmap_drop in Hy. destruct l.*1; [done|]. by right.
  - eapply wp_ok; [exact Hsize|]. by apply Hsame.
  - destruct l as [|c r]; [done|]. eapply wp_ok; [exact (Hhead _ _ eq_refl)|]. by apply Hsame.
  - destruct l as [|c r _] using rev_ind; [done|]. eapply wp_ok; [exact (Htail _ _ eq_refl)|].
    apply Hsame; [|done]. simpl. rewrite fmap_app. change ([c].*2) with [c.2]. by rewrite last_node_snoc.
Qed.

End Queue.

(** C16: every admissible sequence of [push_head], [push_tail],
    [pop_head_without_free], [single_linked_list_size], [head] and [tail]
    terminates with the results and the final list of the same sequence on a
    mathematical list; it writes nothing but the list and the links of its
    nodes. *)
Theorem queue_refines L us d l os s :
  list_rep (mem s) L l -> list_ok L us -> (forall x, x ∈ l.*1 -> x ∈ us) ->
  (forall x, x ∈ us -> rd64 (mem s) (x + 8) = d x) -> ops_ok us d l os ->
  wp (run_ops L os) (fun rs s' => rs = (spec_ops d l os).2 /\
    list_rep (mem s') L (spec_ops d l os).1 /\
    s' = set_mem (mem s') s /\ modifies (list_touch L us) (mem s) (mem s')) s.
Proof.
  intros Hrep Hus. revert l s Hrep. induction os as [|o os IH]; intros l s Hrep Hsub Hd Hok.
  { simpl. wp_step. split; [done|]. split; [done|]. split; [by destruct s|done]. }
  simpl in Hok. destruct Hok as [Ho Hok]. simpl run_ops. simpl spec_ops. wp_step.
  eapply wp_mono; [by apply (run_op_ok L us Hus d l)|].
  intros r s1 (-> & Hrep1 & Hsub1 & Hd1 & Hs1 & Hmod1).
  destruct (spec_op d l o) as [l1 r]. simpl in *. wp_step.
  eapply wp_mono; [by apply (IH l1 s1)|]. intros rs s2 (-> & Hrep2 & Hs2 & Hmod2). wp_step.
  destruct (spec_ops d l1 os) as [l2 rs]. simpl in *. split; [done|]. split; [done|].
  split; [by rewrite Hs2, Hs1|by eapply modifies_trans].
Qed.

Lemma removeAt_empty L addr s :
  list_rep (mem s) L [] -> wp (removeAt L addr) (fun r s' => r = -1 /\ s' = s) s.
Proof.
  intros Hrep. destruct (rep_range _ _ _ Hrep) as (? & ? & Hlen). unfold removeAt. wp_ram. wp_ram.
  rewrite (chain_hd _ _ _ (rep_chain _ _ _ Hrep)). simpl (_ =? _). cbv iota. by wp_step.
Qed.

(** [removeAt] returns -1 and changes nothing when no node after the first
    carries the data; the first node is never examined, so its data is not
    found either. *)
Lemma removeAt_misses L l addr s :
  list_rep (mem s) L l -> (forall e, e ∈ drop 1 l -> e.2 <> addr) ->
  wp (removeAt L addr) (fun r s' => r = -1 /\ s' = s) s.
Proof.
  intros Hrep Hn. destruct l as [|c l].
  - by apply removeAt_empty.
  - apply (removeAt_search L c l []); [by rewrite app_nil_r|done|done].
Qed.

(** When the first node after the head that carries the data is [x], a chunk
    of the heap, [removeAt] returns 0 with [x] unlinked from the list and given
    back to the heap, whichever position it had. *)
Lemma removeAt_unlinks L c l1 x addr l2 F A k1 n k2 s :
  list_rep (mem s) L (c :: l1 ++ (x, addr) :: l2) ->
  (forall e, e ∈ l1 -> e.2 <> addr) ->
  heap_rep s F (Some A) -> a_live A = k1 ++ (x, n) :: k2 ->
  (forall a, L <= a < L + 24 -> ~ free_touch F A (k1 ++ k2) a) ->
  (forall y a, y ∈ c.1 :: l1.*1 ++ l2.*1 -> y <= a < y + 16 -> ~ free_touch F A (k1 ++ k2) a) ->
  wp (removeAt L addr) (fun r s' => r = 0 /\ list_rep (mem s') L (c :: l1 ++ l2) /\
    heap_rep s' (pool_free F A (k1 ++ k2)) (heap_free A x n (k1 ++ k2)) /\
    same_but_heap s s') s.
Proof.
  intros Hrep Hl1 Hheap Hlive HL Hnodes. destruct c as [x0 d0].
  apply (removeAt_search L (x0, d0) l1 ((x, addr) :: l2)); [done|done|]. split; [done|].
  eapply wp_mono; [by apply (remove_node_ok L x0 d0 l1 x addr l2 F A k1 n k2)|].
  by intros [] s' (? & ? & ?).
Qed.

End Theorems.

(** ** Instances: a static list and nodes in memory *)

Section Witnesses.
#[local] Existing Instances board board_ok.
#[local] Opaque booted chunk_state.

Definition lst : Z := 0x80016000.
Definition node0 : Z := 0x80017000.

Lemma empty_list : list_rep (mem power_on) lst [].
Proof.
  split; [|done..].
  split; simpl; [done| | | |by apply NoDup_nil].
  - by intros ? ?%not_elem_of_nil.
  - by intros ? ?%not_elem_of_nil.
  - by intros ? ? ?%not_elem_of_nil.
Qed.

Lemma node0_fresh : node_fresh lst [] node0.
Proof. split; [done|]. split; [done|]. split; [by left|]. by intros ? ?%not_elem_of_nil. Qed.

(** The list [node0; chunk] with data 7 and 9, the second node in the heap. *)
Definition two_nodes (m : gmap Z Z) : gmap Z Z :=
  wr64 (wr64 (wr64 (wr64 (wr64 (wr64 (wr64 m lst node0) (lst + 8) chunk) (lst + 16) 2)
    node0 chunk) (node0 + 8) 7) chunk NULL) (chunk + 8) 9.
Definition two_state : state := set_mem (two_nodes (mem chunk_state)) chunk_state.
Definition two_list : list (Z * Z) := [(node0, 7); (chunk, 9)].

Lemma two_nodes_rep m : list_rep (two_nodes m) lst two_list.
Proof.
  unfold two_nodes, two_list, lst, node0, chunk, page. split.
  - split; simpl.
    + done.
    + intros x [->|[->|[]%not_elem_of_nil]%elem_of_cons]%elem_of_cons; done.
    + intros x [->|[->|[]%not_elem_of_nil]%elem_of_cons]%elem_of_cons; by left.
    + intros x y [->|[->|[]%not_elem_of_nil]%elem_of_cons]%elem_of_cons
        [->|[->|[]%not_elem_of_nil]%elem_of_cons]%elem_of_cons ?; try done; [by left|by right].
    + repeat constructor; set_solver.
  - simpl. split_and!; unfold NULL; by mem_simp.
  - simpl. by mem_simp.
  - by mem_simp.
  - repeat constructor; simpl; by mem_simp.
Qed.

(** The statically placed bytes are not the heap's. *)
Lemma static_untouched rest a : 0x80010080 <= a < 0x80020000 ->
  ~ free_touch (without boot_free 0 page) chunk_arena rest a.
Proof.
  unfold free_touch, chunk_arena, without, boot_free. simpl a_block.
  intros Ha [Hp|[[Hp _]|[Hp _]]].
  - change (heads a) in Hp. unfold heads in Hp. change buddy_pool with 0x80010000 in Hp. lia.
  - lia.
  - unfold page in Hp. lia.
Qed.

Lemma chunk_untouched a : chunk <= a < chunk + 16 ->
  ~ free_touch (without boot_free 0 page) chunk_arena [(chunk, 104)] a.
Proof.
  unfold free_touch, chunk_arena, without, boot_free. simpl a_block. simpl a_power.
  unfold chunk, page. change (bsz 0) with 4096. intros Ha [Hp|[[Hp Hn]|[Hp Hd]]].
  - change (heads a) in Hp. unfold heads in Hp. change buddy_pool with 0x80010000 in Hp. lia.
  - lia.
  - apply Hd. exists 0x80020038, 104. split; [set_solver|lia].
Qed.

Lemma two_state_heap : heap_rep two_state (without boot_free 0 page) (Some chunk_arena).
Proof.
  apply (heap_rep_frame _ _ [(chunk, 104)] chunk_state two_state chunk_heap);
    [by intros a Ha| |exact (glob_set_mem _ _)].
  unfold two_state. rewrite mem_set_mem. unfold two_nodes.
  modifies_steps; first [apply chunk_untouched; lia | apply static_untouched; unfold lst, node0 in *; lia].
Qed.

(** A queue of one node: push, look, pop, and the queue is empty again. *)
Lemma queue_refines_witness :
  wp (run_ops lst [PushTail node0; Size; Head; Pop; Size])
    (fun rs s' => rs = [0; 1; 0; 0; 0] /\ list_rep (mem s') lst []) power_on.
Proof.
  eapply wp_mono; [apply (queue_refines lst [node0] (fun _ => 0) [] _ power_on empty_list)|].
  - split; simpl; [done|intros x ->%list_elem_of_singleton; done|
      intros x ->%list_elem_of_singleton; by left|
      intros x y ->%list_elem_of_singleton ->%list_elem_of_singleton ?; done|apply NoDup_singleton].
  - by intros ? ?%not_elem_of_nil.
  - by intros ? ->%list_elem_of_singleton.
  - simpl. split_and!; try done; [set_solver|by intros ?%not_elem_of_nil].
  - intros rs s' (-> & Hl & _). split; [reflexivity|exact Hl].
Defined.

(** The data of the first node is not found. *)
Lemma removeAt_misses_witness :
  wp (removeAt lst 7) (fun r s' => r = -1 /\ s' = two_state) two_state.
Proof.
  apply (removeAt_misses lst two_list 7 two_state (two_nodes_rep _)).
  intros e [->|[]%not_elem_of_nil]%elem_of_cons. done.
Defined.

Lemma removeAt_unlinks_witness :
  wp (removeAt lst 9) (fun r s' => r = 0 /\ list_rep (mem s') lst [(node0, 7)]) two_state.
Proof.
  eapply wp_mono; [apply (removeAt_unlinks lst (node0, 7) [] chunk 9 [] (without boot_free 0 page)
    chunk_arena [] 104 [] two_state (two_nodes_rep _))|].
  - by intros ? ?%not_elem_of_nil.
  - exact two_state_heap.
  - done.
  - intros a Ha. apply static_untouched. unfold lst in *. lia.
  - intros y a [->|[]%not_elem_of_nil]%elem_of_cons Ha.
    apply static_untouched. unfold node0 in *. simpl in *. lia.
  - intros r s' (Hr & Hl & _). split; [exact Hr|exact Hl].
Defined.

End Witnesses.
