(* ===== verification/PageTable.v ===== *)
(** * Page tables: virtual_memory.c

    The Sv39 page tables of the kernel and of the user processes: walking,
    mapping, unmapping, copying and releasing.  [pt_rep] relates the memory to a
    tree of tables, and [entry] is the leaf entry of a virtual address: the
    abstract contents of the page table. *)

From S2P Require Import Prelude Machine Utility Uart BuddySpec PageAlloc.

(** [PGSIZE << power] and [1 << power] are [int] shifts, converted to 64 bits. *)
Definition pgsize_shl (power : Z) : Z := w64 (s32 (Z.shiftl PGSIZE (power mod 32))).
Definition one_shl (power : Z) : Z := w64 (s32 (Z.shiftl 1 (power mod 32))).

(** max and min of utility.h. *)
Definition max (a b : Z) : Z := if b <? a then a else b.
Definition min (a b : Z) : Z := if a <? b then a else b.

Section Code.
Context `{Hw : Platform} {Ops : PageOps}.

(** process.c *)
Definition allocate_for_user (power : Z) : M Z :=
  addr ← allocate power;
  if addr =? NULL then mret NULL
  else memset addr 0 (pgsize_shl power);; mret addr.

(** One level of the walk: the table the entry at [pte] leads to; [None] is the
    [return NULL] of the walk. *)
Definition next_table (pte alloc : Z) : M (option Z) :=
  e ← load64 pte;
  if truth (Z.land e PTE_V) then
    e ← load64 pte; mret (Some (PTE2PA e))
  else if negb (truth alloc) then mret None
  else
    pagetable ← allocate 1;
    if pagetable =? 0 then mret None
    else
      memset pagetable 0 PGSIZE;;
      store64 pte (Z.lor (PA2PTE pagetable) PTE_V);;
      mret (Some pagetable).

Definition pagetable_entry (pagetable va alloc : Z) : M Z :=
  (if MAXVA <=? va then panic "pagetable_entry: va >= MAXVA" else mret tt);;
  loop (fun '(level, pagetable) =>
    if 0 <? level then
      next ← next_table (pagetable +w 8 * PX level va) alloc;
      match next with
      | None => mret (inr NULL)
      | Some pagetable => mret (inl (level - 1, pagetable))
      end
    else mret (inr (pagetable +w 8 * PX 0 va))) (2, pagetable).

Definition physical_address (pagetable va : Z) : M Z :=
  pte ← pagetable_entry pagetable va 0;
  if pte =? NULL then mret NULL
  else
    e ← load64 pte;
    if Z.land e PTE_V =? 0 then mret NULL
    else e ← load64 pte; mret (PTE2PA e +w PGOFFSET va).

Definition map_page (pagetable va pa permission : Z) : M Z :=
  let va := PGROUNDDOWN va in
  let pa := PGROUNDDOWN pa in
  pte ← pagetable_entry pagetable va 1;
  if pte =? NULL then mret 1
  else
    e ← load64 pte;
    (if truth (Z.land e PTE_V) then panic "map_page: page already mapped" else mret tt);;
    store64 pte (Z.lor (Z.lor (PA2PTE pa) permission) PTE_V);;
    mret 0.

Definition unmap_page (pagetable va : Z) : M Z :=
  let va := PGROUNDDOWN va in
  pte ← pagetable_entry pagetable va 0;
  if pte =? NULL then mret 1
  else
    e ← load64 pte;
    (if Z.land e PTE_V =? 0 then panic "unmap_page: page not mapped" else mret tt);;
    e ← load64 pte;
    (if PTE_FLAGS e =? PTE_V then panic "unmap_page: cannot unmap leaf page" else mret tt);;
    store64 pte 0;;
    mret 0.

Definition kernel_map_pages (pagetable va pa size permission : Z) : M unit :=
  let va := PGROUNDDOWN va in
  let pa := PGROUNDDOWN pa in
  for_range size PGSIZE (fun i =>
    result ← map_page pagetable (va +w i) (pa +w i) permission;
    if result =? -1 then panic "kernel_map_pages: map_page failed" else mret tt).

Definition make_kernel_pagetable : M unit :=
  page ← allocate 0;
  put kernel_pagetable page;;
  p ← get kernel_pagetable;
  (if p =? NULL then panic "make_kernel_pagetable: page table allocate failed" else mret tt);;
  kp ← get kernel_pagetable;
  memset kp 0 PGSIZE;;
  let rw := Z.lor PTE_R PTE_W in
  let rx := Z.lor PTE_R PTE_X in
  kernel_map_pages kp VIRT_TEST VIRT_TEST PGSIZE rw;;
  kernel_map_pages kp UART0 UART0 PGSIZE rw;;
  kernel_map_pages kp VIRTIO0 VIRTIO0 PGSIZE rw;;
  kernel_map_pages kp PLIC PLIC 0x400000 rw;;
  kernel_map_pages kp KERNBASE KERNBASE (etext -w KERNBASE) rx;;
  kernel_map_pages kp etext etext (PHYSTOP -w etext) rw;;
  kernel_map_pages kp TRAMPOLINE trampoline PGSIZE rx.

Definition init_kernel_pagetable : M unit :=
  make_kernel_pagetable;;
  sfence_vma;;
  kp ← get kernel_pagetable;
  write_satp (MAKE_SATP kp);;
  sfence_vma.

Definition create_void_pagetable : M Z :=
  pagetable ← allocate 1;
  if pagetable =? NULL then mret NULL
  else memset pagetable 0 PGSIZE;; mret pagetable.

Definition power_of_pages (size : Z) : M Z :=
  loop (fun power =>
    if pgsize_shl power <? size then mret (inl (power +w 1)) else mret (inr power)) 0.

Definition map_memory (pagetable src size permission : Z) : M Z :=
  power ← power_of_pages size;
  pages ← allocate power;
  let number_of_pages := one_shl power in
  memcpy pages src size;;
  loop (fun i =>
    if i <? number_of_pages then
      result ← map_page pagetable (i *w PGSIZE) (pages +w i * PGSIZE) permission;
      if result =? -1 then
        for_range i 1 (fun j => unmap_page pagetable (j *w PGSIZE);; mret tt);;
        deallocate pages power;;
        mret (inr 0)
      else mret (inl (i +w 1))
    else mret (inr (pgsize_shl power))) 0.

(** Undoing the pages copied so far: the code releases the source pages. *)
Definition undo_copy (source_pagetable target_pagetable va_start offset : Z) : M unit :=
  for_range offset PGSIZE (fun offset2 =>
    src2 ← physical_address source_pagetable (va_start +w offset2);
    unmap_page target_pagetable (va_start +w offset2);;
    deallocate src2 0).

Definition copy_memory_with_pagetable
    (source_pagetable target_pagetable va_start size : Z) : M Z :=
  (if truth (Z.land va_start (PGSIZE - 1)) || truth (Z.land size (PGSIZE - 1))
   then panic "copy_memory_with_pagetable: va_start or size is not page aligned"
   else mret tt);;
  (if MAXVA <=? va_start +w size
   then panic "copy_memory_with_pagetable: va_start + size >= MAXVA" else mret tt);;
  loop (fun offset =>
    if offset <? size then
      let va := va_start +w offset in
      src ← physical_address source_pagetable va;
      dest ← allocate 0;
      (if src =? NULL then panic "copy_memory_with_pagetable: memory not mapped" else mret tt);;
      if dest =? NULL then
        undo_copy source_pagetable target_pagetable va_start offset;;
        mret (inr (-1))
      else
        memcpy dest src PGSIZE;;
        pte ← pagetable_entry source_pagetable va 0;
        e ← load64 pte;
        result ← map_page target_pagetable va dest (PTE_FLAGS e);
        if result =? -1 then
          undo_copy source_pagetable target_pagetable va_start offset;;
          deallocate dest 0;;
          mret (inr (-1))
        else mret (inl (offset +w PGSIZE))
    else mret (inr 0)) 0.

Definition free_memory (pagetable start size : Z) : M unit :=
  let start := PGROUNDDOWN start in
  for_range size PGSIZE (fun i =>
    p ← physical_address pagetable (start +w i);
    deallocate p 0;;
    unmap_page pagetable (start +w i);;
    mret tt).

Fixpoint free_pagetable_internal (level : nat) (pagetable : Z) : M unit :=
  match level with
  | O => mret tt
  | S level' =>
      for_range 512 1 (fun i =>
        let pte := pagetable +w 8 * i in
        e ← load64 pte;
        if truth (Z.land e PTE_V) && (1 <? Z.of_nat level) then
          e ← load64 pte; free_pagetable_internal level' (PTE2PA e)
        else mret tt)
  end;;
  deallocate pagetable 0.

Definition free_pagetable (pagetable : Z) : M unit := free_pagetable_internal 2 pagetable.

Definition map_page_for_user (pagetable va src size permission : Z) : M Z :=
  page ← allocate_for_user 0;
  if page =? NULL then mret (-1)
  else
    memcpy page src size;;
    r ← map_page pagetable va page permission;
    if negb (r =? 0) then deallocate page 0;; mret (-1) else mret 0.

Definition map_section_for_user
    (pagetable va_start src src_size size permission : Z) : M Z :=
  let va_end := va_start +w size in
  let src_end := va_start +w src_size in
  let page_start := PGROUNDDOWN va_start in
  loop (fun '(page_addr, src_addr) =>
    if page_addr <? va_end then
      let dest_start := max va_start page_addr in
      let dest_end := min src_end (page_addr +w PGSIZE) in
      let copy_size := if dest_start <? dest_end then dest_end -w dest_start else 0 in
      r ← map_page_for_user pagetable dest_start src_addr copy_size permission;
      if negb (r =? 0) then
        free_memory pagetable page_start (page_addr -w page_start);;
        mret (inr (-1))
      else mret (inl (page_addr +w PGSIZE, src_addr +w (dest_end -w dest_start)))
    else mret (inr 0)) (page_start, src).

End Code.

(** ** The contents of a page table *)

(** The tables of a page table, by the indices that lead to them: [[]] is the
    root, [[i2; i1]] the last-level table below entries [i2] and [i1]. *)
Abbreviation tables := (gmap (list Z) Z).

Section Spec.
Context `{Hw : Platform} {Ops : PageOps} {HA : PageAllocator Ops}.

Definition valid (e : Z) : bool := truth (Z.land e PTE_V).

(** The address of the entry of [va] in its last-level table, if there is one,
    and the entry; 0 is an invalid entry. *)
Definition path (va : Z) : list Z := [PX 2 va; PX 1 va].
Definition slot (T : tables) (va : Z) : option Z := (fun p => p + 8 * PX 0 va) <$> T !! path va.
Definition entry (m : gmap Z Z) (T : tables) (va : Z) : Z :=
  match slot T va with None => 0 | Some a => rd64 m a end.

Definition page_ok (F : Z -> Prop) (p : Z) : Prop :=
  (4096 | p) /\ kernel_end <= p /\ p + 4096 <= PHYSTOP /\
  forall a, p <= a < p + 4096 -> ~ F a.

(** The tables [T] are in the memory [m], apart from the free bytes [F]. *)
Record pt_rep (m : gmap Z Z) (F : Z -> Prop) (root : Z) (T : tables) : Prop := {
  pt_root : T !! [] = Some root;
  pt_page : forall l p, T !! l = Some p -> page_ok F p /\ (length l <= 2)%nat;
  pt_child : forall l i q, T !! (l ++ [i]) = Some q -> 0 <= i < 512 /\ is_Some (T !! l);
  pt_inj : forall l l' p, T !! l = Some p -> T !! l' = Some p -> l = l';
  pt_link : forall l p i, T !! l = Some p -> (length l < 2)%nat -> 0 <= i < 512 ->
    match T !! (l ++ [i]) with
    | Some q => rd64 m (p + 8 * i) = Z.lor (PA2PTE q) PTE_V
    | None => valid (rd64 m (p + 8 * i)) = false
    end
}.

(** The bytes of the tables. *)
Definition table_byte (T : tables) (a : Z) : Prop :=
  exists l p, T !! l = Some p /\ p <= a < p + 4096.

(** The abstract page table: [E n] is the entry of page number [n].  The
    concrete one is in the memory of [s], over an allocator with free bytes [F]. *)
Definition vm_rep (s : state) (F : Z -> Prop) (root : Z) (E : Z -> Z) : Prop :=
  exists T, pt_rep (mem s) F root T /\ pool_owns (mem s) F /\
    forall va, 0 <= va < MAXVA -> entry (mem s) T va = E (va / PGSIZE).

(** Translation by an abstract page table; 0 where nothing is mapped. *)
Definition translate (E : Z -> Z) (va : Z) : Z :=
  let e := E (va / PGSIZE) in
  if valid e then PTE2PA e +w PGOFFSET va else NULL.

(** The entry [map_page] writes. *)
Definition leaf (pa permission : Z) : Z := Z.lor (Z.lor (PA2PTE pa) permission) PTE_V.

(** No block of order [k] is free. *)
Definition exhausted (F : Z -> Prop) (k : Z) : Prop :=
  forall y, good_block kernel_end PHYSTOP k y -> ~ (forall a, y <= a < y + bsz k -> F a).

(** What the page table code may write: the allocator's data, free memory, and
    bytes that are not free but may be table bytes. *)
Definition vm_touch (F : Z -> Prop) (s : state) (root : Z) (a : Z) : Prop :=
  pool_private a \/ F a \/
  exists T, pt_rep (mem s) F root T /\ table_byte T a.

End Spec.
