(* ===== verification/PageTableProof.v ===== *)
(** * Walking and changing page tables

    Proofs for PageTable.v, against the page allocator's interface. *)

From S2P Require Import Prelude Machine Utility Uart BuddySpec PageAlloc Capacity PageTable.

(** ** Address and entry bits *)

Lemma lor_low a b n : 0 <= n -> 0 <= b < 2 ^ n -> Z.lor (a * 2 ^ n) b = a * 2 ^ n + b.
Proof.
  intros Hn Hb. assert (Z.land (a * 2 ^ n) b = 0).
  { apply Z.bits_inj'. intros i Hi. rewrite Z.land_spec, Z.bits_0.
    destruct (Z.lt_ge_cases i n).
    - rewrite Z.mul_pow2_bits_low by lia. done.
    - rewrite <-(Z.mod_small b (2 ^ n)), Z.mod_pow2_bits_high by lia. apply andb_false_r. }
  rewrite Z.add_nocarry_lxor by done. by rewrite Z.lxor_lor.
Qed.

Lemma lor_range a b n : 0 <= n -> 0 <= a < 2 ^ n -> 0 <= b < 2 ^ n -> 0 <= Z.lor a b < 2 ^ n.
Proof.
  intros Hn Ha Hb. split; [apply Z.lor_nonneg; lia|].
  assert (Hlow : forall x, 0 <= x < 2 ^ n -> forall i, n <= i -> Z.testbit x i = false).
  { intros x Hx i Hi. rewrite <-(Z.mod_small x (2 ^ n)) by done. by apply Z.mod_pow2_bits_high. }
  assert (E : Z.lor a b = Z.lor a b mod 2 ^ n).
  { apply Z.bits_inj'. intros i Hi. destruct (Z.lt_ge_cases i n); [by rewrite Z.mod_pow2_bits_low|].
    rewrite Z.mod_pow2_bits_high, Z.lor_spec, !Hlow by lia. done. }
  rewrite E. apply Z.mod_pos_bound. lia.
Qed.

Lemma PX_range level va : 0 <= PX level va < 512.
Proof.
  unfold PX, PXMASK. change 0x1FF with (Z.ones 9). rewrite Z.land_ones by lia.
  apply Z.mod_pos_bound. lia.
Qed.

Lemma PX_eq level va : 0 <= level -> PX level va = (va / 2 ^ (12 + 9 * level)) mod 512.
Proof.
  intros. unfold PX, PXMASK, PXSHIFT, PGSHIFT. change 0x1FF with (Z.ones 9).
  rewrite Z.land_ones by lia. by rewrite Z.shiftr_div_pow2 by lia.
Qed.

Lemma PGROUNDDOWN_eq a : 0 <= a < 2 ^ 64 -> PGROUNDDOWN a = a - a mod 4096.
Proof. intros. unfold PGROUNDDOWN, PGSIZE. by apply (land_not_ones a 12). Qed.

Lemma PGROUNDDOWN_spec a : 0 <= a < 2 ^ 64 ->
  (4096 | PGROUNDDOWN a) /\ PGROUNDDOWN a <= a < PGROUNDDOWN a + 4096 /\ 0 <= PGROUNDDOWN a.
Proof.
  intros H. rewrite PGROUNDDOWN_eq by done. pose proof (Z.mod_pos_bound a 4096).
  pose proof (Z.div_mod a 4096). split_and!; [|lia..]. exists (a / 4096). lia.
Qed.

Lemma PGOFFSET_eq a : PGOFFSET a = a mod 4096.
Proof. unfold PGOFFSET, PGSIZE. change (4096 - 1) with (Z.ones 12). by rewrite Z.land_ones. Qed.

(** The three indices of an address are the digits of its page number. *)
Lemma page_number va : 0 <= va < MAXVA ->
  va / 4096 = PX 2 va * 2 ^ 18 + PX 1 va * 2 ^ 9 + PX 0 va.
Proof.
  intros H. change MAXVA with (2 ^ 38) in H. rewrite !PX_eq by lia.
  change (12 + 9 * 2) with 30. change (12 + 9 * 1) with 21. change (12 + 9 * 0) with 12.
  set (n := va / 4096).
  assert (H0 : va / 2 ^ 12 = n) by done.
  assert (H1 : va / 2 ^ 21 = n / 512).
  { unfold n. rewrite Z.div_div by lia. done. }
  assert (H2 : va / 2 ^ 30 = n / 512 / 512).
  { unfold n. rewrite !Z.div_div by lia. done. }
  rewrite H0, H1, H2.
  assert (0 <= n < 2 ^ 26).
  { split; [apply Z.div_pos; lia|]. apply Z.div_lt_upper_bound; lia. }
  assert (0 <= n / 512 / 512 < 512).
  { split; [repeat apply Z.div_pos; lia|]. do 2 (apply Z.div_lt_upper_bound; [lia|]). lia. }
  rewrite (Z.mod_small (n / 512 / 512)) by lia.
  pose proof (Z.div_mod n 512). pose proof (Z.div_mod (n / 512) 512). lia.
Qed.

Lemma same_page_eq va va' : 0 <= va < MAXVA -> 0 <= va' < MAXVA ->
  va / 4096 = va' / 4096 <-> path va = path va' /\ PX 0 va = PX 0 va'.
Proof.
  intros H H'. rewrite (page_number va), (page_number va') by done. unfold path.
  pose proof (PX_range 0 va). pose proof (PX_range 0 va').
  pose proof (PX_range 1 va). pose proof (PX_range 1 va').
  split.
  - intros E. assert (PX 2 va = PX 2 va' /\ PX 1 va = PX 1 va' /\ PX 0 va = PX 0 va')
      as (-> & -> & ->) by lia. done.
  - intros [[= -> ->] ->]. done.
Qed.

Lemma PGROUNDDOWN_page a : 0 <= a < 2 ^ 64 -> PGROUNDDOWN a / 4096 = a / 4096.
Proof.
  intros H. rewrite PGROUNDDOWN_eq by done. pose proof (Z.div_mod a 4096).
  replace (a - a mod 4096) with (a / 4096 * 4096) by lia. by rewrite Z.div_mul.
Qed.

(** ** Entries *)

Lemma PA2PTE_eq pa : 0 <= pa < 2 ^ 64 -> PA2PTE pa = pa / 4096 * 2 ^ 10.
Proof.
  intros. unfold PA2PTE, shl64. rewrite Z.shiftr_div_pow2, Z.mod_small, Z.shiftl_mul_pow2 by lia.
  apply w64_small. change (2 ^ 12) with 4096.
  assert (0 <= pa / 4096 < 2 ^ 52).
  { split; [apply Z.div_pos; lia|]. apply Z.div_lt_upper_bound; lia. }
  lia.
Qed.

Lemma leaf_eq pa permission : 0 <= pa < 2 ^ 56 -> 0 <= permission < 1024 ->
  leaf pa permission = pa / 4096 * 2 ^ 10 + Z.lor permission PTE_V /\
  0 <= Z.lor permission PTE_V < 1024.
Proof.
  intros Hpa Hp. unfold leaf. rewrite PA2PTE_eq, <-Z.lor_assoc by lia. change PTE_V with 1.
  assert (0 <= Z.lor permission 1 < 2 ^ 10).
  { by apply lor_range. }
  split; [|lia]. by apply lor_low.
Qed.

Lemma leaf_range pa permission : 0 <= pa < 2 ^ 56 -> 0 <= permission < 1024 ->
  0 <= leaf pa permission < 2 ^ 64.
Proof.
  intros Hpa Hp. destruct (leaf_eq pa permission Hpa Hp) as [-> ?].
  assert (0 <= pa / 4096 < 2 ^ 44).
  { split; [apply Z.div_pos; lia|]. apply Z.div_lt_upper_bound; lia. }
  lia.
Qed.

Lemma leaf_pa pa permission : 0 <= pa < 2 ^ 56 -> 0 <= permission < 1024 ->
  PTE2PA (leaf pa permission) = pa - pa mod 4096.
Proof.
  intros Hpa Hp. destruct (leaf_eq pa permission Hpa Hp) as [-> Hl].
  unfold PTE2PA, shl64. rewrite Z.shiftr_div_pow2 by lia.
  rewrite Z.div_add_l, (Z.div_small (Z.lor _ _)), Z.add_0_r by lia.
  rewrite Z.mod_small, Z.shiftl_mul_pow2 by lia. change (2 ^ 12) with 4096.
  pose proof (Z.div_mod pa 4096). pose proof (Z.mod_pos_bound pa 4096).
  rewrite w64_small; lia.
Qed.

Lemma leaf_flags pa permission : 0 <= pa < 2 ^ 56 -> 0 <= permission < 1024 ->
  PTE_FLAGS (leaf pa permission) = Z.lor permission PTE_V.
Proof.
  intros Hpa Hp. destruct (leaf_eq pa permission Hpa Hp) as [-> Hl].
  unfold PTE_FLAGS. change 0x3FF with (Z.ones 10). rewrite Z.land_ones by lia.
  rewrite Z.add_comm, Z.mod_add by lia. by apply Z.mod_small.
Qed.

Lemma valid_lor x : valid (Z.lor x PTE_V) = true.
Proof.
  unfold valid, PTE_V. change (Z.shiftl 1 0) with (2 ^ 0). rewrite land_pow2 by lia.
  by rewrite Z.lor_spec, (Z.pow2_bits_true 0), orb_true_r.
Qed.

Lemma valid_leaf pa permission : valid (leaf pa permission) = true.
Proof. apply valid_lor. Qed.

Lemma valid_zero : valid 0 = false.
Proof. done. Qed.

(** The entry of a table. *)
Lemma link_leaf q : Z.lor (PA2PTE q) PTE_V = leaf q 0.
Proof. unfold leaf. by rewrite Z.lor_0_r. Qed.

Section Walk.
Context `{Hw : Platform} {HwOk : PlatformOk Hw} {Ops : PageOps} {HA : PageAllocator Ops}.

(** ** Tables in memory *)

Lemma page_bounds F p : page_ok F p -> KERNBASE < p /\ p + 4096 <= PHYSTOP /\ 0 <= p < 2 ^ 56.
Proof.
  intros (_ & ? & ? & _). pose proof kernel_end_range. unfold PHYSTOP, KERNBASE in *. lia.
Qed.

Lemma pages_apart p q : (4096 | p) -> (4096 | q) -> p <> q -> p + 4096 <= q \/ q + 4096 <= p.
Proof. intros [x ->] [y ->] ?. lia. Qed.

Lemma page_ok_mono (F F' : Z -> Prop) p : (forall a, F' a -> F a) -> page_ok F p -> page_ok F' p.
Proof. intros HF (? & ? & ? & Hn). split_and!; [done..|]. intros a Ha Hf. by apply (Hn a), HF. Qed.

Lemma tables_apart m F root T l l' p p' : pt_rep m F root T ->
  T !! l = Some p -> T !! l' = Some p' -> l <> l' -> p + 4096 <= p' \/ p' + 4096 <= p.
Proof.
  intros Hrep Hl Hl' Hne. destruct (pt_page _ _ _ _ Hrep _ _ Hl) as [[? _] _].
  destruct (pt_page _ _ _ _ Hrep _ _ Hl') as [[? _] _]. apply pages_apart; [done..|].
  intros ->. apply Hne. by eapply pt_inj.
Qed.

(** The structure depends only on the bytes of the tables. *)
Lemma pt_rep_frame m m' F F' root T : pt_rep m F root T ->
  (forall a, table_byte T a -> rd8 m' a = rd8 m a) -> (forall a, F' a -> F a) ->
  pt_rep m' F' root T.
Proof.
  intros [Hr Hp Hc Hi Hl] Hm HF. split; [done| |done|done|].
  - intros l p H. destruct (Hp l p H). split; [by eapply page_ok_mono|done].
  - intros l p i H Hlen Hi'. rewrite (rd_ext 8 m); [by apply Hl|]. intros b Hb. simpl in Hb.
    apply Hm. exists l, p. split; [done|]. lia.
Qed.

Lemma entry_frame m m' T va :
  (forall a, table_byte T a -> rd8 m' a = rd8 m a) -> entry m' T va = entry m T va.
Proof.
  intros Hm. unfold entry, slot. destruct (T !! path va) as [p|] eqn:E; simpl; [|done].
  pose proof (PX_range 0 va). apply rd_ext. intros b Hb. simpl in Hb. apply Hm.
  exists (path va), p. split; [done|]. lia.
Qed.

(** The page table after adding tables: the entries of addresses are the same. *)
Record pt_grow (m : gmap Z Z) (F : Z -> Prop) (T : tables)
    (m' : gmap Z Z) (F' : Z -> Prop) (T' : tables) : Prop := {
  grow_sub : T ⊆ T';
  grow_entry : forall va, entry m' T' va = entry m T va;
  grow_free : forall a, F' a -> F a;
  grow_touch : modifies (fun a => pool_private a \/ F a \/ table_byte T a) m m'
}.

Lemma pt_grow_refl m F T : pt_grow m F T m F T.
Proof. split; done. Qed.

Lemma pt_grow_trans m1 F1 T1 m2 F2 T2 m3 F3 T3 :
  pt_grow m1 F1 T1 m2 F2 T2 -> pt_grow m2 F2 T2 m3 F3 T3 ->
  (forall a, table_byte T2 a -> table_byte T1 a \/ F1 a) ->
  pt_grow m1 F1 T1 m3 F3 T3.
Proof.
  intros [Hs He Hf Ht] [Hs' He' Hf' Ht'] Hb. split.
  - by etrans.
  - intros va. by rewrite He', He.
  - auto.
  - eapply modifies_trans; [exact Ht|]. eapply modifies_weaken; [|exact Ht'].
    intros a [?|[?|?%Hb]]; naive_solver.
Qed.

Lemma new_page F q : good_block kernel_end PHYSTOP 1 q -> page_ok (without F 1 q) q.
Proof.
  intros (_ & Hal & ? & ?). change (bsz 1) with 8192 in *.
  split_and!; [|lia..|].
  - etrans; [|exact Hal]. by exists 2.
  - intros a Ha [_ Hn]. change (bsz 1) with 8192 in Hn. lia.
Qed.

Lemma new_apart m F root T q l' p' :
  pt_rep m F root T -> good_block kernel_end PHYSTOP 1 q ->
  (forall a, q <= a < q + bsz 1 -> F a) -> T !! l' = Some p' ->
  p' + 4096 <= q \/ q + 4096 <= p'.
Proof.
  intros Hrep Hq HqF Hl'. destruct (pt_page _ _ _ _ Hrep _ _ Hl') as [(? & _ & _ & Hn) _].
  apply pages_apart; [done|by apply (new_page F)|]. intros ->. apply (Hn q); [lia|].
  apply HqF. change (bsz 1) with 8192. lia.
Qed.

Section NewTable.
Context (m m' : gmap Z Z) (F : Z -> Prop) (root : Z) (T : tables).
Context (l : list Z) (p i q : Z).
Hypotheses (Hrep : pt_rep m F root T) (Hl : T !! l = Some p) (Hlen : (length l < 2)%nat)
  (Hi : 0 <= i < 512) (Hnone : T !! (l ++ [i]) = None)
  (Hq : good_block kernel_end PHYSTOP 1 q) (HqF : forall a, q <= a < q + bsz 1 -> F a).
(** The new table is zero, its parent's entry points to it, the other table
    bytes are unchanged. *)
Hypotheses (Hzero : forall a, q <= a < q + 4096 -> rd8 m' a = 0)
  (Hlink : rd64 m' (p + 8 * i) = Z.lor (PA2PTE q) PTE_V)
  (Hsame : forall a, table_byte T a -> ~ (p + 8 * i <= a < p + 8 * i + 8) -> rd8 m' a = rd8 m a).
Abbreviation F' := (without F 1 q).
Abbreviation T' := (<[l ++ [i] := q]> T).

Lemma zero_word j : 0 <= j < 512 -> rd64 m' (q + 8 * j) = 0.
Proof.
  intros Hj. rewrite (rd_ext 8 ∅); [done|]. intros b Hb. simpl in Hb. by rewrite Hzero by lia.
Qed.

Lemma same_word l' p' j : T !! l' = Some p' -> 0 <= j < 512 -> (l' <> l \/ j <> i) ->
  rd64 m' (p' + 8 * j) = rd64 m (p' + 8 * j).
Proof.
  intros Hl' Hj Hne. apply rd_ext. intros b Hb. simpl in Hb. apply Hsame.
  - exists l', p'. split; [done|]. lia.
  - destruct (decide (l' = l)) as [->|Hne'].
    + assert (p' = p) as -> by congruence. destruct Hne; [done|lia].
    + pose proof (tables_apart _ _ _ _ l l' p p' Hrep Hl Hl' ltac:(done)). lia.
Qed.

Lemma new_childless j : T !! ((l ++ [i]) ++ [j]) = None.
Proof.
  destruct (T !! ((l ++ [i]) ++ [j])) as [r|] eqn:E; [|done].
  apply (pt_child _ _ _ _ Hrep) in E as [_ [? E]]. congruence.
Qed.

Lemma pt_rep_new : pt_rep m' F' root T'.
Proof.
  assert (Hneq : forall l' j, l' ++ [j] <> l ++ [i] <-> (l' <> l \/ j <> i)).
  { intros l' j. split.
    - intros H. destruct (decide (l' = l)) as [->|]; [right|by left]. by intros ->.
    - intros H [-> ->]%app_inj_tail. by destruct H. }
  split.
  - rewrite lookup_insert_ne; [apply Hrep|]. by destruct l.
  - intros l' p' [[<- <-]|[? Hl']]%lookup_insert_Some.
    + split; [by apply new_page|]. rewrite length_app. simpl. lia.
    + destruct (pt_page _ _ _ _ Hrep _ _ Hl'). split; [|done].
      eapply page_ok_mono; [|done]. by intros a [? _].
  - intros l' j r [[E <-]|[? Hl']]%lookup_insert_Some.
    + apply app_inj_tail in E as [-> ->]. split; [done|].
      rewrite lookup_insert_ne; [by exists p|]. intros E%(f_equal length).
      rewrite length_app in E. simpl in E. lia.
    + destruct (pt_child _ _ _ _ Hrep _ _ _ Hl') as [? [p' Hp']]. split; [done|].
      destruct (decide (l ++ [i] = l')) as [->|]; [rewrite lookup_insert_eq; by eexists|].
      rewrite lookup_insert_ne by done. by exists p'.
  - intros l1 l2 r [[<- <-]|[? H1]]%lookup_insert_Some [[<- E]|[? H2]]%lookup_insert_Some.
    + done.
    + pose proof (new_apart _ _ _ _ _ _ _ Hrep Hq HqF H2). lia.
    + pose proof (new_apart _ _ _ _ _ _ _ Hrep Hq HqF H1). lia.
    + by eapply (pt_inj _ _ _ _ Hrep).
  - intros l' p' j [[<- <-]|[? Hl']]%lookup_insert_Some Hlen' Hj.
    + rewrite lookup_insert_ne.
      * rewrite new_childless, zero_word by done. done.
      * intros E%(f_equal length). rewrite !length_app in E. simpl in E. lia.
    + destruct (decide (l' = l /\ j = i)) as [[-> ->]|Hne].
      * rewrite lookup_insert_eq. assert (p' = p) as -> by congruence. exact Hlink.
      * assert (Hne' : l' <> l \/ j <> i) by (destruct (decide (l' = l)); naive_solver).
        rewrite lookup_insert_ne by (intros E; symmetry in E; by apply Hneq in E).
        rewrite (same_word l' p' j Hl' Hj Hne'). by apply (pt_link _ _ _ _ Hrep).
Qed.

Lemma entry_new va : entry m' T' va = entry m T va.
Proof.
  unfold entry, slot. pose proof (PX_range 0 va). destruct (decide (l ++ [i] = path va)) as [E|Hne].
  - rewrite <-E, lookup_insert_eq, Hnone. simpl. by apply zero_word.
  - rewrite lookup_insert_ne by done. destruct (T !! path va) as [r|] eqn:E; simpl; [|done].
    apply (same_word (path va)); [done..|]. left. intros <-. unfold path in Hlen. simpl in Hlen. lia.
Qed.

End NewTable.

(** ** One level of the walk *)

Lemma table_byte_facts m F root T a : pt_rep m F root T -> table_byte T a ->
  kernel_end <= a < PHYSTOP /\ ~ F a /\ ~ pool_private a.
Proof.
  intros Hrep (l & p & Hl & Ha). destruct (pt_page _ _ _ _ Hrep _ _ Hl) as [(_ & ? & ? & Hn) _].
  split; [lia|]. split; [by apply Hn|]. intros Hp%pool_private_range. lia.
Qed.

Lemma slot_ram m F root T l p i : pt_rep m F root T -> T !! l = Some p -> 0 <= i < 512 ->
  KERNBASE <= p + 8 * i /\ p + 8 * i + 8 <= PHYSTOP /\ w64 (p + 8 * i) = p + 8 * i.
Proof.
  intros Hrep Hl Hi. destruct (pt_page _ _ _ _ Hrep _ _ Hl) as [Hp _].
  destruct (page_bounds _ _ Hp) as (? & ? & ?). split_and!; [lia..|]. apply w64_small. lia.
Qed.

Lemma page_aligned F q : page_ok F q -> PTE2PA (leaf q 0) = q.
Proof.
  intros Hq. destruct (page_bounds _ _ Hq) as (_ & _ & ?). destruct Hq as ([x ->] & _).
  rewrite leaf_pa by lia. rewrite Z.mod_mul by lia. lia.
Qed.

(** The state after a new table was linked in. *)
Lemma new_table_ok m F root T l p i q s1 m2 m3 :
  pt_rep m F root T -> T !! l = Some p -> (length l < 2)%nat -> 0 <= i < 512 ->
  T !! (l ++ [i]) = None ->
  good_block kernel_end PHYSTOP 1 q -> (forall a, q <= a < q + bsz 1 -> F a) ->
  modifies (fun a => pool_private a \/ F a) m (mem s1) ->
  pool_owns (mem s1) (without F 1 q) ->
  (forall j, 0 <= j < 4096 -> rd8 m2 (q + j) = w8 0) -> modifies (range q 4096) (mem s1) m2 ->
  m3 = wr64 m2 (p + 8 * i) (Z.lor (PA2PTE q) PTE_V) ->
  pt_rep m3 (without F 1 q) root (<[l ++ [i] := q]> T) /\ pool_owns m3 (without F 1 q) /\
  pt_grow m F T m3 (without F 1 q) (<[l ++ [i] := q]> T).
Proof.
  intros Hrep Hl Hlen Hi Hnone Hq HqF Hm1 Hp1 Hz Hm2 ->.
  pose proof (new_apart _ _ _ _ _ _ _ Hrep Hq HqF Hl) as Hap.
  destruct (slot_ram _ _ _ _ _ _ _ Hrep Hl Hi) as (? & ? & _).
  pose proof (new_page F q Hq) as Hqp. destruct (page_bounds _ _ Hqp) as (? & ? & ?).
  assert (Hpb : forall a, p + 8 * i <= a < p + 8 * i + 8 -> table_byte T a).
  { intros a Ha. exists l, p. split; [done|lia]. }
  assert (Hzero : forall a, q <= a < q + 4096 ->
    rd8 (wr64 m2 (p + 8 * i) (Z.lor (PA2PTE q) PTE_V)) a = 0).
  { intros a Ha. rewrite rd8_wr_out by (simpl; lia).
    replace a with (q + (a - q)) by lia. rewrite Hz by lia. done. }
  assert (Hlink : rd64 (wr64 m2 (p + 8 * i) (Z.lor (PA2PTE q) PTE_V)) (p + 8 * i) =
    Z.lor (PA2PTE q) PTE_V).
  { rewrite link_leaf. apply rd64_wr64_same. apply leaf_range; lia. }
  assert (Hsame : forall a, table_byte T a -> ~ (p + 8 * i <= a < p + 8 * i + 8) ->
    rd8 (wr64 m2 (p + 8 * i) (Z.lor (PA2PTE q) PTE_V)) a = rd8 m a).
  { intros a Ha Hna. rewrite rd8_wr_out by (simpl; lia).
    destruct (table_byte_facts _ _ _ _ _ Hrep Ha) as (? & HnF & Hnp).
    rewrite Hm2, Hm1; [done|tauto|]. unfold range. intros Hin. apply HnF, HqF.
    change (bsz 1) with 8192. lia. }
  split; [by apply (pt_rep_new m _ F root T l p i q)|]. split; [|split].
  - eapply pool_owns_frame; [exact Hp1|]. intros a Ha.
    assert (Hna : ~ (p + 8 * i <= a < p + 8 * i + 8) /\ ~ range q 4096 a).
    { destruct Hq as (_ & _ & ? & _). unfold range. split.
      - intros Hin%Hpb. destruct (table_byte_facts _ _ _ _ _ Hrep Hin) as (? & HnF & Hnp).
        destruct Ha as [?|[? _]]; [by apply Hnp|by apply HnF].
      - intros Hin. destruct Ha as [Ha%pool_private_range|[_ Hn]]; [lia|].
        change (bsz 1) with 8192 in Hn. lia. }
    rewrite rd8_wr_out by (simpl; lia). apply Hm2, Hna.
  - by apply insert_subseteq.
  - intros va. by apply (entry_new m _ F root T l p i q).
  - by intros a [? _].
  - eapply modifies_trans; [eapply modifies_weaken; [|exact Hm1]; naive_solver|].
    eapply modifies_trans; [eapply modifies_weaken; [|exact Hm2]|apply modifies_wr].
    + intros a Ha. right. left. apply HqF. unfold range in Ha. change (bsz 1) with 8192. lia.
    + simpl. intros b Hb. right. right. by apply Hpb.
Qed.

(** The tables of [S] that are missing in [T]. *)
Definition missing (S : gset (list Z)) (T : tables) : nat := size (S ∖ dom T).

Lemma missing_insert S T l q : l ∈ S -> T !! l = None -> missing S T = Datatypes.S (missing S (<[l := q]> T)).
Proof.
  intros Hl HT. unfold missing. rewrite dom_insert_L.
  replace (S ∖ dom T) with ({[l]} ∪ (S ∖ ({[l]} ∪ dom T))).
  - rewrite size_union by set_solver. by rewrite size_singleton.
  - apply set_eq. intros x. rewrite elem_of_union, !elem_of_difference, elem_of_union, elem_of_singleton.
    destruct (decide (x = l)) as [->|]; [|tauto]. apply not_elem_of_dom in HT. tauto.
Qed.

Lemma missing_pos S T l : l ∈ S -> T !! l = None -> (1 <= missing S T)%nat.
Proof. intros Hl HT. rewrite (missing_insert S T l 0) by done. lia. Qed.

(** The price of a walk of [n] levels to the table [l]: nothing without memory,
    at most one pair of pages for each level, and one for each table that was
    missing. *)
Definition costs (F : Z -> Prop) (T : tables) (l : list Z) (n : nat) (F' : Z -> Prop) (T' : tables) : Prop :=
  (exhausted F 1 -> T' = T) /\ (forall k, capacity F (k + n) -> capacity F' k) /\
  (forall (S : gset (list Z)) k, (forall l', l' `prefix_of` l -> l' ∈ S) ->
    capacity F (k + missing S T) -> capacity F' (k + missing S T')).

Lemma costs_refl F T l n : costs F T l n F T.
Proof. split; [done|]. split; [|done]. intros k. apply capacity_le. lia. Qed.

(** What a step of the walk, and the whole walk, leave. *)
Definition walked (alloc : Z) (F : Z -> Prop) (root : Z) (T : tables) (l : list Z) (n : nat)
    (s : state) (r : option Z) (s' : state) : Prop :=
  same_regs s s' /\ (truth alloc = false -> s' = s) /\
  exists F' T', pt_rep (mem s') F' root T' /\ pool_owns (mem s') F' /\
    pt_grow (mem s) F T (mem s') F' T' /\
    (forall a, table_byte T' a -> table_byte T a \/ F a) /\
    (truth alloc = false -> T' = T /\ F' = F) /\ costs F T l n F' T' /\
    r = T' !! l /\ (r = None -> truth alloc = true -> exhausted F' 1).

Lemma next_table_ok F root T l p i alloc s :
  pt_rep (mem s) F root T -> pool_owns (mem s) F -> T !! l = Some p ->
  (length l < 2)%nat -> 0 <= i < 512 ->
  wp (next_table (p +w 8 * i) alloc) (walked alloc F root T (l ++ [i]) 1 s) s.
Proof.
  intros Hrep Hp Hl Hlen Hi. destruct (slot_ram _ _ _ _ _ _ _ Hrep Hl Hi) as (? & ? & ->).
  pose proof (pt_link _ _ _ _ Hrep _ _ _ Hl Hlen Hi) as Hlink.
  unfold next_table. wp_ram. wp_ram. destruct (T !! (l ++ [i])) as [q|] eqn:Hchild.
  - rewrite Hlink. fold (valid (Z.lor (PA2PTE q) PTE_V)). rewrite valid_lor.
    repeat wp_ram. destruct (pt_page _ _ _ _ Hrep _ _ Hchild) as [Hq _].
    rewrite Hlink, link_leaf, (page_aligned _ _ Hq). split; [done|]. split; [done|].
    exists F, T.
    split; [done|]. split; [done|]. split; [apply pt_grow_refl|]. split; [by left|].
    split; [done|]. split; [apply costs_refl|]. by rewrite Hchild.
  - fold (valid (rd64 (mem s) (p + 8 * i))). rewrite Hlink.
    assert (Hstay : forall s', mem s' = mem s -> same_regs s s' ->
      (truth alloc = false -> s' = s) -> (truth alloc = true -> exhausted F 1) ->
      walked alloc F root T (l ++ [i]) 1 s None s').
    { intros s' Hm Hregs Ha He. split; [done|]. split; [done|]. exists F, T. rewrite Hm.
      split; [done|]. split; [done|]. split; [apply pt_grow_refl|]. split; [by left|].
      split; [done|]. split; [apply costs_refl|]. split; [done|]. intros _. exact He. }
    destruct (truth alloc) eqn:Halloc; simpl negb; cbv iota; [|wp_step; by apply Hstay].
    wp_step. eapply wp_mono; [apply (allocate_law F 1 s Hp); lia|].
    intros q s1 (Hregs & Hm1 & [(-> & Hm & He)|(Hq & Hne & HqF & Hp1)]).
    { simpl (_ =? _). cbv iota. wp_step. by apply Hstay. }
    rewrite (proj2 (Z.eqb_neq q 0)) by done.
    pose proof (new_page F q Hq) as Hqp. destruct (page_bounds _ _ Hqp) as (? & ? & ?).
    wp_step. apply memset_ok; [unfold ram_range, PGSIZE; lia|]. intros m2 Hz Hm2.
    repeat wp_ram. destruct (new_table_ok (mem s) F root T l p i q s1 m2 _ Hrep Hl Hlen Hi
      Hchild Hq HqF Hm1 Hp1 Hz Hm2 eq_refl) as (Hrep' & Hp' & Hgrow).
    split; [eauto with kernel|]. split; [by rewrite Halloc|]. eexists _, _.
    do 3 (split; [eassumption|]). split; [|split; [by rewrite Halloc|split; [|split; [|done]]]].
    + intros a (l' & p' & [[<- <-]|[_ Hl']]%lookup_insert_Some & Ha).
      * right. apply HqF. change (bsz 1) with 8192. lia.
      * left. by exists l', p'.
    + split; [intros He; by destruct (He q Hq HqF)|]. split; [intros k Hk|intros S k HS Hk].
      * apply capacity_take; [lia|done|]. by rewrite Nat.add_1_r in Hk.
      * apply capacity_take; [lia|done|].
        rewrite (missing_insert _ _ (l ++ [i]) q), Nat.add_succ_r in Hk; [done|by apply HS|done].
    + by rewrite lookup_insert_eq.
Qed.

(** ** The whole walk *)

Lemma walked_refl alloc F root T s :
  pt_rep (mem s) F root T -> pool_owns (mem s) F -> walked alloc F root T [] 0 s (Some root) s.
Proof.
  intros Hrep Hp. split; [done|]. split; [done|]. exists F, T.
  split; [done|]. split; [done|]. split; [apply pt_grow_refl|]. split; [by left|].
  split; [done|]. split; [apply costs_refl|]. by rewrite (pt_root _ _ _ _ Hrep).
Qed.

Lemma walk_step alloc F root T l n p i s s1 (Q : option Z -> state -> Prop) :
  walked alloc F root T l n s (Some p) s1 -> (length l < 2)%nat -> 0 <= i < 512 ->
  (forall r s2, walked alloc F root T (l ++ [i]) (S n) s r s2 -> Q r s2) ->
  wp (next_table (p +w 8 * i) alloc) Q s1.
Proof.
  intros (Hregs & Hs & F1 & T1 & Hrep & Hp & Hgrow & Hb & Ha & Hx & Hl & _) Hlen Hi HQ.
  eapply wp_mono; [by apply (next_table_ok F1 root T1 l p i alloc s1)|].
  intros r s2 (Hregs2 & Hs2 & F2 & T2 & Hrep2 & Hp2 & Hgrow2 & Hb2 & Ha2 & Hx2 & Hl2 & He2).
  apply HQ. split; [by etrans|]. split; [intros E; by rewrite Hs2, Hs|].
  exists F2, T2. split; [done|]. split; [done|]. split; [by eapply pt_grow_trans|].
  split; [|split; [|split; [|done]]].
  - intros a [?%Hb|?]%Hb2; [done|]. right. by apply (grow_free _ _ _ _ _ _ Hgrow).
  - intros E. destruct (Ha E) as [-> ->]. by apply Ha2.
  - split.
    + intros E. rewrite <-(proj1 Hx E). apply Hx2. intros y Hy Hin. apply (E y Hy).
      intros a HFa. by apply (grow_free _ _ _ _ _ _ Hgrow), Hin.
    + split; [intros k Hk; apply Hx2, Hx; by rewrite <-Nat.add_assoc|].
      intros S k HS Hk. apply Hx2; [done|]. apply Hx; [|done]. intros l' Hl'. apply HS.
      etrans; [exact Hl'|]. by exists [i].
Qed.

(** The result of the walk as the address of the entry. *)
Definition entry_addr (va : Z) (r : option Z) : Z :=
  match r with None => NULL | Some p => p + 8 * PX 0 va end.

Lemma pagetable_entry_ok F root T va alloc s :
  pt_rep (mem s) F root T -> pool_owns (mem s) F -> 0 <= va < MAXVA ->
  wp (pagetable_entry root va alloc) (fun a s' => exists r,
    a = entry_addr va r /\ walked alloc F root T (path va) 2 s r s') s.
Proof.
  intros Hrep Hp Hva. unfold pagetable_entry. wp_step.
  rewrite (proj2 (Z.leb_gt MAXVA va)) by lia. wp_step.
  apply (wp_loop (fun n '(level, p) s' => n = level /\ 0 <= level <= 2 /\
    walked alloc F root T (take (Z.to_nat (2 - level)) (path va)) (Z.to_nat (2 - level)) s (Some p) s') 2); [|lia|].
  { split; [done|]. split; [lia|]. by apply walked_refl. }
  intros n [level p] s' (-> & Hlev & Hwk). split; [lia|].
  assert (level = 2 \/ level = 1 \/ level = 0) as [-> | [-> | ->]] by lia.
  - change (0 <? 2) with true. cbv iota. wp_step. simpl take in Hwk.
    apply (walk_step _ _ _ _ _ _ _ _ _ _ _ Hwk); [simpl; lia|apply PX_range|].
    intros [q|] s2 Hw2; wp_step.
    + exists 1. split; [lia|]. split; [lia|]. split; [lia|]. exact Hw2.
    + exists None. split; [done|]. destruct Hw2 as (? & ? & F2 & T2 & Hrep2 & ? & ? & ? & ? & (Hx1 & Hx2 & Hx3) & Hl2 & He).
      split; [done|]. split; [done|]. exists F2, T2. do 5 (split; [done|]).
      split; [split; [done|]; split; [intros k Hk; apply Hx2; eapply capacity_le; [|exact Hk]; lia|
        intros S k HS; apply Hx3; intros l' Hl'; apply HS; etrans; [exact Hl'|]; by exists [PX 1 va]]|]. split; [|done].
      destruct (T2 !! path va) as [q|] eqn:E; [|done].
      apply (pt_child _ _ _ _ Hrep2 [PX 2 va] (PX 1 va)) in E as [_ [? E]]. simpl in Hl2. congruence.
  - change (0 <? 1) with true. cbv iota. wp_step. simpl take in Hwk.
    apply (walk_step _ _ _ _ _ _ _ _ _ _ _ Hwk); [simpl; lia|apply PX_range|].
    intros [q|] s2 Hw2; wp_step.
    + exists 0. split; [lia|]. split; [lia|]. split; [lia|]. exact Hw2.
    + by exists None.
  - change (0 <? 0) with false. cbv iota. wp_step. exists (Some p). split; [|exact Hwk].
    destruct Hwk as (_ & _ & F' & T' & Hrep' & _ & _ & _ & _ & _ & Hl & _). simpl take in Hl.
    symmetry in Hl. by destruct (slot_ram _ _ _ _ _ _ _ Hrep' Hl (PX_range 0 va)) as (_ & _ & ->).
Qed.

(** ** Changing a leaf entry *)

Lemma leaf_write m F root T va p v :
  pt_rep m F root T -> pool_owns m F -> T !! path va = Some p -> 0 <= va < MAXVA ->
  0 <= v < 2 ^ 64 ->
  let m' := wr64 m (p + 8 * PX 0 va) v in
  pt_rep m' F root T /\ pool_owns m' F /\
  forall va', 0 <= va' < MAXVA -> entry m' T va' =
    if decide (va' / 4096 = va / 4096) then v else entry m T va'.
Proof.
  intros Hrep Hp Hl Hva Hv. pose proof (PX_range 0 va) as Hi. simpl.
  assert (Hin : forall b, p + 8 * PX 0 va <= b < p + 8 * PX 0 va + 8 -> table_byte T b).
  { intros b Hb. exists (path va), p. split; [done|lia]. }
  split; [|split].
  - destruct Hrep as [Hr Hpg Hc Hinj Hlk]. split; [done..|].
    intros l q i Hlq Hlen Hi'. pose proof (Hlk l q i Hlq Hlen Hi') as H.
    rewrite rd64_wr64_out; [done|].
    assert (Hne : path va <> l) by (intros <-; simpl in Hlen; lia).
    destruct (tables_apart m F root T (path va) l p q); [by split|done..|lia|lia].
  - eapply pool_owns_frame; [exact Hp|]. intros a Ha. apply rd8_wr_out. simpl. intros Hb%Hin.
    destruct (table_byte_facts _ _ _ _ _ Hrep Hb) as (_ & ? & ?). tauto.
  - intros va' Hva'. pose proof (PX_range 0 va') as Hi'. case_decide as Hd.
    + apply same_page_eq in Hd as [E1 E2]; [|done..].
      unfold entry, slot. rewrite E1, Hl. simpl. rewrite E2. by apply rd64_wr64_same.
    + unfold entry, slot. destruct (T !! path va') as [q|] eqn:E; simpl; [|done].
      apply rd64_wr64_out. destruct (decide (path va' = path va)) as [Ep|Ep].
      * rewrite Ep, Hl in E. injection E as <-.
        assert (PX 0 va' <> PX 0 va) by (intros E0; apply Hd, same_page_eq; done). lia.
      * destruct (tables_apart _ _ _ _ (path va') (path va) q p Hrep E Hl Ep); lia.
Qed.

Lemma entry_read m T va : match T !! path va with
  | Some p => rd64 m (p + 8 * PX 0 va) | None => 0 end = entry m T va.
Proof. unfold entry, slot. by destruct (T !! path va). Qed.

(** ** The operations on the abstract page table *)

Lemma walk_only F root T va s (Q : Z -> state -> Prop) :
  pt_rep (mem s) F root T -> pool_owns (mem s) F -> 0 <= va < MAXVA ->
  Q (entry_addr va (T !! path va)) s -> wp (pagetable_entry root va 0) Q s.
Proof.
  intros Hrep Hp Hva HQ. eapply wp_mono; [by apply (pagetable_entry_ok F root T)|].
  intros a s' (r & -> & _ & Hs & F' & T' & _ & _ & _ & _ & HT & _ & -> & _).
  rewrite (Hs eq_refl). destruct (HT eq_refl) as [-> _]. done.
Qed.

Lemma entry_addr_nonnull m F root T va p : pt_rep m F root T -> T !! path va = Some p ->
  (p + 8 * PX 0 va =? NULL) = false.
Proof.
  intros Hrep Hl. destruct (slot_ram _ _ _ _ _ _ _ Hrep Hl (PX_range 0 va)) as (? & _).
  apply Z.eqb_neq. unfold NULL, KERNBASE in *. lia.
Qed.

Lemma physical_address_ok F root E va s :
  vm_rep s F root E -> 0 <= va < MAXVA ->
  wp (physical_address root va) (fun r s' => r = translate E va /\ s' = s) s.
Proof.
  intros (T & Hrep & Hp & HE) Hva. unfold physical_address. wp_step.
  apply (walk_only F root T); [done..|]. unfold translate, entry_addr.
  rewrite <-HE by done. rewrite <-entry_read.
  destruct (T !! path va) as [p|] eqn:Hl; [|change (NULL =? NULL) with true; by wp_step].
  rewrite (entry_addr_nonnull _ _ _ _ _ _ Hrep Hl).
  destruct (slot_ram _ _ _ _ _ _ _ Hrep Hl (PX_range 0 va)) as (? & ? & _).
  repeat wp_ram. unfold valid, truth.
  destruct (Z.eqb_spec (Z.land (rd64 (mem s) (p + 8 * PX 0 va)) PTE_V) 0); by repeat wp_ram.
Qed.

Lemma va_page va : 0 <= va < MAXVA ->
  0 <= PGROUNDDOWN va < MAXVA /\ PGROUNDDOWN va / 4096 = va / 4096.
Proof.
  intros H. change MAXVA with (2 ^ 38) in *.
  destruct (PGROUNDDOWN_spec va) as (_ & ? & ?); [lia|].
  split; [lia|]. apply PGROUNDDOWN_page. lia.
Qed.

(** The abstract page table [E] through the tables [T], and the bytes its
    operations may write. *)
Definition vm_at (s : state) (F : Z -> Prop) (root : Z) (E : Z -> Z) (T : tables) : Prop :=
  pt_rep (mem s) F root T /\ pool_owns (mem s) F /\
  forall va, 0 <= va < MAXVA -> entry (mem s) T va = E (va / PGSIZE).
Definition vm_bytes (F : Z -> Prop) (T : tables) (a : Z) : Prop :=
  pool_private a \/ F a \/ table_byte T a.

(** Only the entries below MAXVA count. *)
Lemma vm_at_ext s F root E E' T : vm_at s F root E T -> (forall n, 0 <= n < MAXVA / PGSIZE -> E n = E' n) ->
  vm_at s F root E' T.
Proof.
  intros (Hrep & Hp & HE) Heq. split; [done|]. split; [done|]. intros va Hva. rewrite HE by done. apply Heq.
  change MAXVA with (2 ^ 26 * PGSIZE) in Hva. change (MAXVA / PGSIZE) with (2 ^ 26).
  unfold PGSIZE in *. split; [apply Z.div_pos; lia|apply Z.div_lt_upper_bound; lia].
Qed.

Lemma vm_bytes_touch s F root T a : pt_rep (mem s) F root T ->
  vm_bytes F T a -> vm_touch F s root a.
Proof. intros Hrep [?|[?|?]]; [by left|by right; left|right; right]. by exists T. Qed.

Lemma map_page_at F root E T va pa permission s :
  vm_at s F root E T -> 0 <= va < MAXVA -> 0 <= pa < 2 ^ 56 -> 0 <= permission < 1024 ->
  valid (E (va / PGSIZE)) = false ->
  wp (map_page root va pa permission) (fun r s' => same_regs s s' /\
    modifies (vm_bytes F T) (mem s) (mem s') /\
    exists F' T', (forall a, F' a -> F a) /\ (forall a, vm_bytes F' T' a -> vm_bytes F T a) /\
    costs F T (path (PGROUNDDOWN va)) 2 F' T' /\
    ((r = 1 /\ vm_at s' F' root E T' /\ T' !! path (PGROUNDDOWN va) = None /\ exhausted F' 1) \/
     (r = 0 /\ vm_at s' F' root (<[va / PGSIZE := leaf (PGROUNDDOWN pa) permission]> E) T'))) s.
Proof.
  intros (Hrep & Hp & HE) Hva Hpa Hperm Hinv. unfold map_page. wp_step.
  destruct (va_page va Hva) as [Hva' Hpage]. set (v := PGROUNDDOWN va) in *.
  eapply wp_mono; [by apply (pagetable_entry_ok F root T)|].
  intros a s1 (r & -> & Hregs & _ & F1 & T1 & Hrep1 & Hp1 & Hgrow & Hb & _ & Hx & -> & He).
  assert (HE1 : forall va, 0 <= va < MAXVA -> entry (mem s1) T1 va = E (va / PGSIZE)).
  { intros va1 Hva1. by rewrite (grow_entry _ _ _ _ _ _ Hgrow), HE. }
  pose proof (grow_touch _ _ _ _ _ _ Hgrow) as Htouch.
  pose proof (grow_free _ _ _ _ _ _ Hgrow) as HF. unfold entry_addr.
  assert (Hbytes : forall a, vm_bytes F1 T1 a -> vm_bytes F T a).
  { intros a [?|[?|[?|?]%Hb]]; [by left|right; left; auto|by right; right|by right; left]. }
  destruct (T1 !! path v) as [p|] eqn:Hl.
  2:{ change (NULL =? NULL) with true. wp_step. split; [done|]. split; [done|]. exists F1, T1.
      split; [done|]. split; [done|]. split; [done|]. left. split; [done|]. split; [done|]. split; [done|]. by apply He. }
  rewrite (entry_addr_nonnull _ _ _ _ _ _ Hrep1 Hl).
  destruct (slot_ram _ _ _ _ _ _ _ Hrep1 Hl (PX_range 0 v)) as (? & ? & _).
  wp_ram. wp_ram.
  assert (Hev : rd64 (mem s1) (p + 8 * PX 0 v) = E (va / PGSIZE)).
  { pose proof (entry_read (mem s1) T1 v) as Hr. rewrite Hl in Hr. rewrite Hr, HE1 by done.
    unfold PGSIZE. by rewrite Hpage. }
  rewrite Hev. fold (valid (E (va / PGSIZE))). rewrite Hinv. repeat wp_ram.
  assert (Hpa' : 0 <= PGROUNDDOWN pa < 2 ^ 56).
  { destruct (PGROUNDDOWN_spec pa) as (_ & ? & ?); lia. }
  destruct (leaf_write (mem s1) F1 root T1 v p (leaf (PGROUNDDOWN pa) permission) Hrep1 Hp1 Hl Hva')
    as (Hrep2 & Hp2 & HE2); [by apply leaf_range|]. simpl in *.
  split; [eauto with kernel|]. split.
  - eapply modifies_trans; [exact Htouch|]. apply modifies_wr. simpl. intros b Hin.
    apply Hbytes. right. right. exists (path v), p. split; [done|]. pose proof (PX_range 0 v). lia.
  - exists F1, T1. split; [done|]. split; [done|]. split; [done|]. right. split; [done|].
    split; [done|]. split; [done|].
    intros va2 Hva2. simpl mem. rewrite HE2, HE1 by done. unfold PGSIZE. rewrite Hpage.
    case_decide as Hd.
    + by rewrite Hd, fn_lookup_insert.
    + by rewrite fn_lookup_insert_ne.
Qed.

Lemma map_page_ok F root E va pa permission s :
  vm_rep s F root E -> 0 <= va < MAXVA -> 0 <= pa < 2 ^ 56 -> 0 <= permission < 1024 ->
  valid (E (va / PGSIZE)) = false ->
  wp (map_page root va pa permission) (fun r s' => same_regs s s' /\
    modifies (vm_touch F s root) (mem s) (mem s') /\
    exists F', (forall a, F' a -> F a) /\
    ((r = 1 /\ vm_rep s' F' root E /\ exhausted F' 1) \/
     (r = 0 /\ vm_rep s' F' root (<[va / PGSIZE := leaf (PGROUNDDOWN pa) permission]> E)))) s.
Proof.
  intros (T & Hat) Hva Hpa Hperm Hinv. eapply wp_mono; [by apply (map_page_at F root E T)|].
  intros r s' (Hregs & Hmod & F' & T' & HF & _ & _ & Hcase). split; [done|]. split.
  - eapply modifies_weaken; [|exact Hmod]. intros a. apply vm_bytes_touch, Hat.
  - exists F'. split; [done|].
    destruct Hcase as [(? & ? & _ & ?)|[? ?]]; [left|right]; (split; [done|]); [split; [|done]|]; by exists T'.
Qed.

Lemma unmap_page_at F root E T va s :
  vm_at s F root E T -> 0 <= va < MAXVA ->
  valid (E (va / PGSIZE)) = true -> PTE_FLAGS (E (va / PGSIZE)) <> PTE_V ->
  wp (unmap_page root va) (fun r s' => r = 0 /\ same_regs s s' /\
    modifies (table_byte T) (mem s) (mem s') /\
    vm_at s' F root (<[va / PGSIZE := 0]> E) T) s.
Proof.
  intros (Hrep & Hp & HE) Hva Hv Hfl. unfold unmap_page. wp_step.
  destruct (va_page va Hva) as [Hva' Hpage]. set (v := PGROUNDDOWN va) in *.
  apply (walk_only F root T); [done..|].
  assert (Hev : entry (mem s) T v = E (va / PGSIZE)).
  { rewrite HE by done. unfold PGSIZE. by rewrite Hpage. }
  rewrite <-entry_read in Hev. unfold entry_addr.
  destruct (T !! path v) as [p|] eqn:Hl; [|by rewrite <-Hev in Hv].
  rewrite (entry_addr_nonnull _ _ _ _ _ _ Hrep Hl).
  destruct (slot_ram _ _ _ _ _ _ _ Hrep Hl (PX_range 0 v)) as (? & ? & _).
  wp_ram. wp_ram. rewrite Hev. unfold valid, truth in Hv. apply negb_true_iff in Hv. rewrite Hv.
  repeat wp_ram. rewrite Hev, (proj2 (Z.eqb_neq _ _) Hfl). repeat wp_ram.
  destruct (leaf_write (mem s) F root T v p 0 Hrep Hp Hl Hva') as (Hrep2 & Hp2 & HE2);
    [lia|]. simpl in *.
  split; [done|]. split; [eauto with kernel|]. split.
  - apply modifies_wr. simpl. intros b Hin. exists (path v), p. split; [done|].
    pose proof (PX_range 0 v). lia.
  - split; [done|]. split; [done|]. intros va2 Hva2. simpl mem.
    rewrite HE2, HE by done. unfold PGSIZE. rewrite Hpage. case_decide as Hd.
    + by rewrite Hd, fn_lookup_insert.
    + by rewrite fn_lookup_insert_ne.
Qed.

Lemma unmap_page_ok F root E va s :
  vm_rep s F root E -> 0 <= va < MAXVA ->
  valid (E (va / PGSIZE)) = true -> PTE_FLAGS (E (va / PGSIZE)) <> PTE_V ->
  wp (unmap_page root va) (fun r s' => r = 0 /\ same_regs s s' /\
    modifies (vm_touch F s root) (mem s) (mem s') /\
    vm_rep s' F root (<[va / PGSIZE := 0]> E)) s.
Proof.
  intros (T & Hat) Hva Hv Hfl. eapply wp_mono; [by apply (unmap_page_at F root E T)|].
  intros r s' (-> & Hregs & Hm & Hat'). split; [done|]. split; [done|]. split; [|by exists T].
  eapply modifies_weaken; [|exact Hm]. intros a Ha. right. right. exists T. split; [apply Hat|done].
Qed.

(** ** A new page table *)

(** A cleared page is a root table that maps nothing. *)
Lemma fresh_root s F q m :
  page_ok F q -> pool_owns (mem s) F ->
  (forall j, 0 <= j < PGSIZE -> rd8 m (q + j) = w8 0) -> modifies (range q PGSIZE) (mem s) m ->
  vm_at (set_mem m s) F q (fun _ => 0) {[ [] := q ]}.
Proof.
  intros Hqp Hp1 Hz Hm2.
  assert (Hnone : forall l (i : Z), ({[ [] := q ]} : tables) !! (l ++ [i]) = None).
  { intros l i. apply lookup_singleton_ne. by destruct l. }
  split; [|split].
  - split.
    + apply lookup_singleton_eq.
    + intros l p [<- <-]%lookup_singleton_Some. split; [done|simpl; lia].
    + intros l i p. by rewrite Hnone.
    + by intros l l' p [<- _]%lookup_singleton_Some [<- _]%lookup_singleton_Some.
    + intros l p i [<- <-]%lookup_singleton_Some _ Hi. rewrite Hnone.
      rewrite (rd_ext 8 ∅); [done|]. intros b Hb. simpl in Hb.
      replace b with (q + (b - q)) by lia. simpl mem. rewrite Hz by (unfold PGSIZE; lia). done.
  - eapply pool_owns_frame; [exact Hp1|]. intros a Ha. apply Hm2. unfold range, PGSIZE.
    intros Hr. destruct Hqp as (_ & Hk & _ & Hn).
    destruct Ha as [Ha%pool_private_range|Ha]; [lia|]. by apply (Hn a); [lia|].
  - intros va Hva. unfold entry, slot. by rewrite lookup_singleton_ne.
Qed.

Lemma create_void_pagetable_at F s :
  pool_owns (mem s) F ->
  wp create_void_pagetable (fun r s' => same_regs s s' /\
    modifies (fun a => pool_private a \/ F a) (mem s) (mem s') /\
    ((r = NULL /\ mem s' = mem s /\ exhausted F 1) \/
     (r <> NULL /\ good_block kernel_end PHYSTOP 1 r /\ (forall a, r <= a < r + bsz 1 -> F a) /\
      vm_at s' (without F 1 r) r (fun _ => 0) {[ [] := r ]}))) s.
Proof.
  intros Hp. unfold create_void_pagetable. wp_step.
  eapply wp_mono; [apply (allocate_law F 1 s Hp); lia|].
  intros q s1 (Hregs & Hm1 & [(-> & Hm & He)|(Hq & Hne & HqF & Hp1)]).
  { change (NULL =? NULL) with true. wp_step. split; [done|]. split; [done|]. by left. }
  rewrite (proj2 (Z.eqb_neq q NULL) Hne).
  pose proof (new_page F q Hq) as Hqp. destruct (page_bounds _ _ Hqp) as (? & ? & ?).
  wp_step. apply memset_ok; [unfold ram_range, PGSIZE; lia|]. intros m2 Hz Hm2. wp_step.
  assert (Hin : forall a, q <= a < q + 4096 -> F a).
  { intros a Ha. apply HqF. change (bsz 1) with 8192. lia. }
  split; [eauto with kernel|]. split.
  - eapply modifies_trans; [exact Hm1|]. eapply modifies_weaken; [|exact Hm2].
    unfold range, PGSIZE. intros a Ha. right. apply Hin. lia.
  - right. split; [done|]. split; [done|]. split; [done|].
    by apply fresh_root.
Qed.

Lemma create_void_pagetable_ok F s :
  pool_owns (mem s) F ->
  wp create_void_pagetable (fun r s' => same_regs s s' /\
    modifies (fun a => pool_private a \/ F a) (mem s) (mem s') /\
    ((r = NULL /\ mem s' = mem s /\ exhausted F 1) \/
     (r <> NULL /\ (forall a, r <= a < r + bsz 1 -> F a) /\
      vm_rep s' (without F 1 r) r (fun _ => 0)))) s.
Proof.
  intros Hp. eapply wp_mono; [by apply create_void_pagetable_at|].
  intros r s' (? & ? & [?|(? & _ & ? & Hat)]); (split; [done|]; split; [done|]); [by left|right].
  split; [done|]. split; [done|]. eexists. exact Hat.
Qed.

End Walk.
