(* ===== verification/PageTableTheorems.v ===== *)
(** * Theorems on page tables

    The operations of virtual_memory.c on the abstract page table, their round
    trips, and what a full memory does to them. *)

From S2P Require Import Prelude Machine Board Utility Uart ConsoleTheorems BuddySpec PageAlloc Buddy BuddyInstance BuddyTheorems Kmalloc KmallocTheorems PageTable PageTableProof.

Section Ranges.
Context `{Hw : Platform} {HwOk : PlatformOk Hw} {Ops : PageOps} {HA : PageAllocator Ops}.

Lemma exhausted_mono (F F' : Z -> Prop) k :
  (forall a, F' a -> F a) -> exhausted F k -> exhausted F' k.
Proof. intros HF He y Hy Hb. apply (He y Hy). auto. Qed.

(** The page table after mapping [len] pages from page number [n0] on to the
    frames from [pa] on; a page may stay unmapped only when memory ran out. *)
Definition range_mapped (E E' : Z -> Z) (F' : Z -> Prop) (n0 pa len permission : Z) : Prop :=
  forall n, if decide (n0 <= n < n0 + len)
    then E' n = leaf (pa + (n - n0) * PGSIZE) permission \/ (E' n = E n /\ exhausted F' 1)
    else E' n = E n.

(** One more page. *)
Lemma range_mapped_step E E1 E2 F1 F2 n0 pa len permission :
  range_mapped E E1 F1 n0 pa len permission -> 0 <= len ->
  (forall a, F2 a -> F1 a) ->
  (E2 = E1 /\ exhausted F2 1 \/
   E2 = <[n0 + len := leaf (pa + len * PGSIZE) permission]> E1) ->
  range_mapped E E2 F2 n0 pa (len + 1) permission.
Proof.
  intros H Hlen HF Hc n. specialize (H n). destruct (decide (n = n0 + len)) as [->|Hne].
  - rewrite decide_True by lia. rewrite decide_False in H by lia.
    destruct Hc as [[-> He]| ->]; [by right|left].
    rewrite fn_lookup_insert. f_equal. lia.
  - assert (E2 n = E1 n) as ->.
    { destruct Hc as [[-> _]| ->]; [done|]. by rewrite fn_lookup_insert_ne. }
    destruct (decide (n0 <= n < n0 + len)).
    + rewrite decide_True by lia. destruct H as [?|[? He]]; [by left|right].
      split; [done|]. by eapply exhausted_mono.
    + by rewrite decide_False by lia.
Qed.

Lemma kernel_map_pages_ok F root E va pa len permission s :
  vm_rep s F root E -> 0 <= va -> (4096 | va) -> va + len * 4096 <= MAXVA -> 0 <= len ->
  0 <= pa -> (4096 | pa) -> pa + len * 4096 <= 2 ^ 56 -> 0 <= permission < 1024 ->
  (forall n, va / 4096 <= n < va / 4096 + len -> valid (E n) = false) ->
  wp (for_range (len * 4096) PGSIZE (fun i =>
        result ← map_page root (va +w i) (pa +w i) permission;
        if result =? -1 then panic "kernel_map_pages: map_page failed" else mret tt))
    (fun _ s' => same_regs s s' /\ exists F' E', vm_rep s' F' root E' /\
      (forall a, F' a -> F a) /\ range_mapped E E' F' (va / 4096) pa len permission) s.
Proof.
  intros Hvm Hva Hal Hmax Hlen Hpa Hpal Hpmax Hperm Hinv. change MAXVA with (2 ^ 38) in *.
  destruct Hal as [v ->]. rewrite Z.div_mul in * by lia.
  apply (wp_for_range (fun i s' => same_regs s s' /\ exists F' E', vm_rep s' F' root E' /\
    (forall a, F' a -> F a) /\ range_mapped E E' F' v pa (i / 4096) permission));
    unfold PGSIZE; [lia|lia|lia|..].
  - split; [done|]. exists F, E. split; [done|]. split; [done|]. intros n.
   change (0 / 4096) with 0. by rewrite decide_False by lia.
  - intros i s1 [k ->] Hi (Hregs & F1 & E1 & Hvm1 & HF1 & Hr1). rewrite Z.div_mul in Hr1 by lia.
    rewrite !w64_small by lia.
    assert (Hn : (v * 4096 + k * 4096) / PGSIZE = v + k).
    { unfold PGSIZE. rewrite <-Z.mul_add_distr_r. by apply Z.div_mul. }
    assert (Hval : valid (E1 ((v * 4096 + k * 4096) / PGSIZE)) = false).
    { rewrite Hn. specialize (Hr1 (v + k)). rewrite decide_False in Hr1 by lia.
      rewrite Hr1. apply Hinv. lia. }
    wp_step. eapply wp_mono; [apply (map_page_ok F1 root E1); try done; change MAXVA with (2 ^ 38); lia|].
    intros r s2 (Hregs2 & _ & F2 & HF2 & Hcase).
    assert (Hpg : PGROUNDDOWN (pa + k * 4096) = pa + k * 4096).
    { destruct Hpal as [p ->]. rewrite PGROUNDDOWN_eq by lia.
      rewrite <-Z.mul_add_distr_r, Z.mod_mul by lia. lia. }
    rewrite Hn, Hpg in Hcase.
    assert ((r =? -1) = false) as -> by (destruct Hcase as [[-> _]|[-> _]]; done).
    wp_step. split; [by etrans|].
    replace ((k * 4096 + 4096) / 4096) with (k + 1) by
      (replace (k * 4096 + 4096) with ((k + 1) * 4096) by lia; by rewrite Z.div_mul).
    destruct Hcase as [(_ & Hvm2 & He)|(_ & Hvm2)]; exists F2; eexists;
      (split; [exact Hvm2|]); (split; [naive_solver|]);
      (eapply range_mapped_step; [exact Hr1|lia|done|]); [by left|by right].
  - intros i s1 [k ->] Hi (Hregs & F1 & E1 & Hvm1 & HF1 & Hr1). rewrite Z.div_mul in Hr1 by lia.
    assert (k = len) as -> by lia. split; [done|]. by exists F1, E1.
Qed.

End Ranges.

Section Theorems.
Context `{Hw : Platform} {HwOk : PlatformOk Hw} {Ops : PageOps} {HA : PageAllocator Ops}.

(** [physical_address] is translation by the abstract page table (the three
    level walk included) and changes nothing. *)
Lemma physical_address_translates F root E va s :
  vm_rep s F root E -> 0 <= va < MAXVA ->
  wp (physical_address root va) (fun r s' => r = translate E va /\ s' = s) s.
Proof. apply physical_address_ok. Qed.

(** C5: [map_page] of an unmapped page either returns 0 with exactly that page's
    entry set, allocating the tables that are missing, or returns 1 with every
    entry unchanged, and then no block is left for a table; it never returns
    -1, and it writes only allocator data, free memory and the tables. *)
Theorem map_page_maps F root E va pa permission s :
  vm_rep s F root E -> 0 <= va < MAXVA -> 0 <= pa < 2 ^ 56 -> 0 <= permission < 1024 ->
  valid (E (va / PGSIZE)) = false ->
  wp (map_page root va pa permission) (fun r s' => same_regs s s' /\
    modifies (vm_touch F s root) (mem s) (mem s') /\
    exists F', (forall a, F' a -> F a) /\
    ((r = 1 /\ vm_rep s' F' root E /\ exhausted F' 1) \/
     (r = 0 /\ vm_rep s' F' root (<[va / PGSIZE := leaf (PGROUNDDOWN pa) permission]> E)))) s.
Proof. apply map_page_ok. Qed.

(** [unmap_page] of a mapped page returns 0 and clears exactly its entry. *)
Lemma unmap_page_unmaps F root E va s :
  vm_rep s F root E -> 0 <= va < MAXVA ->
  valid (E (va / PGSIZE)) = true -> PTE_FLAGS (E (va / PGSIZE)) <> PTE_V ->
  wp (unmap_page root va) (fun r s' => r = 0 /\ same_regs s s' /\
    modifies (vm_touch F s root) (mem s) (mem s') /\
    vm_rep s' F root (<[va / PGSIZE := 0]> E)) s.
Proof. apply unmap_page_ok. Qed.

(** After a successful [map_page], every address of the page translates to
    the same offset in the frame, and every other address as before. *)
Lemma map_page_translates F root E va va' pa permission s :
  vm_rep s F root E -> 0 <= va < MAXVA -> 0 <= va' < MAXVA -> 0 <= pa < 2 ^ 56 ->
  0 <= permission < 1024 -> valid (E (va / PGSIZE)) = false ->
  wp (r ← map_page root va pa permission; a ← physical_address root va'; mret (r, a))
    (fun '(r, a) s' => r = 0 ->
      a = if decide (va' / PGSIZE = va / PGSIZE)
          then PGROUNDDOWN pa + va' mod PGSIZE else translate E va') s.
Proof.
  intros Hvm Hva Hva' Hpa Hperm Hinv. wp_step.
  eapply wp_mono; [by apply (map_page_ok F root E)|].
  intros r s1 (_ & _ & F' & _ & [(-> & Hvm1 & _)|(-> & Hvm1)]); wp_step;
    (eapply wp_mono; [by eapply physical_address_ok|]); intros a s2 [-> _]; wp_step; [done|].
  intros _. unfold translate. case_decide as Hd.
  - rewrite Hd, fn_lookup_insert, valid_leaf.
    destruct (PGROUNDDOWN_spec pa) as ([k Hk] & ? & ?); [lia|].
    rewrite leaf_pa by lia. rewrite Hk, Z.mod_mul, Z.sub_0_r, PGOFFSET_eq by lia.
    pose proof (Z.mod_pos_bound va' 4096). unfold PGSIZE. apply w64_small. lia.
  - by rewrite fn_lookup_insert_ne.
Qed.

(** Mapping a page and unmapping it again restores the page table: every
    entry is what it was, for any permission that allows an access. *)
Lemma map_unmap_restores F root E va pa permission s :
  vm_rep s F root E -> 0 <= va < MAXVA -> 0 <= pa < 2 ^ 56 -> 0 <= permission < 1024 ->
  E (va / PGSIZE) = 0 -> Z.lor permission PTE_V <> PTE_V ->
  wp (r ← map_page root va pa permission; if r =? 0 then unmap_page root va else mret 0)
    (fun r s' => r = 0 /\ exists F', vm_rep s' F' root E /\ forall a, F' a -> F a) s.
Proof.
  intros Hvm Hva Hpa Hperm Hz Hfl. wp_step.
  eapply wp_mono; [apply (map_page_ok F root E); try done; by rewrite Hz|].
  intros r s1 (_ & _ & F' & HF & [(-> & Hvm1 & _)|(-> & Hvm1)]).
  { change (1 =? 0) with false. wp_step. split; [done|]. by exists F'. }
  change (0 =? 0) with true. cbv iota. destruct (PGROUNDDOWN_spec pa) as (_ & ? & ?); [lia|].
  eapply wp_mono; [apply (unmap_page_ok F' root _ va s1 Hvm1 Hva)|].
  - by rewrite fn_lookup_insert, valid_leaf.
  - rewrite fn_lookup_insert, leaf_flags by lia. done.
  - intros r s2 (-> & _ & _ & T & Hrep & Hp & HE). split; [done|]. exists F'. split; [|done].
    exists T. split; [done|]. split; [done|]. intros va1 Hva1. rewrite HE by done.
    destruct (decide (va / PGSIZE = va1 / PGSIZE)) as [<-|Hne].
    + by rewrite fn_lookup_insert.
    + by rewrite !fn_lookup_insert_ne.
Qed.

(** Mapping a page that is already mapped panics: the kernel disables
    interrupts, prints the message and stops, with every entry unchanged. *)
Lemma map_page_twice_panics F root E va pa permission s :
  vm_rep s F root E -> 0 <= va < MAXVA -> valid (E (va / PGSIZE)) = true ->
  uart_responsive -> glob s panicked = 0 ->
  spins (map_page root va pa permission) (fun s' => (exists F', vm_rep s' F' root E) /\ sie_on s' = false /\
    transmitted s' = transmitted s ++ codes "panic: " ++
      codes "map_page: page already mapped" ++ codes newline) s.
Proof.
  intros (T & Hrep & Hp & HE) Hva Hv Hresp Hpan. unfold map_page. apply spins_bind.
  destruct (va_page va Hva) as [Hva' Hpage]. set (v := PGROUNDDOWN va) in *.
  assert (Hev : entry (mem s) T v = E (va / PGSIZE)).
  { rewrite HE by done. unfold PGSIZE. by rewrite Hpage. }
  eapply wp_mono; [by apply (pagetable_entry_ok F root T)|].
  intros a s1 (r & -> & (Hg1 & _ & Hl1 & _) & _ & F1 & T1 & Hrep1 & Hp1 & Hgrow & _ & _ & _ & -> & _).
  rewrite <-(grow_entry _ _ _ _ _ _ Hgrow), <-entry_read in Hev. unfold entry_addr.
  destruct (T1 !! path v) as [p|] eqn:Hl; [|by rewrite <-Hev in Hv].
  rewrite (entry_addr_nonnull _ _ _ _ _ _ Hrep1 Hl).
  destruct (slot_ram _ _ _ _ _ _ _ Hrep1 Hl (PX_range 0 v)) as (? & ? & _).
  apply spins_bind. wp_ram. rewrite Hev. fold (valid (E (va / PGSIZE))). rewrite Hv.
  apply spins_bind_l, panic_ok; [done|by rewrite Hg1|by repeat constructor|done|].
  intros s2 Hm2 _ Hsie Htr. split; [|split; [done|]].
  - exists F1, T1. rewrite Hm2. split; [done|]. split; [done|].
    intros va1 Hva1. by rewrite (grow_entry _ _ _ _ _ _ Hgrow), HE.
  - rewrite Htr. unfold transmitted. by rewrite Hl1.
Qed.

(** [kernel_map_pages] maps every page of the range to the frame at the same
    distance and no other page; a page can stay unmapped only if memory ran
    out, and then the call still returns normally: the test for -1 does not see
    the 1 of [map_page]. *)
Lemma kernel_map_pages_maps F root E va pa len permission s :
  vm_rep s F root E -> 0 <= va -> (4096 | va) -> va + len * 4096 <= MAXVA -> 0 <= len ->
  0 <= pa -> (4096 | pa) -> pa + len * 4096 <= 2 ^ 56 -> 0 <= permission < 1024 ->
  (forall n, va / 4096 <= n < va / 4096 + len -> valid (E n) = false) ->
  wp (kernel_map_pages root va pa (len * 4096) permission)
    (fun _ s' => same_regs s s' /\ exists F' E', vm_rep s' F' root E' /\
      (forall a, F' a -> F a) /\ range_mapped E E' F' (va / 4096) pa len permission) s.
Proof.
  intros Hvm Hva Hal Hmax Hlen Hpa Hpal Hpmax Hperm Hinv. unfold kernel_map_pages.
  change MAXVA with (2 ^ 38) in *.
  assert (Hr : forall x, 0 <= x < 2 ^ 64 -> (4096 | x) -> PGROUNDDOWN x = x).
  { intros x Hx [k ->]. rewrite PGROUNDDOWN_eq, Z.mod_mul by lia. lia. }
  rewrite (Hr va), (Hr pa) by (done || lia). by apply (kernel_map_pages_ok F root E).
Qed.

(** [create_void_pagetable] returns NULL with the memory unchanged when no
    block is left, or a page table that maps nothing. *)
Lemma create_void_pagetable_maps_nothing F s :
  pool_owns (mem s) F ->
  wp create_void_pagetable (fun r s' => same_regs s s' /\
    ((r = NULL /\ mem s' = mem s /\ exhausted F 1) \/
     (r <> NULL /\ vm_rep s' (without F 1 r) r (fun _ => 0) /\
      forall va, 0 <= va < MAXVA -> physical_address r va s' = Ok NULL s'))) s.
Proof.
  intros Hp. eapply wp_mono; [by apply (create_void_pagetable_ok F)|].
  intros r s' (Hregs & _ & [?|(Hne & _ & Hvm)]); (split; [done|]); [by left|right].
  split; [done|]. split; [done|]. intros va Hva.
  pose proof (physical_address_ok _ _ _ va s' Hvm Hva) as Hpa.
  destruct (wp_ok_inv _ _ _ Hpa) as (a & s2 & E & -> & ->). exact E.
Qed.

End Theorems.

(** ** Instances: the first page table after boot *)

Section Witnesses.
#[local] Existing Instances board board_ok.
#[local] Opaque booted.

Lemma booted_pool : pool_owns (mem booted) boot_free.
Proof. exact (proj1 booted_heap). Qed.

Definition root_state : state := after create_void_pagetable booted.

Lemma root_ok : create_void_pagetable booted = Ok page root_state.
Proof. apply returns_ok. vm_compute. reflexivity. Qed.

#[local] Opaque root_state.

Definition root_free : Z -> Prop := without boot_free 1 page.

Lemma root_vm : vm_rep root_state root_free page (fun _ => 0).
Proof.
  destruct (wp_elim _ _ _ _ _ (create_void_pagetable_ok boot_free booted booted_pool) root_ok)
    as (_ & _ & [(H & _)|(_ & _ & H)]); [discriminate H|exact H].
Qed.

Lemma create_void_pagetable_maps_nothing_witness :
  wp create_void_pagetable (fun r s' => r = NULL \/ physical_address r 0 s' = Ok NULL s') booted.
Proof.
  eapply wp_mono; [apply (create_void_pagetable_maps_nothing boot_free booted booted_pool)|].
  intros r s' (_ & [(H & _)|(_ & _ & H)]); [left; exact H|right]. apply H. done.
Defined.

Definition rw : Z := Z.lor PTE_R PTE_W.
Definition frame : Z := 0x80040000.
Definition mapped_state : state := after (map_page page 0x5000 frame rw) root_state.

Lemma mapped_ok : map_page page 0x5000 frame rw root_state = Ok 0 mapped_state.
Proof. apply returns_ok. vm_compute. reflexivity. Qed.

#[local] Opaque mapped_state.

(** The page 5 mapped to the frame 0x80040000. *)
Definition one_entry : Z -> Z := <[5 := leaf frame rw]> (fun _ => 0).

Lemma mapped_vm : exists F, vm_rep mapped_state F page one_entry.
Proof.
  destruct (wp_elim _ _ _ _ _ (map_page_ok root_free page (fun _ => 0) 0x5000 frame rw root_state
    root_vm ltac:(done) ltac:(done) ltac:(done) ltac:(done)) mapped_ok)
    as (_ & _ & F & _ & [(H & _)|(_ & H)]); [discriminate H|]. exists F. exact H.
Qed.

Lemma physical_address_translates_witness :
  wp (physical_address page 0x5123) (fun r s' => r = frame + 0x123) mapped_state.
Proof.
  destruct mapped_vm as [F Hvm].
  eapply wp_mono; [apply (physical_address_translates F page one_entry 0x5123 _ Hvm); done|].
  intros r s' [-> _]. vm_compute. reflexivity.
Defined.

Lemma map_page_maps_witness :
  wp (map_page page 0x5000 frame rw) (fun r _ => r = 1 \/ r = 0) root_state.
Proof.
  eapply wp_mono; [apply (map_page_maps root_free page (fun _ => 0) 0x5000 frame rw _ root_vm); done|].
  intros r s' (_ & _ & F & _ & [(H & _)|(H & _)]); [left|right]; exact H.
Defined.

Lemma unmap_page_unmaps_witness :
  wp (unmap_page page 0x5000) (fun r s' => r = 0 /\ exists F, vm_rep s' F page (<[5 := 0]> one_entry))
    mapped_state.
Proof.
  destruct mapped_vm as [F Hvm].
  eapply wp_mono; [apply (unmap_page_unmaps F page one_entry 0x5000 _ Hvm); done|].
  intros r s' (Hr & _ & _ & H). split; [exact Hr|]. exists F. exact H.
Defined.

Lemma map_page_translates_witness :
  wp (r ← map_page page 0x5000 frame rw; a ← physical_address page 0x5123; mret (r, a))
    (fun '(r, a) _ => r = 0 -> a = frame + 0x123) root_state.
Proof.
  eapply wp_mono; [apply (map_page_translates root_free page (fun _ => 0) 0x5000 0x5123 frame rw _
    root_vm); done|].
  intros [r a] s' H Hr. rewrite (H Hr). vm_compute. reflexivity.
Defined.

Lemma map_unmap_restores_witness :
  wp (r ← map_page page 0x5000 frame rw; if r =? 0 then unmap_page page 0x5000 else mret 0)
    (fun r s' => r = 0 /\ exists F', vm_rep s' F' page (fun _ => 0)) root_state.
Proof.
  eapply wp_mono; [apply (map_unmap_restores root_free page (fun _ => 0) 0x5000 frame rw _ root_vm);
    done|].
  intros r s' (Hr & F' & H & _). split; [exact Hr|]. exists F'. exact H.
Defined.

Lemma mapped_not_panicked : glob mapped_state panicked = 0.
Proof. vm_compute. reflexivity. Qed.

Lemma map_page_twice_panics_witness :
  spins (map_page page 0x5000 frame rw) (fun s' => sie_on s' = false) mapped_state.
Proof.
  destruct mapped_vm as [F Hvm].
  eapply spins_mono; [apply (map_page_twice_panics F page one_entry 0x5000 frame rw _ Hvm);
    [done|done|apply board_responsive|apply mapped_not_panicked]|].
  intros s' (_ & H & _). exact H.
Defined.

Lemma kernel_map_pages_maps_witness :
  wp (kernel_map_pages page 0x5000 frame (2 * 4096) rw) (fun _ s' => exists F' E',
    vm_rep s' F' page E' /\ range_mapped (fun _ => 0) E' F' 5 frame 2 rw) root_state.
Proof.
  eapply wp_mono; [apply (kernel_map_pages_maps root_free page (fun _ => 0) 0x5000 frame 2 rw _ root_vm)|].
  - done.
  - by exists 5.
  - done.
  - done.
  - done.
  - by exists 0x80040.
  - done.
  - done.
  - done.
  - intros [] s' (_ & F' & E' & H & _ & Hr). exists F', E'. split; [exact H|exact Hr].
Defined.

End Witnesses.
