(* ===== verification/KernelMap.v ===== *)
(** * The page table of the kernel

    The table that [init_kernel_pagetable] builds and hands to satp, entry by
    entry: devices, text, data and the trampoline are mapped to themselves or
    to their place in the image, no frame can be both written and executed, and
    no page is open to user programs.  As RAM and devices are mapped to
    themselves, the addresses of the kernel mean the same before and after the
    switch. *)

From S2P Require Import Prelude Machine Board Utility Uart BuddySpec PageAlloc Capacity Buddy BuddyInstance BuddyTheorems Kmalloc KmallocTheorems PageTable PageTableProof.

(** ** The regions *)

(** Page number, number of pages, frame address and permission. *)
Record region := Region { r_page : Z; r_count : Z; r_frame : Z; r_perm : Z }.

Definition read_write : Z := Z.lor PTE_R PTE_W.
Definition read_execute : Z := Z.lor PTE_R PTE_X.

Definition in_region (r : region) (n : Z) : Prop := r_page r <= n < r_page r + r_count r.
#[export] Instance in_region_dec r n : Decision (in_region r n).
Proof. unfold in_region. apply _. Defined.

(** The page table [E] with the pages of the region. *)
Definition map_region (E : Z -> Z) (r : region) (n : Z) : Z :=
  if decide (in_region r n) then leaf (r_frame r + (n - r_page r) * PGSIZE) (r_perm r) else E n.

Section Layout.
Context `{Hw : Platform}.

Definition device_regions : list region :=
  [Region (VIRT_TEST / PGSIZE) 1 VIRT_TEST read_write;
   Region (UART0 / PGSIZE) 1 UART0 read_write;
   Region (VIRTIO0 / PGSIZE) 1 VIRTIO0 read_write;
   Region (PLIC / PGSIZE) 0x400 PLIC read_write].
Definition image_regions : list region :=
  [Region (KERNBASE / PGSIZE) ((etext - KERNBASE) / PGSIZE) KERNBASE read_execute;
   Region (etext / PGSIZE) ((PHYSTOP - etext) / PGSIZE) etext read_write;
   Region (TRAMPOLINE / PGSIZE) 1 trampoline read_execute].
Definition kernel_regions : list region := device_regions ++ image_regions.

(** The entry of page [n]. *)
Definition kernel_entry : Z -> Z := foldl map_region (fun _ => 0) kernel_regions.

(** What kernel.ld guarantees: whole pages of text, the trampoline among them. *)
Record text_ok : Prop := {
  text_aligned : (4096 | etext);
  text_range : KERNBASE < etext < PHYSTOP;
  tramp_aligned : (4096 | trampoline);
  tramp_range : KERNBASE <= trampoline < etext
}.

(** The devices and RAM: what the kernel uses by physical address. *)
Definition kernel_address (a : Z) : Prop :=
  KERNBASE <= a < PHYSTOP \/ VIRT_TEST <= a < VIRT_TEST + PGSIZE \/ UART0 <= a < UART0 + PGSIZE \/
  VIRTIO0 <= a < VIRTIO0 + PGSIZE \/ PLIC <= a < PLIC + 0x400000.

(** ** Safety of a page table *)

Definition allows (e flag : Z) : bool := truth (Z.land e flag).

(** No frame can be written through one page and executed through another (or
    the same). *)
Definition write_xor_execute (E : Z -> Z) : Prop := forall n n',
  valid (E n) = true -> valid (E n') = true -> PTE2PA (E n) = PTE2PA (E n') ->
  allows (E n) PTE_W = true -> allows (E n') PTE_X = false.

(** No page is open to user programs. *)
Definition supervisor_only (E : Z -> Z) : Prop := forall n, allows (E n) PTE_U = false.

End Layout.

Lemma allows_leaf pa permission flag : 0 <= pa < 2 ^ 56 -> 0 <= permission < 1024 ->
  Z.land 0x3FF flag = flag -> allows (leaf pa permission) flag = allows (Z.lor permission PTE_V) flag.
Proof.
  intros Hpa Hp Hf. unfold allows. rewrite <-(leaf_flags pa permission) by done.
  unfold PTE_FLAGS. by rewrite <-Z.land_assoc, Hf.
Qed.

(** An entry comes from a region that holds the page, or from the table before. *)
Lemma foldl_regions l E n :
  (exists r, r ∈ l /\ in_region r n /\ foldl map_region E l n = leaf (r_frame r + (n - r_page r) * PGSIZE) (r_perm r)) \/
  ((forall r, r ∈ l -> ~ in_region r n) /\ foldl map_region E l n = E n).
Proof.
  revert E. induction l as [|r l IH]; intros E; [right; set_solver|]. simpl.
  destruct (IH (map_region E r)) as [(r' & Hr' & Hin & ->)|[Hn ->]].
  - left. exists r'. set_solver.
  - unfold map_region. case_decide; [left; exists r; set_solver|right; set_solver].
Qed.

Section Safety.
Context `{Hw : Platform} {HwOk : PlatformOk Hw}.
Hypothesis Htext : text_ok.

(** The text takes whole pages, up to page [t]. *)
Lemma text_pages : exists t, etext = t * 4096 /\ 0x80000 < t < 0x88000.
Proof.
  destruct Htext as [[t Ht] Hr _ _]. exists t. unfold PHYSTOP, KERNBASE in *. lia.
Qed.

(** The regions by their numbers. *)
Lemma region_cases t r : etext = t * 4096 -> r ∈ kernel_regions <->
  r = Region 0x100 1 0x100000 read_write \/ r = Region 0x10000 1 0x10000000 read_write \/
  r = Region 0x10001 1 0x10001000 read_write \/ r = Region 0xc000 0x400 0xc000000 read_write \/
  r = Region 0x80000 (t - 0x80000) 0x80000000 read_execute \/ r = Region t (0x88000 - t) (t * 4096) read_write \/
  r = Region 0x3ffffff 1 trampoline read_execute.
Proof.
  intros Ht. unfold kernel_regions, device_regions, image_regions, PHYSTOP, KERNBASE, PGSIZE. rewrite Ht.
  replace ((t * 4096 - 0x80000000) / 4096) with (t - 0x80000)
    by (replace (t * 4096 - 0x80000000) with ((t - 0x80000) * 4096) by lia; by rewrite Z.div_mul).
  replace ((0x80000000 + 128 * 1024 * 1024 - t * 4096) / 4096) with (0x88000 - t)
    by (replace (0x80000000 + 128 * 1024 * 1024 - t * 4096) with ((0x88000 - t) * 4096) by lia; by rewrite Z.div_mul).
  rewrite Z.div_mul by done. simpl. rewrite !elem_of_cons, elem_of_nil. tauto.
Qed.

(** Every region maps whole frames below 2^56, read-write outside the text or
    read-execute inside it. *)
Lemma region_frames r n : r ∈ kernel_regions -> in_region r n ->
  let p := r_frame r + (n - r_page r) * PGSIZE in
  (4096 | p) /\ 0 <= p < 2 ^ 56 /\
  (r_perm r = read_write /\ ~ (KERNBASE <= p < etext) \/ r_perm r = read_execute /\ KERNBASE <= p < etext).
Proof.
  destruct text_pages as (t & Ht & Hr). destruct Htext as [_ _ [q Hq] Hqr]. intros Hin.
  rewrite Ht in *. unfold in_region, PGSIZE, KERNBASE in *.
  destruct (proj1 (region_cases t r Ht) Hin) as [-> |[-> |[-> |[-> |[-> |[-> | ->]]]]]]; simpl; intros Hn;
    (split; [apply Z.divide_add_r; [|apply Z.divide_factor_r];
        first [apply Z.divide_factor_r|apply Z.mod_divide; [done|reflexivity]|by exists q]
      |split; [lia|first [left; split; [done|lia]|right; split; [done|lia]]]]).
Qed.

(** The entry of a page: none, or a leaf with frame and permission as above. *)
Lemma kernel_entry_cases n : kernel_entry n = 0 \/ exists p perm, kernel_entry n = leaf p perm /\
  (4096 | p) /\ 0 <= p < 2 ^ 56 /\
  (perm = read_write /\ ~ (KERNBASE <= p < etext) \/ perm = read_execute /\ KERNBASE <= p < etext).
Proof.
  destruct (foldl_regions kernel_regions (fun _ => 0) n) as [(r & Hr & Hin & E)|[_ E]]; [right|by left].
  eexists _, _. split; [exact E|]. by apply region_frames.
Qed.

Lemma leaf_frame p perm : (4096 | p) -> 0 <= p < 2 ^ 56 -> 0 <= perm < 1024 -> PTE2PA (leaf p perm) = p.
Proof. intros [q ->] Hp Hperm. rewrite leaf_pa, Z.mod_mul by done. lia. Qed.

Lemma kernel_write_xor_execute : write_xor_execute kernel_entry.
Proof.
  intros n n' Hv Hv' Hpa Hwr.
  destruct (kernel_entry_cases n) as [E|(p & perm & E & Hal & Hp & Hc)]; [by rewrite E in Hv|].
  destruct (kernel_entry_cases n') as [E'|(p' & perm' & E' & Hal' & Hp' & Hc')]; [by rewrite E' in Hv'|].
  assert (Hperms : (0 <= perm < 1024) /\ (0 <= perm' < 1024)).
  { by destruct Hc as [[-> _]|[-> _]], Hc' as [[-> _]|[-> _]]. }
  rewrite E, E' in *. rewrite allows_leaf in Hwr |- * by (done || tauto).
  rewrite !leaf_frame in Hpa by (done || tauto). subst p'.
  destruct Hc as [[-> ?]|[-> ?]], Hc' as [[-> ?]|[-> ?]]; done.
Qed.

Lemma kernel_supervisor_only : supervisor_only kernel_entry.
Proof.
  intros n. destruct (kernel_entry_cases n) as [->|(p & perm & -> & Hal & Hp & Hc)]; [done|].
  destruct Hc as [[-> _]|[-> _]]; by rewrite allows_leaf.
Qed.

(** The regions are disjoint. *)
Lemma regions_disjoint r r' n : r ∈ kernel_regions -> r' ∈ kernel_regions ->
  in_region r n -> in_region r' n -> r = r'.
Proof.
  destruct text_pages as (t & Ht & Hr). intros H H'. unfold in_region.
  destruct (proj1 (region_cases t r Ht) H) as [-> |[-> |[-> |[-> |[-> |[-> | ->]]]]]],
    (proj1 (region_cases t r' Ht) H') as [-> |[-> |[-> |[-> |[-> |[-> | ->]]]]]];
    simpl; intros ? ?; (done || (exfalso; lia)).
Qed.

Lemma regions_nodup : NoDup kernel_regions.
Proof.
  destruct text_pages as (t & Ht & Hr). apply (NoDup_fmap_1 r_page).
  assert (E : r_page <$> kernel_regions = [0x100; 0x10000; 0x10001; 0xc000; 0x80000; t; 0x3ffffff]).
  { unfold kernel_regions, device_regions, image_regions. simpl. unfold PGSIZE. by rewrite Ht, Z.div_mul. }
  rewrite E. repeat (apply NoDup_cons; split; [rewrite ?not_elem_of_cons|]); [..|constructor];
    repeat (split; [lia|]); apply not_elem_of_nil.
Qed.

Lemma kernel_entry_in r n : r ∈ kernel_regions -> in_region r n ->
  kernel_entry n = leaf (r_frame r + (n - r_page r) * PGSIZE) (r_perm r).
Proof.
  intros Hr Hin. destruct (foldl_regions kernel_regions (fun _ => 0) n) as [(r' & Hr' & Hin' & E)|[Hn _]].
  - by rewrite (regions_disjoint r r' n).
  - by destruct (Hn r Hr).
Qed.

Lemma translate_region r va : r ∈ kernel_regions -> in_region r (va / PGSIZE) ->
  translate kernel_entry va = r_frame r + (va - r_page r * PGSIZE).
Proof.
  intros Hr Hin. destruct (region_frames r _ Hr Hin) as (Hal & Hp & Hc). unfold translate.
  rewrite (kernel_entry_in r) by done. rewrite valid_leaf, PGOFFSET_eq.
  assert (0 <= r_perm r < 1024) by (by destruct Hc as [[-> _]|[-> _]]).
  rewrite leaf_frame by done. unfold PGSIZE in *. pose proof (Z.div_mod va 4096). pose proof (Z.mod_pos_bound va 4096).
  rewrite w64_small; lia.
Qed.

(** The pages of an address. *)
Lemma page_within va n k : n * PGSIZE <= va < (n + k) * PGSIZE -> n <= va / PGSIZE < n + k.
Proof.
  unfold PGSIZE. intros H. split; [apply Z.div_le_lower_bound; lia|apply Z.div_lt_upper_bound; lia].
Qed.

(** RAM and devices are mapped to themselves, *)
Lemma kernel_identity a : kernel_address a -> translate kernel_entry a = a.
Proof.
  destruct text_pages as (t & Ht & Hr). intros Ha.
  assert (Hreg : exists r, r ∈ kernel_regions /\ r_frame r = r_page r * PGSIZE /\
    r_page r * PGSIZE <= a < (r_page r + r_count r) * PGSIZE).
  { unfold kernel_address, VIRT_TEST, UART0, VIRTIO0, PLIC, PHYSTOP, KERNBASE, PGSIZE in *.
    setoid_rewrite (fun r => region_cases t r Ht). destruct Ha as [H|[H|[H|[H|H]]]].
    - destruct (decide (a < t * 4096)).
      + exists (Region 0x80000 (t - 0x80000) 0x80000000 read_execute). simpl. split; [tauto|lia].
      + exists (Region t (0x88000 - t) (t * 4096) read_write). simpl. split; [tauto|lia].
    - exists (Region 0x100 1 0x100000 read_write). simpl. split; [tauto|lia].
    - exists (Region 0x10000 1 0x10000000 read_write). simpl. split; [tauto|lia].
    - exists (Region 0x10001 1 0x10001000 read_write). simpl. split; [tauto|lia].
    - exists (Region 0xc000 0x400 0xc000000 read_write). simpl. split; [tauto|lia]. }
  destruct Hreg as (r & Hin & Hf & Hb). rewrite (translate_region r); [lia|done|by apply page_within].
Qed.

(** the trampoline page to the trampoline, *)
Lemma kernel_trampoline va : TRAMPOLINE <= va < MAXVA -> translate kernel_entry va = trampoline + (va - TRAMPOLINE).
Proof.
  intros H. rewrite (translate_region (Region (TRAMPOLINE / PGSIZE) 1 trampoline read_execute)); [done| |].
  - unfold kernel_regions, image_regions. set_solver.
  - apply page_within. exact H.
Qed.

(** and no other page is mapped. *)
Lemma kernel_unmapped va : 0 <= va < MAXVA -> ~ kernel_address va -> ~ (TRAMPOLINE <= va) ->
  translate kernel_entry va = NULL.
Proof.
  intros Hva Ha Ht. unfold translate.
  destruct (foldl_regions kernel_regions (fun _ => 0) (va / PGSIZE)) as [(r & Hr & Hin & _)|[_ E]];
    [exfalso|fold kernel_entry in E; by rewrite E].
  assert (Hpg : forall n k, n <= va / PGSIZE < n + k -> n * PGSIZE <= va < (n + k) * PGSIZE).
  { unfold PGSIZE. intros n k H. pose proof (Z.div_mod va 4096). pose proof (Z.mod_pos_bound va 4096). lia. }
  unfold in_region in Hin. apply Hpg in Hin. destruct text_pages as (t & Het & Htr).
  change TRAMPOLINE with (0x3ffffff * 4096) in Ht. unfold kernel_address, VIRT_TEST, UART0, VIRTIO0, PLIC, PHYSTOP, KERNBASE, PGSIZE in *.
  destruct (proj1 (region_cases t r Het) Hr) as [-> |[-> |[-> |[-> |[-> |[-> | ->]]]]]]; simpl in Hin; lia.
Qed.

End Safety.

(** ** Building the table *)

(** The tables that the pages of the regions need. *)
Definition kernel_tables : gset (list Z) :=
  list_to_set ([[]; [0]; [2]; [255]; [0; 0]; [0; 128]; [0; 96]; [0; 97]; [255; 511]] ++
    ((fun i => [2; Z.of_nat i]) <$> seq 0 64)).

(** 72 of them besides the root. *)
Lemma kernel_tables_missing root : missing kernel_tables {[ [] := root ]} = 72%nat.
Proof. unfold missing. rewrite dom_singleton_L. vm_compute. reflexivity. Qed.

(** The tables of a page. *)
Definition page_tables (va : Z) : Prop := forall l, l `prefix_of` path va -> l ∈ kernel_tables.

Ltac table_member := refine (bool_decide_unpack _ _); vm_compute; exact I.

Lemma path_digits va : path va = [va / 2 ^ 21 / 512 mod 512; (va / 2 ^ 21) mod 512].
Proof. unfold path. rewrite !PX_eq by done. rewrite Z.div_div by done. done. Qed.

Lemma page_tables_intro va : [(va / 2 ^ 21) / 512 mod 512] ∈ kernel_tables ->
  [(va / 2 ^ 21) / 512 mod 512; (va / 2 ^ 21) mod 512] ∈ kernel_tables -> page_tables va.
Proof.
  intros H1 H2 l [k Hk]. rewrite path_digits in Hk.
  destruct l as [|a [|b [|]]]; simplify_eq/=; [|done|done]. table_member.
Qed.

Lemma page_tables_ram va : KERNBASE <= va < PHYSTOP -> page_tables va.
Proof.
  unfold PHYSTOP, KERNBASE. intros H.
  assert (Hq : 1024 <= va / 2 ^ 21 < 1024 + 64).
  { split; [apply Z.div_le_lower_bound; lia|apply Z.div_lt_upper_bound; lia]. }
  apply page_tables_intro; set (q := va / 2 ^ 21) in *; clearbody q.
  - replace (q / 512) with 2 by (apply (Z.div_unique _ _ _ (q - 1024)); lia). table_member.
  - replace (q / 512) with 2 by (apply (Z.div_unique _ _ _ (q - 1024)); lia).
    replace (q mod 512) with (q - 1024) by (apply (Z.mod_unique _ _ 2); lia).
    apply elem_of_list_to_set, elem_of_app. right. apply list_elem_of_fmap.
    exists (Z.to_nat (q - 1024)). rewrite Z2Nat.id by lia. split; [done|]. apply elem_of_seq. lia.
Qed.

Lemma page_tables_plic va : PLIC <= va < PLIC + 0x400000 -> page_tables va.
Proof.
  unfold PLIC. intros H. assert (Hq : va / 2 ^ 21 = 96 \/ va / 2 ^ 21 = 97).
  { assert (96 <= va / 2 ^ 21 < 98); [|lia].
    split; [apply Z.div_le_lower_bound; lia|apply Z.div_lt_upper_bound; lia]. }
  apply page_tables_intro; destruct Hq as [-> | ->]; table_member.
Qed.

Section Build.
Context `{Hw : Platform} {HwOk : PlatformOk Hw} {Ops : PageOps} {HA : PageAllocator Ops}.
Hypothesis Htext : text_ok.

(** The pages of a region: below MAXVA, with their tables among the ones above. *)
Lemma region_pages r : r ∈ kernel_regions ->
  0 <= r_page r /\ 0 < r_count r /\ (r_page r + r_count r) * PGSIZE <= MAXVA /\
  forall n, in_region r n -> page_tables (n * PGSIZE).
Proof.
  destruct (text_pages Htext) as (t & Ht & Hr). intros Hin. change MAXVA with (2 ^ 38). unfold in_region, PGSIZE.
  destruct (proj1 (region_cases t r Ht) Hin) as [-> |[-> |[-> |[-> |[-> |[-> | ->]]]]]]; simpl;
    (split; [lia|]; split; [lia|]; split; [lia|]); intros n Hn.
  - replace n with 0x100 by lia. apply page_tables_intro; table_member.
  - replace n with 0x10000 by lia. apply page_tables_intro; table_member.
  - replace n with 0x10001 by lia. apply page_tables_intro; table_member.
  - apply page_tables_plic. unfold PLIC. lia.
  - apply page_tables_ram. unfold PHYSTOP, KERNBASE. lia.
  - apply page_tables_ram. unfold PHYSTOP, KERNBASE. lia.
  - replace n with 0x3ffffff by lia. apply page_tables_intro; table_member.
Qed.

(** While the table is built from [s0] on: [E] is mapped, memory suffices for the
    tables that are missing and [extra] pairs of pages, and only bytes of [B]
    have changed. *)
Section Progress.
Context (s0 : state) (B F0 : Z -> Prop) (extra : nat) (root : Z).

Definition progress (E : Z -> Z) (s : state) : Prop :=
  same_regs s0 s /\ modifies B (mem s0) (mem s) /\
  exists F T, vm_at s F root E T /\ capacity F (extra + missing kernel_tables T) /\
    (forall a, vm_bytes F T a -> B a) /\ (forall a, F a -> F0 a).

Lemma progress_ext E E' s : (forall n, E n = E' n) -> progress E s -> progress E' s.
Proof.
  intros HE (? & ? & F & T & Hat & ?). split; [done|]. split; [done|]. exists F, T. split; [|done].
  by apply (vm_at_ext _ _ _ E).
Qed.

Lemma progress_page E va pa perm s :
  progress E s -> 0 <= va < MAXVA -> page_tables (PGROUNDDOWN va) -> 0 <= pa < 2 ^ 56 -> 0 <= perm < 1024 ->
  valid (E (va / PGSIZE)) = false ->
  wp (map_page root va pa perm)
    (fun r s' => r = 0 /\ progress (<[va / PGSIZE := leaf (PGROUNDDOWN pa) perm]> E) s') s.
Proof.
  intros (Hregs & Hmod & F & T & Hat & Hcap & HB & HF0) Hva Htab Hpa Hperm Hinv.
  eapply wp_mono; [by apply (map_page_at F root E T)|].
  intros r s' (Hregs' & Hmod' & F' & T' & HF & Hbytes & (_ & _ & Hcost) & Hcase).
  assert (Hcap' : capacity F' (extra + missing kernel_tables T')) by by apply (Hcost kernel_tables extra).
  destruct Hcase as [(_ & _ & Hnone & Hex)|(-> & Hat')].
  - exfalso. apply (capacity_some F' 1 0); [lia| |exact Hex]. eapply capacity_le; [|exact Hcap']. enough (1 <= missing kernel_tables T')%nat by lia.
    apply (missing_pos _ _ (path (PGROUNDDOWN va))); [|done]. by apply Htab.
  - split; [done|]. split; [by etrans|]. split.
    + eapply modifies_trans; [exact Hmod|]. by eapply modifies_weaken.
    + exists F', T'. split; [done|]. split; [done|]. split; auto.
Qed.

Lemma progress_region E r s :
  progress E s -> r ∈ kernel_regions -> (forall n, in_region r n -> valid (E n) = false) ->
  wp (kernel_map_pages root (r_page r * PGSIZE) (r_frame r) (r_count r * PGSIZE) (r_perm r))
    (fun _ s' => progress (map_region E r) s') s.
Proof.
  intros Hpr Hr Hinv. destruct (region_pages r Hr) as (Hp0 & Hc0 & Hmax & Htab).
  pose proof (fun n => region_frames Htext r n Hr) as Hfr. simpl in Hfr.
  assert (Hperm : 0 <= r_perm r < 1024).
  { destruct (Hfr (r_page r)) as (_ & _ & Hc); [unfold in_region; lia|]. by destruct Hc as [[-> _]|[-> _]]. }
  change MAXVA with (2 ^ 38) in Hmax. unfold in_region, PGSIZE in *.
  assert (Hdown : forall x, 0 <= x < 2 ^ 64 -> (4096 | x) -> PGROUNDDOWN x = x).
  { intros x Hx [k ->]. rewrite PGROUNDDOWN_eq, Z.mod_mul by lia. lia. }
  destruct (Hfr (r_page r)) as (Hal & Hfp & _); [lia|]. rewrite Z.sub_diag, Z.add_0_r in Hal, Hfp.
  unfold kernel_map_pages. rewrite (Hdown (r_page r * 4096)), (Hdown (r_frame r)) by (done || lia || apply Z.divide_factor_r).
  apply (wp_for_range (fun i s' => progress (fun n => if decide (r_page r <= n < r_page r + i / 4096) then
      leaf (r_frame r + (n - r_page r) * 4096) (r_perm r) else E n) s')); unfold PGSIZE; [lia..| | |].
  - eapply progress_ext; [|exact Hpr]. intros n. change (0 / 4096) with 0. by rewrite decide_False by lia.
  - intros i s1 [k ->] Hi Hpr1. rewrite Z.div_mul in Hpr1 by lia.
    destruct (Hfr (r_page r + k)) as (Halk & Hfk & _); [lia|].
    replace (r_page r + k - r_page r) with k in * by lia.
    rewrite !w64_small by lia.
    replace (r_page r * 4096 + k * 4096) with ((r_page r + k) * 4096) by lia.
    assert (Hn : (r_page r + k) * 4096 / PGSIZE = r_page r + k) by (unfold PGSIZE; by rewrite Z.div_mul).
    wp_step. eapply wp_mono; [apply (progress_page _ _ _ _ _ Hpr1)|].
    + change MAXVA with (2 ^ 38). lia.
    + rewrite Hdown by (lia || apply Z.divide_factor_r). apply Htab. lia.
    + done.
    + done.
    + rewrite Hn, decide_False by lia. apply Hinv. lia.
    + intros r' s2 [-> Hpr2]. change (0 =? -1) with false. cbv iota. wp_step.
      replace ((k * 4096 + 4096) / 4096) with (k + 1)
        by (replace (k * 4096 + 4096) with ((k + 1) * 4096) by lia; by rewrite Z.div_mul).
      eapply progress_ext; [|exact Hpr2]. intros n. rewrite Hn, (Hdown (r_frame r + k * 4096)) by (done || lia).
      destruct (decide (n = r_page r + k)) as [->|Hne].
      * rewrite fn_lookup_insert, decide_True by lia. f_equal. lia.
      * rewrite fn_lookup_insert_ne by done. repeat case_decide; (done || lia).
  - intros i s1 [k ->] Hi Hpr1. rewrite Z.div_mul in Hpr1 by lia. assert (k = r_count r) as -> by lia.
    eapply progress_ext; [|exact Hpr1]. intros n. unfold map_region, in_region. by repeat case_decide.
Qed.

(** The first [k] regions are mapped; one more. *)
Definition mapped_regions (k : nat) (s : state) : Prop :=
  progress (foldl map_region (fun _ => 0) (take k kernel_regions)) s.

Lemma mapped_next k r s va pa size perm :
  mapped_regions k s -> kernel_regions !! k = Some r ->
  va = r_page r * PGSIZE -> pa = r_frame r -> size = r_count r * PGSIZE -> perm = r_perm r ->
  wp (kernel_map_pages root va pa size perm) (fun _ s' => mapped_regions (S k) s') s.
Proof.
  intros Hpr Hk -> -> -> ->. unfold mapped_regions. rewrite (take_S_r _ _ r Hk), foldl_app.
  assert (Hr : r ∈ kernel_regions) by by eapply list_elem_of_lookup_2.
  apply progress_region; [done|done|]. intros n Hin.
  destruct (foldl_regions (take k kernel_regions) (fun _ => 0) n) as [(r' & Hr' & Hin' & _)|[_ ->]]; [exfalso|done].
  apply list_elem_of_lookup in Hr' as [i [Hi Hik]%lookup_take_Some].
  assert (r' = r) as -> by (eapply (regions_disjoint Htext); [by eapply list_elem_of_lookup_2|done..]).
  pose proof (NoDup_lookup _ _ _ _ (regions_nodup Htext) Hi Hk). lia.
Qed.

(** The call of [kernel_map_pages] for the next region. *)
Lemma call_next k r s va pa size perm (Q : unit -> state -> Prop) :
  mapped_regions k s -> kernel_regions !! k = Some r ->
  va = r_page r * PGSIZE -> pa = r_frame r -> size = r_count r * PGSIZE -> perm = r_perm r ->
  (forall s', mapped_regions (S k) s' -> Q tt s') -> wp (kernel_map_pages root va pa size perm) Q s.
Proof.
  intros Hs Hk Hva Hpa Hsize Hperm HQ. eapply wp_mono; [by eapply mapped_next|]. intros [] s' H. by apply HQ.
Qed.

End Progress.

(** The start: a cleared root page. *)
Lemma root_progress F extra root s m :
  pool_owns (mem s) (without F 0 root) -> good_block kernel_end PHYSTOP 0 root ->
  (forall a, root <= a < root + bsz 0 -> F a) -> capacity F (extra + 73) ->
  (forall j, 0 <= j < PGSIZE -> rd8 m (root + j) = w8 0) -> modifies (range root PGSIZE) (mem s) m ->
  mapped_regions s (fun a => pool_private a \/ F a) F extra root 0 (set_mem m s).
Proof.
  intros Hp Hq HqF Hcap Hz Hm. pose proof Hq as (_ & Hal & Hlo & Hhi).
  assert (Hfree : forall a, without F 0 root a -> F a) by by intros a [? _].
  split; [eauto with kernel|]. split.
  { eapply modifies_weaken; [|exact Hm]. intros a Ha. right. by apply HqF. }
  exists (without F 0 root), {[ [] := root ]}. split; [|split; [|split; [|exact Hfree]]].
  - apply fresh_root; [|exact Hp|exact Hz|exact Hm]. split; [done|]. split; [done|]. split; [done|].
    intros a Ha [_ Hn]. by apply Hn.
  - rewrite kernel_tables_missing. apply capacity_take; [done|done|]. by replace (S (extra + 72)) with (extra + 73)%nat by lia.
  - intros a [?|[?%Hfree|(l & p & [<- <-]%lookup_singleton_Some & Ha)]]; [by left|by right|right]. by apply HqF.
Qed.

(** What the kernel runs on: the entries, and what they mean for its addresses
    and its safety. *)
Record kernel_table (F : Z -> Prop) (s : state) (root : Z) : Prop := {
  kt_entries : exists F', vm_rep s F' root kernel_entry /\ forall a, F' a -> F a;
  kt_identity : forall a, kernel_address a -> physical_address root a s = Ok a s;
  kt_trampoline : forall va, TRAMPOLINE <= va < MAXVA ->
    physical_address root va s = Ok (trampoline + (va - TRAMPOLINE)) s;
  kt_nothing : forall va, 0 <= va < TRAMPOLINE -> ~ kernel_address va -> physical_address root va s = Ok NULL s;
  kt_write_xor_execute : write_xor_execute kernel_entry;
  kt_supervisor : supervisor_only kernel_entry
}.

Lemma kernel_table_intro F F' s root : vm_rep s F' root kernel_entry -> (forall a, F' a -> F a) -> kernel_table F s root.
Proof.
  intros Hvm HF.
  assert (Hpa : forall va, 0 <= va < MAXVA -> physical_address root va s = Ok (translate kernel_entry va) s).
  { intros va Hva. destruct (wp_ok_inv _ _ _ (physical_address_ok _ _ _ va s Hvm Hva)) as (a & s2 & E & -> & ->).
    exact E. }
  assert (Hmax : 0 <= TRAMPOLINE < MAXVA) by done. split.
  - by exists F'.
  - intros a Ha. rewrite Hpa; [by rewrite (kernel_identity Htext)|]. revert Ha. unfold kernel_address.
    change MAXVA with (2 ^ 38). unfold VIRT_TEST, UART0, VIRTIO0, PLIC, PHYSTOP, KERNBASE, PGSIZE. lia.
  - intros va Hva. rewrite Hpa by lia. by rewrite (kernel_trampoline Htext).
  - intros va Hva Ha. rewrite Hpa by lia. rewrite (kernel_unmapped Htext); [done|lia|done|lia].
  - by apply kernel_write_xor_execute.
  - by apply kernel_supervisor_only.
Qed.

(** The sizes of the text and of the rest, as the code computes them. *)
Lemma text_sizes : etext -w KERNBASE = (etext - KERNBASE) / PGSIZE * PGSIZE /\
  PHYSTOP -w etext = (PHYSTOP - etext) / PGSIZE * PGSIZE /\ etext = etext / PGSIZE * PGSIZE.
Proof.
  destruct (text_pages Htext) as (t & Ht & Hr). unfold PHYSTOP, KERNBASE, PGSIZE. rewrite Ht, !w64_small by lia.
  replace (t * 4096 - 0x80000000) with ((t - 0x80000) * 4096) by lia.
  replace (0x80000000 + 128 * 1024 * 1024 - t * 4096) with ((0x88000 - t) * 4096) by lia. by rewrite !Z.div_mul.
Qed.

(** The root page, cleared and stored, and the regions one after the other. *)
Lemma make_kernel_pagetable_ok F extra s (Q : unit -> state -> Prop) :
  pool_owns (mem s) F -> capacity F (extra + 73) ->
  (forall root s1 s', same_regs s s1 -> modifies (fun a => pool_private a \/ F a) (mem s) (mem s1) ->
    progress (set_glob kernel_pagetable root s1) (fun a => pool_private a \/ F a) F extra root kernel_entry s' -> Q tt s') ->
  wp make_kernel_pagetable Q s.
Proof.
  intros Hp Hcap HQ. unfold make_kernel_pagetable. wp_step.
  eapply wp_mono; [apply (allocate_law F 0 s Hp); lia|].
  intros root s1 (Hregs & Hm1 & [(_ & _ & He)|(Hq & Hne & HqF & Hp1)]).
  { exfalso. apply (capacity_some F 0 (extra + 72)); [done| |done]. by replace (S (extra + 72)) with (extra + 73)%nat by lia. }
  specialize (HQ root s1). set (s2 := set_glob kernel_pagetable root s1) in *.
  assert (Hg : glob s2 kernel_pagetable = root) by apply fn_lookup_insert.
  pose proof Hq as (_ & Hal & Hlo & Hhi). change (bsz 0) with 4096 in Hal, Hlo, Hhi. pose proof kernel_end_range.
  do 4 wp_step. change (set_glob kernel_pagetable root s1) with s2.
  rewrite Hg, (proj2 (Z.eqb_neq root NULL) Hne). do 4 wp_step. rewrite Hg. wp_step.
  apply memset_ok; [unfold ram_range, PGSIZE, PHYSTOP, KERNBASE in *; lia|]. intros m Hz Hm.
  assert (Hpr : mapped_regions s2 (fun a => pool_private a \/ F a) F extra root 0 (set_mem m s2)).
  { by apply root_progress. }
  destruct text_sizes as (Hs1 & Hs2 & Hs3).
  wp_step. eapply call_next; [exact Hpr|reflexivity|done..|]. clear Hpr. intros s3 Hpr.
  wp_step. eapply call_next; [exact Hpr|reflexivity|done..|]. clear Hpr. intros s4 Hpr.
  wp_step. eapply call_next; [exact Hpr|reflexivity|done..|]. clear Hpr. intros s5 Hpr.
  wp_step. eapply call_next; [exact Hpr|reflexivity|done..|]. clear Hpr. intros s6 Hpr.
  wp_step. eapply call_next; [exact Hpr|reflexivity|done|done|exact Hs1|done|]. clear Hpr. intros s7 Hpr.
  wp_step. eapply call_next; [exact Hpr|reflexivity|exact Hs3|done|exact Hs2|done|]. clear Hpr. intros s8 Hpr.
  eapply call_next; [exact Hpr|reflexivity|done..|]. clear Hpr. intros s9 Hpr. by apply HQ.
Qed.

(** With the table in satp, [extra] pairs of pages are left. *)
Lemma init_kernel_pagetable_ok F extra s :
  pool_owns (mem s) F -> capacity F (extra + 73) ->
  wp init_kernel_pagetable (fun _ s' => exists root F' T, vm_at s' F' root kernel_entry T /\ capacity F' extra /\
    (forall a, F' a -> F a) /\ csr_val s' satp = MAKE_SATP root /\ glob s' = <[kernel_pagetable := root]> (glob s) /\ log s' = log s /\
    modifies (fun a => pool_private a \/ F a) (mem s) (mem s')) s.
Proof.
  intros Hp Hcap. unfold init_kernel_pagetable, sfence_vma, write_satp. wp_step.
  apply (make_kernel_pagetable_ok F extra); [done|done|].
  intros root s1 s2 (Hg1 & _ & Hl1 & _) Hm1 ((Hg2 & _ & Hl2 & _) & Hm2 & F2 & T2 & Hat & Hcap2 & _ & HF2).
  do 4 wp_step. rewrite Hg2. change (glob (set_glob ?g ?v ?s) ?g) with (<[g := v]> (glob s) g).
  rewrite fn_lookup_insert. do 2 wp_step. exists root, F2, T2.
  split; [exact Hat|]. split; [by apply (capacity_le _ (extra + missing kernel_tables T2)); [lia|]|]. split; [exact HF2|].
  split; [rewrite csr_val_set_csr; by rewrite decide_True|].
  split; [change (glob s2 = <[kernel_pagetable := root]> (glob s)); by rewrite Hg2, <-Hg1|].
  split; [by etrans; [exact Hl2|]|]. eapply modifies_trans; [exact Hm1|exact Hm2].
Qed.

(** C6: With 73 pairs of pages free, [init_kernel_pagetable] terminates with
    satp and [kernel_pagetable] set to a new table, in which RAM and the devices
    are mapped to themselves, the trampoline to its page of the image, and
    nothing else; no frame can be both written and executed, no page is open to
    user programs; and only free memory is written. *)
Theorem init_kernel_pagetable_safe F s :
  pool_owns (mem s) F -> capacity F 73 ->
  wp init_kernel_pagetable (fun _ s' => exists root, kernel_table F s' root /\
    csr_val s' satp = MAKE_SATP root /\ glob s' = <[kernel_pagetable := root]> (glob s) /\ log s' = log s /\
    modifies (fun a => pool_private a \/ F a) (mem s) (mem s')) s.
Proof.
  intros Hp Hcap. eapply wp_mono; [by apply (init_kernel_pagetable_ok F 0)|].
  intros [] s' (root & F' & T & Hat & _ & HF & Hsatp & Hg & Hl & Hm). exists root.
  split; [|done]. apply (kernel_table_intro F F'); [exists T; exact Hat|exact HF].
Qed.

End Build.

(** ** An instance: the machine right after the page allocator is set up *)

Section Witnesses.
#[local] Existing Instances board board_ok.
#[local] Opaque booted.

Lemma board_text : text_ok.
Proof. split; [by exists 0x80008|done|by exists 0x80007|done]. Qed.

Lemma init_kernel_pagetable_safe_witness :
  wp init_kernel_pagetable (fun _ s' => exists root, csr_val s' satp = MAKE_SATP root /\
    physical_address root UART0 s' = Ok UART0 s' /\
    physical_address root 0x80007abc s' = Ok 0x80007abc s' /\
    physical_address root (TRAMPOLINE + 4) s' = Ok 0x80007004 s' /\
    physical_address root 0 s' = Ok NULL s' /\
    allows (kernel_entry 0x80007) PTE_W = false) booted.
Proof.
  eapply wp_mono; [apply (init_kernel_pagetable_safe board_text boot_free booted)|].
  - exact (proj1 booted_heap).
  - apply (capacity_range _ 0x80020000); [by exists 0x40010|done|done|].
    intros a Ha. change (8192 * Z.of_nat 73) with 598016 in Ha. unfold boot_free. lia.
  - intros [] s' (root & [_ Hid Htr Hno Hwx _] & Hsatp & _). exists root. split; [exact Hsatp|].
    split; [apply Hid; unfold kernel_address, UART0, PGSIZE; lia|].
    split; [apply Hid; unfold kernel_address, PHYSTOP, KERNBASE; lia|].
    split; [apply Htr; done|]. split; [apply Hno; [done|]|vm_compute; reflexivity].
    unfold kernel_address, VIRT_TEST, UART0, VIRTIO0, PLIC, PHYSTOP, KERNBASE, PGSIZE. lia.
Defined.

End Witnesses.
