(* ===== verification/Teardown.v ===== *)
(** * Release of page tables

    [free_pagetable] of virtual_memory.c: which of the tables become free
    memory again. *)

From S2P Require Import Prelude Machine Board Utility Uart BuddySpec Buddy BuddyInstance BuddyTheorems PageAlloc Kmalloc KmallocTheorems LinkedList PageTable PageTableProof PageTableTheorems.

Section Release.
Context `{Hw : Platform} {HwOk : PlatformOk Hw} {Ops : PageOps} {HA : PageAllocator Ops}.

Definition page_byte (p a : Z) : Prop := p <= a < p + PGSIZE.

(** The bytes of the tables at depth [n]: 0 is the root, 2 the last level. *)
Definition depth_byte (T : tables) (n : nat) (a : Z) : Prop :=
  exists l p, T !! l = Some p /\ length l = n /\ page_byte p a.

(** The free bytes count up to equivalence. *)
Lemma pool_owns_iff m F F' : pool_owns m F -> (forall a, F a <-> F' a) -> pool_owns m F'.
Proof. intros Hp HF. rewrite <-(pool_owns_proper m m eq_refl F F'); [done|exact HF]. Qed.

(** Releasing one page that is not free. *)
Lemma release_page F p s : pool_owns (mem s) F -> page_ok F p ->
  wp (deallocate p 0) (fun _ s' => same_regs s s' /\
    modifies (fun a => pool_private a \/ F a \/ page_byte p a) (mem s) (mem s') /\
    pool_owns (mem s') (fun a => F a \/ page_byte p a)) s.
Proof.
  intros Hp (Hal & Hlo & Hhi & Hn).
  eapply wp_mono; [apply (deallocate_law F 0 p s Hp)|].
  - split; [done|]. change (bsz 0) with 4096. split; [done|lia].
  - change (bsz 0) with 4096. apply Hn.
  - intros [] s' (Hregs & Hm & Hp'). split; [done|]. split; [exact Hm|exact Hp'].
Qed.

(** The tables below the first [k] entries of the root. *)
Definition below (T : tables) (k a : Z) : Prop :=
  exists j q, 0 <= j < k /\ T !! [j] = Some q /\ page_byte q a.

(** The rest of the tables is still in place. *)
Definition releasing (F : Z -> Prop) (T : tables) (s : state) (k : Z) (s' : state) : Prop :=
  same_regs s s' /\ pool_owns (mem s') (fun a => F a \/ below T k a) /\
  modifies (fun a => pool_private a \/ F a \/ below T k a) (mem s) (mem s').

Lemma below_step T k a : 0 <= k -> below T (k + 1) a <-> below T k a \/ exists q, T !! [k] = Some q /\ page_byte q a.
Proof.
  intros Hk. unfold below. split.
  - intros (j & q & Hj & Hq & Ha). destruct (decide (j = k)) as [->|]; [right; by exists q|left].
    exists j, q. split; [lia|done].
  - intros [(j & q & Hj & Hq & Ha)|(q & Hq & Ha)]; [exists j, q|exists k, q]; (split; [lia|done]).
Qed.

Lemma root_apart F root T s k a : pt_rep (mem s) F root T -> page_byte root a ->
  ~ (pool_private a \/ F a \/ below T k a).
Proof.
  intros Hrep Ha. pose proof (pt_root _ _ _ _ Hrep) as Hr. destruct (pt_page _ _ _ _ Hrep _ _ Hr) as [(_ & Hlo & _ & Hn) _].
  unfold page_byte, PGSIZE in Ha. intros [Hpr|[HF|(j & q & _ & Hq & Hin)]].
  - apply pool_private_range in Hpr. lia.
  - by apply (Hn a).
  - unfold page_byte, PGSIZE in Hin. destruct (tables_apart _ _ _ _ _ _ _ _ Hrep Hr Hq ltac:(done)); lia.
Qed.

(** A last but one table: its entries are looked at and left alone. *)
Lemma free_middle_ok F root T s k s1 q :
  pt_rep (mem s) F root T -> 0 <= k -> releasing F T s k s1 -> T !! [k] = Some q ->
  wp (free_pagetable_internal 1 q) (fun _ s2 => releasing F T s (k + 1) s2) s1.
Proof.
  intros Hrep Hk (Hregs & Hp & Hm) Hq. destruct (pt_page _ _ _ _ Hrep _ _ Hq) as [Hok _].
  simpl free_pagetable_internal. wp_step.
  apply (wp_for_range (fun _ s' => s' = s1)); [lia..|done| |].
  - intros i s' _ Hi ->. destruct (slot_ram _ _ _ _ _ _ _ Hrep Hq Hi) as (? & ? & ->).
    wp_ram. wp_ram. change (1 <? Z.of_nat 1) with false. rewrite andb_false_r. by wp_step.
  - intros i s' _ _ ->. eapply wp_mono; [apply (release_page _ q s1 Hp)|].
    + destruct Hok as (Hal & Hlo & Hhi & Hn). split_and!; [done..|]. intros a Ha [HF|(j & r & Hj & Hr & Hin)].
      * by apply (Hn a).
      * unfold page_byte, PGSIZE in Hin. assert ([j] <> [k]) as Hne by (intros [=]; lia).
        destruct (tables_apart _ _ _ _ _ _ _ _ Hrep Hr Hq Hne); lia.
    + intros [] s2 (Hregs2 & Hm2 & Hp2). split; [by etrans|]. split.
      * apply (pool_owns_iff _ _ _ Hp2). intros a. rewrite below_step by lia. split.
        -- intros [[?|?]|?]; [by left|by right; left|right; right; by exists q].
        -- intros [?|[?|(r & Hr & Hin)]]; [by left; left|by left; right|right]. rewrite Hq in Hr. by injection Hr as ->.
      * eapply modifies_trans; (eapply modifies_weaken; [|eassumption]); intros a; rewrite below_step by lia.
        -- tauto.
        -- intros [?|[[?|?]|?]]; [tauto..|]. right; right; right. by exists q.
Qed.

(** The root's entries are followed one level down. *)
Lemma free_pagetable_eq pagetable : free_pagetable pagetable =
  (for_range 512 1 (fun i =>
     let pte := pagetable +w 8 * i in
     e ← load64 pte;
     if truth (Z.land e PTE_V) && (1 <? Z.of_nat 2) then
       e ← load64 pte; free_pagetable_internal 1 (PTE2PA e)
     else mret tt);;
   deallocate pagetable 0).
Proof. unfold free_pagetable. cbn [free_pagetable_internal]. reflexivity. Qed.

Lemma free_pagetable_ok F root T s :
  pt_rep (mem s) F root T -> pool_owns (mem s) F ->
  wp (free_pagetable root) (fun _ s' => same_regs s s' /\
    pool_owns (mem s') (fun a => F a \/ depth_byte T 0 a \/ depth_byte T 1 a)) s.
Proof.
  intros Hrep Hp. pose proof (pt_root _ _ _ _ Hrep) as Hr. destruct (pt_page _ _ _ _ Hrep _ _ Hr) as [Hok _].
  rewrite free_pagetable_eq. wp_step.
  apply (wp_for_range (fun i s' => releasing F T s i s')); [lia..| | |].
  - split; [done|]. split; [|apply modifies_refl].
    apply (pool_owns_iff _ _ _ Hp). intros a. split; [by left|intros [?|(j & q & ? & _)]; [done|lia]].
  - intros i s1 _ Hi Hrel. pose proof Hrel as (_ & _ & Hm).
    destruct (slot_ram _ _ _ _ _ _ _ Hrep Hr Hi) as (? & ? & ->).
    assert (He : rd64 (mem s1) (root + 8 * i) = rd64 (mem s) (root + 8 * i)).
    { apply (modifies_rd _ 8 _ _ _ Hm). intros a Ha. apply (root_apart _ _ _ _ _ _ Hrep).
      unfold page_byte, PGSIZE. simpl in Ha. lia. }
    pose proof (pt_link _ _ _ _ Hrep [] root i Hr ltac:(simpl; lia) Hi) as Hlink. simpl app in Hlink.
    cbv zeta. wp_ram. wp_ram. rewrite He. change (1 <? Z.of_nat 2) with true. rewrite andb_true_r.
    destruct (T !! [i]) as [q|] eqn:Hq.
    + rewrite Hlink. fold (valid (Z.lor (PA2PTE q) PTE_V)). rewrite valid_lor. wp_ram. wp_ram. rewrite He, Hlink, link_leaf.
      destruct (pt_page _ _ _ _ Hrep _ _ Hq) as [Hqok _]. rewrite (page_aligned F q Hqok).
      apply (free_middle_ok F root T s i s1 q); [done|lia|done..].
    + fold (valid (rd64 (mem s) (root + 8 * i))). rewrite Hlink. wp_step. destruct Hrel as (Hregs & Hp1 & _).
      assert (Heq : forall a, below T (i + 1) a <-> below T i a).
      { intros a. rewrite below_step, Hq by lia. naive_solver. }
      split; [done|]. split.
      * apply (pool_owns_iff _ _ _ Hp1). intros a. by rewrite Heq.
      * eapply modifies_weaken; [|exact Hm]. intros a. by rewrite Heq.
  - intros i s1 _ Hi (Hregs & Hp1 & Hm). assert (i = 512) as -> by lia.
    eapply wp_mono; [apply (release_page _ root s1 Hp1)|].
    + destruct Hok as (Hal & Hlo & Hhi & Hn). split_and!; [done..|]. intros a Ha ?.
      apply (root_apart F root T s 512 a Hrep); [done|by right].
    + intros [] s2 (Hregs2 & _ & Hp2). split; [by etrans|].
      apply (pool_owns_iff _ _ _ Hp2). intros a. split.
      * intros [[?|(j & q & _ & Hq & Ha)]|Ha]; [by left|right; right; by exists [j], q|right; left; by exists [], root].
      * intros [?|[(l & p & Hl & Hz & Ha)|(l & p & Hl & Hz & Ha)]]; [by left; left| |].
        -- destruct l; [|done]. rewrite Hr in Hl. injection Hl as <-. by right.
        -- left. right. destruct l as [|j [|? ?]]; [done| |done].
           destruct (pt_child _ _ _ _ Hrep [] j p Hl) as [Hj _]. exists j, p. split; [lia|done].
Qed.

(** C37: [free_pagetable] leaks: it releases the root and the tables below it, but
    no table of the last level, which stay allocated though nothing refers to
    them any more. *)
Theorem free_pagetable_leaks F root T s :
  pt_rep (mem s) F root T -> pool_owns (mem s) F ->
  wp (free_pagetable root) (fun _ s' => same_regs s s' /\ exists F', pool_owns (mem s') F' /\
    (forall a, F' a <-> F a \/ depth_byte T 0 a \/ depth_byte T 1 a) /\
    forall l p a, T !! l = Some p -> length l = 2%nat -> page_byte p a -> ~ F' a) s.
Proof.
  intros Hrep Hp. eapply wp_mono; [by apply (free_pagetable_ok F root T)|].
  intros [] s' (Hregs & Hp'). split; [done|]. eexists. split; [exact Hp'|]. split; [done|].
  intros l p a Hl Hlen Ha. destruct (pt_page _ _ _ _ Hrep _ _ Hl) as [(_ & _ & _ & Hn) _].
  unfold page_byte, PGSIZE in *.
  intros [HF|[(l' & q & Hl' & Hlen' & Hin)|(l' & q & Hl' & Hlen' & Hin)]]; [by apply (Hn a)| |];
    unfold page_byte, PGSIZE in Hin;
    (destruct (tables_apart _ _ _ _ _ _ _ _ Hrep Hl Hl'); [intros ->; congruence|lia|lia]).
Qed.

(** Half of every page table is lost: a table is allocated as two pages and
    released as one, so creating a page table and freeing it again leaves the
    second page allocated. *)
Lemma create_free_pagetable_leaks F s :
  pool_owns (mem s) F ->
  wp (r ← create_void_pagetable; (if r =? NULL then mret tt else free_pagetable r);; mret r) (fun r s' =>
    same_regs s s' /\ exists F', pool_owns (mem s') F' /\
    ((r = NULL /\ forall a, F' a <-> F a) \/
     (r <> NULL /\ (forall a, r + PGSIZE <= a < r + 2 * PGSIZE -> F a) /\
      forall a, F' a <-> F a /\ ~ (r + PGSIZE <= a < r + 2 * PGSIZE)))) s.
Proof.
  intros Hp. wp_step. eapply wp_mono; [by apply (create_void_pagetable_at F)|].
  intros r s1 (Hregs & _ & [(-> & Hm & _)|(Hne & _ & HrF & Hrep & Hp1 & HE)]).
  - change (NULL =? NULL) with true. wp_step. wp_step. wp_step. split; [done|]. exists F. rewrite Hm. split; [done|]. by left.
  - rewrite (proj2 (Z.eqb_neq r NULL) Hne). wp_step. eapply wp_mono; [exact (free_pagetable_ok _ r {[ [] := r ]} s1 Hrep Hp1)|].
    intros [] s2 (Hregs2 & Hp2). wp_step. split; [by etrans|]. eexists. split; [exact Hp2|]. right. split; [done|].
    change (bsz 1) with (2 * PGSIZE) in HrF. split; [intros a Ha; apply HrF; unfold PGSIZE in *; lia|].
    intros a. unfold without. change (bsz 1) with (2 * PGSIZE). split.
    + intros [[HF Hn]|[(l & p & [<- <-]%lookup_singleton_Some & _ & Ha)|(l & p & [<- _]%lookup_singleton_Some & Hl & _)]]; [| |done].
      * split; [done|]. unfold PGSIZE in *. lia.
      * unfold page_byte, PGSIZE in *. split; [apply HrF|]; lia.
    + intros [HF Hn]. destruct (decide (page_byte r a)) as [Ha|Ha].
      * right. left. exists [], r. split; [apply lookup_singleton_eq|done].
      * left. split; [done|]. unfold page_byte, PGSIZE in *. lia.
Qed.

End Release.

(** ** Instances *)

Section Witnesses.
#[local] Existing Instances board board_ok.
#[local] Opaque booted root_state mapped_state.

Lemma create_free_pagetable_leaks_witness :
  wp (r ← create_void_pagetable; (if r =? NULL then mret tt else free_pagetable r);; mret r) (fun r s' =>
    exists F', pool_owns (mem s') F' /\ forall a, F' a -> boot_free a) booted.
Proof.
  eapply wp_mono; [apply (create_free_pagetable_leaks boot_free booted booted_pool)|].
  intros r s' (_ & F' & Hp & [[_ H]|(_ & _ & H)]); exists F'; (split; [exact Hp|]); intros a Ha; by apply H.
Defined.

(** A page table that maps one page: its table of the last level, found by
    following the entries from the root, stays allocated; the root is released. *)
Definition linked (m : gmap Z Z) (table : Z) : Z := PTE2PA (rd64 m table).
Definition last_table : Z := linked (mem mapped_state) (linked (mem mapped_state) page).

Lemma mapped_tables : exists F T, pt_rep (mem mapped_state) F page T /\ pool_owns (mem mapped_state) F /\
  T !! [0; 0] = Some last_table.
Proof.
  destruct mapped_vm as (F & T & Hrep & Hp & HE). exists F, T. split; [exact Hrep|]. split; [exact Hp|].
  specialize (HE 0x5000 ltac:(done)). change (0x5000 / PGSIZE) with 5 in HE. unfold one_entry in HE.
  rewrite fn_lookup_insert in HE. unfold entry, slot in HE. change (path 0x5000) with [0; 0] in HE.
  destruct (T !! [0; 0]) as [p|] eqn:H2; [|by exfalso; revert HE; vm_compute].
  destruct (pt_child _ _ _ _ Hrep [0] 0 p H2) as [_ [q H1]]. pose proof (pt_root _ _ _ _ Hrep) as H0.
  pose proof (pt_link _ _ _ _ Hrep [] page 0 H0 ltac:(simpl; lia) ltac:(lia)) as L0. simpl app in L0. rewrite H1, Z.mul_0_r, Z.add_0_r, link_leaf in L0.
  pose proof (pt_link _ _ _ _ Hrep [0] q 0 H1 ltac:(simpl; lia) ltac:(lia)) as L1. simpl app in L1. rewrite H2, Z.mul_0_r, Z.add_0_r, link_leaf in L1.
  f_equal. unfold last_table, linked. rewrite L0.
  rewrite (page_aligned F q (proj1 (pt_page _ _ _ _ Hrep _ _ H1))), L1.
  by rewrite (page_aligned F p (proj1 (pt_page _ _ _ _ Hrep _ _ H2))).
Qed.

Lemma free_pagetable_leaks_witness :
  wp (free_pagetable page) (fun _ s' => exists F', pool_owns (mem s') F' /\
    (forall a, page_byte page a -> F' a) /\ (forall a, page_byte last_table a -> ~ F' a)) mapped_state.
Proof.
  destruct mapped_tables as (F & T & Hrep & Hp & Hlast).
  eapply wp_mono; [apply (free_pagetable_leaks F page T mapped_state Hrep Hp)|].
  intros [] s' (_ & F' & H & Hiff & Hleak). exists F'. split; [exact H|]. split.
  - intros a Ha. apply Hiff. right. left. exists [], page. split; [exact (pt_root _ _ _ _ Hrep)|]. split; [reflexivity|exact Ha].
  - intros a Ha. exact (Hleak [0; 0] last_table a Hlast eq_refl Ha).
Defined.

End Witnesses.
