(* ===== verification/Task.v ===== *)
(** * Tasks: process.c lines 24 to 195, elf.c and the copy of virtual_memory.c

    The [task_struct] of a process, its creation, its user memory (sections,
    stack, page table), its release, and the loading of an ELF image into it. *)

From S2P Require Import Prelude Machine Utility Uart BuddySpec PageAlloc Kmalloc LinkedList PageTable.

(** ** process.h: offsets of the structures (riscv64, LP64) *)

Definition SLEEPING : Z := 0.
Definition RUNNABLE : Z := 1.
Definition RUNNING : Z := 2.
Definition ZOMBIE : Z := 3.
Definition DEAD : Z := 4.

Definition t_state : Z := 0.
Definition t_channel : Z := 8.
Definition t_pid : Z := 16.
Definition t_parent : Z := 24.
Definition t_kernel_stack : Z := 32.
Definition t_mem_sections : Z := 40.
Definition t_stack_permission : Z := 64.
Definition t_stack : Z := 72.
Definition t_pagetable : Z := 88.
Definition t_trap_frame : Z := 96.
Definition t_shared_memory : Z := 104.
Definition t_context : Z := 112.
Definition t_exit_status : Z := 224.
Definition t_name : Z := 228.
Definition sizeof_task_struct : Z := 264.

Definition sizeof_context : Z := 112.
Definition context_ra : Z := 0.
Definition context_sp : Z := 8.

(** struct memory_section: start 0, size 8. *)
Definition ms_start : Z := 0.
Definition ms_size : Z := 8.
Definition sizeof_memory_section : Z := 16.

Definition tf_kernel_satp : Z := 0.
Definition tf_kernel_sp : Z := 8.
Definition tf_kernel_trap : Z := 16.
Definition tf_epc : Z := 24.
Definition tf_sp : Z := 48.
Definition tf_a0 : Z := 112.
Definition tf_a1 : Z := 120.
Definition tf_a2 : Z := 128.
Definition tf_a3 : Z := 136.
Definition tf_a4 : Z := 144.
Definition tf_a7 : Z := 168.
Definition sizeof_trap_frame : Z := 288.

(** ** elf.h of the C library: the ELF64 format *)

Definition ELFMAG : list Z := [0x7f; code "E"; code "L"; code "F"].
Definition PT_LOAD : Z := 1.
Definition PT_GNU_STACK : Z := 0x6474e551.
Definition PF_X : Z := 1.
Definition PF_W : Z := 2.
Definition PF_R : Z := 4.
Definition e_entry : Z := 24.
Definition e_phoff : Z := 32.
Definition e_phnum : Z := 56.
Definition sizeof_phdr : Z := 56.
Definition p_type : Z := 0.
Definition p_flags : Z := 4.
Definition p_offset : Z := 8.
Definition p_vaddr : Z := 16.
Definition p_filesz : Z := 32.
Definition p_memsz : Z := 40.

Section Code.
Context `{Hw : Platform} {Ops : PageOps}.

(** The [for (node = head; node != NULL; node = node->next)] of process.c: [f]
    gets [node->data], and [Some] leaves the loop with a value. *)
Definition for_nodes {A} (node : Z) (f : Z -> M (option A)) : M (option A) :=
  loop (fun node =>
    if node =? NULL then mret (inr None)
    else
      data ← load64 (node + 8);
      r ← f data;
      match r with
      | Some a => mret (inr (Some a))
      | None => next ← load64 node; mret (inl next)
      end) node.

(** ** Release of the user memory *)

Definition clear_user_memory_space (task : Z) : M unit :=
  pagetable ← load64 (task + t_pagetable);
  ks ← load64 (task + t_kernel_stack);
  put stack_to_remove_next ks;;
  node ← load64 (task + t_mem_sections);
  for_nodes (A := unit) node (fun mem_section =>
    start ← load64 (mem_section + ms_start);
    size ← load64 (mem_section + ms_size);
    free_memory pagetable start size;;
    kfree mem_section;;
    mret None);;
  start ← load64 (task + t_stack + ms_start);
  size ← load64 (task + t_stack + ms_size);
  free_memory pagetable start size;;
  clear_single_linked_list (task + t_mem_sections).

Definition free_user_memory (task : Z) : M unit :=
  pagetable ← load64 (task + t_pagetable);
  tf ← load64 (task + t_trap_frame);
  deallocate tf 0;;
  shared ← load64 (task + t_shared_memory);
  deallocate shared 0;;
  clear_user_memory_space task;;
  free_pagetable pagetable.

(** ** Creation *)

(** The fields set once all the memory is there (lines 111 to 128). *)
Definition fill_task (task : Z) (name : cstr) (parent shared_memory : Z) : M unit :=
  store32 (task + t_state) RUNNABLE;;
  pid ← get next_pid;
  put next_pid (pid +w 1);;
  store64 (task + t_pid) pid;;
  store64 (task + t_parent) parent;;
  ks ← load64 (task + t_kernel_stack);
  store64 (task + t_context + context_sp) (ks +w PGSIZE);;
  store64 (task + t_context + context_ra) user_trap_return_addr;;
  store64 (task + t_stack + ms_size) 0;;
  store64 (task + t_stack + ms_start) 0;;
  n ← strlen name;
  strcpy (task + t_name) name (min 31 n);;
  store64 (task + t_shared_memory) shared_memory.

(** Mapping the trap frame, the trampoline and the shared page (lines 88 to 105). *)
Definition map_task_pages (task shared_memory : Z) : M Z :=
  pt ← load64 (task + t_pagetable);
  tf ← load64 (task + t_trap_frame);
  r1 ← map_page pt TRAPFRAME tf (Z.lor PTE_R PTE_W);
  pt ← load64 (task + t_pagetable);
  r2 ← map_page pt TRAMPOLINE trampoline (Z.lor PTE_R PTE_X);
  pt ← load64 (task + t_pagetable);
  r3 ← map_page pt SHARED_MEMORY shared_memory (Z.lor (Z.lor PTE_R PTE_W) PTE_U);
  mret (Z.lor (Z.lor (Z.lor 0 r1) r2) r3).

Definition new_task (name : cstr) (parent : Z) : M Z :=
  task ← kmalloc sizeof_task_struct;
  if task =? NULL then mret NULL
  else
    ks ← allocate 0;
    store64 (task + t_kernel_stack) ks;;
    store64 (task + t_stack_permission) (Z.lor (Z.lor PTE_U PTE_R) PTE_W);;
    init_single_linked_list (task + t_mem_sections);;
    pt ← create_void_pagetable;
    store64 (task + t_pagetable) pt;;
    tf ← allocate_for_user 0;
    store64 (task + t_trap_frame) tf;;
    shared_memory ← allocate_for_user 0;
    memset (task + t_context) 0 sizeof_context;;
    ks ← load64 (task + t_kernel_stack);
    pt ← load64 (task + t_pagetable);
    tf ← load64 (task + t_trap_frame);
    if (ks =? NULL) || (pt =? NULL) || (shared_memory =? NULL) || (tf =? NULL) then
      ks ← load64 (task + t_kernel_stack);
      deallocate ks 0;;
      pt ← load64 (task + t_pagetable);
      deallocate pt 0;;
      kfree task;;
      mret NULL
    else
      kp ← get kernel_pagetable;
      store64 (tf + tf_kernel_satp) kp;;
      tf ← load64 (task + t_trap_frame);
      store64 (tf + tf_epc) 0;;
      map_result ← map_task_pages task shared_memory;
      if negb (map_result =? 0) then
        free_user_memory task;;
        kfree task;;
        mret NULL
      else
        fill_task task name parent shared_memory;;
        mret task.

Definition register_memory_section (task va size : Z) : M Z :=
  tmp_data ← kmalloc sizeof_memory_section;
  tmp ← make_single_linked_list_node tmp_data;
  if (tmp =? NULL) || (tmp_data =? NULL) then
    kfree tmp_data;;
    kfree tmp;;
    mret (-1)
  else
    store64 (tmp_data + ms_start) va;;
    store64 (tmp_data + ms_size) size;;
    push_tail (task + t_mem_sections) tmp;;
    mret 0.

Definition set_stack (task : Z) : M Z :=
  stack ← allocate_for_user 0;
  if stack =? NULL then mret (-1)
  else
    store64 (task + t_stack + ms_start) (SHARED_MEMORY - PGSIZE);;
    store64 (task + t_stack + ms_size) PGSIZE;;
    tf ← load64 (task + t_trap_frame);
    store64 (tf + tf_sp) SHARED_MEMORY;;
    pt ← load64 (task + t_pagetable);
    perm ← load64 (task + t_stack_permission);
    r ← map_page pt (SHARED_MEMORY - PGSIZE) stack perm;
    if negb (r =? 0) then deallocate stack 0;; mret (-1) else mret 0.

Definition available_from (task : Z) : M Z :=
  node ← load64 (task + t_mem_sections);
  loop (fun '(node, max) =>
    if node =? NULL then mret (inr max)
    else
      mem_section ← load64 (node + 8);
      start ← load64 (mem_section + ms_start);
      size ← load64 (mem_section + ms_size);
      next ← load64 node;
      mret (inl (next, if max <? start +w size then start +w size else max))) (node, 0).

(** ** Growing the stack (process.c, lines 760 to 793) *)

Definition within_stack_range (addr : Z) : bool :=
  (MIN_STACK_ADDR <=? addr) && (addr <? SHARED_MEMORY).

Definition enlarge_stack_by_a_page (task : Z) : M Z :=
  page ← allocate_for_user 0;
  if page =? NULL then mret (-1)
  else
    original_start ← load64 (task + t_stack + ms_start);
    let new_start := original_start -w PGSIZE in
    pt ← load64 (task + t_pagetable);
    perm ← load64 (task + t_stack_permission);
    r ← map_page pt new_start page perm;
    if negb (r =? 0) then deallocate page 0;; mret (-1)
    else
      start ← load64 (task + t_stack + ms_start);
      store64 (task + t_stack + ms_start) (start -w PGSIZE);;
      size ← load64 (task + t_stack + ms_size);
      store64 (task + t_stack + ms_size) (size +w PGSIZE);;
      mret 0.

Definition try_enlarge_stack (task addr : Z) : M Z :=
  if within_stack_range addr then
    let new_start := PGROUNDDOWN addr in
    start ← load64 (task + t_stack + ms_start);
    if new_start <? start then
      start ← load64 (task + t_stack + ms_start);
      let times_of_enlargement := (start -w new_start) / PGSIZE in
      loop (fun i =>
        if i <? times_of_enlargement then
          r ← enlarge_stack_by_a_page task;
          if negb (r =? 0) then mret (inr (-1)) else mret (inl (i +w 1))
        else mret (inr 0)) 0
    else mret 0
  else mret (-1).

(** ** Copying the user memory (virtual_memory.c, lines 186 to 226) *)

Definition copy_all_memory_with_pagetable (source target : Z) : M Z :=
  node ← head_node (source + t_mem_sections);
  failed ← for_nodes node (fun mem_section =>
    start ← load64 (mem_section + ms_start);
    size ← load64 (mem_section + ms_size);
    spt ← load64 (source + t_pagetable);
    tpt ← load64 (target + t_pagetable);
    r ← copy_memory_with_pagetable spt tpt start size;
    if negb (r =? 0) then free_user_memory target;; mret (Some (-1))
    else
      r ← register_memory_section target start size;
      if truth r then
        tpt ← load64 (target + t_pagetable);
        free_memory tpt start size;;
        free_user_memory target;;
        mret (Some (-1))
      else mret None);
  match failed with
  | Some r => mret r
  | None =>
    spt ← load64 (source + t_pagetable);
    tpt ← load64 (target + t_pagetable);
    start ← load64 (source + t_stack + ms_start);
    size ← load64 (source + t_stack + ms_size);
    r ← copy_memory_with_pagetable spt tpt start size;
    (if negb (r =? 0) then
       node2 ← head_node (target + t_mem_sections);
       for_nodes (A := unit) node2 (fun mem_section2 =>
         loop (fun offset =>
           size ← load64 (mem_section2 + ms_size);
           if offset <? size then
             tpt ← load64 (target + t_pagetable);
             start ← load64 (mem_section2 + ms_start);
             pa ← physical_address tpt (start +w offset);
             deallocate pa 0;;
             tpt ← load64 (target + t_pagetable);
             start ← load64 (mem_section2 + ms_start);
             unmap_page tpt (start +w offset);;
             mret (inl (offset +w PGSIZE))
           else mret (inr tt)) 0;;
         mret None);;
       mret tt
     else mret tt);;
    start ← load64 (source + t_stack + ms_start);
    store64 (target + t_stack + ms_start) start;;
    size ← load64 (source + t_stack + ms_size);
    store64 (target + t_stack + ms_size) size;;
    mret 0
  end.

(** ** elf.c *)

(** The comparisons of the magic number are joined by [||]: the first mismatch
    ends them. *)
Fixpoint check_elf_magic_from (elf : Z) (magic : list Z) : M Z :=
  match magic with
  | [] => mret 0
  | c :: magic =>
      b ← load8 elf;
      if negb (b =? c) then mret (-1) else check_elf_magic_from (elf +w 1) magic
  end.
Definition check_elf_magic (elf : Z) : M Z := check_elf_magic_from elf ELFMAG.

(** The permission of a segment from its [p_flags]. *)
Definition section_permission (flags : Z) : Z :=
  let permission := PTE_U in
  let permission := if truth (Z.land flags PF_R) then Z.lor permission PTE_R else permission in
  let permission := if truth (Z.land flags PF_W) then Z.lor permission PTE_W else permission in
  if truth (Z.land flags PF_X) then Z.lor permission PTE_X else permission.

(** One program header, at [phdr]: the body of the loop; [Some] is a return. *)
Definition load_segment (elf phdr task : Z) : M (option Z) :=
  type ← load32 (phdr + p_type);
  (if type =? PT_GNU_STACK then
     perm ← load64 (task + t_stack_permission);
     store64 (task + t_stack_permission) (Z.lor perm PTE_X)
   else mret tt);;
  type ← load32 (phdr + p_type);
  if negb (type =? PT_LOAD) then mret None
  else
    off ← load64 (phdr + p_offset);
    let src_addr := elf +w off in
    va ← load64 (phdr + p_vaddr);
    size ← load64 (phdr + p_memsz);
    src_size ← load64 (phdr + p_filesz);
    let section_start := PGROUNDDOWN va in
    let section_size := PGROUNDUP (va +w size) -w section_start in
    flags ← load32 (phdr + p_flags);
    pt ← load64 (task + t_pagetable);
    r ← map_section_for_user pt va src_addr src_size size (section_permission flags);
    if negb (r =? 0) then mret (Some (-1))
    else
      r ← register_memory_section task section_start section_size;
      if truth r then
        pt ← load64 (task + t_pagetable);
        free_memory pt va section_size;;
        mret (Some (-1))
      else mret None.

Definition load_elf (elf task : Z) : M Z :=
  magic ← check_elf_magic elf;
  if negb (magic =? 0) then mret (-1)
  else
    phoff ← load64 (elf + e_phoff);
    let phdr := elf +w phoff in
    loop (fun i =>
      phnum ← load16 (elf + e_phnum);
      if i <? phnum then
        r ← load_segment elf (phdr +w i * sizeof_phdr) task;
        match r with
        | Some v => mret (inr v)
        | None => mret (inl (i + 1))
        end
      else
        tf ← load64 (task + t_trap_frame);
        entry ← load64 (elf + e_entry);
        store64 (tf + tf_epc) entry;;
        mret (inr 0)) 0.

End Code.
