(* ===== verification/Process.v ===== *)
(** * Scheduling and system calls: process.c lines 197 to 815

    The scheduler over the two task lists, the life of a process (fork, exec,
    exit, wait, sleep), the system calls and the page-fault handlers, with
    [user_trap_return] of trap.c, which leaves the kernel for user mode. *)

From S2P Require Import Prelude Machine Utility Uart BuddySpec PageAlloc Kmalloc LinkedList PageTable Task.

(** signal_defs.h *)
Definition NOTHING : Z := 0.
Definition SIGINT : Z := 2.
Definition SIGKILL : Z := 9.

Definition SYSCALL_FORK : Z := 1.
Definition SYSCALL_EXEC : Z := 2.
Definition SYSCALL_EXIT : Z := 3.
Definition SYSCALL_WAIT : Z := 4.
Definition SYSCALL_WAIT_PID : Z := 5.
Definition SYSCALL_SEND_SIGNAL : Z := 6.
Definition SYSCALL_YIELD : Z := 7.
Definition SYSCALL_POWER_OFF : Z := 8.
Definition SYSCALL_PUT_CHAR : Z := 9.
Definition SYSCALL_GET_CHAR : Z := 10.

Section Code.
Context `{Hw : Platform} {Ops : PageOps}.

(** ** The running task and the run queue *)

Definition current_task : M Z :=
  rt ← get runnable_tasks;
  if rt =? NULL then mret NULL
  else node ← get running_task; load64 (node + 8).

Definition elf_file (name : cstr) : M Z :=
  r ← strcmp name (Lit "/init");
  if r =? 0 then mret init_program
  else
    r ← strcmp name (Lit "/sh");
    if r =? 0 then mret sh_program
    else
      r ← strcmp name (Lit "/echo");
      if r =? 0 then mret echo_program else mret NULL.

(** [runnable_tasks->size] is an [int64]. *)
Definition runnable_size : M Z :=
  rt ← get runnable_tasks; size ← load64 (rt + 16); mret (s64 size).

(** The loop of [scheduler]; one turn of it is [scheduler_turn]. *)
Definition scheduler_turn : M unit :=
  interrupt_off;;
  running ← get running_task;
  (if negb (running =? NULL)
   then panic "scheduler: trying to run a task while another task is running"
   else mret tt);;
  size ← runnable_size;
  (if 0 <? size then
     rt ← get runnable_tasks;
     task_node ← head_node rt;
     put running_task task_node;;
     task ← load64 (task_node + 8);
     store32 (task + t_state) RUNNING;;
     rt ← get runnable_tasks;
     pop_head_without_free rt;;
     switch_context now_context (task + t_context)
   else mret tt);;
  interrupt_on.

Definition scheduler : M unit :=
  loop (fun _ : unit => scheduler_turn;; mret (inl tt)) tt.

Definition next_task_to_run : M Z :=
  size ← runnable_size;
  if size =? 0 then mret NULL
  else
    rt ← get runnable_tasks;
    candidate_node ← head_node rt;
    candidate ← load64 (candidate_node + 8);
    loop (fun '(candidate_node, candidate) =>
      if candidate =? NULL then mret (inr candidate_node)
      else
        st ← load32 (candidate + t_state);
        if st =? RUNNABLE then mret (inr candidate_node)
        else
          rt ← get runnable_tasks;
          pop_head rt;;
          rt ← get runnable_tasks;
          candidate_node ← head_node rt;
          candidate ← load64 (candidate_node + 8);
          mret (inl (candidate_node, candidate))) (candidate_node, candidate).

(** The choice of the next task and the switch (lines 319 to 334). *)
Definition reschedule : M unit :=
  task ← current_task;
  size ← runnable_size;
  if size =? 0 then mret tt
  else
    is_running ← (if task =? NULL then mret false
                  else st ← load32 (task + t_state); mret (st =? RUNNING));
    old_context ← (if (is_running : bool) then
      store32 (task + t_state) RUNNABLE;;
      rt ← get runnable_tasks;
      node ← get running_task;
      push_tail rt node;;
      mret (task + t_context)
    else mret now_context);
    next ← next_task_to_run;
    put running_task next;;
    running ← get running_task;
    (if running =? NULL then panic "yield: no task to run" else mret tt);;
    new_task ← current_task;
    rt ← get runnable_tasks;
    pop_head_without_free rt;;
    store32 (new_task + t_state) RUNNING;;
    interrupt_on;;
    switch_context old_context (new_task + t_context).

Definition yield : M unit :=
  interrupt_off;;
  old_stack ← get stack_to_remove;
  deallocate old_stack 0;;
  next ← get stack_to_remove_next;
  put stack_to_remove next;;
  put stack_to_remove_next NULL;;
  reschedule.

(** ** Family relations *)

Definition reparent (task : Z) : M unit :=
  parent ← load64 (task + t_parent);
  if parent =? NULL then mret tt
  else
    st ← load32 (parent + t_state);
    if st =? ZOMBIE then
      init ← get init_task_ptr; store64 (task + t_parent) init
    else mret tt.

Definition is_alive (task : Z) : M bool :=
  if task =? NULL then mret false
  else
    st ← load32 (task + t_state);
    if negb (st =? ZOMBIE) then mret true
    else st ← load32 (task + t_state); mret (negb (st =? DEAD)).

Definition has_alive_child (task : Z) : M Z :=
  tasks ← get all_tasks;
  node ← load64 tasks;
  r ← for_nodes node (fun child =>
    parent ← load64 (child + t_parent);
    if parent =? task then
      alive ← is_alive child; mret (if (alive : bool) then Some 1 else None)
    else mret None);
  mret (default 0 r).

Definition get_one_zombie_child (task : Z) : M Z :=
  tasks ← get all_tasks;
  node ← load64 tasks;
  r ← for_nodes node (fun child =>
    parent ← load64 (child + t_parent);
    if parent =? task then
      st ← load32 (child + t_state); mret (if st =? ZOMBIE then Some child else None)
    else mret None);
  mret (default NULL r).

Definition find_task (pid : Z) : M Z :=
  tasks ← get all_tasks;
  node ← load64 tasks;
  r ← for_nodes node (fun task =>
    p ← load64 (task + t_pid);
    mret (if p =? pid then Some task else None));
  mret (default NULL r).

Definition is_ancestor (ancestor task : Z) : M Z :=
  if (task =? NULL) || (ancestor =? NULL) then mret 0
  else
    tmp ← load64 (task + t_parent);
    loop (fun tmp =>
      if tmp =? NULL then mret (inr 0)
      else if tmp =? ancestor then mret (inr 1)
      else tmp ← load64 (tmp + t_parent); mret (inl tmp)) tmp.

Definition child_with_pid (task pid : Z) : M Z :=
  child ← find_task pid;
  if child =? NULL then mret NULL
  else
    parent ← load64 (child + t_parent);
    if negb (parent =? task) then mret NULL
    else
      st ← load32 (child + t_state);
      mret (if negb (st =? ZOMBIE) then child else NULL).

(** ** The life of a process *)

(** The assignment of the trap frames copies the structure. *)
Definition fork_process (task : Z) : M Z :=
  child ← new_task (Ptr (task + t_name)) task;
  if child =? NULL then mret (w64 (-1))
  else
    map_result ← copy_all_memory_with_pagetable task child;
    ctf ← load64 (child + t_trap_frame);
    ttf ← load64 (task + t_trap_frame);
    memcpy ctf ttf sizeof_trap_frame;;
    ctf ← load64 (child + t_trap_frame);
    store64 (ctf + tf_a0) 0;;
    epc ← load64 (ctf + tf_epc);
    store64 (ctf + tf_epc) (epc +w 4);;
    if negb (map_result =? 0) then
      free_user_memory task;;
      kfree task;;
      mret (w64 (-1))
    else
      rt ← get runnable_tasks;
      node ← make_single_linked_list_node child;
      push_tail rt node;;
      at_ ← get all_tasks;
      node ← make_single_linked_list_node child;
      push_tail at_ node;;
      load64 (child + t_pid).

(** [int] values are stored in 32 bits and widened with their sign. *)
Definition load_int (a : Z) : M Z := v ← load32 a; mret (s32 v).
Definition store_int (a v : Z) : M unit := store32 a (w32 v).

Definition exit_process (task status : Z) : M unit :=
  (if task =? NULL then panic "exit_process: the process is NULL" else mret tt);;
  parent ← load64 (task + t_parent);
  (if parent =? NULL then panic "exit_process: exit from init process" else mret tt);;
  free_user_memory task;;
  store32 (task + t_state) ZOMBIE;;
  store_int (task + t_exit_status) status;;
  tasks ← get all_tasks;
  for_each_node tasks reparent;;
  parent ← load64 (task + t_parent);
  st ← load32 (parent + t_state);
  (if st =? SLEEPING then
     channel ← load64 (parent + t_channel);
     if (channel =? parent) || (channel =? task) then
       store32 (task + t_state) DEAD;;
       store32 (parent + t_state) RUNNABLE;;
       tf ← load64 (parent + t_trap_frame);
       pid ← load64 (task + t_pid);
       store64 (tf + tf_a0) pid;;
       tf ← load64 (parent + t_trap_frame);
       exit_status ← load_int (task + t_exit_status);
       store64 (tf + tf_a1) (w64 exit_status);;
       rt ← get runnable_tasks;
       node ← make_single_linked_list_node parent;
       push_tail rt node;;
       mret tt
     else mret tt
   else mret tt);;
  yield;;
  panic (String.append "exit_process: should not reach here" newline).

Definition sleep (task channel : Z) : M unit :=
  store32 (task + t_state) SLEEPING;;
  store64 (task + t_channel) channel;;
  rt ← get runnable_tasks;
  removeAt rt task;;
  yield.

(** ** Returning to user mode (trap.c, lines 167 to 207) *)

Definition user_trap_return : M unit :=
  task ← current_task;
  interrupt_off;;
  let trampoline_user_vector := TRAMPOLINE +w (user_vector -w trampoline) in
  write_stvec trampoline_user_vector;;
  tf ← load64 (task + t_trap_frame);
  kernel_satp ← read_satp;
  store64 (tf + tf_kernel_satp) kernel_satp;;
  ks ← load64 (task + t_kernel_stack);
  tf ← load64 (task + t_trap_frame);
  store64 (tf + tf_kernel_sp) (ks +w PGSIZE);;
  tf ← load64 (task + t_trap_frame);
  store64 (tf + tf_kernel_trap) user_trap_addr;;
  x ← read_sstatus;
  let x := Z.land x (not64 SSTATUS_SPP) in
  let x := Z.lor x SSTATUS_SPIE in
  write_sstatus x;;
  tf ← load64 (task + t_trap_frame);
  epc ← load64 (tf + tf_epc);
  write_sepc epc;;
  pt ← load64 (task + t_pagetable);
  let satp_value := MAKE_SATP pt in
  let trampoline_user_return := TRAMPOLINE +w (user_return -w trampoline) in
  jump_user_return trampoline_user_return satp_value.

(** ** exec *)

(** The loops that move a pointer past the characters of a string, and past the
    NULs between strings. *)
Definition skip_chars (ptr : Z) : M Z :=
  loop (fun ptr => c ← load8 ptr;
    if truth c then mret (inl (ptr +w 1)) else mret (inr ptr)) ptr.
Definition skip_nuls (ptr : Z) : M Z :=
  loop (fun ptr => c ← load8 ptr;
    if truth c then mret (inr ptr) else mret (inl (ptr +w 1))) ptr.

(** [for (i = 0; i < n; i++)]: the addresses, in the new process, of [n]
    consecutive strings from [str] on are stored from [vec] on. *)
Definition fill_vector (vec n str va shared : Z) : M unit :=
  loop (fun '(i, str) =>
    if i <? n then
      store64 (vec +w 8 * i) (va +w (str -w shared));;
      str ← skip_chars str;
      mret (inl (i + 1, str +w 1))
    else mret (inr tt)) (0, str).

(** The new name (lines 560 to 575). *)
Definition rename_task (task arguments argv_size : Z) : M unit :=
  for_range 31 1 (fun i => store8 (task + t_name + i) 0);;
  loop (fun '(i, arguments, arguments_count) =>
    if i <? 31 then
      c ← load8 arguments;
      if truth c then
        store8 (task + t_name + i) c;;
        mret (inl (i + 1, arguments +w 1, arguments_count))
      else
        let arguments_count := arguments_count + 1 in
        if argv_size <=? arguments_count then mret (inr tt)
        else
          store8 (task + t_name + i) (code " ");;
          arguments ← skip_nuls arguments;
          mret (inl (i + 1, arguments, arguments_count))
    else mret (inr tt)) (0, arguments, 1);;
  store8 (task + t_name + 31) 0.

(** The strings in the shared page (lines 509 to 514): where the loops
    below look for the arguments and for the environment. *)
Definition exec_strings (name argv_size : Z) : M (Z * Z) :=
  ptr ← skip_chars name;
  ptr ← skip_nuls ptr;
  let argv := ptr in
  let ptr := ptr +w argv_size in
  let envp := ptr in
  mret (argv, envp).

(** The copy of the shared page, both vectors in the page after it, and the
    registers of the program (lines 523 to 544); the result is [va], where the
    two pages will be mapped. *)
Definition exec_vectors (task page argv argv_size envp envp_size : Z) : M Z :=
  let env := page in
  shared ← load64 (task + t_shared_memory);
  memcpy env shared PGSIZE;;
  va ← available_from task;
  let argv_ptr := page +w PGSIZE in
  let envp_ptr := argv_ptr +w 8 * (argv_size + 1) in
  shared ← load64 (task + t_shared_memory);
  fill_vector argv_ptr argv_size argv va shared;;
  store64 (argv_ptr +w 8 * argv_size) NULL;;
  fill_vector envp_ptr envp_size envp va shared;;
  store64 (envp_ptr +w 8 * envp_size) NULL;;
  tf ← load64 (task + t_trap_frame);
  store64 (tf + tf_a0) (w64 argv_size);;
  store64 (tf + tf_a1) (va +w (argv_ptr -w env));;
  store64 (tf + tf_a2) (va +w (envp_ptr -w env));;
  mret va.

(** [exit_process] does not return: what follows it is not reached. *)
Definition exec_process (task argv_size envp_size : Z) : M Z :=
  interrupt_off;;
  name ← load64 (task + t_shared_memory);
  elf ← elf_file (Ptr name);
  if elf =? NULL then mret (w64 (-1))
  else
    clear_user_memory_space task;;
    tf ← load64 (task + t_trap_frame);
    memset tf 0 PGSIZE;;
    strings ← exec_strings name argv_size;
    let '(argv, envp) := strings in
    let arguments := argv in
    r ← load_elf elf task;
    failed ← (if truth r then mret true else r ← set_stack task; mret (negb (r =? 0)));
    (if (failed : bool) then exit_process task (-1) else mret tt);;
    page ← allocate_for_user 1;
    (if page =? NULL then exit_process task (-1) else mret tt);;
    va ← exec_vectors task page argv argv_size envp envp_size;
    r ← register_memory_section task va (PGSIZE * 2);
    (if negb (r =? 0) then exit_process task (-1) else mret tt);;
    pt ← load64 (task + t_pagetable);
    r ← map_page pt va page (Z.lor (Z.lor PTE_R PTE_W) PTE_U);
    (if negb (r =? 0) then exit_process task (-1) else mret tt);;
    pt ← load64 (task + t_pagetable);
    r ← map_page pt (va +w PGSIZE) (page +w PGSIZE) (Z.lor (Z.lor PTE_R PTE_W) PTE_U);
    (if negb (r =? 0) then exit_process task (-1) else mret tt);;
    rename_task task arguments argv_size;;
    interrupt_on;;
    user_trap_return;;
    panic (String.append "exec_process: should not reach here" newline).

(** ** System calls *)

Definition sys_fork (task : Z) : M Z := fork_process task.

Definition sys_exec (task : Z) : M Z :=
  tf ← load64 (task + t_trap_frame);
  argv_size ← load64 (tf + tf_a3);
  envp_size ← load64 (tf + tf_a4);
  exec_process task (s32 argv_size) (s32 envp_size).

Definition sys_exit (task : Z) : M Z :=
  tf ← load64 (task + t_trap_frame);
  status ← load64 (tf + tf_a0);
  exit_process task (s32 status);;
  mret 0.

(** Reaping a zombie (shared by the two wait calls). *)
Definition reap (task zombie_child status_ptr : Z) : M Z :=
  (if truth status_ptr then
     status ← load64 (task + t_shared_memory);
     exit_status ← load_int (zombie_child + t_exit_status);
     store_int status exit_status
   else mret tt);;
  store32 (zombie_child + t_state) DEAD;;
  load64 (zombie_child + t_pid).

(** What follows [sleep]: the result left by the child that exited. *)
Definition woken (task status_ptr : Z) : M Z :=
  (if truth status_ptr then
     status ← load64 (task + t_shared_memory);
     tf ← load64 (task + t_trap_frame);
     saved ← load64 (tf + tf_a1);
     store_int status (s32 saved)
   else mret tt);;
  tf ← load64 (task + t_trap_frame);
  load64 (tf + tf_a0).

Definition sys_wait (task : Z) : M Z :=
  zombie_child ← get_one_zombie_child task;
  tf ← load64 (task + t_trap_frame);
  status_ptr ← load64 (tf + tf_a0);
  if negb (zombie_child =? NULL) then reap task zombie_child status_ptr
  else
    alive ← has_alive_child task;
    if alive =? NULL then mret (w64 (-1))
    else
      sleep task task;;
      woken task status_ptr.

(** Lines 678 to 695 choose a zombie or a channel; [None] is [return -1]. *)
Definition wait_pid_target (task pid : Z) : M (option (Z * Z)) :=
  if s64 pid =? -1 then
    zombie_child ← get_one_zombie_child task;
    alive ← (if zombie_child =? NULL then has_alive_child task else mret 1);
    if alive =? NULL then mret None else mret (Some (zombie_child, task))
  else
    child ← child_with_pid task pid;
    if child =? NULL then mret None
    else
      st ← load32 (child + t_state);
      if st =? ZOMBIE then mret (Some (child, NULL)) else mret (Some (NULL, child)).

Definition sys_wait_pid (task : Z) : M Z :=
  tf ← load64 (task + t_trap_frame);
  pid ← load64 (tf + tf_a0);
  target ← wait_pid_target task pid;
  match target with
  | None => mret (w64 (-1))
  | Some (zombie_child, channel) =>
    tf ← load64 (task + t_trap_frame);
    status_ptr ← load64 (tf + tf_a1);
    if negb (zombie_child =? NULL) then reap task zombie_child status_ptr
    else
      sleep task channel;;
      woken task status_ptr
  end.

Definition sys_send_signal (task : Z) : M Z :=
  tf ← load64 (task + t_trap_frame);
  pid ← load64 (tf + tf_a0);
  tf ← load64 (task + t_trap_frame);
  signal ← load64 (tf + tf_a1);
  let signal := s32 signal in
  target ← find_task pid;
  ancestor ← is_ancestor task target;
  refuse ← (if ancestor =? 0 then mret true else is_alive target);
  if (refuse : bool) then mret (w64 (-1))
  else
    (if signal =? NOTHING then mret tt
     else if signal =? SIGINT then exit_process target 2
     else if signal =? SIGKILL then exit_process target 9
     else mret tt);;
    mret (w64 signal).

Definition sys_yield (task : Z) : M Z := yield;; mret 0.

Definition sys_power_off (task : Z) : M Z :=
  pid ← load64 (task + t_pid);
  if negb (s64 pid =? 1) then mret (w64 (-1))
  else mmio_write VIRT_TEST 0x5555;; mret 0.

Definition sys_put_char (task : Z) : M Z :=
  tf ← load64 (task + t_trap_frame);
  c ← load64 (tf + tf_a0);
  print_char (w8 c);;
  mret 0.

(** Waiting for a character: other tasks run while there are any, then the
    processor waits for an interrupt ([wfi] changes no state). *)
Definition sys_get_char (task : Z) : M Z :=
  loop (fun _ : unit =>
    c ← uart_getc;
    if negb (c =? -1) then mret (inr tt)
    else
      size ← runnable_size;
      if 0 <? size then yield;; mret (inl tt) else mret (inr tt)) tt;;
  c ← loop (fun _ : unit =>
    c ← uart_getc;
    if c =? -1 then mret (inl tt) else mret (inr c)) tt;
  mret (w64 c).

(** The table [syscalls]; other entries do not exist. *)
Definition syscalls (id : Z) : option (Z -> M Z) :=
  if id =? SYSCALL_FORK then Some sys_fork
  else if id =? SYSCALL_EXEC then Some sys_exec
  else if id =? SYSCALL_EXIT then Some sys_exit
  else if id =? SYSCALL_WAIT then Some sys_wait
  else if id =? SYSCALL_WAIT_PID then Some sys_wait_pid
  else if id =? SYSCALL_SEND_SIGNAL then Some sys_send_signal
  else if id =? SYSCALL_YIELD then Some sys_yield
  else if id =? SYSCALL_POWER_OFF then Some sys_power_off
  else if id =? SYSCALL_PUT_CHAR then Some sys_put_char
  else if id =? SYSCALL_GET_CHAR then Some sys_get_char
  else None.

Definition syscall : M unit :=
  current ← current_task;
  (if current =? NULL then panic "syscall: no task running!" else mret tt);;
  tf ← load64 (current + t_trap_frame);
  a7 ← load64 (tf + tf_a7);
  let id := s32 a7 in
  match syscalls id with
  | Some handler =>
      r ← handler current;
      tf ← load64 (current + t_trap_frame);
      store64 (tf + tf_a0) r;;
      tf ← load64 (current + t_trap_frame);
      epc ← load64 (tf + tf_epc);
      store64 (tf + tf_epc) (epc +w 4)
  | None =>
      print_string (Lit "syscall: unknown syscall id: ");;
      print_int (w64 id) 10;;
      print_string (Lit (String.append "." newline));;
      tf ← load64 (current + t_trap_frame);
      store64 (tf + tf_a0) (w64 (-1))
  end.

(** ** Page faults *)

Definition report_page_fault (message : string) (task addr : Z) : M unit :=
  print_string (Lit message);;
  print_int addr 16;;
  print_string (Lit ", pid ");;
  pid ← load64 (task + t_pid);
  print_int pid 10;;
  print_string (Lit newline);;
  exit_process task (-1).

Definition handle_load_page_fault (task : Z) : M unit :=
  addr ← read_stval;
  r ← try_enlarge_stack task addr;
  if r =? 0 then mret tt else report_page_fault "Load page fault at " task addr.

Definition handle_store_page_fault (task : Z) : M unit :=
  addr ← read_stval;
  r ← try_enlarge_stack task addr;
  if r =? 0 then mret tt else report_page_fault "Store page fault at " task addr.

(** ** Starting the scheduler (lines 237 to 277) *)

Definition init_scheduler : M unit :=
  l ← create_single_linked_list; put runnable_tasks l;;
  l ← create_single_linked_list; put all_tasks l;;
  init_task ← new_task (Lit "init") NULL;
  (if init_task =? NULL then panic "init_scheduler: cannot create init task" else mret tt);;
  load_elf init_program init_task;;
  r ← set_stack init_task;
  (if negb (r =? 0) then panic "init_scheduler: cannot set stack for init task" else mret tt);;
  page ← allocate_for_user 1;
  let env := page in
  let vectors := page +w PGSIZE in
  (if page =? NULL then panic "init_scheduler: cannot allocate page for init task" else mret tt);;
  va ← available_from init_task;
  r ← register_memory_section init_task va (PGSIZE * 2);
  (if negb (r =? 0)
   then panic "init_scheduler: cannot register memory section for init task" else mret tt);;
  pt ← load64 (init_task + t_pagetable);
  r ← map_page pt va page (Z.lor (Z.lor PTE_R PTE_W) PTE_U);
  (if negb (r =? 0) then panic "init_scheduler: cannot map page for init task" else mret tt);;
  pt ← load64 (init_task + t_pagetable);
  r ← map_page pt (va +w PGSIZE) (page +w PGSIZE) (Z.lor (Z.lor PTE_R PTE_W) PTE_U);
  (if negb (r =? 0) then panic "init_scheduler: cannot map page for init task" else mret tt);;
  strcpy env (Lit "init") 5;;
  store64 vectors va;;
  store64 (vectors + 8) NULL;;
  store64 (vectors + 16) NULL;;
  tf ← load64 (init_task + t_trap_frame);
  store64 (tf + tf_a0) 1;;
  store64 (tf + tf_a1) (va +w PGSIZE);;
  store64 (tf + tf_a2) (va +w PGSIZE +w 16);;
  tasks ← get all_tasks;
  node ← make_single_linked_list_node init_task;
  push_tail tasks node;;
  rt ← get runnable_tasks;
  node ← make_single_linked_list_node init_task;
  push_tail rt node;;
  put init_task_ptr init_task.

End Code.
