(* ===== verification/TaskTable.v ===== *)
(** * The table of tasks

    Proofs about the searches of process.c in the list of all tasks and along
    the chain of parents: each is a search in a mathematical list and changes
    nothing. *)

From S2P Require Import Prelude Machine Utility Uart Chain BuddySpec PageAlloc Kmalloc LinkedList LinkedListProof PageTable Task Process.

(** ** Fields of a task in memory *)

Definition state_of (m : gmap Z Z) (t : Z) : Z := rd 4 m (t + t_state).
Definition pid_of (m : gmap Z Z) (t : Z) : Z := rd64 m (t + t_pid).
Definition parent_of (m : gmap Z Z) (t : Z) : Z := rd64 m (t + t_parent).
Definition trap_frame_of (m : gmap Z Z) (t : Z) : Z := rd64 m (t + t_trap_frame).

(** The [task_struct] at [t] and the trap frame at [a] are in the RAM. *)
Definition task_ok (t : Z) : Prop := KERNBASE <= t /\ t + sizeof_task_struct <= PHYSTOP.
Definition frame_ok (a : Z) : Prop := KERNBASE <= a /\ a + sizeof_trap_frame <= PHYSTOP.

(** [task_table s ts]: [all_tasks] lists the tasks [ts]. *)
Definition task_table (s : state) (ts : list Z) : Prop :=
  exists l, list_rep (mem s) (glob s all_tasks) l /\ l.*2 = ts /\ Forall task_ok ts.

(** [lineage m t c]: the parents of [t], from its own to the one without. *)
Fixpoint lineage (m : gmap Z Z) (t : Z) (c : list Z) : Prop :=
  match c with
  | [] => parent_of m t = NULL
  | p :: c => parent_of m t = p /\ task_ok p /\ lineage m p c
  end.

(** The first result of [g] along a list. *)
Fixpoint first_some {A} (g : Z -> option A) (ds : list Z) : option A :=
  match ds with
  | [] => None
  | d :: ds => match g d with Some a => Some a | None => first_some g ds end
  end.

Definition search (b : Z -> bool) (ts : list Z) : Z := default NULL (List.find b ts).

Lemma first_some_find (b : Z -> bool) (ts : list Z) :
  first_some (fun t => if b t then Some t else None) ts = List.find b ts.
Proof. induction ts as [|t ts IH]; simpl; [done|]. by destruct (b t). Qed.

Lemma first_some_exists (b : Z -> bool) (v : Z) (ts : list Z) :
  default 0 (first_some (fun t => if b t then Some v else None) ts) =
  if existsb b ts then v else 0.
Proof. induction ts as [|t ts IH]; simpl; [done|]. by destruct (b t). Qed.

Lemma first_some_ext {A} (g g' : Z -> option A) ts :
  (forall t, t ∈ ts -> g t = g' t) -> first_some g ts = first_some g' ts.
Proof.
  induction ts as [|t ts IH]; intros H; simpl; [done|]. rewrite H by set_solver.
  destruct (g' t); [done|]. apply IH. set_solver.
Qed.

Lemma search_some b (ts : list Z) (t : Z) : search b ts = t -> t <> NULL -> t ∈ ts /\ b t = true.
Proof.
  unfold search. intros H Ht. destruct (List.find b ts) as [x|] eqn:E; [|done]. simpl in H. subst x.
  apply find_some in E as [Hin Hb]. by rewrite list_elem_of_In.
Qed.

Lemma task_nonnull t : task_ok t -> t <> NULL.
Proof. unfold task_ok, KERNBASE, NULL. lia. Qed.

Ltac task_unfold :=
  unfold task_ok, frame_ok, sizeof_task_struct, sizeof_trap_frame, t_state, t_channel, t_pid,
    t_parent, t_kernel_stack, t_mem_sections, t_stack_permission, t_stack, t_pagetable,
    t_trap_frame, t_shared_memory, t_context, t_exit_status, t_name, context_ra, context_sp,
    ms_start, ms_size, tf_kernel_satp, tf_kernel_sp, tf_kernel_trap, tf_epc, tf_sp, tf_a0,
    tf_a1, tf_a2, tf_a3, tf_a4, tf_a7 in *.

(** [wp_step] for accesses to the fields of tasks and trap frames. *)
Ltac task_ram := simpl; apply in_ram_true; task_unfold; unfold PHYSTOP, KERNBASE in *; lia.
Ltac wp_task :=
  lazymatch goal with
  | |- wp (load _ _) _ _ => apply wp_load; [task_ram|]
  | |- wp (store _ _ _) _ _ => apply wp_store; [task_ram|]
  | _ => wp_step
  end.

Section Table.
Context `{Hw : Platform} {Ops : PageOps}.

Lemma for_nodes_pure {A} (g : Z -> option A) L l f s :
  list_rep (mem s) L l ->
  (forall d, d ∈ l.*2 -> wp (f d) (fun r s' => r = g d /\ s' = s) s) ->
  wp (for_nodes (hd0 l.*1) f) (fun r s' => r = first_some g l.*2 /\ s' = s) s.
Proof.
  intros Hrep Hf. destruct (rep_range _ _ _ Hrep) as (_ & _ & Hlen). unfold for_nodes.
  apply (wp_loop (fun n node s' => s' = s /\ exists l1 l2, l = l1 ++ l2 /\ node = hd0 l2.*1 /\
    n = Z.of_nat (length l2) /\ first_some g l.*2 = first_some g l2.*2) (Z.of_nat (length l)));
    [|lia|].
  { split; [done|]. by exists [], l. }
  intros n node s' (-> & l1 & l2 & Hl & -> & -> & Hg). split; [lia|].
  destruct l2 as [|[x d] l2]; [simpl; wp_step; by rewrite Hg|].
  rewrite fmap_cons, hd0_cons. simpl fst.
  destruct (rep_node _ _ _ Hrep x d ltac:(rewrite Hl; set_solver)) as (? & ? & _).
  rewrite (proj2 (Z.eqb_neq x NULL)) by (unfold NULL, KERNBASE in *; lia).
  wp_ram. wp_ram. pose proof (rep_data _ _ _ Hrep) as Hd.
  rewrite Hl in Hd. apply Forall_app in Hd as [_ [Hd _]%Forall_cons]. simpl in Hd. rewrite Hd. wp_step.
  eapply wp_mono; [apply Hf; rewrite Hl, fmap_app; set_solver|].
  intros r s' (-> & ->). simpl in Hg. destruct (g d) as [a|]; [by wp_step|].
  wp_ram. wp_ram. wp_step. exists (Z.of_nat (length l2)). simpl length. split; [lia|].
  split; [done|]. exists (l1 ++ [(x, d)]), l2. rewrite <-app_assoc. split; [done|].
  split; [|done]. pose proof (rep_chain _ _ _ Hrep) as Hc. rewrite Hl, fmap_app in Hc.
  apply chain_tail in Hc. simpl in Hc. destruct Hc as [_ Hc]. by rewrite (chain_hd _ _ _ Hc).
Qed.

(** A search through [all_tasks], with what follows it. *)
Lemma search_tasks {A B} (g : Z -> option A) f (k : option A -> M B) ts s (Q : B -> state -> Prop) :
  task_table s ts ->
  (forall t, task_ok t -> wp (f t) (fun r s' => r = g t /\ s' = s) s) ->
  wp (k (first_some g ts)) Q s ->
  wp (tasks ← get all_tasks; node ← load64 tasks; r ← for_nodes node f; k r) Q s.
Proof.
  intros (l & Hrep & <- & Hok) Hf HQ. rewrite Forall_forall in Hok.
  destruct (rep_range _ _ _ Hrep) as (? & ? & _). wp_step. wp_step. wp_ram. wp_ram.
  rewrite (chain_hd _ _ _ (rep_chain _ _ _ Hrep)). wp_step.
  eapply wp_mono; [apply (for_nodes_pure g (glob s all_tasks) l); [done|by auto]|]. by intros r s' (-> & ->).
Qed.

Lemma find_task_ok ts pid s (Q : Z -> state -> Prop) :
  task_table s ts -> Q (search (fun t => pid_of (mem s) t =? pid) ts) s ->
  wp (find_task pid) Q s.
Proof.
  intros Ht HQ. unfold find_task.
  apply (search_tasks (fun t => if pid_of (mem s) t =? pid then Some t else None) _ _ ts); [done| |].
  - intros t Hok. wp_task. wp_task. by wp_step.
  - rewrite (first_some_find (fun t => pid_of (mem s) t =? pid)). by wp_step.
Qed.

Definition zombie_child_of (m : gmap Z Z) (task t : Z) : bool :=
  (parent_of m t =? task) && (state_of m t =? ZOMBIE).

Lemma get_one_zombie_child_ok ts task s (Q : Z -> state -> Prop) :
  task_table s ts -> Q (search (zombie_child_of (mem s) task) ts) s ->
  wp (get_one_zombie_child task) Q s.
Proof.
  intros Ht HQ. unfold get_one_zombie_child.
  apply (search_tasks (fun t => if zombie_child_of (mem s) task t then Some t else None) _ _ ts);
    [done| |].
  - intros t Hok. unfold zombie_child_of. wp_task. wp_task.
    destruct (Z.eqb_spec (rd64 (mem s) (t + t_parent)) task) as [E|E];
      unfold parent_of; [rewrite E, Z.eqb_refl|rewrite (proj2 (Z.eqb_neq _ _) E); by wp_step].
    wp_task. wp_task. by wp_step.
  - rewrite (first_some_find (zombie_child_of (mem s) task)). by wp_step.
Qed.

(** No state is neither different from ZOMBIE nor different from DEAD. *)
Lemma is_alive_ok t s (Q : bool -> state -> Prop) :
  task_ok t -> Q true s -> wp (is_alive t) Q s.
Proof.
  intros Hok HQ. unfold is_alive. rewrite (proj2 (Z.eqb_neq _ _) (task_nonnull t Hok)).
  wp_task. wp_task. destruct (Z.eqb_spec (rd 4 (mem s) (t + t_state)) ZOMBIE) as [E|E]; simpl negb.
  - wp_task. wp_task. wp_task. rewrite E. by wp_step.
  - wp_step; by wp_step.
Qed.

Lemma has_alive_child_ok ts task s (Q : Z -> state -> Prop) :
  task_table s ts ->
  Q (if existsb (fun t => parent_of (mem s) t =? task) ts then 1 else 0) s ->
  wp (has_alive_child task) Q s.
Proof.
  intros Ht HQ. unfold has_alive_child.
  apply (search_tasks (fun t => if parent_of (mem s) t =? task then Some 1 else None) _ _ ts);
    [done| |].
  - intros t Hok. wp_task. wp_task. change (rd64 (mem s) (t + t_parent)) with (parent_of (mem s) t).
    destruct (parent_of (mem s) t =? task); [|by wp_step].
    wp_task. apply is_alive_ok; [done|]. by wp_step.
  - rewrite (first_some_exists (fun t => parent_of (mem s) t =? task)). by wp_step.
Qed.

(** [child_with_pid]: the first task with the pid, if it is a child of [task]
    and no zombie. *)
Lemma child_with_pid_ok ts task pid s (Q : Z -> state -> Prop) :
  task_table s ts ->
  Q (let c := search (fun t => pid_of (mem s) t =? pid) ts in
     if (c =? NULL) || negb (parent_of (mem s) c =? task) || (state_of (mem s) c =? ZOMBIE)
     then NULL else c) s ->
  wp (child_with_pid task pid) Q s.
Proof.
  intros Ht HQ. unfold child_with_pid. wp_step. apply (find_task_ok ts); [done|].
  cbv zeta in HQ. set (c := search _ ts) in *.
  destruct (Z.eqb_spec c NULL) as [E|E]; [by wp_step|].
  assert (Hok : task_ok c).
  { destruct Ht as (l & _ & _ & Hok). rewrite Forall_forall in Hok. apply Hok.
    by apply (search_some (fun t => pid_of (mem s) t =? pid)). }
  wp_task. wp_task. change (rd64 (mem s) (c + t_parent)) with (parent_of (mem s) c).
  destruct (parent_of (mem s) c =? task); simpl in *; [|by wp_step].
  wp_task. wp_task. wp_step. change (rd 4 (mem s) (c + t_state)) with (state_of (mem s) c).
  by destruct (state_of (mem s) c =? ZOMBIE).
Qed.

Lemma is_ancestor_ok a t c s (Q : Z -> state -> Prop) :
  t = NULL \/ task_ok t -> (t <> NULL -> lineage (mem s) t c) -> Z.of_nat (length c) < 2 ^ 64 ->
  Q (if (t =? NULL) || (a =? NULL) then 0 else if bool_decide (a ∈ c) then 1 else 0) s ->
  wp (is_ancestor a t) Q s.
Proof.
  intros Ht Hc Hlen HQ. unfold is_ancestor.
  destruct (Z.eqb_spec t NULL) as [E|E]; simpl in *; [by wp_step|].
  destruct (Z.eqb_spec a NULL) as [Ea|Ea]; simpl in *; [by wp_step|].
  destruct Ht as [?|Ht]; [done|]. specialize (Hc E). wp_task. wp_task.
  apply (wp_loop (fun n tmp s' => s' = s /\ exists t' c1 c2, tmp = parent_of (mem s) t' /\
    n = Z.of_nat (length c2) /\ lineage (mem s) t' c2 /\ c = c1 ++ c2 /\ a ∉ c1)
    (Z.of_nat (length c))); [|lia|].
  { split; [done|]. exists t, [], c. split; [done|]. split; [done|]. split; [done|].
    split; [done|]. apply not_elem_of_nil. }
  intros n tmp s' (-> & t' & c1 & c2 & -> & -> & Hl & -> & Hn). split; [lia|].
  destruct c2 as [|p c2]; simpl in Hl.
  - rewrite Hl. simpl. wp_step. rewrite app_nil_r in HQ. by rewrite bool_decide_false in HQ.
  - destruct Hl as (-> & Hp & Hl). rewrite (proj2 (Z.eqb_neq _ _) (task_nonnull p Hp)).
    destruct (Z.eqb_spec p a) as [->|Hne].
    + wp_step. rewrite bool_decide_true in HQ by set_solver. done.
    + wp_task. wp_task. wp_step. exists (Z.of_nat (length c2)). simpl length. split; [lia|].
      split; [done|]. exists p, (c1 ++ [p]), c2. split; [done|]. split; [done|]. split; [done|].
      rewrite <-app_assoc. split; [done|]. set_solver.
Qed.

End Table.
