(* ===== verification/UserStack.v ===== *)
(** * The user stack

    Proofs about the growth of a user stack on a page fault (process.c lines 760
    to 793): the stack of a task as an abstract state [stack_rep], and the loop
    that enlarges it page by page. *)

From S2P Require Import Prelude Machine Utility Uart BuddySpec PageAlloc Kmalloc LinkedList PageTable PageTableProof Task Process TaskTable.

(** The stack grows down from SHARED_MEMORY: its [k]-th page. *)
Definition stack_top : Z := SHARED_MEMORY / PGSIZE.
Definition stack_vpn (k : Z) : Z := stack_top - 1 - k.

(** The page table after the pages [n], [n + 1], ... of the stack are mapped to
    the frames [ps]. *)
Fixpoint map_frames (E : Z -> Z) (n : Z) (ps : list Z) (permission : Z) : Z -> Z :=
  match ps with
  | [] => E
  | p :: ps => map_frames (<[stack_vpn n := leaf p permission]> E) (n + 1) ps permission
  end.

Lemma map_frames_snoc E n ps p permission :
  map_frames E n (ps ++ [p]) permission =
  <[stack_vpn (n + Z.of_nat (length ps)) := leaf p permission]> (map_frames E n ps permission).
Proof.
  revert E n. induction ps as [|q ps IH]; intros E n; simpl.
  - by rewrite Z.add_0_r.
  - rewrite IH. f_equal. f_equal. lia.
Qed.

Section Stack.
Context `{Hw : Platform} {HwOk : PlatformOk Hw} {Ops : PageOps} {HA : PageAllocator Ops}.

Lemma exhausted_order0 F : exhausted F 0 -> exhausted F 1.
Proof.
  intros He y (Ho & Hal & Hlo & Hhi) Hb. change (bsz 1) with 8192 in *.
  apply (He y); [|intros a Ha; apply Hb; change (bsz 0) with 4096 in Ha; lia].
  split; [done|]. change (bsz 0) with 4096. split; [|lia]. etrans; [|exact Hal]. by exists 2.
Qed.

(** Frames that hold zeros, taken from [F] and not used by the page table. *)
Definition fresh_frame (F : Z -> Prop) (m : gmap Z Z) (F' : Z -> Prop) (T' : tables) (p : Z) : Prop :=
  good_block kernel_end PHYSTOP 0 p /\
  forall a, p <= a < p + PGSIZE -> F a /\ ~ vm_bytes F' T' a /\ rd8 m a = 0.

(** The task at [t] has the page table [root] and a stack of [n] pages, all of
    them mapped, and the pages below them are not. *)
Record stack_rep (s : state) (F : Z -> Prop) (t root : Z) (E : Z -> Z) (T : tables)
    (n permission : Z) : Prop := {
  sk_task : task_ok t;
  sk_pagetable : rd64 (mem s) (t + t_pagetable) = root;
  sk_permission : rd64 (mem s) (t + t_stack_permission) = permission;
  sk_start : rd64 (mem s) (t + t_stack + ms_start) = SHARED_MEMORY - n * PGSIZE;
  sk_size : rd64 (mem s) (t + t_stack + ms_size) = n * PGSIZE;
  sk_pages : 0 <= n <= 1024;
  sk_bits : 0 <= permission < 1024;
  sk_vm : vm_at s F root E T;
  sk_apart : forall a, t <= a < t + sizeof_task_struct -> ~ vm_bytes F T a;
  sk_mapped : forall k, 0 <= k < n -> valid (E (stack_vpn k)) = true;
  sk_free : forall k, n <= k < 1024 -> valid (E (stack_vpn k)) = false
}.

Lemma vm_at_frame s s' F F' root E T : vm_at s F root E T ->
  (forall a, table_byte T a -> rd8 (mem s') a = rd8 (mem s) a) ->
  (forall a, table_byte T a -> ~ F' a) -> pool_owns (mem s') F' -> vm_at s' F' root E T.
Proof.
  intros (Hrep & _ & HE) Hb HF Hp. split; [|split; [done|]].
  - destruct (pt_rep_frame (mem s) (mem s') F F root T Hrep Hb ltac:(done)) as [Hr Hpg Hc Hi Hl].
    split; [done| |done..]. intros l p H. destruct (Hpg l p H) as [(? & ? & ? & _) ?].
    split; [|done]. split_and!; [done..|]. intros a Ha. apply HF. by exists l, p.
  - intros va Hva. by rewrite (entry_frame (mem s)), HE.
Qed.

(** The bytes of a table are not free, and not the allocator's own. *)
Lemma vm_table_apart s F root E T a : vm_at s F root E T -> table_byte T a ->
  ~ F a /\ ~ pool_private a.
Proof.
  intros (Hrep & _) (l & p & Hl & Ha). destruct (pt_page _ _ _ _ Hrep _ _ Hl) as [(_ & Hk & _ & Hn) _].
  split; [by apply Hn|]. intros H%pool_private_range. lia.
Qed.

(** ** A zeroed page for the user *)

(** A block that was taken from [F] and zeroed. *)
Definition fresh_block (F : Z -> Prop) (m : gmap Z Z) (F' : Z -> Prop) (T : tables) (k p : Z) : Prop :=
  good_block kernel_end PHYSTOP k p /\
  forall a, p <= a < p + bsz k -> F a /\ ~ vm_bytes F' T a /\ rd8 m a = 0.

Lemma allocate_for_user_block F root E T k s : 0 <= k <= 1 ->
  vm_at s F root E T ->
  wp (allocate_for_user k) (fun p s' => same_regs s s' /\
    modifies (vm_bytes F T) (mem s) (mem s') /\
    ((p = NULL /\ mem s' = mem s /\ exhausted F k) \/
     (p <> NULL /\ vm_at s' (without F k p) root E T /\
      fresh_block F (mem s') (without F k p) T k p))) s.
Proof.
  intros Hk Hat. pose proof Hat as (_ & Hp & _). unfold allocate_for_user. wp_step.
  eapply wp_mono; [apply (allocate_law F k s Hp); lia|].
  intros p s1 (Hregs & Hm1 & [(-> & Hm & He)|(Hg & Hne & HpF & Hp1)]).
  { change (NULL =? NULL) with true. wp_step. split; [done|].
    split; [by rewrite Hm|]. by left. }
  rewrite (proj2 (Z.eqb_neq p NULL) Hne). pose proof Hg as (_ & _ & Hlo & Hhi).
  pose proof kernel_end_range. assert (Hsz : pgsize_shl k = bsz k /\ 4096 <= bsz k <= 8192).
  { by assert (k = 0 \/ k = 1) as [-> | ->] by lia. } destruct Hsz as [-> Hsz].
  wp_step. apply memset_ok; [unfold ram_range; lia|].
  intros m2 Hz Hm2. wp_step.
  assert (Hin : forall a, p <= a < p + bsz k -> rd8 m2 a = 0).
  { intros a Ha. specialize (Hz (a - p)). replace (p + (a - p)) with a in Hz by lia.
    rewrite Hz by lia. done. }
  assert (Hout : forall a, ~ (p <= a < p + bsz k) -> rd8 m2 a = rd8 (mem s1) a).
  { intros a Ha. apply Hm2. unfold range. lia. }
  split; [eauto with kernel|]. split.
  - intros a Ha. simpl mem. rewrite Hout.
    + apply Hm1. intros [?|?]; apply Ha; [by left|by right; left].
    + intros Hin'. apply Ha. right. left. by apply HpF.
  - right. split; [done|]. split.
    + apply (vm_at_frame s _ F); [done| | |].
      * intros a Ha. destruct (vm_table_apart _ _ _ _ _ _ Hat Ha) as [HnF Hnp]. simpl mem.
        rewrite Hout; [|intros Hin'; by apply HnF, HpF]. apply Hm1. by intros [?|?].
      * intros a Ha [HF _]. by destruct (vm_table_apart _ _ _ _ _ _ Hat Ha).
      * apply (pool_owns_frame _ _ _ Hp1). intros a Ha. apply Hout. intros Hin'.
        destruct Ha as [Ha|[_ Ha]]; [apply pool_private_range in Ha; lia|done].
    + split; [done|]. intros a Ha. split; [by apply HpF|]. split; [|by apply Hin].
      intros [Hpr|[[_ Hn]|Htb]].
      * apply pool_private_range in Hpr. lia.
      * done.
      * destruct (vm_table_apart _ _ _ _ _ _ Hat Htb) as [HnF _]. by apply HnF, HpF.
Qed.

Lemma allocate_for_user_ok F root E T s :
  vm_at s F root E T ->
  wp (allocate_for_user 0) (fun p s' => same_regs s s' /\
    modifies (vm_bytes F T) (mem s) (mem s') /\
    ((p = NULL /\ mem s' = mem s /\ exhausted F 0) \/
     (p <> NULL /\ vm_at s' (without F 0 p) root E T /\
      fresh_frame F (mem s') (without F 0 p) T p))) s.
Proof. exact (allocate_for_user_block F root E T 0 s ltac:(done)). Qed.

(** ** One more page *)

(** Fields of the task are not changed by the page table code. *)
Lemma stack_field s F t root E T n permission m' o :
  stack_rep s F t root E T n permission -> modifies (vm_bytes F T) (mem s) m' ->
  0 <= o -> o + 8 <= sizeof_task_struct -> rd64 m' (t + o) = rd64 (mem s) (t + o).
Proof.
  intros Hst Hm Ho Hs. apply (modifies_rd _ 8 _ _ _ Hm). intros b Hb. simpl in Hb.
  apply (sk_apart _ _ _ _ _ _ _ _ Hst). lia.
Qed.

(** The same stack in another state, over less free memory. *)
Lemma stack_step s s' F F' t root E T T' n permission :
  stack_rep s F t root E T n permission -> modifies (vm_bytes F T) (mem s) (mem s') ->
  (forall a, vm_bytes F' T' a -> vm_bytes F T a) -> vm_at s' F' root E T' ->
  stack_rep s' F' t root E T' n permission.
Proof.
  intros Hst Hm Hb Hat. pose proof Hst as [Hok Hpt Hpe Hs Hz Hn Hp _ Hap Hma Hfr].
  split; try done; try by rewrite ?(stack_field s F t root E T n permission (mem s') _ Hst Hm).
  - rewrite <-Z.add_assoc, (stack_field _ _ _ _ _ _ _ _ _ _ Hst Hm) by done. by rewrite Z.add_assoc.
  - rewrite <-Z.add_assoc, (stack_field _ _ _ _ _ _ _ _ _ _ Hst Hm) by done. by rewrite Z.add_assoc.
  - intros a Ha Hv. by apply (Hap a Ha), Hb.
Qed.

Lemma fresh_frame_step F m m' F1 F2 T1 T2 p :
  fresh_frame F m F1 T1 p ->
  (forall a, F a -> ~ vm_bytes F1 T1 a -> rd8 m' a = rd8 m a) ->
  (forall a, vm_bytes F2 T2 a -> vm_bytes F1 T1 a) -> fresh_frame F m' F2 T2 p.
Proof.
  intros [Hg Ha] Hm Hb. split; [done|]. intros a Hin. destruct (Ha a Hin) as (? & Hn & Hz).
  split; [done|]. split; [by intros ?%Hb|]. by rewrite Hm by done.
Qed.

(** Memory has run out, up to one page. *)
Definition out_of_memory (F : Z -> Prop) : Prop :=
  exhausted F 0 \/ exists p, exhausted (without F 0 p) 1.

(** The bytes of the fields of the stack. *)
Definition stack_field_byte (t a : Z) : Prop := t + t_stack <= a < t + t_stack + sizeof_memory_section.

(** Writing the two fields, after the new page was mapped. *)
Lemma stack_write s s2 F F2 t root E T T2 n permission p :
  stack_rep s F t root E T n permission -> n < 1024 ->
  modifies (vm_bytes F T) (mem s) (mem s2) -> (forall a, vm_bytes F2 T2 a -> vm_bytes F T a) ->
  vm_at s2 F2 root (<[stack_vpn n := leaf p permission]> E) T2 ->
  let m1 := wr64 (mem s2) (t + t_stack + ms_start) (SHARED_MEMORY - (n + 1) * PGSIZE) in
  let m2 := wr64 m1 (t + t_stack + ms_size) ((n + 1) * PGSIZE) in
  modifies (stack_field_byte t) (mem s2) m2 /\
  stack_rep (set_mem m2 s2) F2 t root (<[stack_vpn n := leaf p permission]> E) T2 (n + 1) permission.
Proof using Type.
  intros Hst Hlt Hmod Hsub Hat m1 m2. pose proof Hst as [Hok Hpt Hpe Hs Hz Hn Hp _ Hap Hma Hfr].
  assert (Hout : modifies (stack_field_byte t) (mem s2) m2).
  { intros a Ha. unfold stack_field_byte, sizeof_memory_section in Ha. unfold m2, m1. task_unfold.
    by rewrite !rd8_wr_out by (simpl; lia). }
  assert (Hvb : forall a, vm_bytes F2 T2 a -> rd8 m2 a = rd8 (mem s2) a).
  { intros a Ha%Hsub. apply Hout. intros Hin. apply (Hap a); [|done].
    unfold stack_field_byte, sizeof_memory_section in Hin. task_unfold. lia. }
  assert (Hfield : forall o, 0 <= o -> o + 8 <= t_stack \/ t_stack + 16 <= o -> o + 8 <= sizeof_task_struct ->
    rd64 m2 (t + o) = rd64 (mem s) (t + o)).
  { intros o Ho Hor Hos. rewrite <-(stack_field _ _ _ _ _ _ _ _ _ o Hst Hmod) by done. apply (rd_ext 8).
    intros b Hb. apply Hout. unfold stack_field_byte, sizeof_memory_section. task_unfold. lia. }
  split; [done|]. pose proof Hat as (_ & Hpool & _). split; simpl mem; try done.
  - rewrite Hfield; [done|done|by right|done].
  - rewrite Hfield; [done|done|by left|done].
  - unfold m2, m1. task_unfold. rewrite rd64_wr64_out by lia. apply rd64_wr64_same.
    change SHARED_MEMORY with (2 ^ 38 - 12288). unfold PGSIZE. lia.
  - unfold m2. apply rd64_wr64_same. unfold PGSIZE. lia.
  - lia.
  - apply (vm_at_frame s2 _ F2); [done| | |].
    + intros a Ha. apply Hvb. by right; right.
    + intros a Ha. by apply (vm_table_apart _ _ _ _ _ _ Hat Ha).
    + apply (pool_owns_frame _ _ _ Hpool). intros a [?|?]; apply Hvb; [by left|by right; left].
  - intros a Ha ?%Hsub. by apply (Hap a).
  - intros k Hk. destruct (decide (k = n)) as [->|Hne].
    + by rewrite fn_lookup_insert, valid_leaf.
    + rewrite fn_lookup_insert_ne by (unfold stack_vpn; lia). apply Hma. lia.
  - intros k Hk. rewrite fn_lookup_insert_ne by (unfold stack_vpn; lia). apply Hfr. lia.
Qed.

(** What a call leaves: the page table grew over memory that was free. *)
Definition stack_grows (F : Z -> Prop) (t : Z) (T : tables) (s s' : state)
    (F' : Z -> Prop) (T' : tables) : Prop :=
  same_regs s s' /\ (forall a, F' a -> F a) /\ (forall a, vm_bytes F' T' a -> vm_bytes F T a) /\
  modifies (fun a => vm_bytes F T a \/ stack_field_byte t a) (mem s) (mem s').

(** The page below the stack. *)
Lemma stack_va n : 0 <= n < 1024 ->
  let va := (SHARED_MEMORY - n * PGSIZE) -w PGSIZE in
  va = SHARED_MEMORY - (n + 1) * PGSIZE /\ 0 <= va < MAXVA /\ va / PGSIZE = stack_vpn n.
Proof.
  intros Hn va. unfold va, stack_vpn, stack_top. change MAXVA with (2 ^ 38).
  change (SHARED_MEMORY / PGSIZE) with (2 ^ 26 - 3). change SHARED_MEMORY with ((2 ^ 26 - 3) * 4096).
  unfold PGSIZE. rewrite w64_small by lia. split; [lia|]. split; [lia|].
  replace ((2 ^ 26 - 3) * 4096 - n * 4096 - 4096) with ((2 ^ 26 - 3 - 1 - n) * 4096) by lia.
  by apply Z.div_mul.
Qed.

Lemma frame_bits p : good_block kernel_end PHYSTOP 0 p -> 0 <= p < 2 ^ 56 /\ PGROUNDDOWN p = p.
Proof using HwOk.
  intros (_ & [k ->] & Hlo & Hhi). change (bsz 0) with 4096 in *. pose proof kernel_end_range.
  unfold PHYSTOP, KERNBASE in *. split; [lia|]. rewrite PGROUNDDOWN_eq, Z.mod_mul by lia. lia.
Qed.

(** Giving back a page that could not be mapped. *)
Lemma release_frame F F1 T1 root E p s s1 m :
  vm_at s1 F1 root E T1 -> fresh_frame F m F1 T1 p ->
  (forall a, F1 a -> F a) -> exhausted F1 1 ->
  same_regs s s1 ->
  wp (deallocate p 0) (fun _ s' => same_regs s s' /\
    modifies (vm_bytes F T1) (mem s1) (mem s') /\
    exists F', (forall a, F' a -> F a) /\ (forall a, vm_bytes F' T1 a -> vm_bytes F T1 a) /\
      vm_at s' F' root E T1 /\ out_of_memory F') s1.
Proof using HwOk.
  intros Hat [Hg Hfr] HF He Hregs. pose proof Hat as (_ & Hp & _).
  change (bsz 0) with PGSIZE in *.
  eapply wp_mono; [apply (deallocate_law F1 0 p s1 Hp Hg)|].
  { intros a Ha H. destruct (Hfr a Ha) as (_ & Hn & _). apply Hn. by right; left. }
  intros [] s2 (Hregs2 & Hm2 & Hp2).
  assert (HF2 : forall a, with_block F1 0 p a -> F a).
  { intros a [?|Ha]; [by apply HF|by apply Hfr]. }
  split; [by etrans|]. split.
  { eapply modifies_weaken; [|exact Hm2]. intros a [?|?%HF2]; [by left|by right; left]. }
  exists (with_block F1 0 p). split; [done|]. split; [|split].
  - intros a [?|[?%HF2|?]]; [by left|by right; left|by right; right].
  - assert (Hap : forall a, table_byte T1 a -> ~ with_block F1 0 p a).
    { intros a Ha [H|H]; [by destruct (vm_table_apart _ _ _ _ _ _ Hat Ha)|].
      destruct (Hfr a H) as (_ & Hn & _). apply Hn. by right; right. }
    apply (vm_at_frame s1 _ F1); [done| |done|done]. intros a Ha. apply Hm2.
    destruct (vm_table_apart _ _ _ _ _ _ Hat Ha). intros [?|?]; [done|by apply (Hap a)].
  - right. exists p. intros y Hy Hin. apply (He y Hy). intros a Ha.
    destruct (Hin a Ha) as [[?|?] ?]; done.
Qed.

Lemma enlarge_ok F t root E T n permission s :
  stack_rep s F t root E T n permission -> n < 1024 ->
  wp (enlarge_stack_by_a_page t) (fun r s' => exists F' T', stack_grows F t T s s' F' T' /\
    ((r = -1 /\ stack_rep s' F' t root E T' n permission /\ out_of_memory F') \/
     (r = 0 /\ exists p, fresh_frame F (mem s') F' T' p /\
      stack_rep s' F' t root (<[stack_vpn n := leaf p permission]> E) T' (n + 1) permission))) s.
Proof.
  intros Hst Hn. pose proof (sk_vm _ _ _ _ _ _ _ _ Hst) as Hat.
  pose proof (sk_task _ _ _ _ _ _ _ _ Hst) as Hok. pose proof (sk_pages _ _ _ _ _ _ _ _ Hst) as Hn0.
  unfold enlarge_stack_by_a_page. wp_step.
  eapply wp_mono; [by apply (allocate_for_user_ok F root E T)|].
  intros p s1 (Hregs1 & Hm1 & [(-> & Hm & He)|(Hne & Hat1 & Hf1)]).
  { change (NULL =? NULL) with true. wp_step. exists F, T. split.
    - split; [done|]. split; [done|]. split; [done|]. by rewrite Hm.
    - left. split; [done|]. split; [|by left]. apply (stack_step s _ F F t root E T T); [done..|].
      unfold vm_at. by rewrite Hm. }
  rewrite (proj2 (Z.eqb_neq p NULL) Hne). set (F1 := without F 0 p) in *.
  assert (Hsub1 : forall a, vm_bytes F1 T a -> vm_bytes F T a).
  { intros a [?|[[? _]|?]]; [by left|by right; left|by right; right]. }
  pose proof (stack_step s s1 F F1 t root E T T n permission Hst Hm1 Hsub1 Hat1) as Hst1.
  do 5 wp_task. wp_task. rewrite (sk_start _ _ _ _ _ _ _ _ Hst1), (sk_pagetable _ _ _ _ _ _ _ _ Hst1),
    (sk_permission _ _ _ _ _ _ _ _ Hst1).
  destruct (stack_va n) as (Hva & Hva1 & Hva2); [lia|]. set (va := _ -w PGSIZE) in *.
  destruct (frame_bits p (proj1 Hf1)) as [Hp56 Hpd].
  wp_step. eapply wp_mono; [apply (map_page_at F1 root E T); [exact Hat1|exact Hva1|exact Hp56|
    exact (sk_bits _ _ _ _ _ _ _ _ Hst)|rewrite Hva2; apply (sk_free _ _ _ _ _ _ _ _ Hst); lia]|].
  rewrite Hpd, Hva2. intros r s2 (Hregs2 & Hm2 & F2 & T2 & HF2 & Hsub2 & _ & Hcase).
  pose proof (fresh_frame_step F _ (mem s2) F1 F2 T T2 p Hf1 (fun a _ => Hm2 a) Hsub2) as Hf2.
  assert (Hm12 : modifies (vm_bytes F T) (mem s) (mem s2)).
  { eapply modifies_trans; [exact Hm1|]. by eapply modifies_weaken. }
  destruct Hcase as [(-> & Hat2 & _ & He)|(-> & Hat2)]; simpl (negb _); cbv iota.
  - assert (HT2 : forall a, vm_bytes F T2 a -> vm_bytes F T a).
    { intros a [?|[?|?]]; [by left|by right; left|]. by apply Hsub1, Hsub2; right; right. }
    wp_step. eapply wp_mono; [apply (release_frame F F2 T2 root E p s1 s2 _ Hat2 Hf2); [|done|done]|].
    { intros a Ha. by apply HF2 in Ha as [? _]. }
    intros [] s3 (Hregs3 & Hm3 & F3 & HF3 & Hsub3 & Hat3 & Hout). wp_step.
    assert (Hm13 : modifies (vm_bytes F T) (mem s) (mem s3)).
    { eapply modifies_trans; [exact Hm12|]. by eapply modifies_weaken. }
    exists F3, T2. split.
    + split; [by etrans|]. split; [done|]. split; [auto|]. eapply modifies_weaken; [|exact Hm13]. by left.
    + left. split; [done|]. split; [|done]. apply (stack_step s _ F F3 t root E T T2); auto.
  - assert (Hsub : forall a, vm_bytes F2 T2 a -> vm_bytes F T a) by auto.
    destruct (stack_write s s2 F F2 t root E T T2 n permission p Hst Hn Hm12 Hsub Hat2) as [Hmw Hst3].
    assert (Hs2 : rd64 (mem s2) (t + t_stack + ms_start) = SHARED_MEMORY - n * PGSIZE).
    { rewrite <-(sk_start _ _ _ _ _ _ _ _ Hst). rewrite <-!Z.add_assoc. by apply (stack_field _ _ _ _ _ _ _ _ _ _ Hst Hm12). }
    assert (Hz2 : rd64 (mem s2) (t + t_stack + ms_size) = n * PGSIZE).
    { rewrite <-(sk_size _ _ _ _ _ _ _ _ Hst). rewrite <-!Z.add_assoc. by apply (stack_field _ _ _ _ _ _ _ _ _ _ Hst Hm12). }
    wp_task. wp_task. rewrite Hs2. fold va. rewrite Hva. wp_task. wp_task. simpl mem. wp_task. wp_task. simpl mem.
    replace (rd64 _ (t + t_stack + ms_size)) with (n * PGSIZE).
    2:{ rewrite <-Hz2. task_unfold. by rewrite rd64_wr64_out by lia. }
    rewrite w64_small by (unfold PGSIZE; lia). replace (n * PGSIZE + PGSIZE) with ((n + 1) * PGSIZE) by lia.
    wp_task. wp_task. simpl mem. wp_task. exists F2, T2. split.
    + split; [by etrans; [|etrans; [exact Hregs2|]]|]. split; [|split; [done|]].
      * intros a Ha. by apply HF2 in Ha as [? _].
      * eapply modifies_trans; (eapply modifies_weaken; [|eassumption]); [by left|by right].
    + right. split; [done|]. exists p. split; [|exact Hst3].
      apply (fresh_frame_step F (mem s2) _ F2 F2 T2 T2); [done| |done]. intros a Ha _. apply Hmw.
      intros Hin. apply (sk_apart _ _ _ _ _ _ _ _ Hst a); [|by right; left].
      unfold stack_field_byte, sizeof_memory_section in Hin. task_unfold. lia.
Qed.

(** ** The loop *)

(** The stack after mapping the frames [ps] below its [n] pages. *)
Definition stack_grown (F : Z -> Prop) (t root : Z) (E : Z -> Z) (n permission : Z)
    (ps : list Z) (s' : state) (F' : Z -> Prop) (T' : tables) : Prop :=
  NoDup ps /\ Forall (fresh_frame F (mem s') F' T') ps /\
  stack_rep s' F' t root (map_frames E n ps permission) T' (n + Z.of_nat (length ps)) permission.

Lemma stack_grows_refl F t T s : stack_grows F t T s s F T.
Proof. by repeat split. Qed.

Lemma stack_grows_trans F t T s s1 F1 T1 s2 F2 T2 :
  stack_grows F t T s s1 F1 T1 -> stack_grows F1 t T1 s1 s2 F2 T2 -> stack_grows F t T s s2 F2 T2.
Proof.
  intros (Hr1 & HF1 & Hb1 & Hm1) (Hr2 & HF2 & Hb2 & Hm2). split; [by etrans|]. split; [auto|].
  split; [auto|]. eapply modifies_trans; [exact Hm1|]. eapply modifies_weaken; [|exact Hm2].
  intros a [?|?]; [left; auto|by right].
Qed.

(** Frames mapped earlier stay as they are. *)
Lemma fresh_frames_step F t root E T n permission s s1 F1 T1 s2 F2 T2 ps :
  stack_rep s F t root E T n permission -> stack_grows F1 t T1 s1 s2 F2 T2 ->
  Forall (fresh_frame F (mem s1) F1 T1) ps -> Forall (fresh_frame F (mem s2) F2 T2) ps.
Proof.
  intros Hst (_ & _ & Hb & Hm) Hps. eapply Forall_impl; [exact Hps|]. intros p Hp.
  apply (fresh_frame_step F (mem s1) _ F1 F2 T1 T2 p Hp); [|done]. intros a Ha Hn. apply Hm.
  intros [?|Hin]; [done|]. apply (sk_apart _ _ _ _ _ _ _ _ Hst a); [|by right; left].
  unfold stack_field_byte, sizeof_memory_section in Hin. task_unfold. lia.
Qed.

(** One more frame. *)
Lemma stack_grown_snoc F t root E T n permission s ps s1 F1 T1 s2 F2 T2 p :
  stack_rep s F t root E T n permission -> (forall a, F1 a -> F a) ->
  stack_grown F t root E n permission ps s1 F1 T1 -> stack_grows F1 t T1 s1 s2 F2 T2 ->
  fresh_frame F1 (mem s2) F2 T2 p ->
  stack_rep s2 F2 t root (<[stack_vpn (n + Z.of_nat (length ps)) := leaf p permission]>
    (map_frames E n ps permission)) T2 (n + Z.of_nat (length ps) + 1) permission ->
  stack_grown F t root E n permission (ps ++ [p]) s2 F2 T2.
Proof.
  intros Hst HF (Hnd & Hps & _) Hgr [Hg Hp] Hst2. split; [|split].
  - apply NoDup_app. split; [done|]. split; [|apply NoDup_singleton].
    intros q Hq ->%list_elem_of_singleton. rewrite Forall_forall in Hps.
    destruct (Hps p Hq) as [_ Hq']. assert (Hin : p <= p < p + PGSIZE) by (unfold PGSIZE; lia).
    destruct (Hq' p Hin) as (_ & Hn & _). apply Hn. right. left. by apply Hp.
  - apply Forall_app. split; [by eapply fresh_frames_step|]. constructor; [|constructor].
    split; [done|]. intros a Ha. destruct (Hp a Ha) as (? & ?). auto.
  - rewrite map_frames_snoc, length_app. simpl length.
    replace (n + Z.of_nat (length ps + 1)) with (n + Z.of_nat (length ps) + 1) by lia. done.
Qed.


Lemma enlarge_loop_ok F t root E T n permission k s :
  stack_rep s F t root E T n permission -> 0 <= k -> n + k <= 1024 ->
  wp (loop (fun i =>
        if i <? k then
          r ← enlarge_stack_by_a_page t;
          if negb (r =? 0) then mret (inr (-1)) else mret (inl (i +w 1))
        else mret (inr 0)) 0)
    (fun r s' => exists F' T' ps, stack_grows F t T s s' F' T' /\
      stack_grown F t root E n permission ps s' F' T' /\
      ((r = 0 /\ Z.of_nat (length ps) = k) \/
       (r = -1 /\ Z.of_nat (length ps) < k /\ out_of_memory F'))) s.
Proof.
  intros Hst Hk Hmax. pose proof (sk_pages _ _ _ _ _ _ _ _ Hst) as Hn.
  apply (wp_loop (fun x i s' => x = k - i /\ 0 <= i <= k /\ exists F' T' ps,
    stack_grows F t T s s' F' T' /\ stack_grown F t root E n permission ps s' F' T' /\
    Z.of_nat (length ps) = i) k); [|lia|].
  { split; [lia|]. split; [lia|]. exists F, T, []. split; [apply stack_grows_refl|].
    split; [|done]. split; [apply NoDup_nil_2|]. split; [constructor|]. simpl. by rewrite Z.add_0_r. }
  intros x i s1 (-> & Hi & F1 & T1 & ps & Hgr & Hps & Hlen). split; [lia|].
  destruct (Z.ltb_spec i k).
  2:{ wp_step. exists F1, T1, ps. split; [done|]. split; [done|]. left. split; [done|lia]. }
  pose proof Hps as (_ & _ & Hst1). rewrite Hlen in Hst1.
  wp_step. eapply wp_mono; [apply (enlarge_ok F1 t root _ T1 _ permission s1 Hst1); lia|].
  intros r s2 (F2 & T2 & Hgr2 & [(-> & Hst2 & Hout)|(-> & p & Hf & Hst2)]); simpl (negb _); wp_step;
    pose proof (stack_grows_trans _ _ _ _ _ _ _ _ _ _ Hgr Hgr2) as Hgr'.
  - exists F2, T2, ps. split; [done|]. split; [|right; split; [done|split; [lia|done]]].
    destruct Hps as (Hnd & Hfr & _). split; [done|]. split; [by apply (fresh_frames_step F t root E T n permission s s1 F1 T1)|].
    by rewrite Hlen.
  - exists (k - (i + 1)). split; [lia|]. rewrite w64_small by lia. split; [lia|]. split; [lia|].
    exists F2, T2, (ps ++ [p]). split; [done|]. rewrite length_app. simpl length. split; [|lia].
    rewrite <-Hlen in Hst2. apply (stack_grown_snoc F t root E T n permission s ps s1 F1 T1); try done.
    by destruct Hgr as (_ & ? & _).
Qed.

(** The pages the stack needs for an address. *)
Definition pages_for (addr : Z) : Z := stack_top - addr / PGSIZE.

Lemma pages_for_spec n addr : within_stack_range addr = true -> 0 <= n <= 1024 ->
  1 <= pages_for addr <= 1024 /\
  (PGROUNDDOWN addr <? SHARED_MEMORY - n * PGSIZE) = (n <? pages_for addr) /\
  (n < pages_for addr ->
   ((SHARED_MEMORY - n * PGSIZE) -w PGROUNDDOWN addr) / PGSIZE = pages_for addr - n).
Proof using Type.
  unfold within_stack_range, pages_for, stack_top. intros Ha Hn. bool_prop. unfold MIN_STACK_ADDR, PGSIZE in *.
  change (SHARED_MEMORY / 4096) with (2 ^ 26 - 3). change SHARED_MEMORY with ((2 ^ 26 - 3) * 4096) in *.
  pose proof (Z.div_mod addr 4096 ltac:(done)). pose proof (Z.mod_pos_bound addr 4096 ltac:(done)).
  set (q := addr / 4096) in *. rewrite PGROUNDDOWN_eq by lia.
  replace (addr - addr mod 4096) with (q * 4096) by lia.
  split; [lia|]. split; [destruct (Z.ltb_spec n (2 ^ 26 - 3 - q)); [apply Z.ltb_lt|apply Z.ltb_ge]; lia|].
  intros Hlt. rewrite w64_small by lia.
  replace ((2 ^ 26 - 3) * 4096 - n * 4096 - q * 4096) with ((2 ^ 26 - 3 - q - n) * 4096) by lia.
  by apply Z.div_mul.
Qed.

Lemma try_enlarge_ok F t root E T n permission addr s :
  stack_rep s F t root E T n permission ->
  wp (try_enlarge_stack t addr) (fun r s' =>
    if within_stack_range addr then
      exists F' T' ps, stack_grows F t T s s' F' T' /\
        stack_grown F t root E n permission ps s' F' T' /\
        let n' := n + Z.of_nat (length ps) in
        ((r = 0 /\ n' = Z.max n (pages_for addr)) \/
         (r = -1 /\ n' < pages_for addr /\ out_of_memory F'))
    else r = -1 /\ s' = s) s.
Proof.
  intros Hst. pose proof (sk_pages _ _ _ _ _ _ _ _ Hst) as Hn.
  pose proof (sk_task _ _ _ _ _ _ _ _ Hst) as Hok. unfold try_enlarge_stack.
  destruct (within_stack_range addr) eqn:Ha; [|by wp_step].
  destruct (pages_for_spec n addr Ha Hn) as (Hm & Hlt & Htimes).
  wp_task. wp_task. rewrite (sk_start _ _ _ _ _ _ _ _ Hst), Hlt.
  destruct (Z.ltb_spec n (pages_for addr)).
  - wp_task. wp_task. rewrite (sk_start _ _ _ _ _ _ _ _ Hst), Htimes by done.
    eapply wp_mono; [apply (enlarge_loop_ok F t root E T n permission _ s Hst); lia|].
    intros r s' (F' & T' & ps & Hgr & Hps & Hcase). exists F', T', ps. split; [done|]. split; [done|].
    destruct Hcase as [[-> ?]|(-> & ? & ?)]; [left|right]; (split; [done|]); [lia|split; [lia|done]].
  - wp_step. exists F, T, []. split; [apply stack_grows_refl|]. split; [|left; simpl length; lia].
    split; [apply NoDup_nil_2|]. split; [constructor|]. simpl. by rewrite Z.add_0_r.
Qed.

End Stack.
