(* ===== verification/UserMemory.v ===== *)
(** * Loading and releasing user memory

    Proofs about the functions of virtual_memory.c that fill an address space:
    [map_page_for_user], [map_section_for_user] and [free_memory]. *)

From S2P Require Import Prelude Machine Utility Uart BuddySpec PageAlloc Capacity Kmalloc LinkedList PageTable PageTableProof Task Process TaskTable UserStack.

(** The bytes of the frames [ps]. *)
Definition in_frames (ps : list Z) (a : Z) : Prop := exists p, p ∈ ps /\ p <= a < p + PGSIZE.

(** The page table with the pages from number [n0] on mapped to [ps]. *)
Definition pages_mapped (E : Z -> Z) (n0 : Z) (ps : list Z) (permission : Z) (n : Z) : Z :=
  if n0 <=? n then match ps !! Z.to_nat (n - n0) with Some p => leaf p permission | None => E n end else E n.
(** ... and with [len] of them cleared. *)
Definition pages_cleared (E : Z -> Z) (n0 len n : Z) : Z :=
  if (n0 <=? n) && (n <? n0 + len) then 0 else E n.

Lemma in_frames_snoc ps p a : in_frames (ps ++ [p]) a <-> in_frames ps a \/ p <= a < p + PGSIZE.
Proof.
  unfold in_frames. split.
  - intros (q & [Hq| ->%list_elem_of_singleton]%elem_of_app & Ha); [left; by exists q|by right].
  - intros [(q & Hq & Ha)|Ha]; [exists q|exists p]; (split; [|done]); apply elem_of_app; [by left|right; by apply list_elem_of_singleton].
Qed.

Lemma pages_mapped_snoc E n0 ps p permission n :
  pages_mapped E n0 (ps ++ [p]) permission n =
  <[n0 + Z.of_nat (length ps) := leaf p permission]> (pages_mapped E n0 ps permission) n.
Proof.
  unfold pages_mapped. destruct (decide (n = n0 + Z.of_nat (length ps))) as [->|Hne].
  - rewrite fn_lookup_insert, (proj2 (Z.leb_le _ _)) by lia.
    replace (Z.to_nat _) with (length ps) by lia. by rewrite list_lookup_middle.
  - rewrite fn_lookup_insert_ne by done. destruct (Z.leb_spec n0 n); [|done].
    destruct (decide (Z.to_nat (n - n0) < length ps)%nat).
    + by rewrite lookup_app_l by done.
    + rewrite (lookup_ge_None_2 (ps ++ [p])), (lookup_ge_None_2 ps); [done|lia|rewrite length_app; simpl; lia].
Qed.

Lemma pages_cleared_step E n0 len n : 0 <= len ->
  pages_cleared E n0 (len + 1) n = <[n0 + len := 0]> (pages_cleared E n0 len) n.
Proof.
  intros Hl. unfold pages_cleared. destruct (decide (n = n0 + len)) as [->|Hne].
  - rewrite fn_lookup_insert. by rewrite (proj2 (Z.leb_le _ _)), (proj2 (Z.ltb_lt _ _)) by lia.
  - rewrite fn_lookup_insert_ne by done. destruct (Z.leb_spec n0 n); simpl; [|done].
    destruct (Z.ltb_spec n (n0 + (len + 1))), (Z.ltb_spec n (n0 + len)); (done || lia).
Qed.

Section UserMemory.
Context `{Hw : Platform} {HwOk : PlatformOk Hw} {Ops : PageOps} {HA : PageAllocator Ops}.

(** The free bytes count up to equivalence. *)
Lemma vm_at_free s F F' root E T : vm_at s F root E T -> (forall a, F a <-> F' a) -> vm_at s F' root E T.
Proof.
  intros Hat HF. pose proof Hat as (_ & Hp & _). apply (vm_at_frame s s F F'); [done|done| |].
  - intros a Ha HFa. by destruct (vm_table_apart _ _ _ _ _ _ Hat Ha) as [[] _]; apply HF.
  - rewrite <-(pool_owns_proper _ _ eq_refl F F'); [done|]. intros a. apply HF.
Qed.

(** A frame in use by the user: apart from the allocator and the page table. *)
Definition user_frame (F : Z -> Prop) (T : tables) (p : Z) : Prop :=
  good_block kernel_end PHYSTOP 0 p /\ forall a, p <= a < p + PGSIZE -> ~ vm_bytes F T a.

Lemma frames_apart p q a : good_block kernel_end PHYSTOP 0 p -> good_block kernel_end PHYSTOP 0 q ->
  p <= a < p + PGSIZE -> q <= a < q + PGSIZE -> p = q.
Proof. intros (_ & [x ->] & _) (_ & [y ->] & _). change (bsz 0) with 4096. unfold PGSIZE. lia. Qed.

Lemma page_va n k : 0 <= n -> 0 <= k -> n + k < MAXVA / PGSIZE ->
  let va := n * PGSIZE +w k * PGSIZE in
  va = (n + k) * PGSIZE /\ 0 <= va < MAXVA /\ va / PGSIZE = n + k /\ PGOFFSET va = 0.
Proof.
  intros Hn Hk Hmax va. unfold va. change (MAXVA / PGSIZE) with (2 ^ 26) in Hmax. change MAXVA with (2 ^ 38).
  rewrite PGOFFSET_eq. unfold PGSIZE. rewrite w64_small by lia. rewrite <-Z.mul_add_distr_r.
  rewrite Z.div_mul, Z.mod_mul by lia. split_and!; (done || lia).
Qed.

Lemma PGROUNDDOWN_aligned n : 0 <= n < 2 ^ 52 -> PGROUNDDOWN (n * PGSIZE) = n * PGSIZE.
Proof. intros Hn. unfold PGSIZE. rewrite PGROUNDDOWN_eq, Z.mod_mul by lia. lia. Qed.

(** ** free_memory *)

(** The pages [n0], [n0 + 1], ... are mapped to the frames [ps]. *)
Definition maps_to (E : Z -> Z) (n0 : Z) (ps : list Z) : Prop :=
  forall k p, ps !! k = Some p -> let e := E (n0 + Z.of_nat k) in
    valid e = true /\ PTE_FLAGS e <> PTE_V /\ PTE2PA e = p.

(** Releasing one frame that is mapped nowhere else. *)
Lemma release_user_frame F root E T p s :
  vm_at s F root E T -> user_frame F T p ->
  wp (deallocate p 0) (fun _ s' => same_regs s s' /\
    modifies (fun a => vm_bytes F T a \/ p <= a < p + PGSIZE) (mem s) (mem s') /\
    vm_at s' (with_block F 0 p) root E T) s.
Proof.
  intros Hat [Hg Hf]. pose proof Hat as (_ & Hp & _). change (bsz 0) with PGSIZE in *.
  eapply wp_mono; [apply (deallocate_law F 0 p s Hp Hg)|].
  { intros a Ha HF. apply (Hf a Ha). by right; left. }
  intros [] s' (Hregs & Hm & Hp'). split; [done|]. split.
  - eapply modifies_weaken; [|exact Hm]. intros a [?|[?|?]]; [left; by left|left; by right; left|by right].
  - apply (vm_at_frame s s' F); [done| | |done].
    + intros a Ha. destruct (vm_table_apart _ _ _ _ _ _ Hat Ha). apply Hm. intros [?|[?|Hin]]; [done..|].
      apply (Hf a Hin). by right; right.
    + intros a Ha [?|Hin]; [by destruct (vm_table_apart _ _ _ _ _ _ Hat Ha)|].
      apply (Hf a Hin). by right; right.
Qed.

Lemma free_memory_ok F root E T n0 ps s :
  vm_at s F root E T -> 0 <= n0 -> n0 + Z.of_nat (length ps) <= MAXVA / PGSIZE ->
  maps_to E n0 ps -> NoDup ps -> Forall (user_frame F T) ps ->
  wp (free_memory root (n0 * PGSIZE) (Z.of_nat (length ps) * PGSIZE)) (fun _ s' => same_regs s s' /\
    modifies (fun a => vm_bytes F T a \/ in_frames ps a) (mem s) (mem s') /\
    vm_at s' (fun a => F a \/ in_frames ps a) root (pages_cleared E n0 (Z.of_nat (length ps))) T) s.
Proof.
  intros Hat Hn0 Hmax Hmap Hnd Hfr. unfold free_memory. change (MAXVA / PGSIZE) with (2 ^ 26) in *.
  rewrite PGROUNDDOWN_aligned by lia. set (len := Z.of_nat (length ps)) in *.
  apply (wp_for_range (fun i s' => exists k, i = Z.of_nat k * PGSIZE /\ same_regs s s' /\
    modifies (fun a => vm_bytes F T a \/ in_frames (take k ps) a) (mem s) (mem s') /\
    vm_at s' (fun a => F a \/ in_frames (take k ps) a) root (pages_cleared E n0 (Z.of_nat k)) T)).
  1-3: unfold PGSIZE; lia.
  - exists 0%nat. split; [done|]. split; [done|]. split; [apply modifies_refl|].
    apply (vm_at_ext _ _ _ E); [apply (vm_at_free _ F); [done|]|].
    + intros a. split; [by left|]. intros [?|(p & Hp & _)]; [done|]. by apply not_elem_of_nil in Hp.
    + intros n _. unfold pages_cleared. destruct (Z.leb_spec n0 n), (Z.ltb_spec n (n0 + Z.of_nat 0)); (done || lia).
  - intros i s1 _ Hi (k & -> & Hregs & Hm & Hat1).
    assert (Hk : (k < length ps)%nat) by (unfold PGSIZE, len in *; lia).
    destruct (lookup_lt_is_Some_2 ps k Hk) as [p Hp].
    destruct (page_va n0 (Z.of_nat k)) as (_ & Hva & Hvp & Hoff); [lia|lia|change (MAXVA / PGSIZE) with (2 ^ 26); lia|].
    set (va := _ +w _) in *. destruct (Hmap k p Hp) as (Hv & Hfl & Hpa).
    pose proof (proj1 (Forall_lookup _ _) Hfr _ _ Hp) as Hufr.
    assert (HE1 : pages_cleared E n0 (Z.of_nat k) (n0 + Z.of_nat k) = E (n0 + Z.of_nat k)).
    { unfold pages_cleared. rewrite (proj2 (Z.ltb_ge _ _)) by lia. by rewrite andb_false_r. }
    wp_step. eapply wp_mono; [exact (physical_address_ok _ _ _ va s1 (ex_intro _ T Hat1) Hva)|].
    intros r s1' [-> ->]. unfold translate. rewrite Hvp, HE1, Hv, Hoff, Hpa, Z.add_0_r.
    destruct (frame_bits p (proj1 Hufr)) as [Hp56 _]. rewrite w64_small by lia.
    assert (Huf : user_frame (fun a => F a \/ in_frames (take k ps) a) T p).
    { destruct Hufr as [Hg Hn]. split; [done|]. intros a Ha [?|[[?|(q & Hq & Haq)]|?]];
        [by apply (Hn a Ha); left|by apply (Hn a Ha); right; left| |by apply (Hn a Ha); right; right].
      apply list_elem_of_lookup in Hq as [j Hj]. apply lookup_take_Some in Hj as [Hj Hjk].
      pose proof (proj1 (Forall_lookup _ _) Hfr _ _ Hj) as [Hgq _].
      assert (q = p) as -> by (by eapply frames_apart). pose proof (NoDup_lookup _ _ _ _ Hnd Hj Hp). lia. }
    wp_step. eapply wp_mono; [by apply (release_user_frame _ root _ T p s1 Hat1)|].
    intros [] s2 (Hregs2 & Hm2 & Hat2). wp_step.
    eapply wp_mono; [apply (unmap_page_at _ root _ T va s2 Hat2 Hva); by rewrite Hvp, HE1|].
    intros r s3 (_ & Hregs3 & Hm3 & Hat3). wp_step. exists (S k).
    rewrite (take_S_r _ _ _ Hp). split; [unfold PGSIZE; lia|]. split; [by do 2 (etrans; [|done])|].
    assert (HF3 : forall a, with_block (fun a => F a \/ in_frames (take k ps) a) 0 p a <->
      F a \/ in_frames (take k ps ++ [p]) a).
    { intros a. rewrite in_frames_snoc. unfold with_block. change (bsz 0) with PGSIZE. tauto. }
    split.
    + eapply modifies_trans; [|eapply modifies_trans].
      * eapply modifies_weaken; [|exact Hm]. intros a. rewrite in_frames_snoc. tauto.
      * eapply modifies_weaken; [|exact Hm2]. intros a. unfold vm_bytes. rewrite in_frames_snoc. tauto.
      * eapply modifies_weaken; [|exact Hm3]. intros a ?. left. by right; right.
    + apply (vm_at_ext _ _ _ (<[va / PGSIZE := 0]> (pages_cleared E n0 (Z.of_nat k)))); [by eapply vm_at_free|].
      intros n _. rewrite Hvp, <-pages_cleared_step by lia. f_equal. lia.
  - intros i s1 _ Hi (k & -> & Hregs & Hm & Hat1).
    assert (k = length ps) as -> by (unfold PGSIZE, len in *; lia). by rewrite take_ge in * by lia.
Qed.

(** ** A page with contents *)

(** A frame taken from [F], apart from what the page table uses now, with the
    byte [c i] at offset [i]. *)
Definition filled_frame (F : Z -> Prop) (m : gmap Z Z) (F' : Z -> Prop) (T' : tables) (p : Z)
    (c : Z -> Z) : Prop :=
  user_frame F' T' p /\ (forall a, p <= a < p + PGSIZE -> F a) /\
  forall i, 0 <= i < PGSIZE -> rd8 m (p + i) = c i.

(** The first [n] bytes from [src] on, then zeros. *)
Definition page_content (m : gmap Z Z) (src n i : Z) : Z := if i <? n then rd8 m (src + i) else 0.

(** What a call leaves: the page table grew over memory that was free. *)
Definition vm_grows (F : Z -> Prop) (T : tables) (s s' : state) (F' : Z -> Prop) (T' : tables) : Prop :=
  same_regs s s' /\ (forall a, F' a -> F a) /\ (forall a, vm_bytes F' T' a -> vm_bytes F T a) /\
  modifies (vm_bytes F T) (mem s) (mem s').

Lemma vm_grows_refl (F : Z -> Prop) (T : tables) s : vm_grows F T s s F T.
Proof. by repeat split. Qed.

Lemma vm_grows_trans F T s s1 F1 T1 s2 F2 T2 :
  vm_grows F T s s1 F1 T1 -> vm_grows F1 T1 s1 s2 F2 T2 -> vm_grows F T s s2 F2 T2.
Proof.
  intros (Hr1 & HF1 & Hb1 & Hm1) (Hr2 & HF2 & Hb2 & Hm2). split; [by etrans|]. split; [auto|].
  split; [auto|]. eapply modifies_trans; [exact Hm1|]. eapply modifies_weaken; [|exact Hm2]. auto.
Qed.

Lemma filled_frame_step F s s' F1 T1 F2 T2 p c : vm_grows F1 T1 s s' F2 T2 ->
  filled_frame F (mem s) F1 T1 p c -> filled_frame F (mem s') F2 T2 p c.
Proof.
  intros (_ & _ & Hb & Hm) ([Hg Hn] & HF & Hc). split; [split; [done|]|split; [done|]].
  - intros a Ha ?%Hb. by apply (Hn a).
  - intros i Hi. rewrite Hm by (apply Hn; lia). by apply Hc.
Qed.

Lemma memcpy_none dest src s (Q : unit -> state -> Prop) : Q tt s -> wp (memcpy dest src 0) Q s.
Proof. intros HQ. unfold memcpy. apply (wp_for_range (fun _ s' => s' = s)); try lia; naive_solver. Qed.

(** Copying into a fresh frame. *)
Lemma fill_frame F root E T F1 p src n s0 s :
  vm_at s F1 root E T -> fresh_frame F (mem s) F1 T p -> 0 <= n <= PGSIZE -> n = 0 \/ ram_range src n ->
  (forall i, 0 <= i < n -> ~ F (src + i) /\ rd8 (mem s) (src + i) = rd8 (mem s0) (src + i)) ->
  wp (memcpy p src n) (fun _ s' => exists m, s' = set_mem m s /\ modifies (range p PGSIZE) (mem s) m /\
    vm_at s' F1 root E T /\ forall i, 0 <= i < PGSIZE -> rd8 m (p + i) = page_content (mem s0) src n i) s.
Proof.
  intros Hat [Hg Hf] Hn Hsrc Hout. pose proof Hg as (_ & _ & Hlo & Hhi). pose proof kernel_end_range.
  change (bsz 0) with 4096 in *. unfold PGSIZE in *.
  destruct (decide (n = 0)) as [->|Hne].
  { apply memcpy_none. exists (mem s). split; [by destruct s|]. split; [apply modifies_refl|]. split; [done|].
    intros i Hi. unfold page_content. rewrite (proj2 (Z.ltb_ge i 0)) by lia. apply Hf. lia. }
  destruct Hsrc as [?|Hsrc]; [contradiction|].
  apply memcpy_ok; [unfold ram_range; lia|done| |].
  { destruct (decide (p <= src)); [by left|right]. destruct (decide (src + n <= p)); [done|].
    destruct (Hout (p - src)) as [Hno _]; [lia|]. exfalso. apply Hno.
    replace (src + (p - src)) with p by lia. apply (Hf p). lia. }
  intros m Hc Hm. exists m. split; [done|]. assert (Hm' : modifies (range p 4096) (mem s) m).
  { eapply modifies_weaken; [|exact Hm]. unfold range. lia. }
  split; [done|]. split.
  - pose proof Hat as (_ & Hp & _). apply (vm_at_frame s _ F1); [done| | |].
    + intros a Ha. apply Hm'. intros Hin. apply (Hf a Hin). by right; right.
    + intros a Ha. by destruct (vm_table_apart _ _ _ _ _ _ Hat Ha).
    + apply (pool_owns_frame _ _ _ Hp). intros a Ha. apply Hm'. intros Hin. apply (Hf a Hin).
      destruct Ha; [by left|by right; left].
  - intros i Hi. unfold page_content. destruct (Z.ltb_spec i n) as [Hlt|Hge].
    + rewrite Hc by lia. apply Hout. lia.
    + rewrite Hm by (unfold range; lia). apply Hf. lia.
Qed.

Lemma map_page_for_user_ok F root E T va src n permission s :
  vm_at s F root E T -> 0 <= va < MAXVA -> 0 <= permission < 1024 -> valid (E (va / PGSIZE)) = false ->
  0 <= n <= PGSIZE -> n = 0 \/ ram_range src n -> (forall a, src <= a < src + n -> ~ vm_bytes F T a) ->
  wp (map_page_for_user root va src n permission) (fun r s' => exists F' T', vm_grows F T s s' F' T' /\
    (forall k, capacity F (S k + 3) -> r = 0 /\ capacity F' (S k)) /\
    ((r = -1 /\ vm_at s' F' root E T' /\ out_of_memory F') \/
     (r = 0 /\ exists p, filled_frame F (mem s') F' T' p (page_content (mem s) src n) /\
      vm_at s' F' root (<[va / PGSIZE := leaf p permission]> E) T'))) s.
Proof.
  intros Hat Hva Hperm Hinv Hn Hsrc Hap. unfold map_page_for_user. wp_step.
  eapply wp_mono; [by apply (allocate_for_user_ok F root E T)|].
  intros p s1 (Hregs1 & Hm1 & [(-> & Hm & He)|(Hne & Hat1 & Hf1)]).
  { change (NULL =? NULL) with true. wp_step. exists F, T. split.
    - split; [done|]. split; [done|]. split; [done|]. by rewrite Hm.
    - split; [|left; split; [done|]; split; [by unfold vm_at; rewrite Hm|by left]].
      intros k Hk. destruct (capacity_some F 0 (k + 3) ltac:(lia) Hk He). }
  rewrite (proj2 (Z.eqb_neq p NULL) Hne). set (F1 := without F 0 p) in *.
  assert (HF1 : forall a, F1 a -> F a) by (by intros a [? _]).
  assert (Hsub1 : forall a, vm_bytes F1 T a -> vm_bytes F T a).
  { intros a [?|[?%HF1|?]]; [by left|by right; left|by right; right]. }
  wp_step. eapply wp_mono; [apply (fill_frame F root E T F1 p src n s s1 Hat1 Hf1 Hn Hsrc)|].
  { intros i Hi. assert (~ vm_bytes F T (src + i)) as Hno by (apply Hap; lia).
    split; [|by apply Hm1]. intros HF. apply Hno. by right; left. }
  intros [] s2 (m2 & -> & Hm2 & Hat2 & Hc). destruct (frame_bits p (proj1 Hf1)) as [Hp56 Hpd].
  wp_step. eapply wp_mono; [by apply (map_page_at F1 root E T)|]. rewrite Hpd.
  intros r s3 (Hregs3 & Hm3 & F3 & T3 & HF3 & Hsub3 & (_ & Hcost3 & _) & Hcase). simpl mem in Hm3.
  assert (Hcost : forall k, capacity F (k + 3) -> capacity F3 k).
  { intros k Hk. apply Hcost3, (capacity_take F 0 p); [lia|apply Hf1|]. by rewrite <-Nat.add_succ_r. }
  assert (Hfr : forall a, range p PGSIZE a -> vm_bytes F T a).
  { intros a Ha. right. left. by apply Hf1. }
  assert (Hm13 : modifies (vm_bytes F T) (mem s) (mem s3)).
  { eapply modifies_trans; [exact Hm1|]. eapply modifies_trans; (eapply modifies_weaken; [|eassumption]); auto. }
  pose proof (fresh_frame_step F (mem s1) (mem s1) F1 F3 T T3 p Hf1 (fun _ _ _ => eq_refl) Hsub3) as Hf3.
  destruct Hcase as [(-> & Hat3 & _ & He)|(-> & Hat3)]; simpl (negb _); cbv iota.
  - wp_step. eapply wp_mono; [apply (release_frame F F3 T3 root E p s s3 _ Hat3 Hf3); [auto|done|]|].
    { etrans; [exact Hregs1|]. etrans; [|exact Hregs3]. apply same_regs_set_mem. }
    intros [] s4 (Hregs4 & Hm4 & F4 & HF4 & Hsub4 & Hat4 & Hout). wp_step.
    assert (HT3 : forall a, vm_bytes F T3 a -> vm_bytes F T a).
    { intros a [?|[?|?]]; [by left|by right; left|]. by apply Hsub1, Hsub3; right; right. }
    exists F4, T3. split; [|split; [|by left]].
    2:{ intros k Hk%Hcost. destruct (capacity_some F3 1 k ltac:(lia) Hk He). }
    split; [done|]. split; [done|]. split; [auto|].
    eapply modifies_trans; [exact Hm13|]. eapply modifies_weaken; [|exact Hm4]. auto.
  - wp_step. exists F3, T3. split.
    + split; [etrans; [exact Hregs1|]; etrans; [|exact Hregs3]; apply same_regs_set_mem|].
      split; [auto|]. split; [auto|done].
    + split; [by intros k Hk%Hcost|]. right. split; [done|]. exists p. split; [|done]. destruct Hf3 as [Hg Hf3].
      split; [split; [done|]; intros a Ha; by apply Hf3|]. split; [intros a Ha; by apply Hf3|].
      intros i Hi. rewrite Hm3; [by apply Hc|]. intros Hin. apply (proj2 Hf1 (p + i)); [lia|done].
Qed.

(** ** A segment of a program *)

Definition pages_of (size : Z) : Z := (size + PGSIZE - 1) / PGSIZE.

Lemma pages_of_spec size k : 0 <= size -> (k < pages_of size <-> k * PGSIZE < size) /\ 0 <= pages_of size.
Proof.
  intros Hs. unfold pages_of, PGSIZE. pose proof (Z.div_mod (size + 4096 - 1) 4096 ltac:(done)).
  pose proof (Z.mod_pos_bound (size + 4096 - 1) 4096 ltac:(done)). lia.
Qed.

(** The bytes of the segment: those of the file, then zeros. *)
Definition segment_byte (m : gmap Z Z) (src src_size j : Z) : Z :=
  if j <? src_size then rd8 m (src + j) else 0.

(** A segment that starts [o] bytes inside its first page: the first of its bytes
    on page [k], and how many of the file's bytes are on that page. *)
Definition page_first (o k : Z) : Z := Z.max 0 (k * PGSIZE - o).
Definition copy_size (src_size o k : Z) : Z := Z.max 0 (Z.min ((k + 1) * PGSIZE - o) src_size - page_first o k).

(** What the code puts at offset [i] of page [k]: it fills every page from its
    start. *)
Definition filled_byte (m : gmap Z Z) (src src_size o k i : Z) : Z :=
  page_content m (src + page_first o k) (copy_size src_size o k) i.

(** That is the byte of the segment if the segment starts on a page, and on all
    pages but the first. *)
Lemma filled_byte_placed m src src_size o k i : 0 <= o < PGSIZE -> 0 <= k -> 0 <= i < PGSIZE -> o = 0 \/ 1 <= k ->
  filled_byte m src src_size o k i = segment_byte m src src_size (k * PGSIZE - o + i).
Proof.
  intros Ho Hk Hi Hor. unfold filled_byte, page_content, segment_byte.
  assert (Hf : page_first o k = k * PGSIZE - o) by (unfold page_first, PGSIZE in *; lia).
  rewrite Hf. replace (i <? copy_size src_size o k) with (k * PGSIZE - o + i <? src_size).
  - by rewrite <-Z.add_assoc.
  - unfold copy_size. rewrite Hf. unfold PGSIZE in *.
    destruct (Z.ltb_spec (k * 4096 - o + i) src_size), (Z.ltb_spec i (Z.max 0 (Z.min ((k + 1) * 4096 - o) src_size - (k * 4096 - o)))); (done || lia).
Qed.

(** The pages that are mapped to [ps] have the contents of the segment. *)
Definition segment_frames (F : Z -> Prop) (m0 m : gmap Z Z) (F' : Z -> Prop) (T' : tables)
    (src src_size o : Z) (ps : list Z) : Prop :=
  NoDup ps /\ forall k p, ps !! k = Some p ->
    filled_frame F m F' T' p (fun i => filled_byte m0 src src_size o (Z.of_nat k) i).

Lemma filled_frame_mono (F G : Z -> Prop) m F' T' p c c' : (forall a, F a -> G a) ->
  (forall i, 0 <= i < PGSIZE -> c i = c' i) -> filled_frame F m F' T' p c -> filled_frame G m F' T' p c'.
Proof.
  intros HFG Hcc (Hu & HF & Hc). split; [done|]. split; [auto|]. intros i Hi. by rewrite <-Hcc, Hc.
Qed.

Lemma segment_frames_step F m0 s s' F1 T1 F2 T2 src src_size o ps : vm_grows F1 T1 s s' F2 T2 ->
  segment_frames F m0 (mem s) F1 T1 src src_size o ps -> segment_frames F m0 (mem s') F2 T2 src src_size o ps.
Proof. intros Hg [Hnd Hf]. split; [done|]. intros k p Hp. by eapply filled_frame_step, Hf. Qed.

Lemma segment_frames_snoc F m0 s s' F1 T1 F2 T2 src src_size o ps p :
  (forall a, F1 a -> F a) -> vm_grows F1 T1 s s' F2 T2 ->
  segment_frames F m0 (mem s) F1 T1 src src_size o ps ->
  filled_frame F1 (mem s') F2 T2 p (fun i => filled_byte m0 src src_size o (Z.of_nat (length ps)) i) ->
  segment_frames F m0 (mem s') F2 T2 src src_size o (ps ++ [p]).
Proof.
  intros HF Hg Hps Hp. destruct (segment_frames_step _ _ _ _ _ _ _ _ _ _ _ _ Hg Hps) as [Hnd Hf]. split.
  - apply NoDup_app. split; [done|]. split; [|apply NoDup_singleton].
    intros q Hq ->%list_elem_of_singleton. apply list_elem_of_lookup in Hq as [k Hk].
    destruct Hps as [_ Hps]. destruct (Hps k p Hk) as ([_ Hn] & _). destruct Hp as (_ & Hp & _).
    assert (Hin : p <= p < p + PGSIZE) by (unfold PGSIZE; lia).
    apply (Hn p Hin). right. left. by apply Hp.
  - intros k q Hk. destruct (decide (k < length ps)%nat) as [Hlt|Hge].
    + rewrite lookup_app_l in Hk by done. by apply Hf.
    + pose proof (lookup_lt_Some _ _ _ Hk) as Hlt. rewrite length_app in Hlt. simpl in Hlt.
      replace k with (length ps) in * by lia. rewrite list_lookup_middle in Hk by done. injection Hk as <-.
      by apply (filled_frame_mono F1 F _ _ _ _ _ _ HF (fun _ _ => eq_refl)).
Qed.

(** The frames of a segment in the page table. *)
Lemma pages_mapped_to E n0 ps permission :
  0 <= permission < 1024 -> Z.lor permission PTE_V <> PTE_V -> Forall (good_block kernel_end PHYSTOP 0) ps ->
  maps_to (pages_mapped E n0 ps permission) n0 ps.
Proof using HwOk.
  intros Hp Hpv Hg k p Hk. unfold pages_mapped. rewrite (proj2 (Z.leb_le _ _)) by lia.
  replace (Z.to_nat (n0 + Z.of_nat k - n0)) with k by lia. rewrite Hk.
  pose proof (proj1 (Forall_lookup _ _) Hg _ _ Hk) as Hgp. destruct (frame_bits p Hgp) as [Hp56 Hpd].
  rewrite PGROUNDDOWN_eq in Hpd by lia.
  split; [by rewrite valid_leaf|]. split; [by rewrite leaf_flags|]. rewrite leaf_pa by done. lia.
Qed.

(** The state after [k] pages of the segment. *)
Definition segment_progress F root E T n0 src src_size o permission s k (ps : list Z) F' T' s' : Prop :=
  Z.of_nat (length ps) = k /\ vm_grows F T s s' F' T' /\
  vm_at s' F' root (pages_mapped E n0 ps permission) T' /\
  segment_frames F (mem s) (mem s') F' T' src src_size o ps.

(** One turn of the loop for page [k], with the arguments the code computes. *)
Lemma segment_page_ok F root E T n0 src src_size o permission s k ps F1 T1 s1 src_addr :
  segment_progress F root E T n0 src src_size o permission s k ps F1 T1 s1 -> 0 <= o < PGSIZE ->
  0 <= n0 -> n0 + k < MAXVA / PGSIZE -> 0 <= permission < 1024 -> valid (E (n0 + k)) = false ->
  ram_range src src_size -> (forall a, src <= a < src + src_size -> ~ vm_bytes F T a) ->
  (page_first o k < src_size -> src_addr = src + page_first o k) ->
  wp (map_page_for_user root (n0 * PGSIZE + o + page_first o k) src_addr (copy_size src_size o k) permission)
    (fun r s2 => exists F2 T2, vm_grows F1 T1 s1 s2 F2 T2 /\ (forall j, capacity F1 (S j + 3) -> r = 0 /\ capacity F2 (S j)) /\
      ((r = -1 /\ vm_at s2 F2 root (pages_mapped E n0 ps permission) T2 /\ out_of_memory F2) \/
       (r = 0 /\ exists p, segment_progress F root E T n0 src src_size o permission s (k + 1) (ps ++ [p]) F2 T2 s2))) s1.
Proof.
  intros (Hk & Hgr & Hat1 & Hfr) Ho Hn0 Hmax Hperm Hinv Hsrc Hap Hsa.
  change (MAXVA / PGSIZE) with (2 ^ 26) in Hmax. pose proof Hgr as (_ & HF1 & Hb1 & Hm1).
  set (va := n0 * PGSIZE + o + page_first o k). assert (Hk0 : 0 <= k) by lia.
  assert (Hin : (n0 + k) * PGSIZE <= va < (n0 + k) * PGSIZE + PGSIZE) by (unfold va, page_first, PGSIZE in *; lia).
  assert (Hva : 0 <= va < MAXVA) by (change MAXVA with (2 ^ 26 * PGSIZE); unfold PGSIZE in *; lia).
  assert (Hvp : va / PGSIZE = n0 + k) by (symmetry; apply (Z.div_unique _ _ _ (va - (n0 + k) * PGSIZE)); unfold PGSIZE in *; lia).
  assert (HE1 : pages_mapped E n0 ps permission (n0 + k) = E (n0 + k)).
  { unfold pages_mapped. destruct (n0 <=? n0 + k); [|done]. by rewrite lookup_ge_None_2 by lia. }
  assert (Hf0 : 0 <= page_first o k) by (unfold page_first; lia).
  assert (Hc : copy_size src_size o k = 0 \/ page_first o k < src_size /\ 0 < copy_size src_size o k <= src_size - page_first o k) by (unfold copy_size; lia).
  assert (Hcs : forall i, 0 <= i < PGSIZE -> page_content (mem s1) src_addr (copy_size src_size o k) i =
    filled_byte (mem s) src src_size o (Z.of_nat (length ps)) i).
  { intros i Hi. unfold filled_byte, page_content. rewrite Hk.
    destruct (Z.ltb_spec i (copy_size src_size o k)); [|done]. rewrite Hsa by lia. apply Hm1, Hap. lia. }
  eapply wp_mono; [apply (map_page_for_user_ok F1 root _ T1 _ src_addr (copy_size src_size o k) permission s1 Hat1 Hva Hperm)|].
  - by rewrite Hvp, HE1.
  - unfold copy_size, page_first, PGSIZE in *. lia.
  - destruct Hc as [?|[Hlt Hle]]; [by left|right]. rewrite Hsa by done. unfold ram_range in *. lia.
  - intros a Ha ?%Hb1. destruct Hc as [Hz|[Hlt Hle]]; [lia|]. apply (Hap a); [|done]. rewrite Hsa in Ha by done. lia.
  - intros r s2 (F2 & T2 & Hgr2 & Hcost & Hcase). exists F2, T2. split; [done|]. split; [done|].
    destruct Hcase as [(-> & Hat2 & Hout)|(-> & p & Hp & Hat2)].
    + by left.
    + right. split; [done|]. exists p. split; [rewrite length_app; simpl; lia|].
      split; [by eapply vm_grows_trans|]. split.
      * apply (vm_at_ext _ _ _ _ _ _ Hat2). intros n _. rewrite pages_mapped_snoc, Hvp. by rewrite Hk.
      * apply (segment_frames_snoc F (mem s) s1 s2 F1 T1 F2 T2 src src_size o ps p HF1 Hgr2 Hfr).
        by apply (filled_frame_mono F1 F1 _ _ _ _ _ _ (fun a H => H) Hcs).
Qed.

(** Giving a half loaded segment back. *)
Lemma segment_undo_ok F root E T n0 src src_size o permission s k ps F1 T1 s1 :
  segment_progress F root E T n0 src src_size o permission s k ps F1 T1 s1 ->
  0 <= n0 -> n0 + k <= MAXVA / PGSIZE -> 0 <= permission < 1024 -> Z.lor permission PTE_V <> PTE_V ->
  wp (free_memory root (n0 * PGSIZE) (k * PGSIZE)) (fun _ s2 =>
    vm_grows F T s s2 (fun a => F1 a \/ in_frames ps a) T1 /\
    vm_at s2 (fun a => F1 a \/ in_frames ps a) root (pages_cleared E n0 k) T1) s1.
Proof.
  intros (<- & (Hregs & HF1 & Hb1 & Hm1) & Hat1 & [Hnd Hfr]) Hn0 Hmax Hperm Hpv.
  assert (Hg : Forall (good_block kernel_end PHYSTOP 0) ps) by (apply Forall_lookup; intros j q Hj; apply (Hfr j q Hj)).
  assert (Hu : Forall (user_frame F1 T1) ps) by (apply Forall_lookup; intros j q Hj; apply (Hfr j q Hj)).
  assert (HF : forall a, in_frames ps a -> F a).
  { intros a (q & [j Hj]%list_elem_of_lookup & Ha). by apply (Hfr j q Hj). }
  eapply wp_mono; [apply (free_memory_ok F1 root _ T1 n0 ps s1 Hat1); try done; by apply pages_mapped_to|].
  intros [] s2 (Hregs2 & Hm2 & Hat2). split.
  - split; [by etrans|]. split; [naive_solver|]. split.
    + intros a [?|[[?|?]|?]]; [by left|right; left; auto|right; left; auto|apply Hb1; by right; right].
    + eapply modifies_trans; [exact Hm1|]. eapply modifies_weaken; [|exact Hm2].
      intros a [?|?]; [by apply Hb1|right; left; auto].
  - apply (vm_at_ext _ _ _ _ _ _ Hat2). intros n _. unfold pages_cleared, pages_mapped.
    destruct (Z.leb_spec n0 n), (Z.ltb_spec n (n0 + Z.of_nat (length ps))); simpl; try done.
    by rewrite lookup_ge_None_2 by lia.
Qed.

(** The arguments of the call for page [k]. *)
Lemma segment_arguments n0 o k src_size : 0 <= o < PGSIZE -> 0 <= n0 -> 0 <= k -> n0 + k < MAXVA / PGSIZE ->
  0 <= src_size -> n0 * PGSIZE + o + src_size <= MAXVA ->
  let va := n0 * PGSIZE + o in
  let page_addr := (n0 + k) * PGSIZE in
  let dest_start := max va page_addr in
  let dest_end := min (va +w src_size) (page_addr +w PGSIZE) in
  dest_start = va + page_first o k /\
  (if dest_start <? dest_end then dest_end -w dest_start else 0) = copy_size src_size o k /\
  (page_addr +w PGSIZE) = (n0 + (k + 1)) * PGSIZE /\
  (page_first o (k + 1) < src_size -> dest_end -w dest_start = page_first o (k + 1) - page_first o k).
Proof.
  intros Ho Hn0 Hk Hmax Hs Hsm va page_addr dest_start dest_end.
  change (MAXVA / PGSIZE) with (2 ^ 26) in Hmax. change MAXVA with (2 ^ 26 * PGSIZE) in Hsm.
  unfold dest_end, dest_start, max, min, page_addr, va, copy_size, page_first, PGSIZE in *.
  rewrite !(w64_small (_ + _)) by lia.
  repeat case_match; rewrite ?Z.ltb_lt, ?Z.ltb_ge, ?Z.leb_le, ?Z.leb_gt in *;
    rewrite ?w64_small by lia; split_and!; lia.
Qed.

(** The whole segment, wherever it starts. *)
Lemma map_section_at_ok F root E T n0 o src src_size size permission s :
  vm_at s F root E T -> 0 <= o < PGSIZE -> 0 <= n0 -> 0 <= src_size <= size -> n0 * PGSIZE + o + size <= MAXVA ->
  0 <= permission < 1024 -> Z.lor permission PTE_V <> PTE_V ->
  (forall n, n0 <= n < n0 + pages_of (o + size) -> valid (E n) = false) ->
  ram_range src src_size -> (forall a, src <= a < src + src_size -> ~ vm_bytes F T a) ->
  wp (map_section_for_user root (n0 * PGSIZE + o) src src_size size permission) (fun r s' => exists F' T' ps,
    vm_grows F T s s' F' T' /\ (forall j, capacity F (S j + 3 * Z.to_nat (pages_of (o + size))) -> r = 0 /\ capacity F' (S j)) /\
    ((r = 0 /\ segment_progress F root E T n0 src src_size o permission s (pages_of (o + size)) ps F' T' s') \/
     (r = -1 /\ Z.of_nat (length ps) < pages_of (o + size) /\
      vm_at s' F' root (pages_cleared E n0 (Z.of_nat (length ps))) T' /\
      exists G, out_of_memory G /\ forall a, F' a <-> G a \/ in_frames ps a))) s.
Proof.
  intros Hat Ho Hn0 Hsize Hmax Hperm Hpv Hinv Hsrc Hap. unfold map_section_for_user.
  change MAXVA with (2 ^ 26 * PGSIZE) in Hmax. set (np := pages_of (o + size)) in *.
  pose proof (fun k => proj1 (pages_of_spec (o + size) k ltac:(lia))) as Hpg.
  pose proof (proj2 (pages_of_spec (o + size) 0 ltac:(lia))) as Hpg0. fold np in Hpg, Hpg0.
  assert (Hdown : PGROUNDDOWN (n0 * PGSIZE + o) = n0 * PGSIZE).
  { unfold PGSIZE in *. rewrite PGROUNDDOWN_eq, Z.add_comm, Z.mod_add, Z.mod_small by lia. lia. }
  rewrite Hdown, (w64_small (n0 * PGSIZE + o + size)) by (unfold PGSIZE in *; lia).
  apply (wp_loop (fun n '(page_addr, src_addr) s1 => exists k ps F1 T1, n = np - k /\ k <= np /\
    page_addr = (n0 + k) * PGSIZE /\ (forall j, capacity F (S j + 3 * Z.to_nat k) -> capacity F1 (S j)) /\
    (page_first o k < src_size -> src_addr = src + page_first o k) /\
    segment_progress F root E T n0 src src_size o permission s k ps F1 T1 s1) np).
  - exists 0, [], F, T. split; [lia|]. split; [done|]. split; [f_equal; lia|].
    split; [intros j; apply capacity_le; lia|]. split; [unfold page_first; lia|].
    split; [done|]. split; [apply vm_grows_refl|].
    split; [|by split; [apply NoDup_nil_2|]].
    apply (vm_at_ext _ _ _ _ _ _ Hat). intros n _. unfold pages_mapped. by destruct (n0 <=? n).
  - destruct (decide (np < 2 ^ 64)); [done|]. exfalso. pose proof (proj1 (Hpg (2 ^ 64 - 1))). unfold PGSIZE in *. lia.
  - intros n [page_addr src_addr] s1 (k & ps & F1 & T1 & -> & Hk & -> & Hco & Hsa & Hpr). split; [lia|].
    pose proof Hpr as (Hlen & Hgr & Hat1 & _). specialize (Hpg k).
    destruct (Z.ltb_spec ((n0 + k) * PGSIZE) (n0 * PGSIZE + o + size)) as [Hlt|Hge].
    2:{ wp_step. assert (k = np) as -> by (unfold PGSIZE in *; lia).
        exists F1, T1, ps. split; [done|]. split; [by intros j Hj%Hco|]. left. by split. }
    assert (Hkp : k < np) by (unfold PGSIZE in *; lia).
    assert (Hnk : n0 + k < MAXVA / PGSIZE) by (change (MAXVA / PGSIZE) with (2 ^ 26); unfold PGSIZE in *; lia).
    destruct (segment_arguments n0 o k src_size) as (Hd & -> & Hnext & Hde);
      [done|done|lia|done|lia|change MAXVA with (2 ^ 26 * PGSIZE); lia|]. rewrite Hnext, Hd. rewrite Hnext, Hd in Hde.
    wp_step. eapply wp_mono; [apply (segment_page_ok F root E T n0 src src_size o permission s k ps F1 T1 s1 src_addr Hpr); try done; apply Hinv; lia|].
    intros r s2 (F2 & T2 & Hgr2 & Hcost & [(-> & Hat2 & Hout)|(-> & p & Hpr2)]); simpl (negb _); cbv iota.
    + replace ((n0 + k) * PGSIZE -w n0 * PGSIZE) with (k * PGSIZE) by (rewrite w64_small; unfold PGSIZE in *; lia).
      assert (Hpr2 : segment_progress F root E T n0 src src_size o permission s k ps F2 T2 s2).
      { split; [done|]. split; [by eapply vm_grows_trans|]. split; [done|]. eapply segment_frames_step; [done|apply Hpr]. }
      wp_step. eapply wp_mono; [apply (segment_undo_ok F root E T n0 src src_size o permission s k ps F2 T2 s2 Hpr2); [done|lia|done..]|].
      intros [] s3 (Hgr3 & Hat3). wp_step. eexists _, T2, ps. split; [exact Hgr3|].
      split; [|right].
      { intros j Hj. destruct (Hcost j) as [[=] _]. apply (Hco (j + 3)%nat). eapply capacity_le; [|exact Hj]. lia. }
      split; [done|]. rewrite Hlen. split; [done|]. split; [done|]. by exists F2.
    + wp_step. exists (np - (k + 1)). split; [lia|]. exists (k + 1), (ps ++ [p]), F2, T2.
      split; [done|]. split; [lia|]. split; [done|]. split; [|split; [|done]].
      { intros j Hj. apply Hcost, (Hco (j + 3)%nat). eapply capacity_le; [|exact Hj]. lia. }
      intros Hlt'. rewrite (Hde Hlt'), Hsa by (unfold page_first, PGSIZE in *; lia). unfold ram_range, PHYSTOP, KERNBASE in Hsrc.
      rewrite w64_small; unfold page_first, PGSIZE in *; lia.
Qed.

(** A segment that starts on a page. *)
Lemma map_section_ok F root E T n0 src src_size size permission s :
  vm_at s F root E T -> 0 <= n0 -> 0 <= src_size <= size -> n0 * PGSIZE + size <= MAXVA ->
  0 <= permission < 1024 -> Z.lor permission PTE_V <> PTE_V ->
  (forall n, n0 <= n < n0 + pages_of size -> valid (E n) = false) ->
  ram_range src src_size -> (forall a, src <= a < src + src_size -> ~ vm_bytes F T a) ->
  wp (map_section_for_user root (n0 * PGSIZE) src src_size size permission) (fun r s' => exists F' T' ps,
    vm_grows F T s s' F' T' /\ (forall j, capacity F (S j + 3 * Z.to_nat (pages_of size)) -> r = 0 /\ capacity F' (S j)) /\
    ((r = 0 /\ segment_progress F root E T n0 src src_size 0 permission s (pages_of size) ps F' T' s') \/
     (r = -1 /\ Z.of_nat (length ps) < pages_of size /\
      vm_at s' F' root (pages_cleared E n0 (Z.of_nat (length ps))) T' /\
      exists G, out_of_memory G /\ forall a, F' a <-> G a \/ in_frames ps a))) s.
Proof.
  intros Hat Hn0 Hsize Hmax Hperm Hpv Hinv Hsrc Hap. rewrite <- (Z.add_0_r (n0 * PGSIZE)), <- (Z.add_0_l size) at 1.
  assert (Ho : 0 <= 0 < PGSIZE) by done. assert (Hm : n0 * PGSIZE + 0 + size <= MAXVA) by lia.
  exact (map_section_at_ok F root E T n0 0 src src_size size permission s Hat Ho Hn0 Hsize Hm Hperm Hpv Hinv Hsrc Hap).
Qed.

End UserMemory.
