(* ===== verification/UserMemoryTheorems.v ===== *)
(** * Theorems on user memory

    What a program sees of the pages that the loader has filled, and the
    release of user pages. *)

From S2P Require Import Prelude Machine Board Utility Uart BuddySpec PageAlloc Buddy BuddyInstance BuddyTheorems Kmalloc LinkedList PageTable PageTableProof PageTableTheorems Task Process TaskTable UserStack UserMemory.

(** The byte a program sees at [va]. *)
Definition user_byte (m : gmap Z Z) (E : Z -> Z) (va : Z) : Z := rd8 m (translate E va).

Section Theorems.
Context `{Hw : Platform} {HwOk : PlatformOk Hw} {Ops : PageOps} {HA : PageAllocator Ops}.

(** Data of the kernel image, apart from the allocator's own. *)
Definition image_data (a n : Z) : Prop := ram_range a n /\ a + n <= kernel_end /\
  forall b, a <= b < a + n -> ~ pool_private b.

Lemma image_data_apart s F root E T src n : vm_at s F root E T -> image_data src n ->
  forall a, src <= a < src + n -> ~ vm_bytes F T a.
Proof.
  intros (Hrep & Hp & _) (_ & Hend & Hpr) a Ha [?|[HF|(l & p & Hl & Hin)]].
  - by apply (Hpr a).
  - pose proof (pool_owns_range _ _ _ Hp HF). lia.
  - destruct (pt_page _ _ _ _ Hrep _ _ Hl) as [(_ & ? & _) _]. lia.
Qed.

(** Translation of the pages that were mapped. *)
Lemma translate_mapped E n0 ps permission k p i :
  0 <= permission < 1024 -> good_block kernel_end PHYSTOP 0 p -> ps !! k = Some p -> 0 <= i < PGSIZE ->
  translate (pages_mapped E n0 ps permission) (n0 * PGSIZE + (Z.of_nat k * PGSIZE + i)) = p + i /\
  pages_mapped E n0 ps permission (n0 + Z.of_nat k) = leaf p permission.
Proof using HwOk.
  intros Hp Hg Hk Hi. destruct (frame_bits p Hg) as [Hp56 Hpd]. rewrite PGROUNDDOWN_eq in Hpd by lia.
  assert (HE : pages_mapped E n0 ps permission (n0 + Z.of_nat k) = leaf p permission).
  { unfold pages_mapped. rewrite (proj2 (Z.leb_le _ _)) by lia.
    replace (Z.to_nat (n0 + Z.of_nat k - n0)) with k by lia. by rewrite Hk. }
  split; [|done]. unfold translate.
  replace (n0 * PGSIZE + (Z.of_nat k * PGSIZE + i)) with (i + (n0 + Z.of_nat k) * PGSIZE) by lia.
  unfold PGSIZE in *. rewrite Z.div_add, Z.div_small, Z.add_0_l by lia. rewrite HE, valid_leaf, leaf_pa by done.
  rewrite PGOFFSET_eq, Z.mod_add, (Z.mod_small i) by lia. rewrite w64_small by lia. lia.
Qed.

(** Byte [x] of the pages is at offset [x mod PGSIZE] of the frame of its page. *)
Lemma segment_byte_at F root E T n0 o src src_size permission s np ps F' T' s' x :
  segment_progress F root E T n0 src src_size o permission s np ps F' T' s' ->
  0 <= permission < 1024 -> 0 <= x < np * PGSIZE -> exists p, ps !! Z.to_nat (x / PGSIZE) = Some p /\
    (n0 * PGSIZE + x) / PGSIZE = n0 + x / PGSIZE /\ user_frame F' T' p /\
    translate (pages_mapped E n0 ps permission) (n0 * PGSIZE + x) = p + x mod PGSIZE /\
    pages_mapped E n0 ps permission (n0 + x / PGSIZE) = leaf p permission /\
    rd8 (mem s') (p + x mod PGSIZE) = filled_byte (mem s) src src_size o (x / PGSIZE) (x mod PGSIZE).
Proof using HwOk.
  intros (Hlen & _ & _ & Hnd & Hfr) Hp Hx. pose proof (Z.div_mod x PGSIZE ltac:(done)) as Hdm.
  pose proof (Z.mod_pos_bound x PGSIZE ltac:(done)) as Hmod.
  assert (Hd : 0 <= x / PGSIZE) by (apply Z.div_pos; [lia|done]).
  assert (Hk : x / PGSIZE < np) by (apply Z.div_lt_upper_bound; [done|lia]).
  destruct (lookup_lt_is_Some_2 ps (Z.to_nat (x / PGSIZE))) as [p Hkp]; [lia|].
  destruct (Hfr _ _ Hkp) as (Hu & _ & Hc). pose proof (proj1 Hu) as Hg.
  destruct (translate_mapped E n0 ps permission _ p (x mod PGSIZE) Hp Hg Hkp Hmod) as [Ht HE].
  rewrite Z2Nat.id in * by lia. replace (x / PGSIZE * PGSIZE + x mod PGSIZE) with x in Ht by lia.
  exists p. split; [done|]. split; [by rewrite (Z.add_comm (n0 * PGSIZE)), Z.div_add, Z.add_comm|].
  split; [done|]. split; [done|]. split; [done|]. by apply Hc.
Qed.

(** Where that is the byte of the segment, and what the first page holds. *)
Lemma filled_byte_at m src src_size o x : 0 <= o < PGSIZE -> 0 <= src_size -> 0 <= x ->
  (o = 0 \/ PGSIZE <= x -> filled_byte m src src_size o (x / PGSIZE) (x mod PGSIZE) = segment_byte m src src_size (x - o)) /\
  (x < PGSIZE -> filled_byte m src src_size o (x / PGSIZE) (x mod PGSIZE) = page_content m src (Z.min src_size (PGSIZE - o)) x).
Proof.
  intros Ho Hs Hx. pose proof (Z.div_mod x PGSIZE ltac:(done)) as Hdm.
  pose proof (Z.mod_pos_bound x PGSIZE ltac:(done)) as Hmod.
  assert (Hd : 0 <= x / PGSIZE) by (apply Z.div_pos; [lia|done]). split.
  - intros Hor. rewrite filled_byte_placed; [f_equal; lia|done|done|done|].
    destruct Hor as [->|Hle]; [by left|right]. apply Z.div_le_lower_bound; [done|lia].
  - intros Hlt. rewrite Z.div_small, Z.mod_small by lia. unfold filled_byte, copy_size, page_first.
    rewrite Z.mul_0_l, (Z.max_l 0 (0 - o)), Z.add_0_r by lia. f_equal. unfold PGSIZE in *. lia.
Qed.

(** C7: [map_section_for_user] loads a segment at any address [o] bytes into a
    page: when it returns 0 all pages the segment touches are mapped with the
    requested permission to frames of their own that no two addresses share,
    and every other page is mapped as before. If the segment starts on a page
    ([o] = 0) the program sees at its address the bytes of the file and zeros
    after them; otherwise it sees them so only beyond the first page, and the
    first page holds its bytes at the page's start instead of at the segment's.
    When it returns -1 memory has run out, no page of the segment is mapped,
    and every other page is mapped as before. *)
Theorem map_section_loads F root E n0 o src src_size size permission s :
  vm_rep s F root E -> 0 <= o < PGSIZE -> 0 <= n0 -> 0 <= src_size <= size -> n0 * PGSIZE + o + size <= MAXVA ->
  0 <= permission < 1024 -> Z.lor permission PTE_V <> PTE_V ->
  let np := pages_of (o + size) in
  (forall n, n0 <= n < n0 + np -> valid (E n) = false) -> image_data src src_size ->
  wp (map_section_for_user root (n0 * PGSIZE + o) src src_size size permission) (fun r s' => same_regs s s' /\
    modifies (vm_touch F s root) (mem s) (mem s') /\ exists F' E', vm_rep s' F' root E' /\ (forall a, F' a -> F a) /\
    (forall n, ~ (n0 <= n < n0 + np) -> E' n = E n) /\
    ((r = 0 /\ (forall x, 0 <= x < np * PGSIZE -> let va := n0 * PGSIZE + x in
        (o = 0 \/ PGSIZE <= x -> user_byte (mem s') E' va = segment_byte (mem s) src src_size (x - o)) /\
        (x < PGSIZE -> user_byte (mem s') E' va = page_content (mem s) src (Z.min src_size (PGSIZE - o)) x) /\
        PTE_FLAGS (E' (va / PGSIZE)) = Z.lor permission PTE_V /\ ~ F' (translate E' va) /\
        forall y, 0 <= y < np * PGSIZE -> translate E' va = translate E' (n0 * PGSIZE + y) -> y = x)) \/
     (r = -1 /\ (forall n, n0 <= n < n0 + np -> valid (E' n) = false) /\
      exists ps G, Z.of_nat (length ps) < np /\ out_of_memory G /\
        forall a, F' a <-> G a \/ in_frames ps a))) s.
Proof.
  intros (T & Hat) Ho Hn0 Hsize Hmax Hperm Hpv np Hinv Himg. pose proof Himg as (Hram & _).
  eapply wp_mono; [apply (map_section_at_ok F root E T); try done; by eapply image_data_apart|].
  intros r s' (F' & T' & ps & (Hregs & HF & _ & Hm) & _ & Hcase). split; [done|].
  split; [eapply modifies_weaken; [intros a; apply vm_bytes_touch, Hat|exact Hm]|].
  destruct Hcase as [[-> Hpr]|(-> & Hlt & Hat' & G & Hout & HG)].
  - pose proof Hpr as (Hlen & _ & Hat' & [Hnd _]).
    exists F', (pages_mapped E n0 ps permission). split; [by exists T'|]. split; [done|]. split.
    { intros n Hn. unfold pages_mapped. destruct (Z.leb_spec n0 n); [|done]. by rewrite lookup_ge_None_2 by (unfold np in *; lia). }
    left. split; [done|]. intros x Hx va.
    destruct (segment_byte_at _ _ _ _ _ _ _ _ _ _ _ _ _ _ _ x Hpr Hperm Hx) as (p & Hkp & Hvp & [Hg Hu] & Ht & HE & Hb).
    destruct (filled_byte_at (mem s) src src_size o x Ho (proj1 Hsize) (proj1 Hx)) as [Hplaced Hfirst].
    pose proof (Z.mod_pos_bound x PGSIZE ltac:(done)) as Hmx.
    unfold va, user_byte. rewrite Ht, Hvp, HE, Hb. destruct (frame_bits p Hg) as [Hp56 _].
    split; [exact Hplaced|]. split; [exact Hfirst|]. split; [by apply leaf_flags|]. split.
    + intros HFa. apply (Hu (p + x mod PGSIZE)); [lia|by right; left].
    + intros y Hy Heq.
      destruct (segment_byte_at _ _ _ _ _ _ _ _ _ _ _ _ _ _ _ y Hpr Hperm Hy) as (p' & Hkp' & _ & [Hg' _] & Ht' & _).
      rewrite Ht' in Heq. pose proof (Z.mod_pos_bound y PGSIZE ltac:(done)) as Hmy.
      assert (p = p') as <- by (apply (frames_apart p p' (p + x mod PGSIZE)); [done|done|lia|lia]).
      pose proof (NoDup_lookup _ _ _ _ Hnd Hkp Hkp') as Hkk.
      assert (0 <= x / PGSIZE /\ 0 <= y / PGSIZE) as [? ?] by (split; apply Z.div_pos; (done || lia)).
      pose proof (Z.div_mod x PGSIZE ltac:(done)). pose proof (Z.div_mod y PGSIZE ltac:(done)).
      assert (x / PGSIZE = y / PGSIZE) as Hxy by lia. rewrite Hxy in *. lia.
  - exists F', (pages_cleared E n0 (Z.of_nat (length ps))). split; [by exists T'|]. split; [done|]. split.
    { intros n Hn. unfold pages_cleared. destruct (Z.leb_spec n0 n), (Z.ltb_spec n (n0 + Z.of_nat (length ps))); (done || unfold np in *; lia). }
    right. split; [done|]. split; [|by exists ps, G]. intros n Hn. unfold pages_cleared.
    destruct (_ && _); [done|by apply Hinv].
Qed.

(** [free_memory] gives back what user pages occupy: pages mapped to frames of
    their own are unmapped, exactly their frames become free, every other page
    is mapped as before, and memory outside the allocator, the tables and the
    frames does not change. *)
Lemma free_memory_releases F root E T n0 ps s :
  vm_at s F root E T -> 0 <= n0 -> n0 + Z.of_nat (length ps) <= MAXVA / PGSIZE ->
  maps_to E n0 ps -> NoDup ps -> Forall (user_frame F T) ps ->
  wp (free_memory root (n0 * PGSIZE) (Z.of_nat (length ps) * PGSIZE)) (fun _ s' => same_regs s s' /\
    modifies (fun a => vm_bytes F T a \/ in_frames ps a) (mem s) (mem s') /\
    vm_at s' (fun a => F a \/ in_frames ps a) root (pages_cleared E n0 (Z.of_nat (length ps))) T) s.
Proof. apply free_memory_ok. Qed.

(** [map_page_for_user] puts the bytes at the start of the page also when [va]
    is inside it: the program sees them from the page's start on, not at [va]. *)
Lemma map_page_for_user_misplaces F root E va src n permission s :
  vm_rep s F root E -> 0 <= va < MAXVA -> 0 <= permission < 1024 -> valid (E (va / PGSIZE)) = false ->
  0 <= n <= PGSIZE -> image_data src n ->
  wp (map_page_for_user root va src n permission) (fun r s' => exists F' E', vm_rep s' F' root E' /\
    ((r = -1 /\ E' = E /\ out_of_memory F') \/
     (r = 0 /\ (forall i, 0 <= i < PGSIZE ->
        user_byte (mem s') E' (va / PGSIZE * PGSIZE + i) = if i <? n then rd8 (mem s) (src + i) else 0) /\
      forall va', va' / PGSIZE <> va / PGSIZE -> translate E' va' = translate E va'))) s.
Proof.
  intros (T & Hat) Hva Hperm Hinv Hn Himg. pose proof Himg as (Hram & _).
  eapply wp_mono; [apply (map_page_for_user_ok F root E T va src n permission s Hat Hva Hperm Hinv Hn); [by right|by eapply image_data_apart]|].
  intros r s' (F' & T' & _ & _ & [(-> & Hat' & Hout)|(-> & p & ([Hg _] & _ & Hc) & Hat')]).
  - exists F', E. split; [by exists T'|]. by left.
  - exists F', (<[va / PGSIZE := leaf p permission]> E). split; [by exists T'|]. right. split; [done|].
    split.
    + intros i Hi. unfold user_byte, translate. destruct (frame_bits p Hg) as [Hp56 Hpd].
      rewrite PGROUNDDOWN_eq in Hpd by lia. rewrite Z.add_comm, Z.div_add, (Z.div_small i), Z.add_0_l by (done || lia).
      rewrite fn_lookup_insert, valid_leaf, leaf_pa by done. unfold PGSIZE in *.
      rewrite PGOFFSET_eq, Z.mod_add, (Z.mod_small i) by lia. rewrite w64_small by lia.
      replace (p - p mod 4096 + i) with (p + i) by lia. by rewrite Hc.
    + intros va' Hne. unfold translate. by rewrite fn_lookup_insert_ne.
Qed.

End Theorems.

(** ** Instances: a segment of the embedded init program *)

Section Witnesses.
#[local] Existing Instances board board_ok.
#[local] Opaque root_state.

Definition user_rw : Z := Z.lor (Z.lor PTE_R PTE_W) PTE_U.

Lemma init_image_data n : 0 <= n <= 0x1000 -> image_data init_program n.
Proof.
  intros Hn. change init_program with 0x80013000. split; [unfold ram_range, PHYSTOP, KERNBASE; lia|].
  split; [change kernel_end with 0x80020000; lia|]. intros b Hb Hp. change (heads b) in Hp. unfold heads in Hp.
  change buddy_pool with 0x80010000 in Hp. lia.
Qed.

(** One segment on a page, and one that starts 512 bytes into it. *)
Lemma map_section_loads_witness :
  wp (map_section_for_user page (16 * PGSIZE + 0) init_program 100 5000 user_rw) (fun r s' => r = -1 \/
    exists E', user_byte (mem s') E' (16 * PGSIZE + 99) = rd8 (mem root_state) (init_program + 99) /\
      user_byte (mem s') E' (16 * PGSIZE + 4500) = 0) root_state /\
  wp (map_section_for_user page (16 * PGSIZE + 512) init_program 4000 5000 user_rw) (fun r s' => r = -1 \/
    exists E', user_byte (mem s') E' (16 * PGSIZE + 512) = rd8 (mem root_state) (init_program + 512) /\
      user_byte (mem s') E' (16 * PGSIZE + 4096) = rd8 (mem root_state) (init_program + 3584)) root_state.
Proof.
  split.
  - eapply wp_mono; [apply (map_section_loads root_free page (fun _ => 0) 16 0 init_program 100 5000 user_rw root_state root_vm);
      [done..|by apply init_image_data]|].
    intros r s' (_ & _ & F' & E' & _ & _ & _ & [[_ H]|[Hr _]]); [right; exists E'|left; exact Hr].
    split; [exact (proj1 (H 99 ltac:(done)) ltac:(by left))|exact (proj1 (H 4500 ltac:(done)) ltac:(by left))].
  - eapply wp_mono; [apply (map_section_loads root_free page (fun _ => 0) 16 512 init_program 4000 5000 user_rw root_state root_vm);
      [done..|by apply init_image_data]|].
    intros r s' (_ & _ & F' & E' & _ & _ & _ & [[_ H]|[Hr _]]); [right; exists E'|left; exact Hr].
    split; [exact (proj1 (proj2 (H 512 ltac:(done))) ltac:(done))|exact (proj1 (H 4096 ltac:(done)) ltac:(by right))].
Defined.

Lemma map_page_for_user_misplaces_witness :
  wp (map_page_for_user page 0x5123 init_program 8 user_rw) (fun r s' => r = -1 \/
    exists E', user_byte (mem s') E' 0x5000 = rd8 (mem root_state) init_program) root_state.
Proof.
  eapply wp_mono; [apply (map_page_for_user_misplaces root_free page (fun _ => 0) 0x5123 init_program 8 user_rw root_state root_vm);
    [done..|by apply init_image_data]|].
  intros r s' (F' & E' & _ & [[Hr _]|(_ & H & _)]); [left; exact Hr|right]. exists E'. exact (H 0 ltac:(done)).
Defined.

Definition loaded_state : state := after (map_page_for_user page 0x5000 init_program 8 user_rw) root_state.

Lemma loaded_ok : map_page_for_user page 0x5000 init_program 8 user_rw root_state = Ok 0 loaded_state.
Proof. apply returns_ok. vm_compute. reflexivity. Qed.

#[local] Opaque loaded_state.

Lemma loaded_page : exists F T p, user_frame F T p /\
  vm_at loaded_state F page (<[5 := leaf p user_rw]> (fun _ => 0)) T.
Proof.
  destruct root_vm as (T & Hat).
  pose proof (init_image_data 8 ltac:(done)) as Himg.
  pose proof (map_page_for_user_ok root_free page (fun _ => 0) T 0x5000 init_program 8 user_rw root_state Hat
    ltac:(done) ltac:(done) ltac:(done) ltac:(done) (or_intror (proj1 Himg))
    (image_data_apart root_state root_free page (fun _ => 0) T init_program 8 Hat Himg)) as Hwp.
  destruct (wp_elim _ _ _ _ _ Hwp loaded_ok)
    as (F' & T' & _ & _ & [(H & _)|(_ & p & (Hu & _) & H)]); [discriminate H|]. change (0x5000 / PGSIZE) with 5 in H.
  exists F', T', p. split; [exact Hu|exact H].
Qed.

Lemma free_memory_releases_witness : exists F T p,
  wp (free_memory page (5 * PGSIZE) (1 * PGSIZE)) (fun _ s' =>
    vm_at s' (fun a => F a \/ in_frames [p] a) page (pages_cleared (<[5 := leaf p user_rw]> (fun _ => 0)) 5 1) T) loaded_state.
Proof.
  destruct loaded_page as (F & T & p & Hu & Hat). exists F, T, p.
  eapply wp_mono; [apply (free_memory_releases F page _ T 5 [p] loaded_state Hat)|].
  - done.
  - done.
  - intros k q Hk. destruct k as [|k]; [|by destruct k]. injection Hk as <-. cbv zeta. change (5 + Z.of_nat 0) with 5.
    rewrite fn_lookup_insert. destruct (frame_bits p (proj1 Hu)) as [Hp56 Hpd]. rewrite PGROUNDDOWN_eq in Hpd by lia.
    split; [by rewrite valid_leaf|]. split; [by rewrite leaf_flags|]. rewrite leaf_pa by done. lia.
  - apply NoDup_singleton.
  - by constructor.
  - intros [] s' (_ & _ & H). exact H.
Defined.

End Witnesses.
