(* ===== verification/UserCopy.v ===== *)
(** * Copying user memory

    Proofs about [copy_memory_with_pagetable] of virtual_memory.c, the core of
    fork: the pages of one address space are copied into another, and the copy
    is undone when memory runs out. *)

From S2P Require Import Prelude Machine Utility Uart BuddySpec PageAlloc Capacity Kmalloc LinkedList PageTable PageTableProof Task Process TaskTable UserStack UserMemory.

(** The target's page table with copies of the pages from number [n0] on: the
    frame of each, or [None] if it could not be mapped. *)
Definition pages_copied (E1 E2 : Z -> Z) (n0 : Z) (qs : list (option Z)) (n : Z) : Z :=
  if n0 <=? n then
    match qs !! Z.to_nat (n - n0) with Some (Some p) => leaf p (PTE_FLAGS (E1 n)) | _ => E2 n end
  else E2 n.

Lemma pages_copied_snoc E1 E2 n0 qs q n : pages_copied E1 E2 n0 (qs ++ [q]) n =
  match q with
  | Some p => <[n0 + Z.of_nat (length qs) := leaf p (PTE_FLAGS (E1 (n0 + Z.of_nat (length qs))))]> (pages_copied E1 E2 n0 qs) n
  | None => pages_copied E1 E2 n0 qs n
  end.
Proof.
  unfold pages_copied. destruct (decide (n = n0 + Z.of_nat (length qs))) as [->|Hne].
  - rewrite (proj2 (Z.leb_le _ _)) by lia. replace (Z.to_nat _) with (length qs) by lia.
    rewrite list_lookup_middle by done. rewrite lookup_ge_None_2 by lia.
    destruct q; [by rewrite fn_lookup_insert|done].
  - assert ((if n0 <=? n then match (qs ++ [q]) !! Z.to_nat (n - n0) with
        | Some (Some p) => leaf p (PTE_FLAGS (E1 n)) | _ => E2 n end else E2 n) =
      (if n0 <=? n then match qs !! Z.to_nat (n - n0) with
        | Some (Some p) => leaf p (PTE_FLAGS (E1 n)) | _ => E2 n end else E2 n)) as ->.
    { destruct (Z.leb_spec n0 n); [|done]. destruct (decide (Z.to_nat (n - n0) < length qs)%nat).
      - by rewrite lookup_app_l.
      - rewrite (lookup_ge_None_2 (qs ++ [q])), (lookup_ge_None_2 qs); [done|lia|rewrite length_app; simpl; lia]. }
    destruct q; [by rewrite fn_lookup_insert_ne|done].
Qed.

Section Copy.
Context `{Hw : Platform} {HwOk : PlatformOk Hw} {Ops : PageOps} {HA : PageAllocator Ops}.

(** ** Two page tables over one allocator *)

Record two_vm (s : state) (F : Z -> Prop) (r1 : Z) (E1 : Z -> Z) (T1 : tables)
    (r2 : Z) (E2 : Z -> Z) (T2 : tables) : Prop := {
  tv_source : vm_at s F r1 E1 T1;
  tv_target : vm_at s F r2 E2 T2;
  tv_apart : forall a, table_byte T1 a -> ~ table_byte T2 a
}.

Lemma two_vm_step s s' F F' r1 E1 T1 r2 E2 T2 E2' T2' :
  two_vm s F r1 E1 T1 r2 E2 T2 -> vm_at s' F' r2 E2' T2' -> (forall a, F' a -> F a) ->
  (forall a, vm_bytes F' T2' a -> vm_bytes F T2 a) -> modifies (vm_bytes F T2) (mem s) (mem s') ->
  two_vm s' F' r1 E1 T1 r2 E2' T2'.
Proof.
  intros [H1 _ Hap] H2 HF Hb Hm.
  assert (Ht : forall a, table_byte T1 a -> ~ vm_bytes F T2 a).
  { intros a Ha. destruct (vm_table_apart _ _ _ _ _ _ H1 Ha). intros [?|[?|?]]; [done..|by apply (Hap a)]. }
  split; [|done|].
  - apply (vm_at_frame s s' F); [done| | |apply H2].
    + intros a Ha. by apply Hm, Ht.
    + intros a Ha ?%HF. by destruct (vm_table_apart _ _ _ _ _ _ H1 Ha).
  - intros a Ha Ha2. apply (Ht a Ha), Hb. by right; right.
Qed.

(** A frame of the source: apart from the allocator and both page tables. *)
Definition source_frame (F : Z -> Prop) (T1 T2 : tables) (p : Z) : Prop :=
  good_block kernel_end PHYSTOP 0 p /\
  forall a, p <= a < p + PGSIZE -> ~ vm_bytes F T1 a /\ ~ vm_bytes F T2 a.

(** A second page table. *)
Lemma second_pagetable F r1 E1 T1 s : vm_at s F r1 E1 T1 ->
  wp create_void_pagetable (fun r s' => r = NULL \/
    two_vm s' (without F 1 r) r1 E1 T1 r (fun _ => 0) {[ [] := r ]} /\
    forall a, r <= a < r + PGSIZE -> F a) s.
Proof.
  intros H1. pose proof H1 as (_ & Hp & _). eapply wp_mono; [exact (create_void_pagetable_at F s Hp)|].
  intros r s' (_ & Hm & [(-> & _)|(_ & _ & HrF & H2)]); [by left|right].
  assert (Hr : forall a, r <= a < r + PGSIZE -> F a).
  { intros a Ha. apply HrF. change (bsz 1) with 8192. unfold PGSIZE in Ha. lia. }
  split; [|done]. split; [|done|].
  - apply (vm_at_frame s s' F); [done| | |apply H2].
    + intros a Ha. destruct (vm_table_apart _ _ _ _ _ _ H1 Ha). apply Hm. by intros [?|?].
    + intros a Ha [? _]. by destruct (vm_table_apart _ _ _ _ _ _ H1 Ha).
  - intros a Ha (l & p & [<- <-]%lookup_singleton_Some & Hin).
    destruct (vm_table_apart _ _ _ _ _ _ H1 Ha) as [Hn _]. apply Hn, Hr. by unfold PGSIZE.
Qed.

(** ** Reading and clearing entries *)

Lemma read_entry F root E T va s : vm_at s F root E T -> 0 <= va < MAXVA -> valid (E (va / PGSIZE)) = true ->
  wp (pagetable_entry root va 0) (fun pte s' => s' = s /\ in_ram pte 8 = true /\
    rd64 (mem s) pte = E (va / PGSIZE)) s.
Proof.
  intros (Hrep & Hp & HE) Hva Hv. apply (walk_only F root T); [done..|]. split; [done|].
  pose proof (HE va Hva) as He. rewrite <-entry_read in He. unfold entry_addr.
  destruct (T !! path va) as [p|] eqn:Hl; [|by rewrite <-He in Hv].
  destruct (slot_ram _ _ _ _ _ _ _ Hrep Hl (PX_range 0 va)) as (? & ? & _).
  split; [by apply in_ram_true|done].
Qed.

Lemma unmap_page_missing F root E T va s : vm_at s F root E T -> 0 <= va < MAXVA ->
  T !! path (PGROUNDDOWN va) = None -> wp (unmap_page root va) (fun r s' => r = 1 /\ s' = s) s.
Proof.
  intros (Hrep & Hp & _) Hva Hn. unfold unmap_page. wp_step.
  destruct (va_page va Hva) as [Hva' _]. apply (walk_only F root T); [done..|]. rewrite Hn. simpl entry_addr.
  change (NULL =? NULL) with true. by wp_step.
Qed.

Lemma missing_entry s F root E T va : vm_at s F root E T -> 0 <= va < MAXVA -> T !! path va = None ->
  E (va / PGSIZE) = 0.
Proof. intros (_ & _ & HE) Hva Hn. rewrite <-HE by done. unfold entry, slot. by rewrite Hn. Qed.

(** ** A frame with the contents of another *)

Lemma take_frame F root E T s : vm_at s F root E T ->
  wp (allocate 0) (fun p s' => same_regs s s' /\ modifies (vm_bytes F T) (mem s) (mem s') /\
    ((p = NULL /\ mem s' = mem s /\ exhausted F 0) \/
     (p <> NULL /\ good_block kernel_end PHYSTOP 0 p /\ vm_at s' (without F 0 p) root E T /\
      forall a, p <= a < p + PGSIZE -> F a /\ ~ vm_bytes (without F 0 p) T a))) s.
Proof.
  intros Hat. pose proof Hat as (_ & Hp & _).
  eapply wp_mono; [apply (allocate_law F 0 s Hp); lia|].
  intros p s' (Hregs & Hm & Hcase). split; [done|].
  split; [eapply modifies_weaken; [|exact Hm]; intros a [?|?]; [by left|by right; left]|].
  destruct Hcase as [?|(Hg & Hne & HpF & Hp')]; [by left|right]. split; [done|]. split; [done|].
  pose proof Hg as (_ & _ & Hlo & Hhi). change (bsz 0) with PGSIZE in *. split.
  - apply (vm_at_frame s s' F); [done| | |done].
    + intros a Ha. destruct (vm_table_apart _ _ _ _ _ _ Hat Ha). apply Hm. by intros [?|?].
    + intros a Ha [HF _]. by destruct (vm_table_apart _ _ _ _ _ _ Hat Ha).
  - intros a Ha. split; [by apply HpF|]. intros [Hpr|[[_ Hn]|Htb]].
    + apply pool_private_range in Hpr. lia.
    + by apply Hn.
    + destruct (vm_table_apart _ _ _ _ _ _ Hat Htb) as [HnF _]. by apply HnF, HpF.
Qed.

Lemma good_frame_ram p : good_block kernel_end PHYSTOP 0 p -> ram_range p PGSIZE.
Proof using HwOk.
  intros (_ & _ & Hlo & Hhi). pose proof kernel_end_range. change (bsz 0) with PGSIZE in *.
  unfold ram_range, PGSIZE in *. lia.
Qed.

Lemma copy_frame F root E T p f s : vm_at s F root E T ->
  good_block kernel_end PHYSTOP 0 p -> good_block kernel_end PHYSTOP 0 f -> p <> f ->
  (forall a, p <= a < p + PGSIZE -> ~ vm_bytes F T a) ->
  wp (memcpy p f PGSIZE) (fun _ s' => same_regs s s' /\ modifies (range p PGSIZE) (mem s) (mem s') /\
    vm_at s' F root E T /\ forall i, 0 <= i < PGSIZE -> rd8 (mem s') (p + i) = rd8 (mem s) (f + i)) s.
Proof.
  intros Hat Hgp Hgf Hne Hap. apply memcpy_ok; [by apply good_frame_ram..| |].
  { destruct (decide (p <= f)); [by left|right]. destruct (decide (f + PGSIZE <= p)); [done|].
    destruct Hne. apply (frames_apart p f p); [done|done|unfold PGSIZE; lia|lia]. }
  intros m Hc Hm. split; [apply same_regs_set_mem|]. split; [done|]. split; [|done].
  pose proof Hat as (_ & Hp & _). apply (vm_at_frame s _ F); [done| | |].
  - intros a Ha. apply Hm. intros Hin. apply (Hap a Hin). by right; right.
  - intros a Ha. by destruct (vm_table_apart _ _ _ _ _ _ Hat Ha).
  - apply (pool_owns_frame _ _ _ Hp). intros a Ha. apply Hm. intros Hin. apply (Hap a Hin).
    destruct Ha; [by left|by right; left].
Qed.

(** ** One page *)

(** After the pages of [qs]: each one that is mapped has a frame of its own with
    the contents of the source page; one that is not has no table, and there is
    no memory for one. *)
Record copy_progress (F : Z -> Prop) (r1 : Z) (E1 : Z -> Z) (T1 : tables) (r2 : Z) (E2 : Z -> Z) (T2 : tables)
    (n0 : Z) (fs : list Z) (s : state) (qs : list (option Z)) (F' : Z -> Prop) (T' : tables) (s' : state) : Prop := {
  cp_length : (length qs <= length fs)%nat;
  cp_grows : vm_grows F T2 s s' F' T';
  cp_vm : two_vm s' F' r1 E1 T1 r2 (pages_copied E1 E2 n0 qs) T';
  cp_frame : forall j p f, qs !! j = Some (Some p) -> fs !! j = Some f ->
    filled_frame F (mem s') F' T' p (fun i => rd8 (mem s) (f + i));
  cp_missing : forall j, qs !! j = Some None ->
    T' !! path ((n0 + Z.of_nat j) * PGSIZE) = None /\ exhausted F' 1;
  cp_distinct : forall i j p, qs !! i = Some (Some p) -> qs !! j = Some (Some p) -> i = j;
  cp_cost : forall k, capacity F (k + 3 * length qs) -> capacity F' k
}.

(** What holds of the source and the range throughout. *)
Record copy_range (F : Z -> Prop) (E1 : Z -> Z) (T1 : tables) (E2 : Z -> Z) (T2 : tables)
    (n0 : Z) (fs : list Z) : Prop := {
  cr_range : 0 <= n0 /\ n0 + Z.of_nat (length fs) < MAXVA / PGSIZE;
  cr_source : maps_to E1 n0 fs;
  cr_frames : Forall (source_frame F T1 T2) fs;
  cr_distinct : NoDup fs;
  cr_target : forall n, n0 <= n < n0 + Z.of_nat (length fs) -> valid (E2 n) = false
}.

Lemma flags_range e : 0 <= PTE_FLAGS e < 1024.
Proof. unfold PTE_FLAGS. change 0x3FF with (Z.ones 10). rewrite Z.land_ones by lia. by apply Z.mod_pos_bound. Qed.

(** A valid entry's flags have the valid bit. *)
Lemma flags_valid e : valid e = true -> Z.lor (PTE_FLAGS e) PTE_V = PTE_FLAGS e.
Proof.
  intros Hv. apply Z.bits_inj'. intros i Hi. rewrite Z.lor_spec. unfold PTE_V. change (Z.shiftl 1 0) with (2 ^ 0).
  rewrite Z.pow2_bits_eqb by lia. destruct (Z.eqb_spec 0 i) as [<-|]; [|by rewrite orb_false_r].
  rewrite orb_true_r. unfold PTE_FLAGS. rewrite Z.land_spec. change (Z.testbit 0x3FF 0) with true.
  rewrite andb_true_r. unfold valid, truth, PTE_V in Hv. change (Z.shiftl 1 0) with (2 ^ 0) in Hv.
  rewrite land_pow2 in Hv by lia. by destruct (Z.testbit e 0).
Qed.

Lemma copy_progress_snoc F r1 E1 T1 r2 E2 T2 n0 fs s qs F1 T' s1 q F2 T2' s2 :
  copy_progress F r1 E1 T1 r2 E2 T2 n0 fs s qs F1 T' s1 -> (length qs < length fs)%nat ->
  vm_grows F1 T' s1 s2 F2 T2' -> (exhausted F1 1 -> T2' = T') -> (forall k, capacity F1 (k + 3) -> capacity F2 k) ->
  vm_at s2 F2 r2 (pages_copied E1 E2 n0 (qs ++ [q])) T2' ->
  match q with
  | Some p => forall f, fs !! length qs = Some f -> filled_frame F1 (mem s2) F2 T2' p (fun i => rd8 (mem s) (f + i))
  | None => T2' !! path ((n0 + Z.of_nat (length qs)) * PGSIZE) = None /\ exhausted F2 1
  end ->
  copy_progress F r1 E1 T1 r2 E2 T2 n0 fs s (qs ++ [q]) F2 T2' s2.
Proof.
  intros [Hlen Hg Hvm Hfr Hmi Hdi Hco] Hlt Hg2 Hx Hcost Hat2 Hq. pose proof Hg as (_ & HF1 & _).
  pose proof Hg2 as (_ & HF2 & Hb2 & Hm2).
  assert (Hlk : forall j x, (qs ++ [q]) !! j = Some x -> qs !! j = Some x \/ j = length qs /\ x = q).
  { intros j x [?|(Hj & Hx')]%lookup_app_Some; [by left|right].
    apply list_lookup_singleton_Some in Hx' as [? ->]. split; [lia|done]. }
  split.
  - rewrite length_app. simpl. lia.
  - by eapply vm_grows_trans.
  - by eapply two_vm_step.
  - intros j p f [Hj|[-> <-]]%Hlk Hf; [by eapply filled_frame_step, Hfr|].
    apply (filled_frame_mono F1 F _ _ _ _ _ _ HF1 (fun _ _ => eq_refl)). by apply Hq.
  - intros j [Hj|[-> <-]]%Hlk; [|exact Hq]. destruct (Hmi j Hj) as [HT He]. rewrite (Hx He). split; [done|].
    intros y Hy Hin. apply (He y Hy). auto.
  - assert (Hnew : forall j p, qs !! j = Some (Some p) -> q <> Some p).
    { intros j p Hj ->. pose proof (lookup_lt_Some _ _ _ Hj).
      destruct (lookup_lt_is_Some_2 fs j ltac:(lia)) as [f Hf]. destruct (lookup_lt_is_Some_2 fs (length qs) Hlt) as [f' Hf'].
      destruct (Hfr j p f Hj Hf) as ([Hgp Hn] & _). destruct (Hq f' Hf') as (_ & HF & _).
      assert (Hin : p <= p < p + PGSIZE) by (unfold PGSIZE; lia). apply (Hn p Hin). right. left. by apply HF. }
    intros i j p [Hi|[-> Ei]]%Hlk [Hj|[-> Ej]]%Hlk; [by eapply Hdi|by destruct (Hnew i p Hi)|by destruct (Hnew j p Hj)|done].
  - intros k Hk. apply Hcost, Hco. rewrite length_app in Hk. simpl length in Hk. eapply capacity_le; [|exact Hk]. lia.
Qed.

(** The page after the copied ones is not mapped in the target. *)
Lemma copy_target_free F E1 T1 E2 T2 n0 fs qs : copy_range F E1 T1 E2 T2 n0 fs -> (length qs < length fs)%nat ->
  pages_copied E1 E2 n0 qs (n0 + Z.of_nat (length qs)) = E2 (n0 + Z.of_nat (length qs)) /\
  valid (E2 (n0 + Z.of_nat (length qs))) = false.
Proof.
  intros Hr Hlt. split; [|apply (cr_target _ _ _ _ _ _ _ Hr); lia].
  unfold pages_copied. rewrite (proj2 (Z.leb_le _ _)) by lia. by rewrite lookup_ge_None_2 by lia.
Qed.

(** Copying into a frame just taken, and mapping it. *)
Lemma copy_page_ok F r1 E1 T1 r2 E2 T2 n0 fs s qs F1 T' s1 f p s2 :
  copy_range F E1 T1 E2 T2 n0 fs -> copy_progress F r1 E1 T1 r2 E2 T2 n0 fs s qs F1 T' s1 ->
  fs !! length qs = Some f -> same_regs s1 s2 -> modifies (vm_bytes F1 T') (mem s1) (mem s2) ->
  good_block kernel_end PHYSTOP 0 p -> vm_at s2 (without F1 0 p) r2 (pages_copied E1 E2 n0 qs) T' ->
  (forall a, p <= a < p + PGSIZE -> F1 a /\ ~ vm_bytes (without F1 0 p) T' a) ->
  forall A (k : Z -> M A) Q,
  (forall r s3 q F2 T2', r = 0 \/ r = 1 -> copy_progress F r1 E1 T1 r2 E2 T2 n0 fs s (qs ++ [q]) F2 T2' s3 -> wp (k r) Q s3) ->
  let va := (n0 + Z.of_nat (length qs)) * PGSIZE in
  wp (memcpy p f PGSIZE;; pte ← pagetable_entry r1 va 0; e ← load64 pte; r ← map_page r2 va p (PTE_FLAGS e); k r) Q s2.
Proof.
  intros Hr Hcp Hf Hregs2 Hm2 Hgp Hat2 Hap A kont Q Hk va. pose proof (lookup_lt_Some _ _ _ Hf) as Hlt.
  pose proof (cr_range _ _ _ _ _ _ _ Hr) as [Hn0 Hmax]. change (MAXVA / PGSIZE) with (2 ^ 26) in Hmax.
  pose proof (proj1 (Forall_lookup _ _) (cr_frames _ _ _ _ _ _ _ Hr) _ _ Hf) as [Hgf Hsf].
  destruct (cr_source _ _ _ _ _ _ _ Hr _ _ Hf) as (Hv & _).
  destruct (copy_target_free _ _ _ _ _ _ _ qs Hr Hlt) as [HEq Hinv].
  pose proof (cp_grows _ _ _ _ _ _ _ _ _ _ _ _ _ _ Hcp) as (_ & HF1 & Hb1 & Hm1).
  pose proof (cp_vm _ _ _ _ _ _ _ _ _ _ _ _ _ _ Hcp) as Htv1.
  assert (Hva : 0 <= va < MAXVA) by (unfold va; change MAXVA with (2 ^ 26 * PGSIZE); unfold PGSIZE; lia).
  assert (Hvp : va / PGSIZE = n0 + Z.of_nat (length qs)) by (by apply Z.div_mul).
  assert (HF2 : forall a, without F1 0 p a -> F1 a) by (by intros a [? _]).
  assert (Hb2 : forall a, vm_bytes (without F1 0 p) T' a -> vm_bytes F1 T' a).
  { intros a [?|[?%HF2|?]]; [by left|by right; left|by right; right]. }
  assert (Hrp : forall a, range p PGSIZE a -> vm_bytes F1 T' a) by (intros a Ha; right; left; by apply Hap).
  assert (Hpf : p <> f).
  { intros ->. assert (Hin : f <= f < f + PGSIZE) by (unfold PGSIZE; lia).
    destruct (Hsf f Hin) as [_ Hn]. apply Hn, Hb1. right. left. by apply Hap. }
  wp_step. eapply wp_mono; [apply (copy_frame _ r2 _ T' p f s2 Hat2 Hgp Hgf Hpf); intros a Ha; by apply Hap|].
  intros [] s3 (Hregs3 & Hm3 & Hat3 & Hc).
  assert (Hm13 : modifies (vm_bytes F1 T') (mem s1) (mem s3)).
  { eapply modifies_trans; [exact Hm2|]. by eapply modifies_weaken. }
  pose proof (two_vm_step _ _ _ _ _ _ _ _ _ _ _ _ Htv1 Hat3 HF2 Hb2 Hm13) as [Hat3s _ _].
  wp_step. eapply wp_mono; [apply (read_entry _ r1 E1 T1 va s3 Hat3s Hva); by rewrite Hvp|].
  intros pte s3' (-> & Hram & Hpte). rewrite Hvp in Hpte. wp_step. apply wp_load; [done|]. rewrite Hpte.
  destruct (frame_bits p Hgp) as [Hp56 Hpd]. wp_step.
  eapply wp_mono; [apply (map_page_at _ r2 _ T' va p _ s3 Hat3 Hva Hp56 (flags_range _)); by rewrite Hvp, HEq|].
  rewrite Hvp, Hpd. intros r s4 (Hregs4 & Hm4 & F4 & T4 & HF4 & Hb4 & Hx & Hcase).
  assert (Hg4 : vm_grows F1 T' s1 s4 F4 T4).
  { split; [by etrans; [|etrans]|]. split; [auto|]. split; [auto|].
    eapply modifies_trans; [exact Hm13|]. eapply modifies_weaken; [exact Hb2|exact Hm4]. }
  assert (Hx' : exhausted F1 1 -> T4 = T').
  { intros He. apply Hx. intros y Hy Hin. apply (He y Hy). auto. }
  assert (Hcost : forall k, capacity F1 (k + 3) -> capacity F4 k).
  { intros j Hj. apply Hx. apply capacity_take; [lia|done|]. eapply capacity_le; [|exact Hj]. lia. }
  destruct Hcase as [(-> & Hat4 & HT4 & He)|(-> & Hat4)].
  - apply (Hk 1 s4 None F4 T4); [by right|]. apply (copy_progress_snoc F r1 E1 T1 r2 E2 T2 n0 fs s qs F1 T' s1); try done.
    + apply (vm_at_ext _ _ _ _ _ _ Hat4). intros n _. by rewrite pages_copied_snoc.
    + split; [|done]. unfold va in HT4. by rewrite PGROUNDDOWN_aligned in HT4 by lia.
  - apply (Hk 0 s4 (Some p) F4 T4); [by left|]. apply (copy_progress_snoc F r1 E1 T1 r2 E2 T2 n0 fs s qs F1 T' s1); try done.
    + apply (vm_at_ext _ _ _ _ _ _ Hat4). intros n _. by rewrite pages_copied_snoc.
    + intros f' Hf'. rewrite Hf in Hf'. injection Hf' as <-. split; [split; [done|]|split].
      * intros a Ha ?%Hb4. by apply (Hap a Ha).
      * intros a Ha. by apply Hap.
      * intros i Hi. rewrite Hm4, Hc by (done || (intros Hin; apply (Hap (p + i)); [lia|done])).
        rewrite Hm2 by (intros Hin; apply (Hsf (f + i)); [lia|by apply Hb1]). apply Hm1. apply Hsf. lia.
Qed.

(** ** Giving the copies back *)

(** The source's frames among the first [k] pages are free, the copies unmapped. *)
Definition undone (F1 : Z -> Prop) (r1 : Z) (E1 : Z -> Z) (T1 : tables) (r2 : Z) (E2 : Z -> Z) (T' : tables)
    (n0 : Z) (fs : list Z) (qs : list (option Z)) (s1 : state) (k : nat) (s2 : state) : Prop :=
  same_regs s1 s2 /\
  modifies (fun a => vm_bytes F1 T' a \/ in_frames (take k fs) a) (mem s1) (mem s2) /\
  two_vm s2 (fun a => F1 a \/ in_frames (take k fs) a) r1 E1 T1
    r2 (pages_cleared (pages_copied E1 E2 n0 qs) n0 (Z.of_nat k)) T'.

Lemma in_frames_take fs k p a : fs !! k = Some p ->
  in_frames (take (S k) fs) a <-> in_frames (take k fs) a \/ p <= a < p + PGSIZE.
Proof. intros Hp. rewrite (take_S_r _ _ _ Hp). apply in_frames_snoc. Qed.

(** Releasing a frame of the source. *)
Lemma release_source_frame F r1 E1 T1 r2 E2 T2 p s :
  two_vm s F r1 E1 T1 r2 E2 T2 -> source_frame F T1 T2 p ->
  wp (deallocate p 0) (fun _ s' => same_regs s s' /\
    modifies (fun a => vm_bytes F T2 a \/ p <= a < p + PGSIZE) (mem s) (mem s') /\
    two_vm s' (with_block F 0 p) r1 E1 T1 r2 E2 T2) s.
Proof.
  intros [H1 H2 Hap] [Hg Hf]. eapply wp_mono; [apply (release_user_frame F r2 E2 T2 p s H2); split; [done|apply Hf]|].
  intros [] s' (Hregs & Hm & H2'). split; [done|]. split; [done|]. split; [|done..].
  assert (Ht : forall a, table_byte T1 a -> ~ (vm_bytes F T2 a \/ p <= a < p + PGSIZE)).
  { intros a Ha. destruct (vm_table_apart _ _ _ _ _ _ H1 Ha). intros [[?|[?|?]]|Hin]; [done..|by apply (Hap a)|].
    destruct (Hf a Hin) as [Hn _]. apply Hn. by right; right. }
  apply (vm_at_frame s s' F); [done| | |apply H2'].
  - intros a Ha. by apply Hm, Ht.
  - intros a Ha HF. apply (Ht a Ha). destruct HF; [left; by right; left|by right].
Qed.

(** Undoing one page. *)
Lemma undo_page_ok F r1 E1 T1 r2 E2 T2 va p s :
  two_vm s F r1 E1 T1 r2 E2 T2 -> 0 <= va < MAXVA -> PGOFFSET va = 0 ->
  valid (E1 (va / PGSIZE)) = true -> PTE2PA (E1 (va / PGSIZE)) = p -> source_frame F T1 T2 p ->
  (valid (E2 (va / PGSIZE)) = true /\ PTE_FLAGS (E2 (va / PGSIZE)) <> PTE_V \/ T2 !! path (PGROUNDDOWN va) = None) ->
  wp (src2 ← physical_address r1 va; unmap_page r2 va;; deallocate src2 0) (fun _ s' => same_regs s s' /\
    modifies (fun a => vm_bytes F T2 a \/ p <= a < p + PGSIZE) (mem s) (mem s') /\
    two_vm s' (with_block F 0 p) r1 E1 T1 r2 (<[va / PGSIZE := 0]> E2) T2) s.
Proof.
  intros Htv Hva Hoff Hv Hpa Hf Hcase. pose proof Htv as [H1 H2 _].
  destruct (frame_bits p (proj1 Hf)) as [Hp56 _].
  wp_step. eapply wp_mono; [exact (physical_address_ok _ _ _ va s (ex_intro _ T1 H1) Hva)|].
  intros r s' [-> ->]. unfold translate. rewrite Hv, Hoff, Hpa, Z.add_0_r, w64_small by lia. wp_step.
  assert (Hun : wp (unmap_page r2 va) (fun _ s1 => same_regs s s1 /\ modifies (table_byte T2) (mem s) (mem s1) /\
    vm_at s1 F r2 (<[va / PGSIZE := 0]> E2) T2) s).
  { destruct Hcase as [[Hv2 Hfl2]|Hn].
    - eapply wp_mono; [by apply (unmap_page_at F r2 E2 T2 va s H2)|]. by intros r s1 (_ & ? & ? & ?).
    - eapply wp_mono; [by apply (unmap_page_missing F r2 E2 T2 va s H2)|]. intros r s1 (_ & ->).
      split; [done|]. split; [apply modifies_refl|]. apply (vm_at_ext _ _ _ _ _ _ H2). intros n _.
      destruct (va_page va Hva) as [Hva' Hpage]. pose proof (missing_entry _ _ _ _ _ _ H2 Hva' Hn) as He.
      unfold PGSIZE in *. rewrite Hpage in He. destruct (decide (n = va / 4096)) as [->|].
      + by rewrite fn_lookup_insert.
      + by rewrite fn_lookup_insert_ne. }
  eapply wp_mono; [exact Hun|]. intros r s1 (Hregs1 & Hm1 & H2').
  assert (Hm1' : modifies (vm_bytes F T2) (mem s) (mem s1)) by (eapply modifies_weaken; [|exact Hm1]; intros a ?; by right; right).
  pose proof (two_vm_step _ _ _ _ _ _ _ _ _ _ _ _ Htv H2' (fun _ H => H) (fun _ H => H) Hm1') as Htv1.
  eapply wp_mono; [by apply (release_source_frame F r1 E1 T1 r2 _ T2 p s1 Htv1)|].
  intros [] s2 (Hregs2 & Hm2 & Htv2). split; [by etrans|]. split; [|done].
  eapply modifies_trans; [|exact Hm2]. eapply modifies_weaken; [|exact Hm1']. by left.
Qed.

(** What the copied pages look like in the target. *)
Lemma pages_copied_at F r1 E1 T1 r2 E2 T2 n0 fs s qs F1 T' s1 j q :
  copy_range F E1 T1 E2 T2 n0 fs -> copy_progress F r1 E1 T1 r2 E2 T2 n0 fs s qs F1 T' s1 -> qs !! j = Some q ->
  let e := pages_copied E1 E2 n0 qs (n0 + Z.of_nat j) in
  match q with
  | Some p => valid e = true /\ PTE_FLAGS e = PTE_FLAGS (E1 (n0 + Z.of_nat j)) /\ PTE2PA e = p
  | None => e = E2 (n0 + Z.of_nat j)
  end.
Proof.
  intros Hr Hcp Hq. unfold pages_copied. rewrite (proj2 (Z.leb_le _ _)) by lia.
  replace (Z.to_nat (n0 + Z.of_nat j - n0)) with j by lia. rewrite Hq. destruct q as [p|]; [|done].
  pose proof (lookup_lt_Some _ _ _ Hq) as Hlt. pose proof (cp_length _ _ _ _ _ _ _ _ _ _ _ _ _ _ Hcp) as Hle.
  destruct (lookup_lt_is_Some_2 fs j ltac:(lia)) as [f Hf].
  destruct (cp_frame _ _ _ _ _ _ _ _ _ _ _ _ _ _ Hcp j p f Hq Hf) as ([Hg _] & _).
  destruct (cr_source _ _ _ _ _ _ _ Hr _ _ Hf) as (Hv & _). destruct (frame_bits p Hg) as [Hp56 Hpd].
  rewrite PGROUNDDOWN_eq in Hpd by lia. pose proof (flags_range (E1 (n0 + Z.of_nat j))) as Hfr.
  split; [by rewrite valid_leaf|]. split; [by rewrite leaf_flags, flags_valid|]. rewrite leaf_pa by done. lia.
Qed.

Lemma source_frame_undone F F1 T1 T2 T' fs k p : Forall (source_frame F T1 T2) fs -> NoDup fs -> fs !! k = Some p ->
  (forall a, F1 a -> F a) -> (forall a, vm_bytes F1 T' a -> vm_bytes F T2 a) ->
  source_frame (fun a => F1 a \/ in_frames (take k fs) a) T1 T' p.
Proof.
  intros Hfr Hnd Hp HF Hb. pose proof (proj1 (Forall_lookup _ _) Hfr _ _ Hp) as [Hg Hn].
  assert (Hd : forall a, p <= a < p + PGSIZE -> ~ in_frames (take k fs) a).
  { intros a Ha (q & Hq & Haq). apply list_elem_of_lookup in Hq as [j Hj]. apply lookup_take_Some in Hj as [Hj Hjk].
    pose proof (proj1 (Forall_lookup _ _) Hfr _ _ Hj) as [Hgq _].
    assert (q = p) as -> by (by eapply frames_apart). pose proof (NoDup_lookup _ _ _ _ Hnd Hj Hp). lia. }
  split; [done|]. intros a Ha. destruct (Hn a Ha) as [Hn1 Hn2]. split.
  - intros [?|[[?|?]|?]]; [apply Hn1; by left|apply Hn1; right; left; auto|by apply (Hd a)|apply Hn1; by right; right].
  - intros [?|[[?|?]|?]]; [apply Hn2, Hb; by left|apply Hn2, Hb; by right; left|by apply (Hd a)|apply Hn2, Hb; by right; right].
Qed.

Lemma undone_step F1 r1 E1 T1 r2 E2 T' n0 fs qs s1 k p s2 s3 E2' :
  undone F1 r1 E1 T1 r2 E2 T' n0 fs qs s1 k s2 -> fs !! k = Some p ->
  same_regs s2 s3 ->
  modifies (fun a => vm_bytes (fun a => F1 a \/ in_frames (take k fs) a) T' a \/ p <= a < p + PGSIZE) (mem s2) (mem s3) ->
  two_vm s3 (with_block (fun a => F1 a \/ in_frames (take k fs) a) 0 p) r1 E1 T1 r2 E2' T' ->
  E2' = <[n0 + Z.of_nat k := 0]> (pages_cleared (pages_copied E1 E2 n0 qs) n0 (Z.of_nat k)) ->
  undone F1 r1 E1 T1 r2 E2 T' n0 fs qs s1 (S k) s3.
Proof.
  intros (Hregs & Hm & _) Hp Hregs3 Hm3 [H1 H2 Hap] ->.
  assert (HF3 : forall a, with_block (fun a => F1 a \/ in_frames (take k fs) a) 0 p a <->
    F1 a \/ in_frames (take (S k) fs) a).
  { intros a. rewrite (in_frames_take _ _ _ _ Hp). unfold with_block. change (bsz 0) with PGSIZE. tauto. }
  split; [by etrans|]. split.
  - eapply modifies_trans; (eapply modifies_weaken; [|eassumption]); intros a; cbv beta; unfold vm_bytes;
      rewrite (in_frames_take _ _ _ _ Hp); tauto.
  - split; [by eapply vm_at_free| |done]. apply (vm_at_ext _ _ _ _ _ _ (vm_at_free _ _ _ _ _ _ H2 HF3)).
    intros n _. rewrite <-pages_cleared_step by lia. f_equal. lia.
Qed.

Lemma undo_copy_ok F r1 E1 T1 r2 E2 T2 n0 fs s qs F1 T' s1 :
  copy_range F E1 T1 E2 T2 n0 fs -> copy_progress F r1 E1 T1 r2 E2 T2 n0 fs s qs F1 T' s1 ->
  wp (undo_copy r1 r2 (n0 * PGSIZE) (Z.of_nat (length qs) * PGSIZE))
    (fun _ s2 => undone F1 r1 E1 T1 r2 E2 T' n0 fs qs s1 (length qs) s2) s1.
Proof.
  intros Hr Hcp. pose proof (cr_range _ _ _ _ _ _ _ Hr) as [Hn0 Hmax]. change (MAXVA / PGSIZE) with (2 ^ 26) in Hmax.
  pose proof (cp_length _ _ _ _ _ _ _ _ _ _ _ _ _ _ Hcp) as Hlen.
  pose proof (cp_grows _ _ _ _ _ _ _ _ _ _ _ _ _ _ Hcp) as (_ & HF1 & Hb1 & _).
  unfold undo_copy. set (len := Z.of_nat (length qs)) in *.
  apply (wp_for_range (fun i s2 => exists k, i = Z.of_nat k * PGSIZE /\ undone F1 r1 E1 T1 r2 E2 T' n0 fs qs s1 k s2)).
  1-3: unfold PGSIZE; lia.
  - exists 0%nat. split; [done|]. split; [done|]. split; [apply modifies_refl|].
    assert (HF0 : forall a, F1 a <-> F1 a \/ in_frames (take 0 fs) a).
    { intros a. split; [by left|]. intros [?|(p & Hp & _)]; [done|]. by apply not_elem_of_nil in Hp. }
    destruct (cp_vm _ _ _ _ _ _ _ _ _ _ _ _ _ _ Hcp) as [H1 H2 Hap]. split; [by eapply vm_at_free| |done].
    apply (vm_at_ext _ _ _ _ _ _ (vm_at_free _ _ _ _ _ _ H2 HF0)). intros n _. unfold pages_cleared.
    destruct (Z.leb_spec n0 n), (Z.ltb_spec n (n0 + Z.of_nat 0)); (done || lia).
  - intros i s2 _ Hi (k & -> & Hun). assert (Hk : (k < length qs)%nat) by (unfold PGSIZE, len in *; lia).
    destruct (lookup_lt_is_Some_2 fs k ltac:(lia)) as [p Hp]. destruct (lookup_lt_is_Some_2 qs k Hk) as [q Hq].
    destruct (page_va n0 (Z.of_nat k)) as (Hvk & Hva & Hvp & Hoff); [lia|lia|change (MAXVA / PGSIZE) with (2 ^ 26); lia|].
    set (va := _ +w _) in *. destruct (cr_source _ _ _ _ _ _ _ Hr _ _ Hp) as (Hv & Hfl & Hpa).
    pose proof (source_frame_undone F F1 T1 T2 T' fs k p (cr_frames _ _ _ _ _ _ _ Hr) (cr_distinct _ _ _ _ _ _ _ Hr) Hp HF1 Hb1) as Hsf.
    pose proof Hun as (_ & _ & Htv). pose proof (pages_copied_at _ _ _ _ _ _ _ _ _ _ _ _ _ _ _ _ Hr Hcp Hq) as Hat.
    assert (HE2 : pages_cleared (pages_copied E1 E2 n0 qs) n0 (Z.of_nat k) (n0 + Z.of_nat k) = pages_copied E1 E2 n0 qs (n0 + Z.of_nat k)).
    { unfold pages_cleared. rewrite (proj2 (Z.ltb_ge _ _)) by lia. by rewrite andb_false_r. }
    eapply wp_mono; [apply (undo_page_ok _ r1 E1 T1 r2 _ T' va p s2 Htv Hva Hoff); rewrite ?Hvp; [done|done|done|]|].
    + rewrite HE2. destruct q as [q|]; [left|right].
      * destruct Hat as (Hv2 & Hf2 & _). by rewrite Hf2.
      * rewrite Hvk, PGROUNDDOWN_aligned by lia. rewrite Z.mul_add_distr_r, <-Z.mul_add_distr_r.
        by apply (cp_missing _ _ _ _ _ _ _ _ _ _ _ _ _ _ Hcp).
    + intros [] s3 (Hregs3 & Hm3 & Htv3). exists (S k). split; [unfold PGSIZE; lia|]. rewrite Hvp in Htv3.
      by eapply undone_step.
  - intros i s2 _ Hi (k & -> & Hun). assert (k = length qs) as -> by (unfold PGSIZE, len in *; lia). done.
Qed.

(** ** The whole copy *)

Lemma copy_progress_same F r1 E1 T1 r2 E2 T2 n0 fs s qs F1 T' s1 s2 :
  copy_progress F r1 E1 T1 r2 E2 T2 n0 fs s qs F1 T' s1 -> same_regs s1 s2 -> mem s2 = mem s1 ->
  copy_progress F r1 E1 T1 r2 E2 T2 n0 fs s qs F1 T' s2.
Proof.
  intros [Hlen (Hregs & HF & Hb & Hm) [H1 H2 Hap] Hfr Hmi Hdi Hco] Hregs2 Hm2. rewrite <-Hm2 in *.
  split; try done.
  - split; [by etrans|done].
  - split; [| |done]; unfold vm_at in *; by rewrite ?Hm2 in *.
Qed.

Lemma copy_progress_start F r1 E1 T1 r2 E2 T2 n0 fs s : two_vm s F r1 E1 T1 r2 E2 T2 ->
  copy_progress F r1 E1 T1 r2 E2 T2 n0 fs s [] F T2 s.
Proof.
  intros [H1 H2 Hap]. split; try (intros; by rewrite lookup_nil in *).
  - simpl. lia.
  - apply vm_grows_refl.
  - split; [done| |done]. apply (vm_at_ext _ _ _ _ _ _ H2). intros n _. unfold pages_copied.
    by destruct (n0 <=? n).
  - intros k Hk. eapply capacity_le; [|exact Hk]. simpl. lia.
Qed.

(** One turn of the loop. *)
Lemma copy_turn_ok F r1 E1 T1 r2 E2 T2 n0 fs s qs F1 T' s1 :
  copy_range F E1 T1 E2 T2 n0 fs -> copy_progress F r1 E1 T1 r2 E2 T2 n0 fs s qs F1 T' s1 ->
  (length qs < length fs)%nat ->
  let va := (n0 + Z.of_nat (length qs)) * PGSIZE in
  wp (src ← physical_address r1 va;
      dest ← allocate 0;
      (if src =? NULL then panic "copy_memory_with_pagetable: memory not mapped" else mret tt);;
      if dest =? NULL then
        undo_copy r1 r2 (n0 * PGSIZE) (Z.of_nat (length qs) * PGSIZE);; mret (inr (-1))
      else
        memcpy dest src PGSIZE;;
        pte ← pagetable_entry r1 va 0;
        e ← load64 pte;
        result ← map_page r2 va dest (PTE_FLAGS e);
        if result =? -1 then
          undo_copy r1 r2 (n0 * PGSIZE) (Z.of_nat (length qs) * PGSIZE);; deallocate dest 0;; mret (inr (-1))
        else mret (inl (Z.of_nat (length qs) * PGSIZE +w PGSIZE)))
    (fun r s2 => match r with
     | inl off => off = Z.of_nat (S (length qs)) * PGSIZE /\ exists q F2 T2',
         copy_progress F r1 E1 T1 r2 E2 T2 n0 fs s (qs ++ [q]) F2 T2' s2
     | inr r => r = -1 /\ exhausted F1 0 /\ undone F1 r1 E1 T1 r2 E2 T' n0 fs qs s1 (length qs) s2
     end) s1.
Proof.
  intros Hr Hcp Hlt va. pose proof (cr_range _ _ _ _ _ _ _ Hr) as [Hn0 Hmax].
  destruct (lookup_lt_is_Some_2 fs (length qs) Hlt) as [f Hf].
  destruct (cr_source _ _ _ _ _ _ _ Hr _ _ Hf) as (Hv & Hfl & Hpa).
  pose proof (proj1 (Forall_lookup _ _) (cr_frames _ _ _ _ _ _ _ Hr) _ _ Hf) as [Hgf _].
  destruct (page_va n0 (Z.of_nat (length qs))) as (_ & Hva & Hvp & Hoff); [lia..|].
  pose proof (cp_vm _ _ _ _ _ _ _ _ _ _ _ _ _ _ Hcp) as [H1 H2 _].
  destruct (page_va n0 (Z.of_nat (length qs))) as (Heq & _); [lia..|].
  rewrite Heq in Hva, Hvp, Hoff. fold va in Hva, Hvp, Hoff. change (MAXVA / PGSIZE) with (2 ^ 26) in Hmax.
  destruct (frame_bits f Hgf) as [Hp56 _]. pose proof (good_frame_ram f Hgf) as Hram.
  wp_step. eapply wp_mono; [exact (physical_address_ok _ _ _ va s1 (ex_intro _ T1 H1) Hva)|].
  intros src s1' [-> ->]. unfold translate. rewrite Hvp, Hv, Hoff, Hpa, Z.add_0_r, (w64_small f) by lia.
  wp_step. eapply wp_mono; [exact (take_frame _ r2 _ T' s1 H2)|].
  intros dest s2 (Hregs2 & Hm2 & Hcase).
  assert (f <> NULL) as Hnf by (clear -Hram; unfold ram_range, PHYSTOP, KERNBASE in Hram; unfold NULL; lia).
  rewrite (proj2 (Z.eqb_neq f NULL) Hnf). wp_step. destruct Hcase as [(-> & Hmem & He)|(Hne & Hgp & Hat2 & Hap)].
  - change (NULL =? NULL) with true. pose proof (copy_progress_same F r1 E1 T1 r2 E2 T2 n0 fs s qs F1 T' s1 s2 Hcp Hregs2 Hmem) as Hcp2.
    do 2 wp_step. eapply wp_mono; [exact (undo_copy_ok F r1 E1 T1 r2 E2 T2 n0 fs s qs F1 T' s2 Hr Hcp2)|].
    intros [] s3 (Hregs3 & Hm3 & Htv3). wp_step. split; [done|]. split; [done|].
    split; [by etrans|]. rewrite Hmem in Hm3. by split.
  - rewrite (proj2 (Z.eqb_neq dest NULL) Hne). wp_step.
    apply (copy_page_ok F r1 E1 T1 r2 E2 T2 n0 fs s qs F1 T' s1 f dest s2 Hr Hcp Hf Hregs2 Hm2 Hgp Hat2 Hap).
    intros r s3 q F2 T2' Hr01 Hcp3. rewrite (proj2 (Z.eqb_neq r (-1))) by lia. wp_step.
    split; [rewrite w64_small; unfold PGSIZE; lia|]. by exists q, F2, T2'.
Qed.

Lemma aligned_bits n : Z.land (n * PGSIZE) (PGSIZE - 1) = 0.
Proof.
  unfold PGSIZE. change (4096 - 1) with (Z.ones 12). rewrite Z.land_ones by lia. apply Z.mod_mul. lia.
Qed.

Lemma copy_memory_ok F r1 E1 T1 r2 E2 T2 n0 fs s :
  two_vm s F r1 E1 T1 r2 E2 T2 -> copy_range F E1 T1 E2 T2 n0 fs ->
  wp (copy_memory_with_pagetable r1 r2 (n0 * PGSIZE) (Z.of_nat (length fs) * PGSIZE)) (fun r s' =>
    exists qs F' T' s1, copy_progress F r1 E1 T1 r2 E2 T2 n0 fs s qs F' T' s1 /\
      ((r = 0 /\ s' = s1 /\ length qs = length fs) \/
       (r = -1 /\ (length qs < length fs)%nat /\ exhausted F' 0 /\
        undone F' r1 E1 T1 r2 E2 T' n0 fs qs s1 (length qs) s'))) s.
Proof.
  intros Htv Hr. pose proof (cr_range _ _ _ _ _ _ _ Hr) as [Hn0 Hmax]. change (MAXVA / PGSIZE) with (2 ^ 26) in Hmax.
  unfold copy_memory_with_pagetable. rewrite !aligned_bits. wp_step. change (truth 0 || truth 0) with false. do 3 wp_step.
  rewrite (w64_small (_ + _)) by (unfold PGSIZE; lia).
  rewrite (proj2 (Z.leb_gt _ _)) by (change MAXVA with (2 ^ 26 * PGSIZE); unfold PGSIZE; lia). wp_step.
  set (len := Z.of_nat (length fs)) in *.
  apply (wp_loop (fun n offset s1 => exists qs F1 T', n = len - Z.of_nat (length qs) /\
    offset = Z.of_nat (length qs) * PGSIZE /\ copy_progress F r1 E1 T1 r2 E2 T2 n0 fs s qs F1 T' s1) len).
  - exists [], F, T2. split; [simpl; lia|]. split; [done|]. by apply copy_progress_start.
  - lia.
  - intros n offset s1 (qs & F1 & T' & -> & -> & Hcp).
    pose proof (cp_length _ _ _ _ _ _ _ _ _ _ _ _ _ _ Hcp) as Hlen. split; [lia|].
    destruct (Z.ltb_spec (Z.of_nat (length qs) * PGSIZE) (len * PGSIZE)) as [Hlt|Hge].
    + assert (Hlq : (length qs < length fs)%nat) by (unfold PGSIZE, len in *; lia).
      destruct (page_va n0 (Z.of_nat (length qs))) as (Heq & _); [lia|lia|change (MAXVA / PGSIZE) with (2 ^ 26); lia|].
      rewrite Heq. eapply wp_mono; [exact (copy_turn_ok F r1 E1 T1 r2 E2 T2 n0 fs s qs F1 T' s1 Hr Hcp Hlq)|].
      intros [off|r] s2.
      * intros (-> & q & F2 & T2' & Hcp2). exists (len - Z.of_nat (length (qs ++ [q]))). rewrite length_app. simpl length.
        split; [lia|]. exists (qs ++ [q]), F2, T2'. rewrite length_app. simpl length. split; [done|]. split; [f_equal; lia|done].
      * intros (-> & He & Hun). exists qs, F1, T', s1. split; [done|]. right. by split.
    + wp_step. exists qs, F1, T', s1. split; [done|]. left. split; [done|]. split; [done|]. unfold PGSIZE, len in *. lia.
Qed.

(** With enough memory every page is copied. *)
Lemma copy_memory_enough F r1 E1 T1 r2 E2 T2 n0 fs s :
  two_vm s F r1 E1 T1 r2 E2 T2 -> copy_range F E1 T1 E2 T2 n0 fs -> capacity F (3 * length fs + 1) ->
  wp (copy_memory_with_pagetable r1 r2 (n0 * PGSIZE) (Z.of_nat (length fs) * PGSIZE)) (fun r s' => r = 0 /\
    exists ps F' T', length ps = length fs /\ copy_progress F r1 E1 T1 r2 E2 T2 n0 fs s (Some <$> ps) F' T' s') s.
Proof.
  intros Htv Hr Hcap. eapply wp_mono; [exact (copy_memory_ok F r1 E1 T1 r2 E2 T2 n0 fs s Htv Hr)|].
  intros r s' (qs & F' & T' & s1 & Hcp & Hcase). pose proof (cp_length _ _ _ _ _ _ _ _ _ _ _ _ _ _ Hcp) as Hle.
  assert (Hc1 : capacity F' 1).
  { apply (cp_cost _ _ _ _ _ _ _ _ _ _ _ _ _ _ Hcp). eapply capacity_le; [|exact Hcap]. lia. }
  destruct Hcase as [(-> & -> & Hlen)|(_ & _ & He & _)]; [|by destruct (capacity_some F' 0 0 ltac:(lia) Hc1 He)].
  split; [done|]. assert (Hall : exists ps, qs = Some <$> ps).
  { assert (Hq : Forall is_Some qs).
    { apply Forall_lookup. intros j [p|] Hj; [done|].
      destruct (cp_missing _ _ _ _ _ _ _ _ _ _ _ _ _ _ Hcp j Hj) as [_ He]. by destruct (capacity_some F' 1 0 ltac:(lia) Hc1 He). }
    clear -Hq. induction Hq as [|q qs [p ->] _ (ps & ->)]; [by exists []|by exists (p :: ps)]. }
  destruct Hall as [ps ->]. exists ps, F', T'. rewrite length_fmap in Hlen. done.
Qed.

End Copy.
