(* ===== verification/UserCopyTheorems.v ===== *)
(** * Theorems on the copying of user memory

    What fork's copy of an address space gives the child, and what is left when
    memory runs out half way. *)

From S2P Require Import Prelude Machine Board Utility Uart BuddySpec PageAlloc Buddy BuddyInstance BuddyTheorems Kmalloc LinkedList PageTable PageTableProof PageTableTheorems Task Process TaskTable UserStack UserMemory UserMemoryTheorems UserCopy.

(** Page [n] of the target has the flags and the bytes of the source's, in a
    frame taken from the free memory [F]; the source's page is as before. *)
Definition page_copied (F F' : Z -> Prop) (m m' : gmap Z Z) (E1 E2 : Z -> Z) (n : Z) : Prop :=
  valid (E2 n) = true /\ PTE_FLAGS (E2 n) = PTE_FLAGS (E1 n) /\
  forall i, 0 <= i < PGSIZE -> let va := n * PGSIZE + i in
    user_byte m' E2 va = user_byte m E1 va /\ user_byte m' E1 va = user_byte m E1 va /\
    F (translate E2 va) /\ ~ F' (translate E2 va) /\ ~ F (translate E1 va).

Section Theorems.
Context `{Hw : Platform} {HwOk : PlatformOk Hw} {Ops : PageOps} {HA : PageAllocator Ops}.

Lemma page_of_byte n i : 0 <= n -> 0 <= i < PGSIZE -> (n * PGSIZE + i) / PGSIZE = n /\ PGOFFSET (n * PGSIZE + i) = i.
Proof.
  intros Hn Hi. unfold PGSIZE in *. rewrite PGOFFSET_eq, (Z.add_comm (n * 4096)), Z.div_add, Z.mod_add, Z.div_small, Z.mod_small by lia.
  split; [lia|done].
Qed.

(** The bytes of a page that is mapped to the frame [p]. *)
Lemma translate_page E n p i : 0 <= n -> valid (E n) = true -> PTE2PA (E n) = p ->
  good_block kernel_end PHYSTOP 0 p -> 0 <= i < PGSIZE -> translate E (n * PGSIZE + i) = p + i.
Proof using HwOk.
  intros Hn Hv Hpa Hg Hi. unfold translate. destruct (page_of_byte n i Hn Hi) as [-> ->]. rewrite Hv, Hpa.
  destruct (frame_bits p Hg) as [Hp _]. apply w64_small. unfold PGSIZE in Hi. lia.
Qed.

(** The frame and the copy of page [j]. *)
Lemma copied_page F r1 E1 T1 r2 E2 T2 n0 fs s qs F' T' s' j p f :
  copy_range F E1 T1 E2 T2 n0 fs -> copy_progress F r1 E1 T1 r2 E2 T2 n0 fs s qs F' T' s' ->
  qs !! j = Some (Some p) -> fs !! j = Some f ->
  page_copied F F' (mem s) (mem s') E1 (pages_copied E1 E2 n0 qs) (n0 + Z.of_nat j) /\
  forall i, 0 <= i < PGSIZE -> translate (pages_copied E1 E2 n0 qs) ((n0 + Z.of_nat j) * PGSIZE + i) = p + i.
Proof using HwOk.
  intros Hr Hcp Hq Hf. pose proof (cr_range _ _ _ _ _ _ _ Hr) as [Hn0 _].
  destruct (pages_copied_at _ _ _ _ _ _ _ _ _ _ _ _ _ _ _ _ Hr Hcp Hq) as (Hv2 & Hfl2 & Hpa2).
  destruct (cr_source _ _ _ _ _ _ _ Hr _ _ Hf) as (Hv & _ & Hpa).
  pose proof (proj1 (Forall_lookup _ _) (cr_frames _ _ _ _ _ _ _ Hr) _ _ Hf) as [Hgf Hsf].
  destruct (cp_frame _ _ _ _ _ _ _ _ _ _ _ _ _ _ Hcp j p f Hq Hf) as ([Hgp Hpn] & HpF & Hc).
  pose proof (cp_grows _ _ _ _ _ _ _ _ _ _ _ _ _ _ Hcp) as (_ & _ & _ & Hm).
  assert (Ht2 : forall i, 0 <= i < PGSIZE -> translate (pages_copied E1 E2 n0 qs) ((n0 + Z.of_nat j) * PGSIZE + i) = p + i).
  { intros i Hi. apply translate_page; (done || lia). }
  assert (Ht1 : forall i, 0 <= i < PGSIZE -> translate E1 ((n0 + Z.of_nat j) * PGSIZE + i) = f + i).
  { intros i Hi. apply translate_page; (done || lia). }
  split; [|done]. split; [done|]. split; [done|]. intros i Hi va. unfold user_byte, va. rewrite Ht1, Ht2 by done.
  destruct (Hsf (f + i)) as [Hf1 Hf2]; [lia|]. split; [by apply Hc|]. split; [by apply Hm|].
  split; [apply HpF; lia|]. split; intros HF; [apply (Hpn (p + i)); [lia|]|apply Hf1]; right; by left.
Qed.

(** Every page of the range is either copied or left out. *)
Lemma copy_page_cases F r1 E1 T1 r2 E2 T2 n0 fs s qs F' T' s' n :
  copy_range F E1 T1 E2 T2 n0 fs -> copy_progress F r1 E1 T1 r2 E2 T2 n0 fs s qs F' T' s' ->
  length qs = length fs -> n0 <= n < n0 + Z.of_nat (length fs) ->
  (exists p, qs !! Z.to_nat (n - n0) = Some (Some p) /\ good_block kernel_end PHYSTOP 0 p /\
    page_copied F F' (mem s) (mem s') E1 (pages_copied E1 E2 n0 qs) n /\
    forall i, 0 <= i < PGSIZE -> translate (pages_copied E1 E2 n0 qs) (n * PGSIZE + i) = p + i) \/
  (valid (pages_copied E1 E2 n0 qs n) = false /\ exhausted F' 1).
Proof using HwOk.
  intros Hr Hcp Hlen Hn. set (j := Z.to_nat (n - n0)).
  assert (Hnj : n = n0 + Z.of_nat j) by lia. assert (Hj : (j < length qs)%nat) by lia.
  destruct (lookup_lt_is_Some_2 qs j Hj) as [q Hq]. destruct (lookup_lt_is_Some_2 fs j ltac:(lia)) as [f Hf].
  destruct q as [p|]; [left|right].
  - exists p. destruct (cp_frame _ _ _ _ _ _ _ _ _ _ _ _ _ _ Hcp j p f Hq Hf) as ([Hg _] & _).
    rewrite Hnj. by destruct (copied_page _ _ _ _ _ _ _ _ _ _ _ _ _ _ _ _ _ Hr Hcp Hq Hf).
  - pose proof (pages_copied_at _ _ _ _ _ _ _ _ _ _ _ _ _ _ _ _ Hr Hcp Hq) as He. rewrite <-Hnj in He. cbv zeta iota in He.
    rewrite He. split; [by apply (cr_target _ _ _ _ _ _ _ Hr)|]. by apply (cp_missing _ _ _ _ _ _ _ _ _ _ _ _ _ _ Hcp j).
Qed.

Lemma copy_private F r1 E1 T1 r2 E2 T2 n0 fs s qs F' T' s' n1 n2 i1 i2 :
  copy_range F E1 T1 E2 T2 n0 fs -> copy_progress F r1 E1 T1 r2 E2 T2 n0 fs s qs F' T' s' ->
  length qs = length fs -> n0 <= n1 < n0 + Z.of_nat (length fs) -> n0 <= n2 < n0 + Z.of_nat (length fs) ->
  0 <= i1 < PGSIZE -> 0 <= i2 < PGSIZE -> let E' := pages_copied E1 E2 n0 qs in
  valid (E' n1) = true -> valid (E' n2) = true ->
  translate E' (n1 * PGSIZE + i1) = translate E' (n2 * PGSIZE + i2) -> n1 = n2 /\ i1 = i2.
Proof using HwOk.
  intros Hr Hcp Hlen Hn1 Hn2 Hi1 Hi2 E' Hv1 Hv2 Heq.
  destruct (copy_page_cases _ _ _ _ _ _ _ _ _ _ _ _ _ _ n1 Hr Hcp Hlen Hn1) as [(p1 & Hq1 & Hg1 & _ & Ht1)|[Hf _]];
    [|fold E' in Hf; by rewrite Hf in Hv1].
  destruct (copy_page_cases _ _ _ _ _ _ _ _ _ _ _ _ _ _ n2 Hr Hcp Hlen Hn2) as [(p2 & Hq2 & Hg2 & _ & Ht2)|[Hf _]];
    [|fold E' in Hf; by rewrite Hf in Hv2].
  unfold E' in Heq. rewrite Ht1, Ht2 in Heq by done.
  assert (p1 = p2) as <- by (apply (frames_apart p1 p2 (p1 + i1)); [done|done|lia|lia]).
  pose proof (cp_distinct _ _ _ _ _ _ _ _ _ _ _ _ _ _ Hcp _ _ _ Hq1 Hq2). lia.
Qed.

(** C8: [copy_memory_with_pagetable] gives the child the parent's memory: when it
    returns 0, each page of the range is mapped in the target with the flags and
    the bytes of the source's page, in a frame of its own that was free and that
    no other page shares, and the source sees its pages as before; but a page whose
    tables could not be allocated is left out (and nothing says so: the result 1 of
    [map_page] is compared with -1).  When it returns -1 memory has run out, no page of the
    range is mapped in the target, and the frames of the source's pages copied so far,
    still mapped in the source, are free memory. *)
Theorem copy_memory_copies F r1 E1 T1 r2 E2 T2 n0 fs s :
  two_vm s F r1 E1 T1 r2 E2 T2 -> copy_range F E1 T1 E2 T2 n0 fs ->
  let size := Z.of_nat (length fs) in
  wp (copy_memory_with_pagetable r1 r2 (n0 * PGSIZE) (size * PGSIZE)) (fun r s' => same_regs s s' /\
    exists F' E' T', two_vm s' F' r1 E1 T1 r2 E' T' /\ (forall n, ~ (n0 <= n < n0 + size) -> E' n = E2 n) /\
    ((r = 0 /\
      (forall n, n0 <= n < n0 + size ->
        page_copied F F' (mem s) (mem s') E1 E' n \/ (valid (E' n) = false /\ exhausted F' 1)) /\
      (forall n1 n2 i1 i2, n0 <= n1 < n0 + size -> n0 <= n2 < n0 + size -> 0 <= i1 < PGSIZE -> 0 <= i2 < PGSIZE ->
        valid (E' n1) = true -> valid (E' n2) = true ->
        translate E' (n1 * PGSIZE + i1) = translate E' (n2 * PGSIZE + i2) -> n1 = n2 /\ i1 = i2)) \/
     (r = -1 /\ (forall n, n0 <= n < n0 + size -> valid (E' n) = false) /\
      exists k G, 0 <= k < size /\ exhausted G 0 /\ (forall a, F' a <-> G a \/ in_frames (take (Z.to_nat k) fs) a) /\
        forall n i, n0 <= n < n0 + k -> 0 <= i < PGSIZE -> F' (translate E1 (n * PGSIZE + i))))) s.
Proof.
  intros Htv Hr size. eapply wp_mono; [exact (copy_memory_ok F r1 E1 T1 r2 E2 T2 n0 fs s Htv Hr)|].
  intros r s' (qs & F' & T' & s1 & Hcp & Hcase).
  pose proof (cr_range _ _ _ _ _ _ _ Hr) as [Hn0 _]. pose proof (cp_grows _ _ _ _ _ _ _ _ _ _ _ _ _ _ Hcp) as (Hregs & _).
  destruct Hcase as [(-> & -> & Hlen)|(-> & Hlen & He & Hregs' & _ & Htv')].
  - split; [done|]. exists F', (pages_copied E1 E2 n0 qs), T'. split; [apply (cp_vm _ _ _ _ _ _ _ _ _ _ _ _ _ _ Hcp)|]. split.
    { intros n Hn. unfold pages_copied. destruct (Z.leb_spec n0 n); [|done]. by rewrite lookup_ge_None_2 by lia. }
    left. split; [done|]. split.
    + intros n Hn. destruct (copy_page_cases _ _ _ _ _ _ _ _ _ _ _ _ _ _ n Hr Hcp Hlen Hn) as [(p & _ & _ & H & _)|H]; [by left|by right].
    + intros n1 n2 i1 i2. by apply (copy_private F r1 E1 T1 r2 E2 T2 n0 fs s qs F' T' s1).
  - split; [by etrans|]. eexists _, (pages_cleared (pages_copied E1 E2 n0 qs) n0 (Z.of_nat (length qs))), T'.
    split; [exact Htv'|].
    assert (HE : forall n, ~ n0 <= n < n0 + Z.of_nat (length qs) ->
      pages_cleared (pages_copied E1 E2 n0 qs) n0 (Z.of_nat (length qs)) n = E2 n).
    { intros n Hn. unfold pages_cleared, pages_copied. destruct (Z.leb_spec n0 n); [|done].
      rewrite (proj2 (Z.ltb_ge _ _)), lookup_ge_None_2 by lia. done. }
    split; [intros n Hn; apply HE; lia|]. right. split; [done|]. split.
    + intros n Hn. destruct (decide (n < n0 + Z.of_nat (length qs))).
      * unfold pages_cleared. by rewrite (proj2 (Z.leb_le _ _)), (proj2 (Z.ltb_lt _ _)) by lia.
      * rewrite HE by lia. by apply (cr_target _ _ _ _ _ _ _ Hr).
    + exists (Z.of_nat (length qs)), F'. rewrite Nat2Z.id. split; [lia|]. split; [done|]. split; [done|].
      intros n i Hn Hi. right. destruct (lookup_lt_is_Some_2 fs (Z.to_nat (n - n0)) ltac:(lia)) as [f Hf].
      exists f. destruct (cr_source _ _ _ _ _ _ _ Hr _ _ Hf) as (Hv & _ & Hpa).
      pose proof (proj1 (Forall_lookup _ _) (cr_frames _ _ _ _ _ _ _ Hr) _ _ Hf) as [Hgf _].
      replace (n0 + Z.of_nat (Z.to_nat (n - n0))) with n in * by lia.
      split; [apply list_elem_of_lookup; exists (Z.to_nat (n - n0)); by rewrite lookup_take_lt by lia|].
      rewrite (translate_page E1 n f i) by (done || lia). lia.
Qed.

End Theorems.

(** ** An instance: copying the page of the loaded program into a new page table *)

Section Witnesses.
#[local] Existing Instances board board_ok.
#[local] Opaque loaded_state root_state.

Lemma copy_memory_copies_witness : exists p,
  wp (r2 ← create_void_pagetable;
      if r2 =? NULL then mret 1 else copy_memory_with_pagetable page r2 (5 * PGSIZE) (1 * PGSIZE))
    (fun r s' => r = 1 \/ r = -1 \/ r = 0 /\ exists F F' E' m, let E1 := <[5 := leaf p user_rw]> (fun _ => 0) in
      page_copied F F' m (mem s') E1 E' 5 \/ valid (E' 5) = false) loaded_state.
Proof.
  destruct loaded_page as (F & T & p & [Hg Hu] & Hat). set (E1 := <[5 := leaf p user_rw]> (fun _ => 0)) in *.
  exists p. apply wp_bind. eapply wp_mono; [exact (second_pagetable F page E1 T loaded_state Hat)|].
  intros r s1 [->|[Htv HrF]].
  { change (NULL =? NULL) with true. cbv iota. apply wp_ret. by left. }
  destruct (r =? NULL); [apply wp_ret; by left|]. set (T2 := {[ [] := r ]}) in *.
  destruct (frame_bits p Hg) as [Hp56 Hpd]. rewrite PGROUNDDOWN_eq in Hpd by lia.
  assert (HE : E1 5 = leaf p user_rw) by (unfold E1; by rewrite fn_lookup_insert).
  assert (Hr : copy_range (without F 1 r) E1 T (fun _ => 0) T2 5 [p]).
  { split.
    - split; [lia|reflexivity].
    - intros k q Hk. destruct k as [|k]; [|by destruct k]. injection Hk as <-. cbv zeta. change (5 + Z.of_nat 0) with 5.
      rewrite HE. split; [by rewrite valid_leaf|]. split; [by rewrite leaf_flags|]. rewrite leaf_pa by done. lia.
    - constructor; [|constructor]. split; [done|]. intros a Ha. split.
      + intros [?|[[? _]|?]]; apply (Hu a Ha); [by left|by right; left|by right; right].
      + intros [?|[[? _]|(l & q & [<- <-]%lookup_singleton_Some & Hin)]]; apply (Hu a Ha); [by left|by right; left|].
        right. left. apply HrF. by unfold PGSIZE.
    - apply NoDup_singleton.
    - done. }
  eapply wp_mono; [exact (copy_memory_copies (without F 1 r) page E1 T r (fun _ => 0) T2 5 [p] s1 Htv Hr)|].
  intros res s2 (_ & F' & E' & T' & _ & _ & [(-> & Hc & _)|(-> & _)]); [right; right|by right; left].
  split; [done|]. exists (without F 1 r), F', E', (mem s1). destruct (Hc 5) as [H|[H _]]; [simpl; lia|by left|by right].
Defined.

End Witnesses.
