(* ===== verification/TaskCreate.v ===== *)
(** * Creating a task

    Proofs about [new_task] of process.c: a task structure from the heap, a
    kernel stack, a page table with the trap frame, the trampoline and the
    shared page, all from the free pages. *)

From S2P Require Import Prelude Machine Utility Uart BuddySpec PageAlloc Capacity Kmalloc KmallocProof KmallocTheorems LinkedList PageTable PageTableProof Task Process TaskTable UserStack UserMemory.

(** ** Fields of a structure

    [fields m a l]: the structure at [a] has the fields [l], each with its
    offset, its size in bytes and its value. *)

Definition fields (m : gmap Z Z) (a : Z) (l : list (Z * nat * Z)) : Prop :=
  Forall (fun f => rd f.1.2 m (a + f.1.1) = f.2) l.

(** The fields that a write of [k] bytes at offset [o] does not reach. *)
Definition clear_of (o k : Z) (l : list (Z * nat * Z)) : bool :=
  forallb (fun f => (f.1.1 + Z.of_nat f.1.2 <=? o) || (o + k <=? f.1.1)) l.

Lemma clear_of_spec o k l f : clear_of o k l = true -> f ∈ l -> f.1.1 + Z.of_nat f.1.2 <= o \/ o + k <= f.1.1.
Proof.
  intros H Hf. apply list_elem_of_In in Hf. unfold clear_of in H. rewrite forallb_forall in H.
  specialize (H f Hf). apply orb_true_iff in H. rewrite !Z.leb_le in H. done.
Qed.

Lemma clear_of_sub o k o' k' l : clear_of o k l = true -> o <= o' -> o' + k' <= o + k -> clear_of o' k' l = true.
Proof.
  unfold clear_of. rewrite !forallb_forall. intros H Ho Hk f Hf. specialize (H f Hf).
  apply orb_true_iff in H. rewrite !Z.leb_le in H. apply orb_true_iff. rewrite !Z.leb_le. lia.
Qed.

Lemma fields_keep m m' a o k l : fields m a l -> clear_of o k l = true ->
  modifies (fun b => a + o <= b < a + o + k) m m' -> fields m' a l.
Proof.
  unfold fields. rewrite !Forall_forall. intros Hl Hc Hm f Hf. rewrite <-(Hl f Hf).
  apply (modifies_rd _ _ _ _ _ Hm). intros b Hb. pose proof (clear_of_spec _ _ _ _ Hc Hf). lia.
Qed.

Lemma fields_write m a x o k v l : x = a + o -> fields m a l -> clear_of o (Z.of_nat k) l = true ->
  0 <= v < 2 ^ (8 * Z.of_nat k) -> fields (wr k m x v) a ((o, k, v) :: l).
Proof.
  intros -> Hl Hc Hv. constructor; [by apply rd_wr_same|]. apply (fields_keep m _ a o (Z.of_nat k) l Hl Hc).
  apply modifies_wr. intros b Hb. lia.
Qed.

(** All the fields are within the first [n] bytes. *)
Definition within (n : Z) (l : list (Z * nat * Z)) : bool :=
  forallb (fun f => (0 <=? f.1.1) && (f.1.1 + Z.of_nat f.1.2 <=? n)) l.

Lemma fields_out m m' a n l : fields m a l -> within n l = true ->
  (forall b, a <= b < a + n -> rd8 m' b = rd8 m b) -> fields m' a l.
Proof.
  unfold fields, within. rewrite !Forall_forall, forallb_forall. intros Hl Hn Hm f Hf. rewrite <-(Hl f Hf).
  apply list_elem_of_In, Hn, andb_true_iff in Hf as [H1%Z.leb_le H2%Z.leb_le].
  apply rd_ext. intros b Hb. apply Hm. lia.
Qed.

Lemma field_at m a l o k v : fields m a l -> (o, k, v) ∈ l -> rd k m (a + o) = v.
Proof. intros H Hf. by apply (proj1 (Forall_forall _ _) H (o, k, v)). Qed.

Section Heap.
Context `{Hw : Platform} {HwOk : PlatformOk Hw} {Ops : PageOps} {HA : PageAllocator Ops}.

(** The heap does not change when its own bytes and list pointers do not. *)
Lemma heap_keep s s' F F' A : heap_rep s F (Some A) -> same_regs s s' ->
  (forall a, spare A a -> rd8 (mem s') a = rd8 (mem s) a) ->
  pool_owns (mem s') F' -> (forall a, F' a -> F a) -> heap_rep s' F' (Some A).
Proof.
  intros (_ & Hh & Ht & Hwf & Hne & Hrep & HF) (Hg & _) Hm Hp HF'. split; [done|]. rewrite !Hg.
  split; [done|]. split; [done|]. split; [done|]. split; [done|]. split.
  - apply (arena_rep_frame (mem s)); [done| |done]. intros a Ha Hd. apply Hm. by split.
  - intros a Ha ?%HF'. by apply (HF a).
Qed.

(** A new chunk: bytes of the block that were not in use. *)
Lemma heap_chunk s F A size : heap_rep s F (Some A) -> 0 <= size < 2 ^ 62 -> fits (Some A) size ->
  wp (kmalloc size) (fun r s' => r = a_free A + sizeof_header /\ same_regs s s' /\
    modifies (spare A) (mem s) (mem s') /\ heap_rep s' F (Some (arena_alloc A size)) /\
    (forall a, r <= a < r + size -> spare A a /\ data (a_live (arena_alloc A size)) a) /\
    KERNBASE <= r /\ r + size <= PHYSTOP) s.
Proof.
  intros Hrep Hsz Hfit. pose proof Hrep as (_ & _ & Ht & Hwf & _ & Har & _).
  destruct (arena_bounds A Hwf) as (_ & Hb1 & Hb2 & _ & Hb3 & _ & _). destruct (align_spec size Hsz) as [_ Hal].
  simpl in Hfit. pose proof (gross_size_eq size Hsz) as Hgs. rewrite Hgs in Hfit.
  eapply wp_mono; [apply (kmalloc_carve 63 A size s Ht Hwf Har Hsz); by rewrite Hgs|].
  intros r s' (-> & Hrep' & Hm & Hregs). split; [done|]. split; [done|]. split; [done|].
  split; [apply (heap_rep_alloc F A size s); [done|done| |done|done|done]; simpl; by rewrite Hgs|].
  unfold sizeof_header. split; [|lia]. intros a Ha. split.
  - split; [lia|]. intros Hd%data_range; [lia|done].
  - exists (a_free A + sizeof_header), (align size). unfold arena_alloc, sizeof_header. simpl. split; [by left|lia].
Qed.

(** Bytes in use stay in use, unused ones come from the unused. *)
Lemma spare_alloc A size a : arena_wf A -> spare (arena_alloc A size) a -> spare A a.
Proof.
  intros _ [Hb Hd]. split; [done|]. intros (x & n & Hin & Ha). apply Hd. exists x, n. split; [by right|done].
Qed.

End Heap.

(** ** A heap that has grown

    [grows A B]: the block of [B] is that of [A], with the chunks of [A] and more. *)

Record grows (A B : arena) : Prop := {
  gr_block : a_block B = a_block A;
  gr_power : a_power B = a_power A;
  gr_data : forall a, data (a_live A) a -> data (a_live B) a
}.

Lemma grows_refl A : grows A A.
Proof. by split. Qed.

Lemma grows_trans A B C : grows A B -> grows B C -> grows A C.
Proof. intros [? ? ?] [? ? ?]. split; [congruence|congruence|auto]. Qed.

Lemma grows_spare A B a : grows A B -> spare B a -> spare A a.
Proof. intros [Hb Hp Hd] [Hr Hn]. rewrite Hb, Hp in Hr. split; [done|auto]. Qed.

Lemma grows_alloc A size : grows A (arena_alloc A size).
Proof. split; [done..|]. intros a (x & n & Hin & Ha). exists x, n. split; [by right|done]. Qed.

Section Create.
Context `{Hw : Platform} {HwOk : PlatformOk Hw} {Ops : PageOps} {HA : PageAllocator Ops}.
Context (s0 : state) (F0 : Z -> Prop) (A B : arena).
Hypothesis Hheap0 : heap_rep s0 F0 (Some A).
Hypothesis Hfits : fits (Some A) sizeof_task_struct.
Hypothesis Hgrows : grows (arena_alloc A sizeof_task_struct) B.

(** What a caller may have written besides. *)
Context (X : Z -> Prop).
Definition touch (a : Z) : Prop := heap_touch F0 (Some A) a \/ X a.

(** The chunk of the new task, and its bytes. *)
Definition new_address : Z := a_free A + sizeof_header.
Abbreviation t := new_address.
Abbreviation A' := B.
Definition struct_byte (a : Z) : Prop := t <= a < t + sizeof_task_struct.

(** The registers and globals do not change, but for the number of the next task. *)
Definition same_but_pid (s s' : state) : Prop :=
  clock s' = clock s /\ log s' = log s /\ (forall r, r <> sstatus -> csr_val s' r = csr_val s r) /\
  forall g, g <> next_pid -> glob s' g = glob s g.

Lemma same_but_pid_step s1 s2 s3 : same_but_pid s1 s2 -> same_regs s2 s3 -> same_but_pid s1 s3.
Proof.
  intros (Hc & Hl & Hr & Hg) (Hg' & Hc' & Hl' & Hr'). split; [congruence|]. split; [congruence|]. split.
  - intros r Hne. by rewrite Hr', Hr.
  - intros g Hne. by rewrite Hg', Hg.
Qed.

(** The task in the making: its page table [E] at [pt], and the frames that
    are its own, all from the memory that was free before. *)
Record building (s : state) (F : Z -> Prop) (pt : Z) (E : Z -> Z) (T : tables) (frames : list Z) (n : nat) : Prop := {
  bd_regs : same_but_pid s0 s;
  bd_mod : modifies touch (mem s0) (mem s);
  bd_heap : heap_rep s F (Some A');
  bd_sub : forall a, F a -> F0 a;
  bd_vm : vm_at s F pt E T;
  bd_tables : forall a, table_byte T a -> F0 a;
  bd_frames : Forall (fun p => user_frame F T p /\ forall a, p <= a < p + PGSIZE -> F0 a) frames;
  bd_nodup : NoDup frames;
  bd_capacity : capacity F n
}.

Lemma struct_spare a : struct_byte a -> spare A a /\ data (a_live A') a.
Proof using Hheap0 Hfits Hgrows HwOk.
  intros Ha. pose proof Hheap0 as (_ & _ & _ & Hwf & _). destruct (arena_bounds A Hwf) as (_ & _ & _ & _ & Hb & _ & _).
  unfold struct_byte, new_address, sizeof_header in Ha.
  pose proof (gross_size_eq sizeof_task_struct ltac:(done)) as Hg. destruct (align_spec sizeof_task_struct ltac:(done)) as [_ Hal].
  simpl in Hfits. rewrite Hg in Hfits. split.
  - split; [lia|]. intros Hd%data_range; [lia|done].
  - apply (gr_data _ _ Hgrows). exists (a_free A + sizeof_header), (align sizeof_task_struct).
    unfold arena_alloc, sizeof_header. simpl. split; [by left|lia].
Qed.

(** What the new task has on the heap. *)
Definition child_byte (a : Z) : Prop := spare A a /\ data (a_live B) a.

Lemma struct_child a : struct_byte a -> child_byte a.
Proof using Hheap0 Hfits Hgrows HwOk. apply struct_spare. Qed.

Lemma heap_spare a : spare B a -> spare A a.
Proof using Hgrows. intros Ha. apply (grows_spare A B); [|done]. eapply grows_trans; [apply grows_alloc|exact Hgrows]. Qed.

Lemma heap_apart a : spare A a -> ~ F0 a /\ ~ pool_private a.
Proof using Hheap0 HwOk. intros [Ha _]. by apply (heap_block_apart s0 F0 A). Qed.

Lemma struct_apart a : struct_byte a -> ~ F0 a /\ ~ pool_private a.
Proof using Hheap0 Hfits Hgrows HwOk.
  intros Ha. by apply heap_apart, struct_spare.
Qed.

Lemma struct_ram : KERNBASE <= t /\ t + sizeof_task_struct <= PHYSTOP.
Proof using Hheap0 Hfits Hgrows HwOk.
  pose proof Hheap0 as (_ & _ & _ & Hwf & _). destruct (arena_bounds A Hwf) as (_ & ? & ? & _ & ? & _ & _).
  pose proof (gross_size_eq sizeof_task_struct ltac:(done)) as Hg. destruct (align_spec sizeof_task_struct ltac:(done)) as [_ Hal].
  simpl in Hfits. rewrite Hg in Hfits. unfold new_address, sizeof_header in *. lia.
Qed.

Section Steps.
Context (s : state) (F : Z -> Prop) (pt : Z) (E : Z -> Z) (T : tables) (frames : list Z) (n : nat).

Lemma bd_bytes : building s F pt E T frames n ->
  forall a, vm_bytes F T a -> heap_touch F0 (Some A) a /\ ~ child_byte a /\ ~ spare A' a.
Proof using Hheap0 Hfits Hgrows HwOk.
  intros Hb a Ha.
  assert (Hc : pool_private a \/ F0 a).
  { destruct Ha as [?|[?|?]]; [by left|right; by apply (bd_sub _ _ _ _ _ _ _ Hb)|right; by apply (bd_tables _ _ _ _ _ _ _ Hb)]. }
  split; [destruct Hc; [by left|by right; left]|]. split.
  - intros [Hs%heap_apart _]. by destruct Hs, Hc.
  - intros Hbl%heap_spare%heap_apart. by destruct Hbl, Hc.
Qed.

(** The structure is not touched by the page table code. *)
Lemma bd_struct s' m : building s F pt E T frames n -> modifies (vm_bytes F T) (mem s) (mem s') ->
  forall o k, 0 <= o -> o + Z.of_nat k <= sizeof_task_struct -> m = rd k (mem s) (t + o) -> rd k (mem s') (t + o) = m.
Proof using Hheap0 Hfits Hgrows HwOk.
  intros Hb Hm o k Ho Hk ->. apply (modifies_rd _ k _ _ _ Hm). intros a Ha Hv.
  destruct (bd_bytes Hb a Hv) as (_ & Hn & _). apply Hn, struct_child. unfold struct_byte. lia.
Qed.

(** Writing the structure and the frames. *)
Lemma bd_write s' : building s F pt E T frames n -> same_regs s s' ->
  modifies (fun a => child_byte a \/ in_frames frames a) (mem s) (mem s') -> building s' F pt E T frames n.
Proof using Hheap0 Hfits Hgrows HwOk.
  intros Hb Hregs Hm. pose proof Hb as [Hr Hmo Hh Hs Hv Ht Hf Hnd Hc].
  assert (Hfr : forall a, in_frames frames a -> F0 a /\ ~ vm_bytes F T a).
  { intros a (p & Hp & Ha). destruct (proj1 (Forall_forall _ _) Hf p Hp) as [[_ Hn] HF]. split; [by apply HF|by apply Hn]. }
  assert (Hkeep : forall a, vm_bytes F T a -> rd8 (mem s') a = rd8 (mem s) a).
  { intros a Ha. apply Hm. intros [Hst|Hin]; [by destruct (bd_bytes Hb a Ha) as (_ & ? & _)|by destruct (Hfr a Hin)]. }
  pose proof Hv as (_ & Hp & _).
  assert (Hp' : pool_owns (mem s') F).
  { apply (pool_owns_frame _ _ _ Hp). intros a [?|?]; apply Hkeep; [by left|by right; left]. }
  split; [by eapply same_but_pid_step| | |done| |done|done|done|done].
  - eapply modifies_trans; [exact Hmo|]. eapply modifies_weaken; [|exact Hm]. intros a [Ha|Ha]; left.
    + right. right. by destruct Ha.
    + right. left. by apply Hfr.
  - apply (heap_keep s s' F F); [done|done| |done|done]. intros a Ha. apply Hm. intros [[_ Hd]|Hin].
    + by apply Ha.
    + destruct (heap_apart a (heap_spare a Ha)) as [Hn _]. by apply Hn, Hfr.
  - apply (vm_at_frame s s' F); [done| | |done].
    + intros a Ha. apply Hkeep. by right; right.
    + intros a Ha. by destruct (vm_table_apart _ _ _ _ _ _ Hv Ha).
Qed.

(** After the page table code. *)
Lemma bd_step s' F' E' T' k : building s F pt E T frames n -> same_regs s s' ->
  modifies (vm_bytes F T) (mem s) (mem s') -> (forall a, F' a -> F a) ->
  (forall a, vm_bytes F' T' a -> vm_bytes F T a) -> vm_at s' F' pt E' T' -> capacity F' k ->
  building s' F' pt E' T' frames k.
Proof using Hheap0 Hfits Hgrows HwOk.
  intros Hb Hregs Hm HF Hby Hv' Hc'. pose proof Hb as [Hr Hmo Hh Hs Hv Ht Hf Hnd Hc].
  split; [by eapply same_but_pid_step| | |auto|done| | |done|done].
  - eapply modifies_trans; [exact Hmo|]. eapply modifies_weaken; [|exact Hm]. intros a Ha. left. by apply (bd_bytes Hb).
  - apply (heap_keep s s' F F'); [done|done| |by destruct Hv' as (_ & ? & _)|done].
    intros a Ha. apply Hm. intros Hv2. by destruct (bd_bytes Hb a Hv2) as (_ & _ & ?).
  - intros a Ha. assert (Hva : vm_bytes F T a) by (by apply Hby; right; right).
    destruct (vm_table_apart _ _ _ _ _ _ Hv' Ha) as [_ Hnp]. destruct Hva as [?|[?|?]]; [done|auto|auto].
  - eapply Forall_impl; [exact Hf|]. intros p [[Hg Hn] HF0]. split; [|done]. split; [done|].
    intros a Ha ?%Hby. by apply (Hn a Ha).
Qed.

(** A zeroed block for the task: the frames it is made of. *)
Definition frames_of (o p : Z) : list Z := if o =? 0 then [p] else [p; p + PGSIZE].

Lemma frames_of_spec o p : 0 <= o <= 1 -> good_block kernel_end PHYSTOP o p -> NoDup (frames_of o p) /\
  forall q, q ∈ frames_of o p -> good_block kernel_end PHYSTOP 0 q /\ p <= q /\ q + PGSIZE <= p + bsz o.
Proof.
  intros Ho (Hor & Hal & Hlo & Hhi). assert (o = 0 \/ o = 1) as [-> | ->] by lia; unfold frames_of; simpl.
  - split; [apply NoDup_singleton|]. intros q ->%list_elem_of_singleton. unfold PGSIZE. change (bsz 0) with 4096. done.
  - change (bsz 1) with 8192 in *. destruct Hal as [n0 Hal]. split.
    + constructor; [|apply NoDup_singleton]. rewrite list_elem_of_singleton. unfold PGSIZE. lia.
    + intros q Hq. assert (Hq' : exists i, 0 <= i <= 1 /\ q = p + i * 4096) by (unfold PGSIZE in Hq; apply elem_of_cons in Hq as [-> | ->%list_elem_of_singleton]; [exists 0|exists 1]; lia).
      destruct Hq' as (i & Hi & ->). unfold PGSIZE. split; [|lia]. split; [by split|]. change (bsz 0) with 4096.
      split; [exists (2 * n0 + i); lia|lia].
Qed.

Lemma bd_take_block (o : Z) (k : nat) : 0 <= o <= 1 -> building s F pt E T frames n -> n = S k ->
  wp (allocate_for_user o) (fun p s' => p <> NULL /\ good_block kernel_end PHYSTOP o p /\
    building s' (without F o p) pt E T (frames_of o p ++ frames) k /\ same_regs s s' /\
    modifies (vm_bytes F T) (mem s) (mem s') /\ forall a, p <= a < p + bsz o -> rd8 (mem s') a = 0) s.
Proof using Hheap0 Hfits Hgrows HwOk.
  intros Ho Hb Hn. pose proof Hb as [_ _ _ Hs Hv _ Hf Hnd Hc]. rewrite Hn in Hc.
  eapply wp_mono; [exact (allocate_for_user_block F pt E T o s Ho Hv)|].
  intros p s' (Hregs & Hm & [(_ & _ & He)|(Hne & Hv' & Hg & Hp)]).
  - destruct (capacity_some F o k Ho Hc He).
  - destruct (frames_of_spec o p Ho Hg) as [Hnd1 Hfr].
    split; [done|]. split; [done|]. split; [|split; [done|split; [done|intros a Ha; by apply Hp]]].
    pose proof (capacity_take F o p k Ho Hg Hc) as Hc'.
    assert (Hb' : building s' (without F o p) pt E T frames k).
    { apply (bd_step s' _ E T k); try done; [by intros a [? _]|].
      intros a [?|[[? _]|?]]; [by left|by right; left|by right; right]. }
    destruct Hb' as [? ? ? ? ? ? Hf' ? ?]. split; try done.
    + apply Forall_app. split; [|done]. apply Forall_forall. intros q Hq. destruct (Hfr q Hq) as (Hgq & Hq1 & Hq2).
      split; [split; [done|]|]; intros a Ha; [apply (Hp a); lia|apply Hs, (Hp a); lia].
    + apply NoDup_app. split; [done|]. split; [|done]. intros q Hq Hin. destruct (Hfr q Hq) as (_ & Hq1 & Hq2).
      destruct (proj1 (Forall_forall _ _) Hf q Hin) as [[_ Hn'] _].
      assert (Ha : q <= q < q + PGSIZE) by (unfold PGSIZE; lia). apply (Hn' q Ha). right. left. apply (Hp q). lia.
Qed.

Lemma bd_take (k : nat) : building s F pt E T frames n -> n = S k ->
  wp (allocate_for_user 0) (fun p s' => p <> NULL /\
    building s' (without F 0 p) pt E T (p :: frames) k /\ same_regs s s' /\
    modifies (vm_bytes F T) (mem s) (mem s')) s.
Proof using Hheap0 Hfits Hgrows HwOk.
  intros Hb Hn. eapply wp_mono; [exact (bd_take_block 0 k ltac:(done) Hb Hn)|].
  intros p s' (Hne & _ & Hb' & Hregs & Hm & _). by split.
Qed.

(** A page for the task's page table. *)
Lemma bd_map va pa permission (k : nat) : building s F pt E T frames n -> n = (k + 3)%nat ->
  0 <= va < MAXVA -> 0 <= pa < 2 ^ 56 -> 0 <= permission < 1024 -> valid (E (va / PGSIZE)) = false ->
  wp (map_page pt va pa permission) (fun r s' => r = 0 /\ same_regs s s' /\ modifies (vm_bytes F T) (mem s) (mem s') /\
    exists F' T', building s' F' pt (<[va / PGSIZE := leaf (PGROUNDDOWN pa) permission]> E) T' frames (k + 1)) s.
Proof using Hheap0 Hfits Hgrows HwOk.
  intros Hb Hn Hva Hpa Hperm Hinv. pose proof Hb as [_ _ _ Hs Hv _ _ _ Hc].
  eapply wp_mono; [by apply (map_page_at F pt E T va pa permission s Hv)|].
  intros r s' (Hregs & Hm & F' & T' & HF & Hby & [_ Hcost] & Hcase).
  assert (Hc' : capacity F' (k + 1)) by (apply Hcost; rewrite Hn in Hc; by rewrite <-Nat.add_assoc).
  destruct Hcase as [(_ & _ & _ & He)|(-> & Hv')].
  - rewrite Nat.add_1_r in Hc'. destruct (capacity_some F' 1 k ltac:(lia) Hc' He).
  - split; [done|]. split; [done|]. split; [done|]. exists F', T'. by apply (bd_step s' F' _ T').
Qed.

End Steps.

(** Before the page table: the structure and the kernel stack. *)
Record started (s : state) (F : Z -> Prop) (ks : Z) (n : nat) : Prop := {
  sd_regs : same_regs s0 s;
  sd_mod : modifies (heap_touch F0 (Some A)) (mem s0) (mem s);
  sd_heap : heap_rep s F (Some A');
  sd_sub : forall a, F a -> F0 a;
  sd_stack : good_block kernel_end PHYSTOP 0 ks;
  sd_frame : forall a, ks <= a < ks + PGSIZE -> F0 a /\ ~ F a;
  sd_capacity : capacity F n
}.

Lemma struct_touch a : struct_byte a -> heap_touch F0 (Some A) a.
Proof using Hheap0 Hfits Hgrows HwOk. intros Ha. right. right. by apply struct_spare. Qed.

Lemma sd_write s s' F ks n : started s F ks n -> same_regs s s' ->
  modifies struct_byte (mem s) (mem s') -> started s' F ks n.
Proof using Hheap0 Hfits Hgrows HwOk.
  intros [Hr Hmo Hh Hs Hk Hf Hc] Hregs Hm. pose proof Hh as (Hp & _). split; [by etrans| | |done..].
  - eapply modifies_trans; [exact Hmo|]. eapply modifies_weaken; [|exact Hm]. apply struct_touch.
  - apply (heap_keep s s' F F); [done|done| | |done].
    + intros a [_ Ha]. apply Hm. intros Hst. by apply Ha, struct_spare.
    + apply (pool_owns_frame _ _ _ Hp). intros a Ha. apply Hm. intros Hst. destruct (struct_apart a Hst).
      destruct Ha as [?|?%Hs]; done.
Qed.

(** The kernel stack. *)
Lemma sd_take s1 n : same_regs s0 s1 -> modifies (spare A) (mem s0) (mem s1) -> heap_rep s1 F0 (Some A') ->
  capacity F0 (S n) ->
  wp (allocate 0) (fun ks s => ks <> NULL /\ started s (without F0 0 ks) ks n /\
    glob s = glob s1 /\ forall a, struct_byte a -> rd8 (mem s) a = rd8 (mem s1) a) s1.
Proof using Hheap0 Hfits Hgrows HwOk.
  intros Hregs1 Hm1 Hh1 Hc. pose proof Hh1 as (Hp & _).
  eapply wp_mono; [apply (allocate_law F0 0 s1 Hp); lia|].
  intros ks s (Hregs & Hm & [(_ & _ & He)|(Hg & Hne & HF & Hp')]).
  - destruct (capacity_some F0 0 n ltac:(lia) Hc He).
  - split; [done|]. split; [|split; [by destruct Hregs|]].
    + split; [by etrans| | |by intros a [? _]|done| |].
      * eapply modifies_trans; (eapply modifies_weaken; [|eassumption]); intros a Ha; [by right; right|].
        destruct Ha; [by left|by right; left].
      * apply (heap_keep s1 s F0 (without F0 0 ks)); [done|done| |done|by intros a [? _]].
        intros a [Ha _]. apply Hm. destruct (heap_block_apart s1 F0 A' a Hh1 Ha). by intros [?|?].
      * intros a Ha. split; [by apply HF|]. by intros [_ ?].
      * by apply capacity_take.
    + intros a Ha. apply Hm. destruct (struct_apart a Ha). by intros [?|?].
Qed.

(** The page table. *)
Lemma sd_pagetable s F ks n : started s F ks (S n) ->
  wp create_void_pagetable (fun pt s' => pt <> NULL /\ glob s' = glob s /\
    (forall a, struct_byte a -> rd8 (mem s') a = rd8 (mem s) a) /\
    exists F' T, building s' F' pt (fun _ => 0) T [ks] n) s.
Proof using Hheap0 Hfits Hgrows HwOk.
  intros [Hr Hmo Hh Hs Hk Hf Hc]. pose proof Hh as (Hp & _).
  eapply wp_mono; [exact (create_void_pagetable_at F s Hp)|].
  intros pt s' (Hregs & Hm & [(_ & _ & He)|(Hne & Hg & HptF & Hv)]).
  - destruct (capacity_some F 1 n ltac:(lia) Hc He).
  - split; [done|]. split; [by destruct Hregs|]. split.
    { intros a Ha. apply Hm. destruct (struct_apart a Ha). intros [?|?%Hs]; done. }
    exists (without F 1 pt), {[ [] := pt ]}. pose proof Hv as (Hrep & Hp' & _).
    pose proof (pt_root _ _ _ _ Hrep) as Hroot. destruct (pt_page _ _ _ _ Hrep _ _ Hroot) as [(Hal & Hlo & Hhi & _) _].
    assert (Htb : forall a, table_byte {[ [] := pt ]} a -> F a).
    { intros a (l & p & [<- <-]%lookup_singleton_Some & Ha). apply HptF. change (bsz 1) with 8192. lia. }
    split.
    + destruct Hr as (Hg0 & Hc0 & Hl0 & Hcsr0). apply (same_but_pid_step s0 s); [|done].
      split; [done|]. split; [done|]. split; [done|]. intros g _. by rewrite Hg0.
    + eapply modifies_trans; (eapply modifies_weaken; [|eassumption]); intros a; [by left|].
      intros [?|?]; left; [by left|right; left; by apply Hs].
    + apply (heap_keep s s' F (without F 1 pt)); [done|done| |done|by intros a [? _]].
      intros a [Ha _]. apply Hm. destruct (heap_block_apart s F A' a Hh Ha). by intros [?|?].
    + intros a [? _]. by apply Hs.
    + done.
    + intros a Ha. by apply Hs, Htb.
    + constructor; [|constructor]. split; [split; [done|]|]; intros a Ha; [|by apply Hf].
      destruct (Hf a Ha) as [HF0 HnF]. intros [Hpr|[[? _]|?%Htb]]; [|done..].
      apply pool_private_range in Hpr. destruct Hk as (_ & _ & ? & _). lia.
    + apply NoDup_singleton.
    + by apply capacity_take.
Qed.

(** ** The steps of [new_task] *)

Definition stack_rwu : Z := Z.lor (Z.lor PTE_U PTE_R) PTE_W.

(** The fields that are set before the page table exists. *)
Definition first_fields (ks : Z) : list (Z * nat * Z) :=
  [(t_mem_sections + 16, 8%nat, 0); (t_mem_sections + 8, 8%nat, NULL); (t_mem_sections, 8%nat, NULL);
   (t_stack_permission, 8%nat, stack_rwu); (t_kernel_stack, 8%nat, ks)].

Lemma frame_range ks : good_block kernel_end PHYSTOP 0 ks -> 0 < ks /\ ks + PGSIZE <= PHYSTOP /\ ram_range ks PGSIZE.
Proof using HwOk.
  intros (_ & _ & Hlo & Hhi). pose proof kernel_end_range. change (bsz 0) with PGSIZE in *.
  unfold ram_range, PHYSTOP, KERNBASE, PGSIZE in *. lia.
Qed.

Lemma struct_init {C} ks s F n (k : M C) Q : started s F ks n ->
  (forall s', started s' F ks n -> glob s' = glob s -> fields (mem s') t (first_fields ks) -> wp k Q s') ->
  wp (store64 (t + t_kernel_stack) ks;; store64 (t + t_stack_permission) stack_rwu;;
      init_single_linked_list (t + t_mem_sections);; k) Q s.
Proof using Hheap0 Hfits Hgrows HwOk.
  intros Hst HQ. destruct struct_ram as [Hr1 Hr2]. destruct (frame_range ks (sd_stack _ _ _ _ Hst)) as (Hk1 & Hk2 & _).
  unfold PHYSTOP, KERNBASE, PGSIZE in Hk2.
  assert (Hk : 0 <= ks < 2 ^ (8 * Z.of_nat 8)) by (change (2 ^ (8 * Z.of_nat 8)) with (2 ^ 64); lia). clear Hk1 Hk2.
  unfold init_single_linked_list. repeat wp_task. simpl mem.
  match goal with |- wp k Q ?s1 => assert (Hm : modifies struct_byte (mem s) (mem s1)) end.
  { do 4 (eapply modifies_trans; [|apply modifies_wr; unfold struct_byte; task_unfold; lia]).
    apply modifies_wr; unfold struct_byte; task_unfold; lia. }
  apply HQ; [by eapply sd_write|done|]. unfold first_fields. simpl mem.
  apply (fields_write _ t _ (t_mem_sections + 16)); [lia| |done|done].
  apply (fields_write _ t _ (t_mem_sections + 8)); [lia| |done|done].
  apply (fields_write _ t _ t_mem_sections); [done| |done|done].
  apply (fields_write _ t _ t_stack_permission); [done| |done|done].
  apply (fields_write _ t _ t_kernel_stack); [done|constructor|done|done].
Qed.

Lemma bd_fields s F pt E T frames n s' l : building s F pt E T frames n ->
  modifies (vm_bytes F T) (mem s) (mem s') -> fields (mem s) t l ->
  within sizeof_task_struct l = true -> fields (mem s') t l.
Proof using Hheap0 Hfits Hgrows HwOk.
  intros Hb Hm Hl Hwi. apply (fields_out (mem s) _ _ sizeof_task_struct); [done|done|]. intros b Hin. apply Hm.
  intros Hv. destruct (bd_bytes _ _ _ _ _ _ _ Hb b Hv) as (_ & Hn & _). by apply Hn, struct_child.
Qed.

Lemma bd_frame s F pt E T frames n p : building s F pt E T frames n -> p ∈ frames -> good_block kernel_end PHYSTOP 0 p.
Proof. intros Hb Hp. by destruct (proj1 (Forall_forall _ _) (bd_frames _ _ _ _ _ _ _ Hb) p Hp) as [[? _] _]. Qed.

Lemma bd_root s F pt E T frames n : building s F pt E T frames n -> 0 <= pt < 2 ^ 64.
Proof using HwOk.
  intros Hb. destruct (bd_vm _ _ _ _ _ _ _ Hb) as (Hrep & _). pose proof (pt_root _ _ _ _ Hrep) as Hroot.
  destruct (pt_page _ _ _ _ Hrep _ _ Hroot) as [(_ & Hlo & Hhi & _) _]. pose proof kernel_end_range.
  unfold PHYSTOP, KERNBASE in *. lia.
Qed.

(** Storing a field of the structure. *)
Lemma bd_store s F pt E T frames n o k v l : building s F pt E T frames n -> fields (mem s) t l ->
  0 <= o -> o + Z.of_nat k <= sizeof_task_struct -> clear_of o (Z.of_nat k) l = true -> 0 <= v < 2 ^ (8 * Z.of_nat k) ->
  let s' := set_mem (wr k (mem s) (t + o) v) s in
  building s' F pt E T frames n /\ fields (mem s') t ((o, k, v) :: l).
Proof using Hheap0 Hfits Hgrows HwOk.
  intros Hb Hl Ho Hk Hc Hv s'. split.
  - apply (bd_write _ _ _ _ _ _ _ s' Hb (same_regs_set_mem _ _)). apply modifies_wr. intros b Hin. left. apply struct_child. unfold struct_byte. lia.
  - by apply (fields_write _ t _ o).
Qed.

(** The trap frame, the shared page and the cleared context. *)
Lemma struct_frames {C} pt E s F T ks n (k : Z -> Z -> Z -> Z -> M C) Q :
  building s F pt E T [ks] (S (S n)) -> fields (mem s) t (first_fields ks) ->
  (forall s' F' tf sh, tf <> NULL -> sh <> NULL -> building s' F' pt E T [sh; tf; ks] n -> glob s' = glob s ->
     fields (mem s') t ((t_trap_frame, 8%nat, tf) :: (t_pagetable, 8%nat, pt) :: first_fields ks) ->
     wp (k sh ks pt tf) Q s') ->
  wp (store64 (t + t_pagetable) pt;;
      tf ← allocate_for_user 0;
      store64 (t + t_trap_frame) tf;;
      shared_memory ← allocate_for_user 0;
      memset (t + t_context) 0 sizeof_context;;
      ks ← load64 (t + t_kernel_stack);
      pt ← load64 (t + t_pagetable);
      tf ← load64 (t + t_trap_frame);
      k shared_memory ks pt tf) Q s.
Proof using Hheap0 Hfits Hgrows HwOk.
  intros Hb Hl HQ. destruct struct_ram as [Hr1 Hr2]. pose proof (bd_root _ _ _ _ _ _ _ Hb) as Hpt.
  destruct (bd_store s F pt E T [ks] _ t_pagetable 8 pt _ Hb Hl) as [Hb1 Hl1]; [done..|].
  set (s1 := set_mem (wr 8 (mem s) (t + t_pagetable) pt) s) in *.
  wp_task. wp_task. fold s1. wp_step. eapply wp_mono; [exact (bd_take s1 F pt E T [ks] _ (S n) Hb1 eq_refl)|].
  intros tf s2 (Hne2 & Hb2 & Hregs2 & Hm2). pose proof (bd_fields _ _ _ _ _ _ _ s2 _ Hb1 Hm2 Hl1 eq_refl) as Hl2.
  destruct (frame_range tf (bd_frame _ _ _ _ _ _ _ tf Hb2 ltac:(by left))) as (Htf1 & Htf2 & _).
  assert (Htf : 0 <= tf < 2 ^ (8 * Z.of_nat 8)).
  { change (2 ^ (8 * Z.of_nat 8)) with (2 ^ 64). unfold PHYSTOP, KERNBASE, PGSIZE in *. lia. }
  destruct (bd_store s2 _ pt E T _ _ t_trap_frame 8 tf _ Hb2 Hl2) as [Hb3 Hl3]; [done..|].
  set (s3 := set_mem (wr 8 (mem s2) (t + t_trap_frame) tf) s2) in *.
  wp_task. wp_task. fold s3. wp_step. eapply wp_mono; [exact (bd_take s3 _ pt E T _ _ n Hb3 eq_refl)|].
  intros sh s4 (Hne4 & Hb4 & Hregs4 & Hm4). pose proof (bd_fields _ _ _ _ _ _ _ s4 _ Hb3 Hm4 Hl3 eq_refl) as Hl4.
  wp_step. apply memset_ok; [unfold ram_range, sizeof_context; task_unfold; lia|]. intros m5 _ Hm5.
  assert (Hst : forall b, range (t + t_context) sizeof_context b -> t + t_context <= b < t + t_context + sizeof_context) by done.
  assert (Hb5 : building (set_mem m5 s4) (without (without F 0 tf) 0 sh) pt E T [sh; tf; ks] n).
  { apply (bd_write _ _ _ _ _ _ _ _ Hb4 (same_regs_set_mem _ _)). eapply modifies_weaken; [|exact Hm5].
    intros b ?%Hst. left. apply struct_child. unfold struct_byte, sizeof_context in *. task_unfold. lia. }
  assert (Hl5 : fields m5 t ((t_trap_frame, 8%nat, tf) :: (t_pagetable, 8%nat, pt) :: first_fields ks)).
  { by apply (fields_keep (mem s4) _ t t_context sizeof_context). }
  do 6 wp_task. simpl mem.
  rewrite (field_at _ _ _ t_kernel_stack 8 ks Hl5), (field_at _ _ _ t_pagetable 8 pt Hl5),
    (field_at _ _ _ t_trap_frame 8 tf Hl5) by (unfold first_fields; set_solver).
  apply (HQ _ (without (without F 0 tf) 0 sh) tf sh); try done. destruct Hregs2 as (Hg2 & _), Hregs4 as (Hg4 & _). etrans; [exact Hg4|exact Hg2].
Qed.

(** Storing in a page of the task. *)
Lemma bd_poke s F pt E T frames n p o k v l : building s F pt E T frames n -> p ∈ frames ->
  fields (mem s) t l -> within sizeof_task_struct l = true -> 0 <= o -> o + Z.of_nat k <= PGSIZE ->
  let s' := set_mem (wr k (mem s) (p + o) v) s in
  building s' F pt E T frames n /\ fields (mem s') t l.
Proof using Hheap0 Hfits Hgrows HwOk.
  intros Hb Hp Hl Hwi Ho Hk s'.
  assert (Hin : forall b, p + o <= b < p + o + Z.of_nat k -> in_frames frames b /\ F0 b).
  { intros b Hb'. assert (Hpb : p <= b < p + PGSIZE) by lia. split; [by exists p|].
    destruct (proj1 (Forall_forall _ _) (bd_frames _ _ _ _ _ _ _ Hb) p Hp) as [_ HF]. by apply HF. }
  assert (Hm : modifies (fun b => in_frames frames b /\ F0 b) (mem s) (mem s')) by (by apply modifies_wr).
  split.
  - apply (bd_write _ _ _ _ _ _ _ s' Hb (same_regs_set_mem _ _)). eapply modifies_weaken; [|exact Hm]. intros b [? _]. by right.
  - apply (fields_out (mem s) _ _ sizeof_task_struct _ Hl Hwi). intros b Hst. apply Hm. intros [_ HF].
    by destruct (struct_apart b Hst).
Qed.

(** Writing the number of the next task. *)
Lemma bd_put s F pt E T frames n v : building s F pt E T frames n -> building (set_glob next_pid v s) F pt E T frames n.
Proof.
  intros [(Hc & Hl & Hr & Hg) Hmo Hh Hs Hv Ht Hf Hnd Hca]. split; try done.
  split; [done|]. split; [done|]. split; [done|]. intros g Hne. simpl. rewrite fn_lookup_insert_ne by done. by apply Hg.
Qed.

(** *** The pages of a new task *)

Definition map_of_new (tf sh : Z) : Z -> Z :=
  <[SHARED_MEMORY / PGSIZE := leaf (PGROUNDDOWN sh) (Z.lor (Z.lor PTE_R PTE_W) PTE_U)]>
  (<[TRAMPOLINE / PGSIZE := leaf (PGROUNDDOWN trampoline) (Z.lor PTE_R PTE_X)]>
  (<[TRAPFRAME / PGSIZE := leaf (PGROUNDDOWN tf) (Z.lor PTE_R PTE_W)]> (fun _ => 0))).

Lemma bd_map_keep s F pt E T frames n va pa permission k l : building s F pt E T frames n -> n = (k + 3)%nat ->
  fields (mem s) t l -> within sizeof_task_struct l = true ->
  0 <= va < MAXVA -> 0 <= pa < 2 ^ 56 -> 0 <= permission < 1024 -> valid (E (va / PGSIZE)) = false ->
  wp (map_page pt va pa permission) (fun r s' => r = 0 /\ glob s' = glob s /\ fields (mem s') t l /\
    (forall a, in_frames frames a -> rd8 (mem s') a = rd8 (mem s) a) /\
    exists F' T', building s' F' pt (<[va / PGSIZE := leaf (PGROUNDDOWN pa) permission]> E) T' frames (k + 1)) s.
Proof using Hheap0 Hfits Hgrows HwOk.
  intros Hb Hn Hl Hwi Hva Hpa Hperm Hinv.
  eapply wp_mono; [exact (bd_map s F pt E T frames n va pa permission k Hb Hn Hva Hpa Hperm Hinv)|].
  intros r s' (-> & Hregs & Hm & Hb'). split; [done|]. split; [by destruct Hregs|].
  split; [exact (bd_fields _ _ _ _ _ _ _ s' l Hb Hm Hl Hwi)|]. split; [|done].
  intros a (p & Hp & Ha). apply Hm. destruct (proj1 (Forall_forall _ _) (bd_frames _ _ _ _ _ _ _ Hb) p Hp) as [[_ Hn'] _].
  by apply Hn'.
Qed.

Lemma map_task_pages_ok s F pt T frames k tf sh l : building s F pt (fun _ => 0) T frames (7 + k) ->
  fields (mem s) t l -> within sizeof_task_struct l = true -> (t_pagetable, 8%nat, pt) ∈ l -> (t_trap_frame, 8%nat, tf) ∈ l ->
  0 <= trampoline < 2 ^ 56 -> tf ∈ frames -> sh ∈ frames ->
  wp (map_task_pages t sh) (fun r s' => r = 0 /\ glob s' = glob s /\ fields (mem s') t l /\
    (forall a, in_frames frames a -> rd8 (mem s') a = rd8 (mem s) a) /\
    exists F' T', building s' F' pt (map_of_new tf sh) T' frames (1 + k)) s.
Proof using Hheap0 Hfits Hgrows HwOk.
  intros Hb Hl Hwi Hpt Htf Htr Hin Hsh. destruct struct_ram as [Hr1 Hr2].
  assert (Hpa : forall p, p ∈ frames -> 0 <= p < 2 ^ 56).
  { intros p Hp. destruct (frame_range p (bd_frame _ _ _ _ _ _ _ p Hb Hp)) as (? & ? & _).
    unfold PHYSTOP, KERNBASE, PGSIZE in *. lia. }
  assert (Hread : forall s' : state, fields (mem s') t l -> rd64 (mem s') (t + t_pagetable) = pt /\ rd64 (mem s') (t + t_trap_frame) = tf).
  { intros s' Hl'. split; by apply (field_at _ _ l). }
  unfold map_task_pages. wp_task. wp_task. wp_task. wp_task. destruct (Hread s Hl) as [-> ->].
  wp_step. eapply wp_mono; [apply (bd_map_keep s F pt _ T frames _ TRAPFRAME tf _ (4 + k) l Hb); try done; [lia|by apply Hpa]|].
  intros r1 s1 (-> & Hg1 & Hl1 & Hk1 & F1 & T1 & Hb1). wp_task. wp_task. destruct (Hread s1 Hl1) as [-> _].
  wp_step. eapply wp_mono; [apply (bd_map_keep s1 F1 pt _ T1 frames _ TRAMPOLINE trampoline _ (2 + k) l Hb1); try done; lia|].
  intros r2 s2 (-> & Hg2 & Hl2 & Hk2 & F2 & T2 & Hb2). wp_task. wp_task. destruct (Hread s2 Hl2) as [-> _].
  wp_step. eapply wp_mono; [apply (bd_map_keep s2 F2 pt _ T2 frames _ SHARED_MEMORY sh _ k l Hb2); try done; [lia|by apply Hpa]|].
  intros r3 s3 (-> & Hg3 & Hl3 & Hk3 & F3 & T3 & Hb3). wp_task. split; [done|]. split; [congruence|]. split; [done|].
  split; [intros a Ha; by rewrite Hk3, Hk2, Hk1|]. exists F3, T3. by rewrite Nat.add_comm.
Qed.

(** *** The rest of the structure *)

(** While the structure is filled: only its bytes change. *)
Record filling (g : global -> Z) (m0 : gmap Z Z) F pt E T frames n (l : list (Z * nat * Z)) (s : state) : Prop := {
  fl_building : building s F pt E T frames n;
  fl_fields : fields (mem s) t l;
  fl_glob : glob s = g;
  fl_mod : modifies struct_byte m0 (mem s)
}.

Lemma store_field s g m0 F pt E T frames n x o k v l Q : filling g m0 F pt E T frames n l s ->
  x = t + o -> 0 <= o -> o + Z.of_nat k <= sizeof_task_struct -> clear_of o (Z.of_nat k) l = true ->
  0 <= v < 2 ^ (8 * Z.of_nat k) ->
  (forall s', filling g m0 F pt E T frames n ((o, k, v) :: l) s' -> Q tt s') -> wp (store k x v) Q s.
Proof using Hheap0 Hfits Hgrows HwOk.
  intros [Hb Hl Hg Hm] -> Ho Hk Hc Hv HQ. destruct struct_ram as [Hr1 Hr2].
  apply wp_store; [apply in_ram_true; unfold PHYSTOP, KERNBASE in *; lia|].
  destruct (bd_store s F pt E T frames n o k v l Hb Hl Ho Hk Hc Hv) as [Hb' Hl'].
  apply HQ. split; [done|done|done|]. eapply modifies_trans; [exact Hm|]. apply modifies_wr. unfold struct_byte. lia.
Qed.

Lemma load_field s l o k v (Q : Z -> state -> Prop) : fields (mem s) t l -> (o, k, v) ∈ l ->
  0 <= o -> o + Z.of_nat k <= sizeof_task_struct -> Q v s -> wp (load k (t + o)) Q s.
Proof using Hheap0 Hfits Hgrows HwOk.
  intros Hl Hin Ho Hk HQ. destruct struct_ram as [Hr1 Hr2].
  apply wp_load; [apply in_ram_true; unfold PHYSTOP, KERNBASE in *; lia|]. by rewrite (field_at _ _ l o k v Hl Hin).
Qed.

(** The number fields of the filled structure. *)
Definition filled_fields (pid parent ks : Z) : list (Z * nat * Z) :=
  [(t_stack + ms_start, 8%nat, 0); (t_stack + ms_size, 8%nat, 0);
   (t_context + context_ra, 8%nat, user_trap_return_addr); (t_context + context_sp, 8%nat, ks +w PGSIZE);
   (t_parent, 8%nat, parent); (t_pid, 8%nat, pid); (t_state, 4%nat, RUNNABLE)].

(** The name is in memory that [new_task] does not use. *)
Definition name_apart (name : cstr) (l : list Z) : Prop :=
  match name with
  | Ptr a => forall b, a <= b < a + Z.of_nat (length l) + 1 -> ~ touch b
  | Lit _ => True
  end.

Lemma name_kept s name l : str_at (mem s0) name l -> name_apart name l ->
  modifies touch (mem s0) (mem s) -> str_at (mem s) name l.
Proof.
  intros [Hl Hs] Hn Hm. split; [done|]. destruct name as [w|a]; [done|]. destruct Hs as [Hr Hs]. split; [done|].
  apply (bytes_at_ext (mem s0)); [|done]. intros b Hb. apply Hm, Hn. rewrite length_app in Hb. simpl in Hb. lia.
Qed.

(** The name and the structure do not overlap. *)
Lemma name_struct a l : name_apart (Ptr a) l ->
  forall d n, struct_byte d -> struct_byte (d + n) -> 0 <= n ->
  a + Z.of_nat (length l) + 1 <= d \/ d + n + 1 <= a.
Proof using Hheap0 Hfits Hgrows HwOk.
  intros Hn d n Hd Hdn Hn0. destruct (decide (a + Z.of_nat (length l) + 1 <= d)) as [?|H1]; [by left|].
  destruct (decide (d + n + 1 <= a)) as [?|H2]; [by right|]. exfalso.
  apply (Hn (Z.max a d)); [lia|]. left. apply struct_touch. unfold struct_byte in *. lia.
Qed.

Definition frame_fields (tf pt ks : Z) : list (Z * nat * Z) :=
  (t_trap_frame, 8%nat, tf) :: (t_pagetable, 8%nat, pt) :: first_fields ks.

(** The number fields, up to the name. *)
Lemma fill_numbers_ok {C} s F pt E T frames n ks tf parent (m : M C) Q :
  building s F pt E T frames n -> fields (mem s) t (frame_fields tf pt ks) ->
  let pid := glob s next_pid in
  0 <= pid < 2 ^ 64 -> 0 <= parent < 2 ^ 64 -> 0 <= user_trap_return_addr < 2 ^ 64 ->
  (forall s', filling (<[next_pid := pid +w 1]> (glob s)) (mem s) F pt E T frames n
     (filled_fields pid parent ks ++ frame_fields tf pt ks) s' -> wp m Q s') ->
  wp (store32 (t + t_state) RUNNABLE;;
      pid ← get next_pid;
      put next_pid (pid +w 1);;
      store64 (t + t_pid) pid;;
      store64 (t + t_parent) parent;;
      ks ← load64 (t + t_kernel_stack);
      store64 (t + t_context + context_sp) (ks +w PGSIZE);;
      store64 (t + t_context + context_ra) user_trap_return_addr;;
      store64 (t + t_stack + ms_size) 0;;
      store64 (t + t_stack + ms_start) 0;;
      m) Q s.
Proof using Hheap0 Hfits Hgrows HwOk.
  intros Hb Hl pid Hpid Hpar Hra HQ.
  assert (Hf : filling (glob s) (mem s) F pt E T frames n (frame_fields tf pt ks) s) by (by split).
  wp_step. apply (store_field s _ _ F pt E T frames n _ t_state 4 RUNNABLE _ _ Hf); [done..|]. intros s1 [Hb1 Hl1 Hg1 Hm1].
  wp_step. wp_step. wp_step. wp_step. rewrite Hg1. fold pid.
  assert (Hf1 : filling (<[next_pid := pid +w 1]> (glob s)) (mem s) F pt E T frames n
    ((t_state, 4%nat, RUNNABLE) :: frame_fields tf pt ks) (set_glob next_pid (pid +w 1) s1)).
  { split; [by apply bd_put|done|simpl; by rewrite Hg1|done]. }
  wp_step. eapply (store_field _ _ _ F pt E T frames n _ t_pid 8 pid _ _ Hf1); [done..|]. intros s2 Hf2.
  wp_step. eapply (store_field _ _ _ F pt E T frames n _ t_parent 8 parent _ _ Hf2); [done..|]. intros s3 Hf3.
  wp_step. apply (load_field s3 _ t_kernel_stack 8 ks _ (fl_fields _ _ _ _ _ _ _ _ _ _ Hf3)); [|done..|].
  { unfold frame_fields, first_fields. set_solver. }
  wp_step. eapply (store_field _ _ _ F pt E T frames n _ (t_context + context_sp) 8 (ks +w PGSIZE) _ _ Hf3); [lia|done..|apply w64_range|].
  intros s4 Hf4. wp_step. eapply (store_field _ _ _ F pt E T frames n _ (t_context + context_ra) 8 user_trap_return_addr _ _ Hf4); [lia|done..|].
  intros s5 Hf5. wp_step. eapply (store_field _ _ _ F pt E T frames n _ (t_stack + ms_size) 8 0 _ _ Hf5); [lia|done..|].
  intros s6 Hf6. wp_step. eapply (store_field _ _ _ F pt E T frames n _ (t_stack + ms_start) 8 0 _ _ Hf6); [lia|done..|].
  intros s7 Hf7. by apply HQ.
Qed.

Lemma fill_task_ok s F pt E T frames n ks tf parent sh name l :
  building s F pt E T frames n -> fields (mem s) t (frame_fields tf pt ks) ->
  str_at (mem s0) name l -> name_apart name l -> Z.of_nat (length l) < 2 ^ 63 ->
  let pid := glob s next_pid in
  0 <= pid < 2 ^ 64 -> 0 <= parent < 2 ^ 64 -> 0 <= user_trap_return_addr < 2 ^ 64 -> 0 <= sh < 2 ^ 64 ->
  wp (fill_task t name parent sh) (fun _ s' =>
    filling (<[next_pid := pid +w 1]> (glob s)) (mem s) F pt E T frames n
      ((t_shared_memory, 8%nat, sh) :: filled_fields pid parent ks ++ frame_fields tf pt ks) s' /\
    str_at (mem s') (Ptr (t + t_name)) (take 31 l)) s.
Proof using Hheap0 Hfits Hgrows HwOk.
  intros Hb Hl Hstr Hap Hlen pid Hpid Hpar Hra Hsh. destruct struct_ram as [Hr1 Hr2].
  unfold fill_task. apply (fill_numbers_ok s F pt E T frames n ks tf parent); [done..|]. fold pid.
  intros s1 [Hb1 Hl1 Hg1 Hm1]. pose proof (name_kept s1 name l Hstr Hap (bd_mod _ _ _ _ _ _ _ Hb1)) as Hstr1.
  wp_step. apply (strlen_ok name l); [done..|].
  assert (Hmin : min 31 (Z.of_nat (length l)) = Z.min 31 (Z.of_nat (length l))) by (unfold min; case_match; lia).
  rewrite Hmin. set (k := Z.min 31 (Z.of_nat (length l))). assert (Hk : 0 <= k <= 31 /\ k <= Z.of_nat (length l)) by lia.
  wp_step. apply (strcpy_str (t + t_name) name l k); [|done|lia| |].
  { unfold ram_range. task_unfold. lia. }
  { destruct name as [w|a]; [done|]. apply (name_struct a l Hap); unfold struct_byte; task_unfold; lia. }
  intros m2 Hs2 Hm2.
  assert (Hm2' : modifies (fun b => t + t_name <= b < t + t_name + 32) (mem s1) m2).
  { eapply modifies_weaken; [|exact Hm2]. unfold range. lia. }
  assert (Hm2s : modifies struct_byte (mem s1) m2).
  { eapply modifies_weaken; [|exact Hm2']. intros b Hin. unfold struct_byte. task_unfold. lia. }
  assert (Hf2 : filling (<[next_pid := pid +w 1]> (glob s)) (mem s) F pt E T frames n
    (filled_fields pid parent ks ++ frame_fields tf pt ks) (set_mem m2 s1)).
  { split; [|by apply (fields_keep (mem s1) _ t t_name 32)|done|by eapply modifies_trans].
    apply (bd_write _ _ _ _ _ _ _ _ Hb1 (same_regs_set_mem _ _)). eapply modifies_weaken; [|exact Hm2s]. intros b Hin. left. by apply struct_child. }
  apply wp_store; [task_ram|].
  destruct Hf2 as [Hb2 Hl2 Hg2 Hm2a].
  destruct (bd_store _ F pt E T frames n t_shared_memory 8 sh _ Hb2 Hl2) as [Hb3 Hl3]; [done..|]. split.
  - split; [done..|]. eapply modifies_trans; [exact Hm2a|]. apply modifies_wr. unfold struct_byte. task_unfold. lia.
  - replace (take 31 l) with (take (Z.to_nat k) l).
    + destruct Hs2 as [Hall [Hrr Hby]]. split; [done|]. split; [done|].
      apply (bytes_at_ext m2); [|done]. intros b Hin. rewrite length_app, length_take in Hin. simpl in Hin.
      apply rd8_wr_out. task_unfold. lia.
    + unfold k. destruct (Z.le_gt_cases 31 (Z.of_nat (length l))).
      * by rewrite Z.min_l by lia.
      * rewrite Z.min_r, Nat2Z.id by lia. by rewrite !take_ge by lia.
Qed.

(** The trap frame of a new task. *)
Definition frame_words (kp : Z) : list (Z * nat * Z) := [(tf_epc, 8%nat, 0); (tf_kernel_satp, 8%nat, kp)].

Lemma fields_frame s s' F pt E T frames n tf l : building s F pt E T frames n -> tf ∈ frames ->
  fields (mem s) tf l -> within PGSIZE l = true -> (forall a, in_frames frames a -> rd8 (mem s') a = rd8 (mem s) a) ->
  fields (mem s') tf l.
Proof.
  intros _ Htf Hl Hwi Hk. apply (fields_out (mem s) _ _ PGSIZE _ Hl Hwi). intros b Hb. apply Hk. by exists tf.
Qed.

(** The trap frame, the mappings and the rest of the structure. *)
Lemma complete_task s F pt T ks tf sh parent name l n :
  building s F pt (fun _ => 0) T [sh; tf; ks] (7 + n) -> fields (mem s) t (frame_fields tf pt ks) ->
  str_at (mem s0) name l -> name_apart name l -> Z.of_nat (length l) < 2 ^ 63 ->
  let pid := glob s next_pid in
  0 <= pid < 2 ^ 64 -> 0 <= parent < 2 ^ 64 -> 0 <= user_trap_return_addr < 2 ^ 64 ->
  0 <= trampoline < 2 ^ 56 -> 0 <= glob s kernel_pagetable < 2 ^ 64 ->
  wp (kp ← get kernel_pagetable;
      store64 (tf + tf_kernel_satp) kp;;
      tf ← load64 (t + t_trap_frame);
      store64 (tf + tf_epc) 0;;
      map_result ← map_task_pages t sh;
      if negb (map_result =? 0) then free_user_memory t;; kfree t;; mret NULL
      else fill_task t name parent sh;; mret t)
    (fun r s' => r = t /\ glob s' = <[next_pid := pid +w 1]> (glob s) /\
      (exists F' T', building s' F' pt (map_of_new tf sh) T' [sh; tf; ks] (1 + n)) /\
      fields (mem s') t ((t_shared_memory, 8%nat, sh) :: filled_fields pid parent ks ++ frame_fields tf pt ks) /\
      fields (mem s') tf (frame_words (glob s kernel_pagetable)) /\
      str_at (mem s') (Ptr (t + t_name)) (take 31 l)) s.
Proof using Hheap0 Hfits Hgrows HwOk.
  intros Hb Hl Hstr Hap Hlen pid Hpid Hpar Hra Htr Hkp.
  assert (Hin : tf ∈ [sh; tf; ks]) by set_solver. assert (Hins : sh ∈ [sh; tf; ks]) by set_solver.
  destruct (frame_range tf (bd_frame _ _ _ _ _ _ _ tf Hb Hin)) as (Ht1 & Ht2 & Htf).
  destruct (frame_range sh (bd_frame _ _ _ _ _ _ _ sh Hb Hins)) as (Hs1 & Hs2 & _).
  assert (Hshr : 0 <= sh < 2 ^ 64) by (unfold PHYSTOP, KERNBASE, PGSIZE in *; lia).
  assert (Htfin : (t_trap_frame, 8%nat, tf) ∈ frame_fields tf pt ks) by (unfold frame_fields; set_solver).
  wp_step. wp_step. set (kp := glob s kernel_pagetable).
  destruct (bd_poke s F pt _ T _ _ tf tf_kernel_satp 8 kp _ Hb Hin Hl) as [Hb1 Hl1]; [done..|].
  assert (Ht1' : fields (wr64 (mem s) (tf + tf_kernel_satp) kp) tf [(tf_kernel_satp, 8%nat, kp)]).
  { by apply (fields_write _ _ _ tf_kernel_satp 8); [|constructor| |]. }
  set (s1 := set_mem (wr64 (mem s) (tf + tf_kernel_satp) kp) s) in *.
  wp_step. apply wp_store; [apply in_ram_true; unfold tf_kernel_satp, ram_range, PGSIZE in *; lia|]. fold s1.
  wp_step. apply (load_field s1 _ t_trap_frame 8 tf _ Hl1 Htfin); [done..|].
  destruct (bd_poke s1 F pt _ T _ _ tf tf_epc 8 0 _ Hb1 Hin Hl1) as [Hb2 Hl2]; [done..|].
  assert (Ht2' : fields (wr64 (mem s1) (tf + tf_epc) 0) tf (frame_words kp)).
  { by apply (fields_write _ _ _ tf_epc 8). }
  set (s2 := set_mem (wr64 (mem s1) (tf + tf_epc) 0) s1) in *.
  wp_step. apply wp_store; [apply in_ram_true; unfold tf_epc, ram_range, PGSIZE in *; lia|]. fold s2.
  wp_step. eapply wp_mono.
  { apply (map_task_pages_ok s2 F pt T [sh; tf; ks] n tf sh (frame_fields tf pt ks)); try done.
    unfold frame_fields; set_solver. }
  intros r s3 (-> & Hg3 & Hl3 & Hk3 & F3 & T3 & Hb3).
  assert (Ht3 : fields (mem s3) tf (frame_words kp)) by (by apply (fields_frame s2 s3 F pt _ T [sh; tf; ks] _ tf _ Hb2)).
  change (negb (0 =? 0)) with false. wp_step. wp_step.
  assert (Hpid3 : glob s3 next_pid = pid) by (by rewrite Hg3).
  eapply wp_mono.
  { apply (fill_task_ok s3 F3 pt _ T3 [sh; tf; ks] _ ks tf parent sh name l Hb3 Hl3 Hstr Hap Hlen); try done. by rewrite Hpid3. }
  intros [] s4 ([Hb4 Hl4 Hg4 Hm4] & Hname). wp_step. rewrite Hpid3 in *.
  split; [done|]. split; [by rewrite Hg4, Hg3|]. split; [by exists F3, T3|]. split; [done|]. split; [|done].
  apply (fields_out (mem s3) _ _ PGSIZE _ Ht3 eq_refl). intros b Hb'. apply Hm4. intros Hst.
  destruct (struct_apart b Hst) as [HnF _]. apply HnF.
  destruct (proj1 (Forall_forall _ _) (bd_frames _ _ _ _ _ _ _ Hb4) tf Hin) as [_ HF]. by apply HF.
Qed.

End Create.

(** ** [new_task] *)

Section NewTask.
Context `{Hw : Platform} {HwOk : PlatformOk Hw} {Ops : PageOps} {HA : PageAllocator Ops}.

(** The placement of the kernel and the globals that [new_task] stores. *)
Record creatable (s : state) (parent : Z) : Prop := {
  cr_pid : 0 <= glob s next_pid < 2 ^ 64;
  cr_parent : 0 <= parent < 2 ^ 64;
  cr_kernel_pagetable : 0 <= glob s kernel_pagetable < 2 ^ 64;
  cr_return : 0 <= user_trap_return_addr < 2 ^ 64;
  cr_trampoline : 0 <= trampoline < 2 ^ 56
}.

(** The fields of the task [t] made in [s] for [parent], and of its trap frame. *)
Definition task_made (s s' : state) (t parent ks pt tf sh : Z) (name : list Z) : Prop :=
  fields (mem s') t ((t_shared_memory, 8%nat, sh) :: filled_fields (glob s next_pid) parent ks ++ frame_fields tf pt ks) /\
  fields (mem s') tf (frame_words (glob s kernel_pagetable)) /\
  str_at (mem s') (Ptr (t + t_name)) (take 31 name).

Lemma new_task_ok name l parent k F A X s :
  heap_rep s F (Some A) -> fits (Some A) sizeof_task_struct -> capacity F (11 + k) ->
  str_at (mem s) name l -> name_apart F A X name l -> Z.of_nat (length l) < 2 ^ 63 -> creatable s parent ->
  wp (new_task name parent) (fun t s' => t = new_address A /\
    glob s' = <[next_pid := glob s next_pid +w 1]> (glob s) /\
    exists F' T' ks pt tf sh, task_made s s' t parent ks pt tf sh l /\
      building s F A (arena_alloc A sizeof_task_struct) X s' F' pt (map_of_new tf sh) T' [sh; tf; ks] (1 + k)) s.
Proof.
  intros Hheap Hfits Hcap Hstr Hap Hlen [Hpid Hpar Hkp Hra Htr]. unfold new_task. apply wp_bind.
  pose proof (grows_refl (arena_alloc A sizeof_task_struct)) as Hgr.
  eapply wp_mono; [exact (heap_chunk s F A sizeof_task_struct Hheap ltac:(done) Hfits)|].
  intros r s1 (-> & Hregs1 & Hm1 & Hh1 & _). change (a_free A + sizeof_header) with (new_address A).
  destruct (struct_ram s F A _ Hheap Hfits Hgr) as [Hr1 _].
  rewrite (proj2 (Z.eqb_neq (new_address A) NULL)) by (unfold NULL, KERNBASE in *; lia).
  apply wp_bind. eapply wp_mono; [exact (sd_take s F A _ Hheap Hfits Hgr s1 (10 + k) Hregs1 Hm1 Hh1 Hcap)|].
  intros ks s2 (Hks & Hst2 & Hg2 & _).
  apply (struct_init s F A _ Hheap Hfits Hgr ks s2 (without F 0 ks) (10 + k)); [exact Hst2|]. intros s3 Hst3 Hg3 Hl3.
  apply wp_bind. eapply wp_mono; [exact (sd_pagetable s F A _ Hheap Hfits Hgr X s3 (without F 0 ks) ks (9 + k) Hst3)|].
  intros pt s4 (Hpt & Hg4 & Hk4 & F4 & T4 & Hb4).
  assert (Hl4 : fields (mem s4) (new_address A) (first_fields ks)).
  { by apply (fields_out (mem s3) _ _ sizeof_task_struct _ Hl3 eq_refl). }
  apply (struct_frames s F A _ Hheap Hfits Hgr X pt (fun _ => 0) s4 F4 T4 ks (7 + k)); [exact Hb4|exact Hl4|].
  intros s5 F5 tf sh Htf Hsh Hb5 Hg5 Hl5.
  rewrite !(proj2 (Z.eqb_neq _ NULL)) by done. cbv iota beta delta [orb].
  assert (Hg : glob s5 = glob s) by (destruct Hregs1 as [Hg1 _]; congruence).
  eapply wp_mono.
  { apply (complete_task s F A _ Hheap Hfits Hgr X s5 F5 pt T4 ks tf sh parent name l k); try done; by rewrite Hg. }
  intros r s6 (-> & Hg6 & (F6 & T6 & Hb6) & Hl6 & Ht6 & Hn6). rewrite Hg in *.
  split; [done|]. split; [done|]. exists F6, T6, ks, pt, tf, sh. by split.
Qed.

End NewTask.
