(* ===== verification/TaskCreateTheorems.v ===== *)
(** * Theorems on the creation of a task

    What [new_task] of process.c promises while memory lasts. *)

From S2P Require Import Prelude Machine Board Utility Uart BuddySpec PageAlloc Capacity Buddy BuddyInstance BuddyTheorems Kmalloc KmallocProof KmallocTheorems LinkedList PageTable PageTableProof Task TaskTable UserStack UserMemory TaskCreate.

Section Theorems.
Context `{Hw : Platform} {HwOk : PlatformOk Hw} {Ops : PageOps} {HA : PageAllocator Ops}.

(** C12: With room in the kernel heap for a [task_struct] and eleven free pairs
    of pages [new_task] succeeds: the structure is the next chunk of the heap;
    the task is runnable, has the next pid, its parent, the first 31
    characters of the name, no memory sections, an empty stack section, and a
    context that starts in [user_trap_return] at the top of its own kernel
    stack; its trap frame has the kernel's page table and entry 0; its page
    table maps the trap frame, the trampoline and the shared page, and nothing
    else; kernel stack, trap frame and shared page are three distinct pages
    from the free memory, which no other object uses; of the rest of the memory only
    the allocators' own is written, and of the globals only the next pid. *)
Theorem new_task_creates name l parent k F A s :
  heap_rep s F (Some A) -> fits (Some A) sizeof_task_struct -> capacity F (11 + k) ->
  str_at (mem s) name l -> name_apart F A no_bytes name l -> Z.of_nat (length l) < 2 ^ 63 -> creatable s parent ->
  wp (new_task name parent) (fun t s' => t = new_address A /\
    glob s' = <[next_pid := glob s next_pid +w 1]> (glob s) /\
    exists F' T' ks pt tf sh, task_made s s' t parent ks pt tf sh l /\
      building s F A (arena_alloc A sizeof_task_struct) no_bytes s' F' pt (map_of_new tf sh) T' [sh; tf; ks] (1 + k)) s.
Proof. intros. by apply new_task_ok. Qed.

End Theorems.

(** ** An instance: the first process of a booted machine *)

Section Witnesses.
#[local] Existing Instances board board_ok.
#[local] Opaque chunk_state.

Lemma chunk_capacity n : (n <= 1000)%nat -> capacity (without boot_free 0 page) n.
Proof.
  intros Hn. apply (capacity_le _ 1000); [done|]. apply (capacity_range _ 0x80030000); [by exists 0x40018|done|done|].
  intros a Ha. change (8192 * Z.of_nat 1000) with 8192000 in Ha. change page with 0x80020000.
  split; [unfold boot_free; lia|]. change (bsz 0) with 4096. lia.
Qed.

Lemma new_task_creates_witness :
  wp (new_task (Lit "init") 0) (fun t s' => t = chunk + 120 /\ exists ks pt tf sh,
    task_made chunk_state s' t 0 ks pt tf sh (codes "init")) chunk_state.
Proof.
  eapply wp_mono.
  - apply (new_task_creates (Lit "init") (codes "init") 0 0 _ chunk_arena chunk_state chunk_heap).
    + done.
    + apply chunk_capacity. lia.
    + split; [repeat constructor; done|done].
    + done.
    + done.
    + split; [|done|..|done|done]; vm_compute; by split.
  - intros t s' (-> & _ & F' & T' & ks & pt & tf & sh & H & _). split; [done|]. by exists ks, pt, tf, sh.
Defined.

End Witnesses.
