(* ===== verification/TaskFill.v ===== *)
(** * Filling the memory of a new task

    Between [new_task] and the moment a task is queued its memory sections are
    linked and its pages are filled: by [fork_process] with the contents of the
    parent (TaskFork.v), by [load_elf] with a program (TaskElf.v).  [filled]
    says what is in place so far, whatever the contents come from ([plan]). *)

From S2P Require Import Prelude Machine Utility Uart Chain BuddySpec PageAlloc Capacity Kmalloc KmallocProof LinkedList LinkedListProof LinkedListTheorems PageTable PageTableProof Task Process TaskTable UserStack UserMemory TaskCreate.

(** ** Memory that stays *)

Definition keeps (P : Z -> Prop) (m m' : gmap Z Z) : Prop := forall a, P a -> rd8 m' a = rd8 m a.

Lemma keeps_refl P m : keeps P m m.
Proof. done. Qed.

Lemma keeps_trans P m1 m2 m3 : keeps P m1 m2 -> keeps P m2 m3 -> keeps P m1 m3.
Proof. intros H12 H23 a Ha. by rewrite (H23 a Ha), (H12 a Ha). Qed.

Lemma keeps_modifies (P Q : Z -> Prop) m m' : modifies Q m m' -> (forall a, P a -> ~ Q a) -> keeps P m m'.
Proof. intros Hm H a Ha. by apply Hm, H. Qed.

Lemma keeps_rd (P : Z -> Prop) k m m' a : keeps P m m' -> (forall b, a <= b < a + Z.of_nat k -> P b) ->
  rd k m' a = rd k m a.
Proof. intros Hk H. apply rd_ext. intros b Hb. by apply Hk, H. Qed.

(** A word that was copied. *)
Lemma rd_copied n m m' a a' : (forall i, 0 <= i < Z.of_nat n -> rd8 m' (a' + i) = rd8 m (a + i)) -> rd n m' a' = rd n m a.
Proof.
  revert a a'. induction n as [|n IH]; intros a a' H; [done|].
  change (rd8 m' a' + 256 * rd n m' (a' + 1) = rd8 m a + 256 * rd n m (a + 1)).
  assert (H0 : rd8 m' a' = rd8 m a) by (specialize (H 0 ltac:(lia)); by rewrite !Z.add_0_r in H).
  rewrite H0. f_equal. f_equal. apply IH. intros i Hi. rewrite <-!Z.add_assoc. apply H. lia.
Qed.

(** ** Room in the block of the heap *)

Definition room (A : arena) (n : Z) : Prop := a_free A + n <= a_block A + bsz (a_power A).

Lemma room_le A n n' : n' <= n -> room A n -> room A n'.
Proof. unfold room. lia. Qed.

Lemma room_alloc A size n : 0 <= n -> room A (gross_size size + n) ->
  fits (Some A) size /\ room (arena_alloc A size) n.
Proof. unfold room. intros Hn Hr. simpl. split; lia. Qed.

(** ** Walking over a list *)

Section Walk.
Context `{Hw : Platform} {Ops : PageOps}.

(** The body keeps the list, and never leaves the loop. *)
Lemma for_nodes_ok {A} (I : nat -> state -> Prop) L l f s :
  (forall k s', I k s' -> list_rep (mem s') L l) -> I O s ->
  (forall k x d s', l !! k = Some (x, d) -> I k s' -> wp (f d) (fun r s'' => r = None /\ I (S k) s'') s') ->
  wp (for_nodes (A := A) (hd0 l.*1) f) (fun r s' => r = None /\ I (length l) s') s.
Proof.
  intros Hrep HI0 Hf. destruct (rep_range _ _ _ (Hrep _ _ HI0)) as (_ & _ & Hlen). unfold for_nodes.
  apply (wp_loop (fun n node s' => exists k, (k <= length l)%nat /\ node = hd0 (drop k l).*1 /\
    n = Z.of_nat (length l - k) /\ I k s') (Z.of_nat (length l))); [|lia|].
  { exists 0%nat. rewrite drop_0. split; [lia|]. split; [done|]. split; [lia|done]. }
  intros n node s' (k & Hk & -> & -> & HI). split; [lia|]. specialize (Hrep k s' HI) as Hl.
  destruct (l !! k) as [[x d]|] eqn:Hx.
  - pose proof (lookup_lt_Some _ _ _ Hx) as Hlt. rewrite (drop_S _ _ _ Hx), fmap_cons, hd0_cons. simpl fst.
    destruct (rep_node _ _ _ Hl x d ltac:(by apply list_elem_of_lookup_2 with k)) as (? & ? & _).
    rewrite (proj2 (Z.eqb_neq x NULL)) by (unfold NULL, KERNBASE in *; lia).
    wp_ram. wp_ram. rewrite (proj1 (Forall_lookup _ _) (rep_data _ _ _ Hl) k (x, d) Hx : rd64 (mem s') (x + 8) = d).
    wp_step. eapply wp_mono; [exact (Hf k x d s' Hx HI)|]. intros r s2 (-> & HI2). specialize (Hrep (S k) s2 HI2) as Hl2.
    wp_ram. wp_ram. wp_step. exists (Z.of_nat (length l - S k)). split; [lia|]. exists (S k). split; [lia|]. split; [|done].
    pose proof (rep_chain _ _ _ Hl2) as Hc. rewrite <-(take_drop k l), (drop_S _ _ _ Hx), fmap_app in Hc.
    apply chain_tail in Hc. simpl in Hc. destruct Hc as [_ Hc]. by rewrite (chain_hd _ _ _ Hc).
  - apply lookup_ge_None in Hx. rewrite drop_ge by lia. simpl. wp_step. split; [done|]. by replace (length l) with k by lia.
Qed.

End Walk.

Section Child.
Context `{Hw : Platform} {HwOk : PlatformOk Hw} {Ops : PageOps} {HA : PageAllocator Ops}.
Context (s0 : state) (F0 : Z -> Prop) (A : arena) (X : Z -> Prop).
Hypothesis Hheap0 : heap_rep s0 F0 (Some A).
Hypothesis Hfits : fits (Some A) sizeof_task_struct.

Abbreviation t := (new_address A).
Abbreviation grown B := (grows (arena_alloc A sizeof_task_struct) B).

Lemma grown_from B : grown B -> grows A B.
Proof. intros H. eapply grows_trans; [apply grows_alloc|exact H]. Qed.

(** A new chunk while the task is built. *)
Lemma bd_alloc B s F pt E T frames n size : grown B -> building s0 F0 A B X s F pt E T frames n ->
  0 <= size < 2 ^ 62 -> fits (Some B) size ->
  wp (kmalloc size) (fun r s' => building s0 F0 A (arena_alloc B size) X s' F pt E T frames n /\
    glob s' = glob s /\ modifies (spare B) (mem s) (mem s') /\
    (forall a, r <= a < r + size -> spare B a /\ data (a_live (arena_alloc B size)) a) /\
    KERNBASE <= r /\ r + size <= PHYSTOP) s.
Proof using Hheap0 Hfits HwOk.
  intros Hgr Hb Hsz Hfit. pose proof Hb as [Hr Hmo Hh Hs Hv Ht Hf Hnd Hc].
  eapply wp_mono; [exact (heap_chunk s F B size Hh Hsz Hfit)|].
  intros r s' (_ & Hregs & Hm & Hh' & Hch & Hlo & Hhi). split; [|split; [by destruct Hregs|done]].
  split; [by eapply same_but_pid_step| |done|done| |done|done|done|done].
  - eapply modifies_trans; [exact Hmo|]. eapply modifies_weaken; [|exact Hm]. intros a Ha. left. right. right.
    apply (grows_spare A B a); [by apply grown_from|done].
  - pose proof Hh' as (Hp & _). apply (vm_at_frame s s' F); [done| | |done].
    + intros a Ha. apply Hm. intros Hsp.
      destruct (bd_bytes s0 F0 A B Hheap0 Hfits Hgr X s F pt E T frames n Hb a) as (_ & _ & Hn); [by right; right|done].
    + intros a Ha. by destruct (vm_table_apart _ _ _ _ _ _ Hv Ha).
Qed.

(** More frames for the task, from memory that was free ([F]). *)
Lemma bd_more B s F pt E T frames n (F1 : Z -> Prop) ps : building s0 F0 A B X s F pt E T frames n ->
  (forall a, F1 a -> F0 a) -> NoDup ps ->
  (forall p, p ∈ ps -> user_frame F T p /\ forall a, p <= a < p + PGSIZE -> F1 a) ->
  (forall p a, p ∈ frames -> p <= a < p + PGSIZE -> ~ F1 a) ->
  building s0 F0 A B X s F pt E T (ps ++ frames) n.
Proof.
  intros [Hreg Hmo Hh Hs Hv Ht Hf Hnd Hca] HF1 Hps Hnew Hold. split; [done..| | |done].
  - apply Forall_app. split; [|done]. apply Forall_forall. intros p Hp. destruct (Hnew p Hp) as [? Hin].
    split; [done|]. intros a Ha. by apply HF1, Hin.
  - apply NoDup_app. split; [done|]. split; [|done]. intros p Hp Hq.
    assert (Ha : p <= p < p + PGSIZE) by (unfold PGSIZE; lia). apply (Hold p p Hq Ha). by apply (Hnew p Hp).
Qed.

(** ** The memory sections of the child *)

Definition cells (xs : list Z) (a : Z) : Prop := exists x, x ∈ xs /\ x <= a < x + 16.

(** The sections (start and size) at the addresses [ds]. *)
Definition sections_at (m : gmap Z Z) (ds : list Z) (secs : list (Z * Z)) : Prop :=
  Forall2 (fun d sec => rd64 m (d + ms_start) = sec.1 /\ rd64 m (d + ms_size) = sec.2) ds secs.

Lemma sections_at_keep m m' ds secs : sections_at m ds secs -> keeps (cells ds) m m' -> sections_at m' ds secs.
Proof.
  intros H. induction H as [|d sec ds secs [H1 H2] _ IH]; intros Hk; constructor.
  - unfold ms_start, ms_size in *. assert (Hd : forall b, d <= b < d + 16 -> cells (d :: ds) b) by (intros b Hb; exists d; split; [by left|done]).
    split; [rewrite <-H1|rewrite <-H2]; apply (keeps_rd _ _ _ _ _ Hk); intros b Hb; apply Hd; lia.
  - apply IH. intros a (x & Hx & Ha). apply Hk. exists x. split; [by right|done].
Qed.

(** [child_sections s B l secs]: the list of the task holds the sections [secs]
    (start and size), in chunks of their own. *)
Record child_sections (s : state) (B : arena) (l : list (Z * Z)) (secs : list (Z * Z)) : Prop := {
  cs_rep : list_rep (mem s) (t + t_mem_sections) l;
  cs_own : forall a, cells l.*1 a \/ cells l.*2 a -> child_byte A B a /\ ~ struct_byte A a;
  cs_apart : forall a, cells l.*2 a -> ~ cells l.*1 a;
  cs_data : sections_at (mem s) l.*2 secs
}.

(** The list header and the sections. *)
Definition section_byte (l : list (Z * Z)) (a : Z) : Prop :=
  t + t_mem_sections <= a < t + t_mem_sections + sizeof_list \/ cells l.*1 a \/ cells l.*2 a.

Lemma cs_keep s s' B B' l secs : child_sections s B l secs -> grows B B' ->
  keeps (section_byte l) (mem s) (mem s') -> child_sections s' B' l secs.
Proof.
  intros [Hrep Hown Hap Hda] Hgr Hk. split.
  - apply (rep_frame _ _ _ Hrep).
    + intros a Ha. apply Hk. left. unfold sizeof_list. lia.
    + intros x a Hx Ha. apply Hk. right. left. by exists x.
  - intros a Ha. destruct (Hown a Ha) as [[Hs Hd] Hn]. split; [|done]. split; [done|]. by apply (gr_data _ _ Hgr).
  - done.
  - apply (sections_at_keep _ _ _ _ Hda). intros a Ha. apply Hk. right. by right.
Qed.

Lemma sep_apart x n y k : 0 < n -> 0 < k -> (forall a, x <= a < x + n -> ~ (y <= a < y + k)) -> sep x n y k.
Proof. intros Hn Hk H. unfold sep. pose proof (H (Z.max x y)). lia. Qed.

(** A new node while the task is built. *)
Lemma make_node_ok B s F pt E T frames n d : grown B -> building s0 F0 A B X s F pt E T frames n ->
  fits (Some B) sizeof_node -> 0 <= d < 2 ^ 64 ->
  wp (make_single_linked_list_node d) (fun x s' => building s0 F0 A (arena_alloc B sizeof_node) X s' F pt E T frames n /\
    glob s' = glob s /\ modifies (spare B) (mem s) (mem s') /\ rd64 (mem s') (x + 8) = d /\
    (forall a, x <= a < x + sizeof_node -> spare B a /\ data (a_live (arena_alloc B sizeof_node)) a) /\
    KERNBASE <= x /\ x + sizeof_node <= PHYSTOP) s.
Proof using Hheap0 Hfits HwOk.
  intros Hgr Hb Hfit Hd. unfold make_single_linked_list_node. wp_step.
  eapply wp_mono; [exact (bd_alloc B s F pt E T frames n sizeof_node Hgr Hb ltac:(done) Hfit)|].
  intros x s1 (Hb1 & Hg1 & Hm1 & Hx & Hlo & Hhi). unfold sizeof_node in Hhi, Hx.
  rewrite (proj2 (Z.eqb_neq x NULL)) by (unfold NULL, KERNBASE in *; lia). wp_step. wp_ram. wp_ram. wp_ram. wp_ram.
  simpl mem.
  assert (Hmw : modifies (fun a => x <= a < x + 16) (mem s1) (wr64 (wr64 (mem s1) (x + 8) d) x NULL)).
  { eapply modifies_trans; apply modifies_wr; lia. }
  assert (Hgr1 : grown (arena_alloc B sizeof_node)) by (eapply grows_trans; [exact Hgr|apply grows_alloc]).
  split; [|split; [done|split; [|split; [by mem_simp|done]]]].
  - apply (bd_write s0 F0 A _ Hheap0 Hfits Hgr1 X s1 F pt E T frames n); [done|apply same_regs_set_mem|].
    eapply modifies_weaken; [|exact Hmw]. intros a Ha. left. destruct (Hx a Ha) as [Hsp Hda]. split; [|done].
    apply (grows_spare A B a); [by apply grown_from|done].
  - eapply modifies_trans; [exact Hm1|]. eapply modifies_weaken; [|exact Hmw]. intros a Ha. by apply Hx.
Qed.

Lemma cells_snoc xs x a : cells (xs ++ [x]) a <-> cells xs a \/ x <= a < x + 16.
Proof.
  unfold cells. split.
  - intros (y & [Hy| ->%list_elem_of_singleton]%elem_of_app & Ha); [left; by exists y|by right].
  - intros [(y & Hy & Ha)|Ha]; [exists y|exists x]; (split; [apply elem_of_app|done]); [by left|right; by left].
Qed.

(** What is in use stays as it is. *)
Lemma section_kept B s l secs : grown B -> child_sections s B l secs ->
  forall a, section_byte l a -> data (a_live B) a /\ ~ spare B a.
Proof using Hheap0 Hfits HwOk.
  intros Hgr Hcs a [Ha|Ha].
  - assert (Hst : struct_byte A a) by (unfold struct_byte, sizeof_list in *; task_unfold; lia).
    destruct (struct_spare s0 F0 A B Hheap0 Hfits Hgr a Hst) as [_ Hd]. split; [done|]. by intros [_ ?].
  - destruct (cs_own _ _ _ _ Hcs a Ha) as [[_ Hd] _]. split; [done|]. by intros [_ ?].
Qed.

(** Linking a section that is filled in. *)
Lemma link_section_ok B s F pt E T frames n l secs x d va size :
  grown B -> building s0 F0 A B X s F pt E T frames n -> child_sections s B l secs ->
  (forall a, x <= a < x + 16 \/ d <= a < d + 16 -> child_byte A B a /\ ~ struct_byte A a /\ ~ section_byte l a) ->
  (forall a, d <= a < d + 16 -> ~ (x <= a < x + 16)) -> KERNBASE <= x -> x + 16 <= PHYSTOP ->
  rd64 (mem s) (x + 8) = d -> rd64 (mem s) (d + ms_start) = va -> rd64 (mem s) (d + ms_size) = size ->
  wp (push_tail (t + t_mem_sections) x) (fun r s' => r = 0 /\ building s0 F0 A B X s' F pt E T frames n /\
    child_sections s' B (l ++ [(x, d)]) (secs ++ [(va, size)]) /\ glob s' = glob s /\
    modifies (fun a => section_byte l a \/ x <= a < x + 16) (mem s) (mem s')) s.
Proof using Hheap0 Hfits HwOk.
  intros Hgr Hb Hcs Hnew Hxd Hlo Hhi Hd Hva Hsize. pose proof Hcs as [Hrep Hown Hap Hda].
  assert (Hfresh : node_fresh (t + t_mem_sections) l.*1 x).
  { split; [done|]. split; [done|]. split.
    - apply sep_apart; [done..|]. intros a Ha Hx. destruct (Hnew a (or_introl Hx)) as (_ & Hn & _). apply Hn.
      unfold struct_byte, sizeof_list in *. task_unfold. lia.
    - intros y Hy. apply sep_apart; [done..|]. intros a Ha Hya. destruct (Hnew a (or_introl Ha)) as (_ & _ & Hn).
      apply Hn. right. left. by exists y. }
  eapply wp_mono; [exact (push_tail_ok _ l x s Hrep Hfresh)|]. rewrite Hd. intros r s' (-> & -> & Hrep' & Hm).
  assert (Hmw : modifies (fun a => section_byte l a \/ x <= a < x + 16) (mem s) (mem s')).
  { eapply modifies_weaken; [|exact Hm]. intros a [Ha|(y & [Hy| ->%list_elem_of_singleton]%elem_of_app & Ha)].
    - left. by left.
    - left. right. left. exists y. split; [done|lia].
    - right. lia. }
  assert (Hkd : forall a, cells (l.*2 ++ [d]) a -> rd8 (mem s') a = rd8 (mem s) a).
  { intros a Ha. apply Hm. apply cells_snoc in Ha. intros [Hh|(y & [Hy| ->%list_elem_of_singleton]%elem_of_app & Hya)].
    - assert (Hst : struct_byte A a) by (unfold struct_byte, sizeof_list in *; task_unfold; lia).
      destruct Ha as [Ha|Ha]; [by destruct (Hown a (or_intror Ha))|by destruct (Hnew a (or_intror Ha)) as (_ & ? & _)].
    - destruct Ha as [Ha|Ha].
      + apply (Hap a Ha). exists y. split; [done|lia].
      + destruct (Hnew a (or_intror Ha)) as (_ & _ & Hn). apply Hn. right. left. exists y. split; [done|lia].
    - destruct Ha as [Ha|Ha]; [|by apply (Hxd a Ha); lia].
      destruct (Hnew a) as (_ & _ & Hn); [left; lia|]. apply Hn. right. by right. }
  split; [done|]. split; [|split; [|by split]].
  - apply (bd_write s0 F0 A B Hheap0 Hfits Hgr X s F pt E T frames n); [done|apply same_regs_set_mem|].
    eapply modifies_weaken; [|exact Hmw]. intros a [[Ha|Ha]|Ha]; left.
    + apply (struct_child s0 F0 A B Hheap0 Hfits Hgr). unfold struct_byte, sizeof_list in *. task_unfold. lia.
    + by destruct (Hown a Ha).
    + by destruct (Hnew a (or_introl Ha)).
  - split; [exact Hrep'| | |]; rewrite ?fmap_app; simpl fmap.
    + intros a. rewrite !cells_snoc. intros [[Ha|Ha]|[Ha|Ha]]; [apply Hown; by left| |apply Hown; by right|];
        destruct (Hnew a) as (? & ? & _); auto.
    + intros a. rewrite !cells_snoc. intros [Ha|Ha] [Hx|Hx].
      * by apply (Hap a).
      * destruct (Hnew a (or_introl Hx)) as (_ & _ & Hn). apply Hn. right. by right.
      * destruct (Hnew a (or_intror Ha)) as (_ & _ & Hn). apply Hn. right. by left.
      * by apply (Hxd a).
    + apply Forall2_app; [|constructor; [|constructor]].
      * apply (sections_at_keep _ _ _ _ Hda). intros a Ha. apply Hkd, cells_snoc. by left.
      * simpl. rewrite <-Hva, <-Hsize. unfold ms_start, ms_size.
        split; apply rd_ext; intros b Hb'; apply Hkd, cells_snoc; right; lia.
Qed.

(** Unused bytes of the heap are none of the child's. *)
Lemma spare_new B s l secs a : grown B -> child_sections s B l secs -> spare B a ->
  spare A a /\ ~ struct_byte A a /\ ~ section_byte l a.
Proof using Hheap0 Hfits HwOk.
  intros Hgr Hcs Ha. split; [apply (grows_spare A B a); [by apply grown_from|done]|]. split.
  - intros Hst. destruct (struct_spare s0 F0 A B Hheap0 Hfits Hgr a Hst) as [_ Hd]. by destruct Ha.
  - intros Hsec. by destruct (section_kept B s l secs Hgr Hcs a Hsec).
Qed.

Lemma register_ok B s F pt E T frames n l secs va size : grown B -> building s0 F0 A B X s F pt E T frames n ->
  child_sections s B l secs -> room B 64 -> 0 <= va < 2 ^ 64 -> 0 <= size < 2 ^ 64 ->
  wp (register_memory_section t va size) (fun r s' => r = 0 /\ exists B' x d,
    grows B B' /\ (forall k, 0 <= k -> room B (64 + k) -> room B' k) /\ building s0 F0 A B' X s' F pt E T frames n /\
    child_sections s' B' (l ++ [(x, d)]) (secs ++ [(va, size)]) /\ glob s' = glob s /\
    modifies (fun a => spare B a \/ section_byte l a) (mem s) (mem s')) s.
Proof using Hheap0 Hfits HwOk.
  intros Hgr Hb Hcs Hroom Hva Hsize. assert (Hg16 : gross_size 16 = 32) by done.
  destruct (room_alloc B 16 32 ltac:(done) Hroom) as [Hf1 Hr1]. set (B1 := arena_alloc B 16) in *.
  destruct (room_alloc B1 16 0 ltac:(done) Hr1) as [Hf2 _]. set (B2 := arena_alloc B1 16) in *.
  assert (Hgr1 : grows B B1) by apply grows_alloc. assert (Hgr2 : grows B1 B2) by apply grows_alloc.
  assert (Hgr1' : grown B1) by (by eapply grows_trans). assert (Hgr2' : grown B2) by (by eapply grows_trans).
  unfold register_memory_section. wp_step.
  eapply wp_mono; [exact (bd_alloc B s F pt E T frames n 16 Hgr Hb ltac:(done) Hf1)|].
  intros d s1 (Hb1 & Hg1 & Hm1 & Hd & Hd1 & Hd2).
  assert (Hd64 : 0 <= d < 2 ^ 64) by (unfold PHYSTOP, KERNBASE in *; lia).
  wp_step. eapply wp_mono; [exact (make_node_ok B1 s1 F pt E T frames n d Hgr1' Hb1 Hf2 Hd64)|].
  intros x s2 (Hb2 & Hg2 & Hm2 & Hxd & Hx & Hx1 & Hx2). unfold sizeof_node in *. fold B1 in Hd. fold B2 in Hx, Hb2.
  rewrite !(proj2 (Z.eqb_neq _ NULL)) by (unfold NULL, KERNBASE in *; lia). cbv iota beta delta [orb].
  wp_task. wp_task. wp_task. wp_task. simpl mem.
  assert (Hdx : forall a, d <= a < d + 16 -> ~ (x <= a < x + 16)).
  { intros a Ha Hxa. destruct (Hd a Ha) as [_ Hda]. by destruct (Hx a Hxa) as [[_ Hn] _]. }
  set (m3 := wr64 (wr64 (mem s2) (d + ms_start) va) (d + ms_size) size). set (s3 := set_mem m3 s2).
  assert (Hm3 : modifies (fun a => d <= a < d + 16) (mem s2) m3).
  { unfold m3, ms_start, ms_size. eapply modifies_trans; apply modifies_wr; lia. }
  match goal with |- wp _ _ ?s' => change s' with s3 end.
  assert (Hsp1 : forall a, spare B1 a -> spare B a) by (intros a; by apply grows_spare).
  assert (Hmall : modifies (spare B) (mem s) (mem s3)).
  { eapply modifies_trans; [exact Hm1|]. eapply modifies_trans; [eapply modifies_weaken; [exact Hsp1|exact Hm2]|].
    eapply modifies_weaken; [|exact Hm3]. intros a Ha. by apply Hd. }
  assert (Hb3 : building s0 F0 A B2 X s3 F pt E T frames n).
  { apply (bd_write s0 F0 A B2 Hheap0 Hfits Hgr2' X s2 F pt E T frames n); [done|apply same_regs_set_mem|].
    eapply modifies_weaken; [|exact Hm3]. intros a Ha. left. destruct (Hd a Ha) as [Hs Hda].
    split; [by destruct (spare_new B s l secs a Hgr Hcs Hs)|by apply (gr_data _ _ Hgr2)]. }
  assert (Hcs3 : child_sections s3 B2 l secs).
  { apply (cs_keep s s3 B B2 l secs Hcs); [by eapply grows_trans|]. apply (keeps_modifies _ _ _ _ Hmall).
    intros a Ha. by destruct (section_kept B s l secs Hgr Hcs a Ha). }
  wp_step. eapply wp_mono.
  { apply (link_section_ok B2 s3 F pt E T frames n l secs x d va size Hgr2' Hb3 Hcs3).
    - intros a Ha. assert (Hsp : spare B a /\ data (a_live B2) a).
      { destruct Ha as [Ha|Ha]; [destruct (Hx a Ha) as [H1 H2]; split; [by apply Hsp1|done]|].
        destruct (Hd a Ha) as [H1 H2]. split; [done|by apply (gr_data _ _ Hgr2)]. }
      destruct Hsp as [Hsp Hda]. destruct (spare_new B s l secs a Hgr Hcs Hsp) as (? & ? & ?). split; by split.
    - exact Hdx.
    - done.
    - done.
    - rewrite <-Hxd. apply rd_ext. intros a Ha. apply Hm3. intros Hda. apply (Hdx a Hda). lia.
    - unfold s3, m3, ms_start, ms_size. simpl mem. by mem_simp.
    - unfold s3, m3, ms_start, ms_size. simpl mem. by mem_simp. }
  intros r s4 (-> & Hb4 & Hcs4 & Hg4 & Hm4). wp_step. split; [done|]. exists B2, x, d.
  split; [by eapply grows_trans|]. split; [|split; [done|split; [done|split; [rewrite Hg4; etrans; [exact Hg2|exact Hg1]|]]]].
  - unfold room, B2, B1, arena_alloc. simpl. rewrite !Hg16. lia.
  - eapply modifies_trans; (eapply modifies_weaken; [|eassumption]); intros a; [by left|].
    intros [Ha|Ha]; [by right|left]. by apply Hsp1, Hx.
Qed.

(** ** The pages of the task *)

Definition pages {C} (rs : list (Z * list C)) : list Z := concat ((fun r => seqZ r.1 (Z.of_nat (length r.2))) <$> rs).

Lemma pages_app {C} (rs rs' : list (Z * list C)) : pages (rs ++ rs') = pages rs ++ pages rs'.
Proof. unfold pages. by rewrite fmap_app, concat_app. Qed.

Lemma pages_one {C} (r : Z * list C) n : n ∈ pages [r] <-> r.1 <= n < r.1 + Z.of_nat (length r.2).
Proof. unfold pages. simpl. rewrite app_nil_r. apply elem_of_seqZ. Qed.

(** Bytes of the structure that only [new_task] writes. *)
Definition core_byte (a : Z) : Prop :=
  struct_byte A a /\ ~ (t + t_mem_sections <= a < t + t_mem_sections + sizeof_list) /\
  ~ (t + t_stack <= a < t + t_stack + sizeof_memory_section).

(** The task's own memory, that only [new_task] and the code at hand write. *)
Definition own_byte (frames : list Z) (a : Z) : Prop :=
  struct_byte A a /\ ~ (t + t_mem_sections <= a < t + t_mem_sections + sizeof_list) \/ in_frames frames a.

Lemma own_core frames m m' : keeps (own_byte frames) m m' -> keeps core_byte m m'.
Proof. intros Hk a (Hs & Hn & _). apply Hk. by left. Qed.

(** A plan: what a page is filled with, the flags of its entry and its bytes,
    by its number and its source; and the bytes of the structure that stay. *)
Record plan (C : Type) : Type := Plan {
  pl_image : Z -> C -> Z * (Z -> Z);
  pl_keep : Z -> Prop;
  pl_core : forall a, pl_keep a -> core_byte a
}.
#[global] Arguments Plan {C}.
#[global] Arguments pl_image {C}.
#[global] Arguments pl_keep {C}.
#[global] Arguments pl_core {C}.

Section Filling.
Context {C : Type} {P : plan C}.

(** The pages from [n0] on, in frames [ps] of the task, with the contents that
    the plan has for [cs]. *)
Definition range_filled (m : gmap Z Z) (E : Z -> Z) (frames : list Z) (n0 : Z) (cs : list C) (ps : list Z) : Prop :=
  length ps = length cs /\ forall j c p, cs !! j = Some c -> ps !! j = Some p ->
    p ∈ frames /\ E (n0 + Z.of_nat j) = leaf p (pl_image P (n0 + Z.of_nat j) c).1 /\
    forall i, 0 <= i < PGSIZE -> rd8 m (p + i) = (pl_image P (n0 + Z.of_nat j) c).2 i.

Lemma range_filled_keep m m' E E' frames frames' n0 cs ps : range_filled m E frames n0 cs ps ->
  keeps (in_frames frames) m m' -> (forall n, n0 <= n < n0 + Z.of_nat (length cs) -> E' n = E n) ->
  (forall p, p ∈ frames -> p ∈ frames') -> range_filled m' E' frames' n0 cs ps.
Proof.
  intros [Hlen H] Hk HE Hfr. split; [done|]. intros j c p Hf Hp. destruct (H j c p Hf Hp) as (Hin & He & Hc).
  pose proof (lookup_lt_Some _ _ _ Hf). split; [auto|]. split; [rewrite HE by lia; done|].
  intros i Hi. rewrite Hk; [by apply Hc|]. exists p. split; [done|lia].
Qed.

(** [filled s1 .. s ..]: since the task was made in [s1], with the entries [E0]
    and the frames [frames0], the ranges [rs] were filled and the sections
    [secs] linked. *)
Record filled (s1 : state) (pt : Z) (E0 : Z -> Z) (frames0 : list Z) (rs : list (Z * list C)) (secs : list (Z * Z))
    (s : state) (B : arena) (F : Z -> Prop) (T : tables) (E : Z -> Z) (frames : list Z) (l : list (Z * Z))
    (pss : list (list Z)) (n : nat) : Prop := {
  cd_grown : grown B;
  cd_building : building s0 F0 A B X s F pt E T frames n;
  cd_sections : child_sections s B l secs;
  cd_pages : Forall2 (fun r ps => range_filled (mem s) E frames r.1 r.2 ps) rs pss;
  cd_rest : forall i, i ∉ pages rs -> E i = E0 i;
  cd_core : keeps (pl_keep P) (mem s1) (mem s);
  cd_glob : glob s = glob s1;
  cd_list : frames ≡ₚ concat pss ++ frames0
}.

Lemma cd_frames s1 pt E0 frames0 rs secs s B F T E frames l pss n :
  filled s1 pt E0 frames0 rs secs s B F T E frames l pss n -> forall p, p ∈ frames0 -> p ∈ frames.
Proof. intros Hcd p Hp. rewrite (cd_list _ _ _ _ _ _ _ _ _ _ _ _ _ _ _ Hcd). apply elem_of_app. by right. Qed.

(** The frames of the filled pages are not those of [new_task]. *)
Lemma cd_new s1 pt E0 frames0 rs secs s B F T E frames l pss n :
  filled s1 pt E0 frames0 rs secs s B F T E frames l pss n -> Forall (fun ps => forall p, p ∈ ps -> p ∉ frames0) pss.
Proof.
  intros Hcd. pose proof (bd_nodup _ _ _ _ _ _ _ _ _ _ _ _ (cd_building _ _ _ _ _ _ _ _ _ _ _ _ _ _ _ Hcd)) as Hnd.
  rewrite (cd_list _ _ _ _ _ _ _ _ _ _ _ _ _ _ _ Hcd) in Hnd. apply NoDup_app in Hnd as (_ & Hn & _).
  apply Forall_forall. intros ps Hps p Hp. apply Hn. apply list_elem_of_In, in_concat. exists ps. by split; apply list_elem_of_In.
Qed.


Lemma cd_pages_keep m m' E E' frames frames' rs pss :
  Forall2 (fun r ps => range_filled m E frames r.1 r.2 ps) rs pss -> keeps (in_frames frames) m m' ->
  (forall i, i ∈ pages rs -> E' i = E i) -> (forall p, p ∈ frames -> p ∈ frames') ->
  Forall2 (fun r ps => range_filled m' E' frames' r.1 r.2 ps) rs pss.
Proof.
  intros H Hk. induction H as [|r ps rs pss H1 _ IH]; intros HE Hfr; constructor.
  - apply (range_filled_keep m m' E E' frames frames'); [done..| |done]. intros i Hi. apply HE.
    change (r :: rs) with ([r] ++ rs). rewrite pages_app. apply elem_of_app. left. by apply pages_one.
  - apply IH; [|done]. intros i Hi. apply HE. change (r :: rs) with ([r] ++ rs). rewrite pages_app. apply elem_of_app. by right.
Qed.


(** The list and the structure are the child's. *)
Lemma section_child B s l secs : grown B -> child_sections s B l secs ->
  forall a, section_byte l a -> child_byte A B a.
Proof using Hheap0 Hfits HwOk.
  intros Hgr Hcs a [Ha|Ha]; [|by destruct (cs_own _ _ _ _ Hcs a Ha)].
  apply (struct_child s0 F0 A B Hheap0 Hfits Hgr). unfold struct_byte, sizeof_list in *. task_unfold. lia.
Qed.

(** Another range is filled. *)
Lemma fill_step s1 pt E0 frames0 rs secs s s' B F T E frames l pss n n0 cs ps F' T' E' n' :
  filled s1 pt E0 frames0 rs secs s B F T E frames l pss n -> glob s' = glob s ->
  modifies (vm_bytes F T) (mem s) (mem s') -> building s0 F0 A B X s' F' pt E' T' (ps ++ frames) n' ->
  range_filled (mem s') E' (ps ++ frames) n0 cs ps ->
  (forall i, ~ (n0 <= i < n0 + Z.of_nat (length cs)) -> E' i = E i) ->
  (forall i, n0 <= i < n0 + Z.of_nat (length cs) -> i ∉ pages rs) ->
  filled s1 pt E0 frames0 (rs ++ [(n0, cs)]) secs s' B F' T' E' (ps ++ frames) l (pss ++ [ps]) n'.
Proof using Hheap0 Hfits HwOk.
  intros [Hgr Hb Hcs Hpg Hrest Hcore Hgl Hfr] Hg Hm Hb' Hrc HE Hnew.
  assert (Hkc : keeps (child_byte A B) (mem s) (mem s')).
  { apply (keeps_modifies _ _ _ _ Hm). intros a Ha Hv.
    by destruct (bd_bytes s0 F0 A B Hheap0 Hfits Hgr X s F pt E T frames _ Hb a Hv) as (_ & ? & _). }
  assert (Hk : keeps (in_frames frames) (mem s) (mem s')).
  { intros a (p & Hp & Ha). apply Hm. pose proof (bd_frames _ _ _ _ _ _ _ _ _ _ _ _ Hb) as Hf.
    rewrite Forall_forall in Hf. destruct (Hf p Hp) as [[_ Hn] _]. by apply Hn. }
  split; [done|done| | | | |by rewrite Hg|].
  - apply (cs_keep s s' B B l secs Hcs (grows_refl B)). intros a Ha. apply Hkc. by eapply section_child.
  - apply Forall2_app; [|constructor; [done|constructor]].
    apply (cd_pages_keep (mem s) _ E _ frames _ _ _ Hpg Hk); [|intros p Hp; apply elem_of_app; by right].
    intros i Hi. apply HE. intros Hin. by destruct (Hnew i Hin).
  - intros i Hi. rewrite pages_app in Hi. rewrite HE; [apply Hrest; set_solver|].
    intros Hin. apply Hi, elem_of_app. right. by apply pages_one.
  - eapply keeps_trans; [exact Hcore|]. intros a [Ha _]%(pl_core P). apply Hkc. by apply (struct_child s0 F0 A B Hheap0 Hfits Hgr).
  - rewrite concat_app. simpl. rewrite app_nil_r, Hfr. solve_Permutation.
Qed.

Lemma register_step s1 pt E0 frames0 rs secs s B F T E frames l pss n va size :
  filled s1 pt E0 frames0 rs secs s B F T E frames l pss n -> room B 64 -> 0 <= va < 2 ^ 64 -> 0 <= size < 2 ^ 64 ->
  wp (register_memory_section t va size) (fun r s' => r = 0 /\ exists B' x d,
    (forall k, 0 <= k -> room B (64 + k) -> room B' k) /\ keeps (own_byte frames) (mem s) (mem s') /\
    filled s1 pt E0 frames0 rs (secs ++ [(va, size)]) s' B' F T E frames (l ++ [(x, d)]) pss n) s.
Proof using Hheap0 Hfits HwOk.
  intros [Hgr Hb Hcs Hpg Hrest Hcore Hgl Hfr] Hroom Hva Hsize.
  eapply wp_mono; [exact (register_ok B s F pt E T frames n l secs va size Hgr Hb Hcs Hroom Hva Hsize)|].
  intros r s' (-> & B' & x & d & Hgr' & Hroom' & Hb' & Hcs' & Hg & Hm). split; [done|]. exists B', x, d. split; [done|].
  assert (Hkc : keeps (own_byte frames) (mem s) (mem s')).
  { apply (keeps_modifies _ _ _ _ Hm). intros a [[Hst Hn]|(p & Hp & Ha)].
    - intros [Hs|[Hs|Hs]]; [|done|by destruct (cs_own _ _ _ _ Hcs a Hs)].
      by destruct (spare_new B s l secs a Hgr Hcs Hs) as (_ & ? & _).
    - pose proof (bd_frames _ _ _ _ _ _ _ _ _ _ _ _ Hb) as Hf. rewrite Forall_forall in Hf.
      destruct (Hf p Hp) as [_ HF]. specialize (HF a Ha). intros [Hs|Hs].
      + destruct (spare_new B s l secs a Hgr Hcs Hs) as [Hsp _]. by destruct (heap_apart s0 F0 A Hheap0 a Hsp).
      + destruct (section_child B s l secs Hgr Hcs a Hs) as [Hsp _]. by destruct (heap_apart s0 F0 A Hheap0 a Hsp). }
  split; [done|].
  split; [by eapply grows_trans|done|done| |done| |by rewrite Hg|done].
  - apply (cd_pages_keep (mem s) _ E _ frames _ _ _ Hpg); [|done..]. intros a Ha. apply Hkc. by right.
  - eapply keeps_trans; [exact Hcore|]. intros a Ha. by apply (own_core _ _ _ Hkc), (pl_core P).
Qed.

(** Other fields of the structure are written. *)
Lemma struct_step (W : Z -> Prop) s1 pt E0 frames0 rs secs s s' B F T E frames l pss n :
  filled s1 pt E0 frames0 rs secs s B F T E frames l pss n -> same_regs s s' ->
  (forall a, W a -> struct_byte A a /\ ~ (t + t_mem_sections <= a < t + t_mem_sections + sizeof_list) /\ ~ pl_keep P a) ->
  modifies W (mem s) (mem s') -> filled s1 pt E0 frames0 rs secs s' B F T E frames l pss n.
Proof using Hheap0 Hfits HwOk.
  intros [Hgr Hb Hcs Hpg Hrest Hcore Hgl Hfr] Hregs HW Hm.
  split; [done| | | |done| |by destruct Hregs as [-> _]|done].
  - apply (bd_write s0 F0 A B Hheap0 Hfits Hgr X s F pt E T frames n); [done|done|].
    eapply modifies_weaken; [|exact Hm]. intros a Ha. left. by apply (struct_child s0 F0 A B Hheap0 Hfits Hgr), HW.
  - apply (cs_keep s s' B B l secs Hcs (grows_refl B)). apply (keeps_modifies _ _ _ _ Hm). intros a [Ha|Ha] Hs.
    + by destruct (HW a Hs) as (_ & ? & _).
    + destruct (cs_own _ _ _ _ Hcs a Ha) as [_ Hn]. by apply Hn, HW.
  - apply (cd_pages_keep (mem s) _ E _ frames _ _ _ Hpg); [|done..]. apply (keeps_modifies _ _ _ _ Hm).
    intros a (p & Hp & Ha) Hs. pose proof (bd_frames _ _ _ _ _ _ _ _ _ _ _ _ Hb) as Hf. rewrite Forall_forall in Hf.
    destruct (Hf p Hp) as [_ HF]. specialize (HF a Ha). destruct (HW a Hs) as [Hst _].
    by destruct (struct_apart s0 F0 A B Hheap0 Hfits Hgr a Hst).
  - eapply keeps_trans; [exact Hcore|]. apply (keeps_modifies _ _ _ _ Hm). intros a Ha Hs. by destruct (HW a Hs) as (_ & _ & ?).
Qed.

(** Writing the frames beside the ranges. *)
Lemma frames_step s1 pt E0 frames0 rs secs s s' B F T E frames l pss n :
  filled s1 pt E0 frames0 rs secs s B F T E frames l pss n -> same_regs s s' ->
  modifies (in_frames frames0) (mem s) (mem s') ->
  filled s1 pt E0 frames0 rs secs s' B F T E frames l pss n.
Proof using Hheap0 Hfits HwOk.
  intros Hcd Hregs Hm. pose proof (cd_new _ _ _ _ _ _ _ _ _ _ _ _ _ _ _ Hcd) as Hnew.
  pose proof (cd_frames _ _ _ _ _ _ _ _ _ _ _ _ _ _ _ Hcd) as Hin0. destruct Hcd as [Hgr Hb Hcs Hpg Hrest Hcore Hgl Hfr].
  pose proof (bd_frames _ _ _ _ _ _ _ _ _ _ _ _ Hb) as Hf. rewrite Forall_forall in Hf.
  assert (Hch : forall a, child_byte A B a -> ~ in_frames frames0 a).
  { intros a [Hs _] (p & Hp & Ha). destruct (Hf p (Hin0 p Hp)) as [_ HF]. destruct (heap_apart s0 F0 A Hheap0 a Hs) as [Hn _]. by apply Hn, HF. }
  split; [done| | | |done| |by destruct Hregs as [-> _]|done].
  - apply (bd_write s0 F0 A B Hheap0 Hfits Hgr X s F pt E T frames n); [done|done|].
    eapply modifies_weaken; [|exact Hm]. intros a (p & Hp & Ha). right. exists p. split; [by apply Hin0|done].
  - apply (cs_keep s s' B B l secs Hcs (grows_refl B)). apply (keeps_modifies _ _ _ _ Hm). intros a Ha.
    by apply Hch, (section_child B s l secs Hgr Hcs).
  - clear Hrest Hfr. induction Hpg as [|r ps rs pss [Hlen H1] _ IH]; constructor; [|by inversion Hnew; apply IH].
    apply Forall_cons in Hnew as [Hn0 _]. split; [done|]. intros j c p Hfj Hpj. destruct (H1 j c p Hfj Hpj) as (Hin & He & Hc).
    split; [done|]. split; [done|]. intros i Hi. rewrite <-Hc by done. apply Hm. intros (q & Hq & Ha).
    destruct (Hf p Hin) as [[Hgp _] _]. destruct (Hf q (Hin0 q Hq)) as [[Hgq _] _]. apply (Hn0 p); [by apply list_elem_of_lookup_2 with j|].
    assert (p = q) as ->; [|done]. apply (frames_apart p q (p + i)); [done|done|lia|lia].
  - eapply keeps_trans; [exact Hcore|]. apply (keeps_modifies _ _ _ _ Hm). intros a [Ha _]%(pl_core P).
    by apply Hch, (struct_child s0 F0 A B Hheap0 Hfits Hgr).
Qed.

Lemma frame_step s1 pt E0 frames0 rs secs s s' B F T E frames l pss n tf :
  filled s1 pt E0 frames0 rs secs s B F T E frames l pss n -> tf ∈ frames0 -> same_regs s s' ->
  modifies (fun a => tf <= a < tf + PGSIZE) (mem s) (mem s') ->
  filled s1 pt E0 frames0 rs secs s' B F T E frames l pss n.
Proof using Hheap0 Hfits HwOk.
  intros Hcd Htf Hregs Hm. apply (frames_step _ _ _ _ _ _ s); [done|done|]. eapply modifies_weaken; [|exact Hm].
  intros a Ha. by exists tf.
Qed.

End Filling.

End Child.

(** ** Putting the task into the queues *)

Section Queues.
Context `{Hw : Platform} {HwOk : PlatformOk Hw} {Ops : PageOps} {HA : PageAllocator Ops}.
Context (s0 : state) (F0 : Z -> Prop) (A : arena).
Hypothesis Hheap0 : heap_rep s0 F0 (Some A).
Hypothesis Hfits : fits (Some A) sizeof_task_struct.

Abbreviation t := (new_address A).
Abbreviation grown B := (grows (arena_alloc A sizeof_task_struct) B).

Lemma building_weaken B (X X' : Z -> Prop) s F pt E T frames n : (forall a, X a -> X' a) ->
  building s0 F0 A B X s F pt E T frames n -> building s0 F0 A B X' s F pt E T frames n.
Proof.
  intros HX [? Hmo ? ? ? ? ? ? ?]. split; [done| |done..]. eapply modifies_weaken; [|exact Hmo].
  intros a [?|?]; [by left|right; auto].
Qed.

Lemma filled_weaken {C} {P : plan A C} (X X' : Z -> Prop) s1 pt E0 frames0 rs secs s B F T E frames l pss n : (forall a, X a -> X' a) ->
  filled s0 F0 A X (P:=P) s1 pt E0 frames0 rs secs s B F T E frames l pss n ->
  filled s0 F0 A X' (P:=P) s1 pt E0 frames0 rs secs s B F T E frames l pss n.
Proof. intros HX [? Hb ? ? ? ? ? ?]. split; [done| |done..]. by eapply building_weaken. Qed.

(** A list outside the memory of the child: its header and its nodes. *)
Definition list_byte (L : Z) (l : list (Z * Z)) (a : Z) : Prop := L <= a < L + sizeof_list \/ cells l.*1 a.

Lemma list_keep m m' L l : list_rep m L l -> keeps (list_byte L l) m m' -> list_rep m' L l.
Proof.
  intros Hrep Hk. apply (rep_frame _ _ _ Hrep).
  - intros a Ha. apply Hk. by left.
  - intros x a Hx Ha. apply Hk. right. by exists x.
Qed.

Lemma touch_byte L l a : list_touch L l.*1 a -> list_byte L l a.
Proof. intros [Ha|(x & Hx & Ha)]; [by left|right; exists x; split; [done|lia]]. Qed.

Context (X : Z -> Prop).
Hypothesis HX : forall a, X a -> ~ heap_touch F0 (Some A) a.

Lemma bd_extern B s s' F pt E T frames n : grown B -> building s0 F0 A B X s F pt E T frames n -> same_regs s s' ->
  modifies (fun a => X a \/ child_byte A B a) (mem s) (mem s') -> building s0 F0 A B X s' F pt E T frames n.
Proof using Hheap0 Hfits HX HwOk.
  intros Hgr Hb Hregs Hm. pose proof Hb as [Hr Hmo Hh Hs Hv Ht Hf Hnd Hc].
  assert (Hkeep : forall a, vm_bytes F T a -> rd8 (mem s') a = rd8 (mem s) a).
  { intros a Ha. destruct (bd_bytes s0 F0 A B Hheap0 Hfits Hgr X s F pt E T frames n Hb a Ha) as (Hto & Hn & _).
    apply Hm. intros [Hx|Hch]; [by apply (HX a)|done]. }
  pose proof Hv as (_ & Hp & _).
  assert (Hp' : pool_owns (mem s') F).
  { apply (pool_owns_frame _ _ _ Hp). intros a [?|?]; apply Hkeep; [by left|by right; left]. }
  split; [by eapply same_but_pid_step| | |done| |done|done|done|done].
  - eapply modifies_trans; [exact Hmo|]. eapply modifies_weaken; [|exact Hm]. intros a [Ha|[Ha _]]; [by right|left; by right; right].
  - apply (heap_keep s s' F F); [done|done| |done|done]. intros a Ha. apply Hm. intros [Hx|[_ Hd]].
    + apply (HX a Hx). right. right. by apply (heap_spare A B Hgr).
    + by apply Ha.
  - apply (vm_at_frame s s' F); [done| | |done].
    + intros a Ha. apply Hkeep. by right; right.
    + intros a Ha. by destruct (vm_table_apart _ _ _ _ _ _ Hv Ha).
Qed.

Lemma cd_extern {C} {P : plan A C} s1 pt E0 frames0 rs secs s s' B B' F T E frames l pss n :
  filled s0 F0 A X (P:=P) s1 pt E0 frames0 rs secs s B F T E frames l pss n -> grows B B' ->
  building s0 F0 A B' X s' F pt E T frames n -> glob s' = glob s ->
  modifies (fun a => X a \/ spare B a) (mem s) (mem s') ->
  filled s0 F0 A X (P:=P) s1 pt E0 frames0 rs secs s' B' F T E frames l pss n.
Proof using Hheap0 Hfits HX HwOk.
  intros [Hgr Hb Hcs Hpg Hrest Hcore Hgl Hfr] HBB Hb' Hg Hm.
  assert (Hkeep : keeps (fun a => heap_touch F0 (Some A) a /\ ~ spare B a) (mem s) (mem s')).
  { apply (keeps_modifies _ _ _ _ Hm). intros a [Ht Hn] [Hx|Hs]; [by apply (HX a)|done]. }
  assert (Hch : forall a, child_byte A B a -> heap_touch F0 (Some A) a /\ ~ spare B a).
  { intros a [Hs Hd]. split; [right; by right|]. by intros [_ ?]. }
  split; [by eapply grows_trans|done| | |done| |by rewrite Hg|done].
  - apply (cs_keep A s s' B B' l secs Hcs HBB). intros a Ha. apply Hkeep, Hch. by apply (section_child s0 F0 A Hheap0 Hfits B s l secs).
  - apply (cd_pages_keep A (mem s) _ E _ frames _ _ _ Hpg); [|done..]. intros a (p & Hp & Ha). apply Hkeep.
    pose proof (bd_frames _ _ _ _ _ _ _ _ _ _ _ _ Hb) as Hf. rewrite Forall_forall in Hf.
    destruct (Hf p Hp) as [_ HF]. specialize (HF a Ha). split; [right; by left|]. intros Hs.
    by destruct (heap_apart s0 F0 A Hheap0 a (heap_spare A B Hgr a Hs)).
  - eapply keeps_trans; [exact Hcore|]. intros a [Ha _]%(pl_core A P). apply Hkeep, Hch. by apply (struct_child s0 F0 A B Hheap0 Hfits Hgr).
Qed.

(** Appending the task to a list. *)
Lemma queue_ok {C D} {P : plan A D} s1 pt E0 frames0 rs secs s B F T E frames l pss n L lq m (k : M C) Q :
  filled s0 F0 A X (P:=P) s1 pt E0 frames0 rs secs s B F T E frames l pss n ->
  list_rep (mem s) L lq -> (forall a, list_touch L lq.*1 a -> X a) -> (forall a, list_byte L lq a -> ~ heap_touch F0 (Some A) a) ->
  0 <= m -> room B (32 + m) ->
  (forall s' x, let B' := arena_alloc B sizeof_node in
    filled s0 F0 A X (P:=P) s1 pt E0 frames0 rs secs s' B' F T E frames l pss n -> room B' m ->
    list_rep (mem s') L (lq ++ [(x, t)]) -> (forall a, x <= a < x + 16 -> spare B a /\ data (a_live B') a) -> modifies (fun a => list_touch L lq.*1 a \/ spare B a) (mem s) (mem s') ->
    wp k Q s') ->
  wp (node ← make_single_linked_list_node t; push_tail L node;; k) Q s.
Proof using Hheap0 Hfits HX HwOk.
  intros Hcd Hrep HLX HLh Hm Hroom HQ. pose proof Hcd as [Hgr Hb _ _ _ _ _ _].
  destruct (room_alloc B sizeof_node m Hm Hroom) as [Hfit Hroom']. destruct (struct_ram s0 F0 A B Hheap0 Hfits Hgr) as [Hr1 Hr2].
  assert (Ht : 0 <= t < 2 ^ 64) by (unfold PHYSTOP, KERNBASE, sizeof_task_struct in *; lia).
  wp_step. eapply wp_mono; [exact (make_node_ok s0 F0 A X Hheap0 Hfits B s F pt E T frames n t Hgr Hb Hfit Ht)|].
  intros x s2 (Hb2 & Hg2 & Hm2 & Hx & Hxs & Hx1 & Hx2). unfold sizeof_node in Hxs, Hx2.
  set (B' := arena_alloc B sizeof_node) in *. assert (HBB : grows B B') by apply grows_alloc.
  assert (Hgr' : grown B') by (by eapply grows_trans).
  assert (Hsh : forall a, spare B a -> heap_touch F0 (Some A) a) by (intros a Ha; right; right; by apply (heap_spare A B Hgr)).
  assert (Hrep2 : list_rep (mem s2) L lq).
  { apply (rep_frame _ _ _ Hrep).
    - intros a Ha. apply Hm2. intros Hs. apply (HLh a); [by left|auto].
    - intros y a Hy Ha. apply Hm2. intros Hs. apply (HLh a); [right; by exists y|auto]. }
  assert (Hfresh : node_fresh L lq.*1 x).
  { split; [done|]. split; [done|]. split.
    - apply sep_apart; [done..|]. intros a Ha Hxa. apply (HLh a); [by left|]. by apply Hsh, Hxs.
    - intros y Hy. apply sep_apart; [done..|]. intros a Ha Hya. apply (HLh a); [right; by exists y|]. by apply Hsh, Hxs. }
  wp_step. eapply wp_mono; [exact (push_tail_ok L lq x s2 Hrep2 Hfresh)|].
  rewrite Hx. intros r s3 (-> & -> & Hrep3 & Hm3).
  assert (Hm3' : modifies (fun a => list_touch L lq.*1 a \/ x <= a < x + 16) (mem s2) (mem s3)).
  { eapply modifies_weaken; [|exact Hm3]. intros a [Ha|(y & [Hy| ->%list_elem_of_singleton]%elem_of_app & Ha)].
    - left. by left.
    - left. right. by exists y.
    - right. lia. }
  assert (Hmall : modifies (fun a => list_touch L lq.*1 a \/ spare B a) (mem s) (mem s3)).
  { eapply modifies_trans; (eapply modifies_weaken; [|eassumption]); intros a; [by right|].
    intros [?|Ha]; [by left|right]. by apply Hxs. }
  apply (HQ (set_mem (mem s3) s2) x); [|done|exact Hrep3|exact Hxs|exact Hmall].
  apply (cd_extern s1 pt E0 frames0 rs secs s _ B B' F T E frames l pss n Hcd HBB); [| |].
  - apply (bd_extern B' s2 _ F pt E T frames n Hgr' Hb2 (same_regs_set_mem _ _)).
    eapply modifies_weaken; [|exact Hm3']. intros a [Ha|Ha]; [left; by apply HLX|right].
    destruct (Hxs a Ha) as [Hs Hd]. split; [by apply (heap_spare A B Hgr)|done].
  - done.
  - eapply modifies_weaken; [|exact Hmall]. intros a [Ha|Ha]; [left; by apply HLX|by right].
Qed.

(** What belongs to the task stays when the queues are written. *)
Lemma extern_own {C} {P : plan A C} s1 pt E0 frames0 rs secs s B F T E frames l pss n m' :
  filled s0 F0 A X (P:=P) s1 pt E0 frames0 rs secs s B F T E frames l pss n ->
  modifies (fun a => X a \/ spare B a) (mem s) m' -> keeps (own_byte A frames) (mem s) m'.
Proof using Hheap0 Hfits HX HwOk.
  intros [Hgr Hb _ _ _ _ _ _] Hm. apply (keeps_modifies _ _ _ _ Hm). intros a [[Hst _]|(p & Hp & Ha)].
  - destruct (struct_spare s0 F0 A B Hheap0 Hfits Hgr a Hst) as [Hs Hd]. intros [Hx|Hs'].
    + apply (HX a Hx). right. by right.
    + by destruct Hs'.
  - destruct (proj1 (Forall_forall _ _) (bd_frames _ _ _ _ _ _ _ _ _ _ _ _ Hb) p Hp) as [_ HF]. specialize (HF a Ha). intros [Hx|Hs].
    + apply (HX a Hx). right. by left.
    + by destruct (heap_apart s0 F0 A Hheap0 a (heap_spare A B Hgr a Hs)).
Qed.

End Queues.

Section TwoQueues.
Context `{Hw : Platform} {HwOk : PlatformOk Hw} {Ops : PageOps} {HA : PageAllocator Ops}.
Context (s0 : state) (F0 : Z -> Prop) (A : arena).
Hypothesis Hheap0 : heap_rep s0 F0 (Some A).
Hypothesis Hfits : fits (Some A) sizeof_task_struct.

Abbreviation t := (new_address A).

(** Both queues, at [L1] and [L2], that the globals [g1] and [g2] point to. *)
Lemma two_queues_ok {C D} {P : plan A D} (X : Z -> Prop) s1 pt E0 frames0 rs secs s B F T E frames l pss n
    g1 g2 L1 L2 l1 l2 (k : M C) Q :
  filled s0 F0 A X (P:=P) s1 pt E0 frames0 rs secs s B F T E frames l pss n ->
  glob s1 g1 = L1 -> glob s1 g2 = L2 -> (forall a, X a -> False) ->
  list_rep (mem s0) L1 l1 -> list_rep (mem s0) L2 l2 ->
  (forall a, list_byte L1 l1 a \/ list_byte L2 l2 a -> ~ heap_touch F0 (Some A) a) ->
  (forall a, list_byte L1 l1 a -> ~ list_byte L2 l2 a) -> room B 64 ->
  (forall s' B' x1 x2,
    filled s0 F0 A (fun a => X a \/ list_touch L1 l1.*1 a \/ list_touch L2 l2.*1 a) (P:=P) s1 pt E0 frames0 rs secs s' B' F T E frames l pss n ->
    list_rep (mem s') L1 (l1 ++ [(x1, t)]) -> list_rep (mem s') L2 (l2 ++ [(x2, t)]) ->
    keeps (own_byte A frames) (mem s) (mem s') ->
    (forall a, x1 <= a < x1 + 16 \/ x2 <= a < x2 + 16 -> spare B a) -> wp k Q s') ->
  wp (q ← get g1; node ← make_single_linked_list_node t; push_tail q node;;
      q ← get g2; node ← make_single_linked_list_node t; push_tail q node;; k) Q s.
Proof using Hheap0 Hfits HwOk.
  intros Hcd Hg1 Hg2 HX0 Hrep1 Hrep2 Hq Hap Hroom HQ.
  set (X' := fun a => X a \/ list_touch L1 l1.*1 a \/ list_touch L2 l2.*1 a) in *.
  assert (HX : forall a, X' a -> ~ heap_touch F0 (Some A) a).
  { intros a [Ha|[Ha%touch_byte|Ha%touch_byte]]; [by destruct (HX0 a)|apply Hq; by left|apply Hq; by right]. }
  assert (H3 : keeps (fun a => list_byte L1 l1 a \/ list_byte L2 l2 a) (mem s0) (mem s)).
  { apply (keeps_modifies _ _ _ _ (bd_mod _ _ _ _ _ _ _ _ _ _ _ _ (cd_building _ _ _ _ _ _ _ _ _ _ _ _ _ _ _ _ _ _ _ Hcd))).
    intros a Ha [Ht|Hx]; [by apply (Hq a)|by apply (HX0 a)]. }
  pose proof (filled_weaken s0 F0 A X X' _ _ _ _ _ _ _ _ _ _ _ _ _ _ _ (fun a H => or_introl H) Hcd) as Hcd3.
  pose proof (cd_glob _ _ _ _ _ _ _ _ _ _ _ _ _ _ _ _ _ _ _ Hcd) as Hg.
  assert (Hsp : forall C a, grows (arena_alloc A sizeof_task_struct) C -> spare C a -> heap_touch F0 (Some A) a).
  { intros C' a Hgr Ha. right. right. by apply (heap_spare A C' Hgr). }
  wp_step. wp_step. rewrite Hg, Hg1.
  apply (queue_ok s0 F0 A Hheap0 Hfits _ HX s1 pt E0 frames0 rs secs s B F T E frames l pss n _ l1 32 _ _ Hcd3).
  { apply (list_keep (mem s0)); [done|]. intros a Ha. apply H3. by left. }
  { intros a Ha. right. by left. } { intros a Ha. apply Hq. by left. } { done. } { exact Hroom. }
  intros s4 x1 B1 Hcd4 Hroom4 Hrt4 Hx1 Hm4. wp_step. wp_step.
  rewrite (cd_glob _ _ _ _ _ _ _ _ _ _ _ _ _ _ _ _ _ _ _ Hcd4), Hg2.
  pose proof (cd_grown _ _ _ _ _ _ _ _ _ _ _ _ _ _ _ _ _ _ _ Hcd3) as Hgr.
  pose proof (cd_grown _ _ _ _ _ _ _ _ _ _ _ _ _ _ _ _ _ _ _ Hcd4) as Hgr1.
  apply (queue_ok s0 F0 A Hheap0 Hfits _ HX s1 pt E0 frames0 rs secs s4 B1 F T E frames l pss n _ l2 0 _ _ Hcd4).
  { apply (list_keep (mem s0)); [done|].
    eapply keeps_trans; [intros a Ha; apply H3; by right|]. apply (keeps_modifies _ _ _ _ Hm4). intros a Ha [Ht|Ht].
    - exact (Hap a (touch_byte _ _ _ Ht) Ha).
    - apply (Hq a); [by right|exact (Hsp B a Hgr Ht)]. }
  { intros a Ha. by right; right. } { intros a Ha. apply Hq. by right. } { done. } { exact Hroom4. }
  intros s5 x2 B2 Hcd5 _ Hat5 Hx2 Hm5. apply (HQ s5 B2 x1 x2 Hcd5); [|exact Hat5| |].
  - apply (list_keep (mem s4)); [done|]. apply (keeps_modifies _ _ _ _ Hm5). intros a Ha.
    assert (Hcase : list_byte L1 l1 a \/ x1 <= a < x1 + 16).
    { destruct Ha as [Ha|Ha]; [left; by left|]. rewrite fmap_app in Ha. apply cells_snoc in Ha as [Ha|Ha]; [left; by right|by right]. }
    intros [Ht%touch_byte|Ht]; destruct Hcase as [Hc|Hc].
    + by apply (Hap a).
    + apply (Hq a); [by right|]. apply (Hsp B a Hgr). by apply Hx1.
    + apply (Hq a); [by left|exact (Hsp B1 a Hgr1 Ht)].
    + destruct (Hx1 a Hc) as [_ Hd]. by destruct Ht.
  - apply (extern_own s0 F0 A Hheap0 Hfits X' HX _ _ _ _ _ _ _ _ _ _ _ _ _ _ _ _ Hcd3).
    eapply modifies_trans; (eapply modifies_weaken; [|eassumption]); intros a [Ha|Ha].
    + left. right. by left.
    + by right.
    + left. by right; right.
    + right. apply (grows_spare B B1 a); [apply grows_alloc|done].
  - intros a [Ha%Hx1|Ha%Hx2]; [apply Ha|]. apply (grows_spare B B1 a); [apply grows_alloc|apply Ha].
Qed.

End TwoQueues.

(** ** More pages for the task

    Frames beside the sections: the stack, the arguments of the program. *)

Section Steps.
Context `{Hw : Platform} {HwOk : PlatformOk Hw} {Ops : PageOps} {HA : PageAllocator Ops}.
Context (s0 : state) (F0 : Z -> Prop) (A : arena) (X : Z -> Prop).
Hypothesis Hheap0 : heap_rep s0 F0 (Some A).
Hypothesis Hfits : fits (Some A) sizeof_task_struct.

Abbreviation t := (new_address A).

Section Plan.
Context {C : Type} {P : plan A C}.
Abbreviation filled := (filled s0 F0 A X (P:=P)).

Context (s1 : state) (pt : Z) (E0 : Z -> Z) (frames0 : list Z) (rs : list (Z * list C)) (secs : list (Z * Z)).
Context (s : state) (B : arena) (F : Z -> Prop) (T : tables) (E : Z -> Z) (frames : list Z) (l : list (Z * Z))
  (pss : list (list Z)) (n : nat).
Hypothesis Hcd : filled s1 pt E0 frames0 rs secs s B F T E frames l pss n.

(** The page table code and the page allocator leave the task's bytes alone. *)
Lemma vm_keeps m' : modifies (vm_bytes F T) (mem s) m' ->
  keeps (fun a => child_byte A B a \/ in_frames frames a) (mem s) m'.
Proof using Hheap0 Hfits HwOk Hcd.
  intros Hm. pose proof Hcd as [Hgr Hb _ _ _ _ _ _]. apply (keeps_modifies _ _ _ _ Hm). intros a [Ha|(p & Hp & Ha)] Hv.
  - by destruct (bd_bytes s0 F0 A B Hheap0 Hfits Hgr X s F pt E T frames _ Hb a Hv) as (_ & ? & _).
  - destruct (proj1 (Forall_forall _ _) (bd_frames _ _ _ _ _ _ _ _ _ _ _ _ Hb) p Hp) as [[_ Hn] _]. by apply (Hn a).
Qed.

Lemma vm_own m' : modifies (vm_bytes F T) (mem s) m' -> keeps (own_byte A frames) (mem s) m'.
Proof using Hheap0 Hfits HwOk Hcd.
  intros Hm a Ha. apply (vm_keeps m' Hm). destruct Ha as [[Ha _]|Ha]; [left|by right].
  by apply (struct_child s0 F0 A B Hheap0 Hfits (cd_grown _ _ _ _ _ _ _ _ _ _ _ _ _ _ _ _ _ _ _ Hcd)).
Qed.

(** Pages and frames that do not belong to a range. *)
Lemma vm_step s' F' T' E' ps k : glob s' = glob s -> modifies (vm_bytes F T) (mem s) (mem s') ->
  building s0 F0 A B X s' F' pt E' T' (ps ++ frames) k -> (forall i, i ∈ pages rs -> E' i = E i) ->
  forall E0', (forall i, i ∉ pages rs -> E' i = E0' i) ->
  filled s1 pt E0' (ps ++ frames0) rs secs s' B F' T' E' (ps ++ frames) l pss k.
Proof using Hheap0 Hfits HwOk Hcd.
  intros Hg Hm Hb' HE E0' HE0. pose proof (vm_keeps _ Hm) as Hk. pose proof Hcd as [Hgr Hb Hcs Hpg Hrest Hcore Hgl Hfr].
  split; [done|done| | |done| |by rewrite Hg|].
  - apply (cs_keep A s s' B B l secs Hcs (grows_refl B)). intros a Ha. apply Hk. left. by apply (section_child s0 F0 A Hheap0 Hfits B s l secs).
  - apply (cd_pages_keep A (mem s) _ E _ frames _ _ _ Hpg); [intros a Ha; apply Hk; by right|done|].
    intros p Hp. apply elem_of_app. by right.
  - eapply keeps_trans; [exact Hcore|]. intros a [Ha _]%(pl_core A P). apply Hk. left. by apply (struct_child s0 F0 A B Hheap0 Hfits Hgr).
  - rewrite Hfr. solve_Permutation.
Qed.

Lemma block_step (o : Z) (k : nat) : 0 <= o <= 1 -> n = S k ->
  wp (allocate_for_user o) (fun p s' => p <> NULL /\ good_block kernel_end PHYSTOP o p /\
    keeps (own_byte A frames) (mem s) (mem s') /\ (forall a, p <= a < p + bsz o -> rd8 (mem s') a = 0) /\
    filled s1 pt E0 (frames_of o p ++ frames0) rs secs s' B (without F o p) T E (frames_of o p ++ frames) l pss k) s.
Proof using Hheap0 Hfits HwOk Hcd.
  intros Ho Hn. pose proof Hcd as [Hgr Hb _ _ Hrest _ _ _].
  eapply wp_mono; [exact (bd_take_block s0 F0 A B Hheap0 Hfits Hgr X s F pt E T frames n o k Ho Hb Hn)|].
  intros p s' (Hne & Hg & Hb' & [Hregs _] & Hm & Hz). split; [done|]. split; [done|]. split; [by apply vm_own|]. split; [done|].
  by apply (vm_step s' _ T E _ k Hregs Hm Hb').
Qed.

Lemma map_step va pa permission (k : nat) : n = (k + 3)%nat -> 0 <= va < MAXVA -> 0 <= pa < 2 ^ 56 -> 0 <= permission < 1024 ->
  valid (E (va / PGSIZE)) = false -> va / PGSIZE ∉ pages rs ->
  let new := <[va / PGSIZE := leaf (PGROUNDDOWN pa) permission]> in
  wp (map_page pt va pa permission) (fun r s' => r = 0 /\ keeps (own_byte A frames) (mem s) (mem s') /\
    exists F' T', filled s1 pt (new E0) frames0 rs secs s' B F' T' (new E) frames l pss (k + 1)) s.
Proof using Hheap0 Hfits HwOk Hcd.
  intros Hn Hva Hpa Hperm Hinv Hnew new. pose proof Hcd as [Hgr Hb _ _ Hrest _ _ _].
  eapply wp_mono; [exact (bd_map s0 F0 A B Hheap0 Hfits Hgr X s F pt E T frames n va pa permission k Hb Hn Hva Hpa Hperm Hinv)|].
  intros r s' (-> & [Hregs _] & Hm & F' & T' & Hb'). split; [done|]. split; [by apply vm_own|]. exists F', T'.
  apply (vm_step s' F' T' (new E) [] _ Hregs Hm Hb').
  - intros i Hi. unfold new. rewrite fn_lookup_insert_ne; [done|]. by intros <-.
  - intros i Hi. unfold new. destruct (decide (i = va / PGSIZE)) as [->|Hne]; [by rewrite !fn_lookup_insert|].
    rewrite !fn_lookup_insert_ne by done. by apply Hrest.
Qed.

End Plan.

(** Words of the task structure. *)
Lemma fields_own frames m m' fl : fields m t fl -> within sizeof_task_struct fl = true ->
  clear_of t_mem_sections sizeof_list fl = true -> keeps (own_byte A frames) m m' -> fields m' t fl.
Proof.
  unfold fields, within. rewrite !Forall_forall, forallb_forall. intros Hl Hwi Hc Hk f Hf. rewrite <-(Hl f Hf).
  pose proof (clear_of_spec _ _ _ _ Hc Hf). apply list_elem_of_In, Hwi, andb_true_iff in Hf as [H1%Z.leb_le H2%Z.leb_le].
  apply (keeps_rd _ _ _ _ _ Hk). intros b Hb. left. unfold struct_byte. lia.
Qed.

Context {C : Type} {P : plan A C}.
Abbreviation filled := (filled s0 F0 A X (P:=P)).

Lemma frames_struct s1 pt E0 frames0 rs secs s B F T E frames l pss n m' :
  filled s1 pt E0 frames0 rs secs s B F T E frames l pss n -> modifies (in_frames frames) (mem s) m' -> keeps (struct_byte A) (mem s) m'.
Proof using Hheap0 Hfits HwOk.
  intros [Hgr Hb _ _ _ _ _ _] Hm. apply (keeps_modifies _ _ _ _ Hm). intros a Ha (p & Hp & Hpa).
  destruct (struct_apart s0 F0 A B Hheap0 Hfits Hgr a Ha) as [Hn _]. apply Hn.
  by apply (proj1 (Forall_forall _ _) (bd_frames _ _ _ _ _ _ _ _ _ _ _ _ Hb) p Hp).
Qed.

(** ** The stack *)

Definition stack_page : Z := (SHARED_MEMORY - PGSIZE) / PGSIZE.
Definition stack_fields : list (Z * nat * Z) :=
  [(t_stack + ms_size, 8%nat, PGSIZE); (t_stack + ms_start, 8%nat, SHARED_MEMORY - PGSIZE)].

Lemma set_stack_ok s1 pt E0 frames0 rs secs s B F T E frames l pss n k tf perm fl :
  filled s1 pt E0 frames0 rs secs s B F T E frames l pss n -> n = (k + 4)%nat ->
  fields (mem s) t fl -> within sizeof_task_struct fl = true -> clear_of t_stack sizeof_memory_section fl = true ->
  clear_of t_mem_sections sizeof_list fl = true ->
  (t_trap_frame, 8%nat, tf) ∈ fl -> (t_pagetable, 8%nat, pt) ∈ fl -> (t_stack_permission, 8%nat, perm) ∈ fl ->
  0 <= perm < 1024 -> tf ∈ frames0 -> valid (E stack_page) = false -> stack_page ∉ pages rs ->
  wp (set_stack t) (fun r s' => r = 0 /\ fields (mem s') t (stack_fields ++ fl) /\ rd64 (mem s') (tf + tf_sp) = SHARED_MEMORY /\
    keeps (fun a => own_byte A frames a /\ ~ (t + t_stack <= a < t + t_stack + sizeof_memory_section) /\
      ~ (tf + tf_sp <= a < tf + tf_sp + 8)) (mem s) (mem s') /\
    exists p F' T', good_block kernel_end PHYSTOP 0 p /\ (forall a, p <= a < p + PGSIZE -> rd8 (mem s') a = 0) /\
    let new := <[stack_page := leaf (PGROUNDDOWN p) perm]> in
    filled s1 pt (new E0) (p :: frames0) rs secs s' B F' T' (new E) (p :: frames) l pss (k + 1)) s.
Proof using Hheap0 Hfits HwOk.
  intros Hcd -> Hl Hwi Hc Hcm Htf Hpt Hperm Hpr Hin Hinv Hnp. pose proof (cd_grown _ _ _ _ _ _ _ _ _ _ _ _ _ _ _ _ _ _ _ Hcd) as Hgr.
  destruct (struct_ram s0 F0 A B Hheap0 Hfits Hgr) as [Ht1 Ht2].
  unfold set_stack. wp_step. eapply wp_mono; [apply (block_step _ _ _ _ _ _ _ _ _ _ _ _ _ _ _ Hcd 0 (k + 3)); [done|lia]|].
  intros p s2 (Hne & Hgp & Hk2 & Hz2 & Hcd2). change (frames_of 0 p ++ ?x) with (p :: x) in Hcd2.
  rewrite (proj2 (Z.eqb_neq p NULL) Hne). pose proof (fields_own _ _ _ _ Hl Hwi Hcm Hk2) as Hl2.
  wp_step. wp_task. wp_step. wp_task. cbn [mem set_mem].
  set (m3 := wr64 (wr64 (mem s2) (t + t_stack + ms_start) (SHARED_MEMORY - PGSIZE)) (t + t_stack + ms_size) PGSIZE). set (s3 := set_mem m3 s2).
  match goal with |- wp _ _ ?s' => change s' with s3 end.
  assert (Hm3 : modifies (fun a => t + t_stack <= a < t + t_stack + sizeof_memory_section) (mem s2) (mem s3)).
  { unfold s3, m3, sizeof_memory_section, ms_start, ms_size. eapply modifies_trans; apply modifies_wr; lia. }
  assert (Hl3 : fields (mem s3) t (stack_fields ++ fl)).
  { unfold stack_fields. simpl app. apply (fields_write _ t _ (t_stack + ms_size)); [unfold ms_size; lia| |by apply (clear_of_sub _ _ _ _ _ Hc)|done].
    apply (fields_write _ t _ (t_stack + ms_start)); [unfold ms_start; lia|done|by apply (clear_of_sub _ _ _ _ _ Hc)|done]. }
  assert (Hin3 : forall f, f ∈ fl -> f ∈ stack_fields ++ fl) by (intros f Hf; apply elem_of_app; by right).
  assert (Hcd3 : filled s1 pt E0 (p :: frames0) rs secs s3 B (without F 0 p) T E (p :: frames) l pss (k + 3)).
  { apply (struct_step s0 F0 A X Hheap0 Hfits _ _ _ _ _ _ _ s2 s3 _ _ _ _ _ _ _ _ Hcd2 (same_regs_set_mem _ _)) with (2 := Hm3).
    intros a Ha. split; [unfold struct_byte, sizeof_memory_section in *; task_unfold; lia|]. split.
    - unfold sizeof_list, sizeof_memory_section in *. task_unfold. lia.
    - intros (_ & _ & Hn)%(pl_core A P). by apply Hn. }
  wp_step. apply (load_field s0 F0 A B Hheap0 Hfits Hgr s3 _ t_trap_frame 8 tf _ Hl3 (Hin3 _ Htf)); [done..|].
  set (s4 := set_mem (wr64 (mem s3) (tf + tf_sp) SHARED_MEMORY) s3).
  pose proof (bd_frame s0 F0 A B X _ _ _ _ _ _ _ tf (cd_building _ _ _ _ _ _ _ _ _ _ _ _ _ _ _ _ _ _ _ Hcd3)) as Hgt.
  specialize (Hgt (cd_frames _ _ _ _ _ _ _ _ _ _ _ _ _ _ _ _ _ _ _ Hcd3 tf ltac:(by right))).
  destruct (frame_range tf Hgt) as (Hf1 & Hf2 & Hf3).
  assert (Hm4 : modifies (fun a => tf + tf_sp <= a < tf + tf_sp + 8) (mem s3) (mem s4)) by (apply modifies_wr; lia).
  assert (Hm4' : modifies (fun a => tf <= a < tf + PGSIZE) (mem s3) (mem s4)).
  { eapply modifies_weaken; [|exact Hm4]. unfold PGSIZE. task_unfold. lia. }
  pose proof (frame_step s0 F0 A X Hheap0 Hfits _ _ _ _ _ _ _ s4 _ _ _ _ _ _ _ _ tf Hcd3 ltac:(by right) (same_regs_set_mem _ _) Hm4') as Hcd4.
  assert (Hl4 : fields (mem s4) t (stack_fields ++ fl)).
  { apply (fields_out (mem s3) _ _ sizeof_task_struct _ Hl3); [exact Hwi|]. apply (frames_struct _ _ _ _ _ _ _ _ _ _ _ _ _ _ _ _ Hcd3).
    eapply modifies_weaken; [|exact Hm4']. intros a Ha. exists tf. split; [|done]. apply (cd_frames _ _ _ _ _ _ _ _ _ _ _ _ _ _ _ _ _ _ _ Hcd3). by right. }
  wp_step. apply wp_store; [apply in_ram_true; unfold ram_range, PGSIZE in Hf3; task_unfold; lia|]. fold s4.
  wp_step. apply (load_field s0 F0 A B Hheap0 Hfits Hgr s4 _ t_pagetable 8 pt _ Hl4 (Hin3 _ Hpt)); [done..|].
  wp_step. apply (load_field s0 F0 A B Hheap0 Hfits Hgr s4 _ t_stack_permission 8 perm _ Hl4 (Hin3 _ Hperm)); [done..|].
  destruct (frame_bits p Hgp) as [Hp56 _].
  wp_step. eapply wp_mono.
  { apply (map_step _ _ _ _ _ _ _ _ _ _ _ _ _ _ _ Hcd4 (SHARED_MEMORY - PGSIZE) p perm k); [done|done|done|done|exact Hinv|exact Hnp]. }
  intros r s5 (-> & Hk5 & F5 & T5 & Hcd5). change (negb (0 =? 0)) with false. cbv iota. wp_step.
  split; [done|]. split; [apply (fields_own (p :: frames) (mem s4)); [done|exact Hwi|exact Hcm|exact Hk5]|]. split; [|split].
  - rewrite <-(rd64_wr64_same (mem s3) (tf + tf_sp) SHARED_MEMORY) by done. apply (keeps_rd _ _ _ _ _ Hk5). intros b Hb. right. exists tf.
    split; [apply (cd_frames _ _ _ _ _ _ _ _ _ _ _ _ _ _ _ _ _ _ _ Hcd3); by right|unfold PGSIZE; task_unfold; lia].
  - intros a (Ho & Hns & Hnt). assert (Ho' : own_byte A (p :: frames) a).
    { destruct Ho as [Ho|(q & Hq & Ho)]; [by left|right]. exists q. split; [by right|done]. }
    rewrite (Hk5 a Ho'), (Hm4 a Hnt), (Hm3 a Hns). by apply Hk2.
  - exists p, F5, T5. split; [done|]. split; [|exact Hcd5]. intros a Ha. rewrite Hk5 by (right; exists p; split; [by left|done]).
    pose proof (bd_nodup _ _ _ _ _ _ _ _ _ _ _ _ (cd_building _ _ _ _ _ _ _ _ _ _ _ _ _ _ _ _ _ _ _ Hcd2)) as Hnd.
    apply NoDup_cons in Hnd as [Hnin _]. pose proof (cd_frames _ _ _ _ _ _ _ _ _ _ _ _ _ _ _ _ _ _ _ Hcd tf Hin) as Htfin.
    rewrite (Hm4' a), (Hm3 a).
    + apply Hz2. change (bsz 0) with PGSIZE. done.
    + intros Hst. assert (Hs : struct_byte A a) by (unfold struct_byte, sizeof_memory_section in *; task_unfold; lia).
      destruct (struct_apart s0 F0 A B Hheap0 Hfits Hgr a Hs) as [Hn _]. apply Hn.
      by apply (proj1 (Forall_forall _ _) (bd_frames _ _ _ _ _ _ _ _ _ _ _ _ (cd_building _ _ _ _ _ _ _ _ _ _ _ _ _ _ _ _ _ _ _ Hcd2)) p ltac:(by left)).
    + intros Hta. apply Hnin. assert (p = tf) as ->; [|done]. by apply (frames_apart p tf a).
Qed.

End Steps.
