(* ===== verification/TaskFork.v ===== *)
(** * Copying a task

    Proofs about [copy_all_memory_with_pagetable] of virtual_memory.c and
    [fork_process] of process.c: the child gets its own memory sections, with
    copies of the pages of its parent. *)

From S2P Require Import Prelude Machine Utility Uart Chain BuddySpec PageAlloc Capacity Kmalloc KmallocProof LinkedList LinkedListProof LinkedListTheorems PageTable PageTableProof Task Process TaskTable UserStack UserMemory UserCopy TaskCreate TaskFill.

Section Child.
Context `{Hw : Platform} {HwOk : PlatformOk Hw} {Ops : PageOps} {HA : PageAllocator Ops}.
Context (s0 : state) (F0 : Z -> Prop) (A : arena) (X : Z -> Prop).
Hypothesis Hheap0 : heap_rep s0 F0 (Some A).
Hypothesis Hfits : fits (Some A) sizeof_task_struct.

Abbreviation t := (new_address A).
Abbreviation grown B := (grows (arena_alloc A sizeof_task_struct) B).


(** ** The pages of the child *)

Section Parent.
Context (pt1 : Z) (E1 : Z -> Z) (T1 : tables).
Hypothesis Hvm1 : vm_at s0 F0 pt1 E1 T1.
Hypothesis Htab : forall a, table_byte T1 a -> ~ touch F0 A X a.

(** A range of pages of the parent, with their frames. *)
Record user_range (n0 : Z) (fs : list Z) : Prop := {
  ur_range : 0 <= n0 /\ n0 + Z.of_nat (length fs) < MAXVA / PGSIZE;
  ur_source : maps_to E1 n0 fs;
  ur_frames : Forall (fun f => good_block kernel_end PHYSTOP 0 f /\
    forall a, f <= a < f + PGSIZE -> ~ touch F0 A X a /\ ~ table_byte T1 a) fs;
  ur_distinct : NoDup fs
}.

(** The plan of the copy: flags and bytes of the page of the parent. *)
Definition copy_plan : plan A Z := Plan A (fun n f => (PTE_FLAGS (E1 n), fun i => rd8 (mem s0) (f + i))) (core_byte A) (fun a Ha => Ha).
Abbreviation range_copied := (range_filled A (P:=copy_plan)).
Abbreviation copied := (filled s0 F0 A X (P:=copy_plan)).

Lemma bd_two B s F pt E T frames n : grown B -> building s0 F0 A B X s F pt E T frames n ->
  two_vm s F pt1 E1 T1 pt E T.
Proof using Hheap0 Hfits Hvm1 Htab HwOk.
  intros Hgr Hb. pose proof (bd_vm _ _ _ _ _ _ _ _ _ _ _ _ Hb) as Hv. split; [|done|].
  - apply (vm_at_frame s0 s F0); [done| | |apply Hv].
    + intros a Ha. apply (bd_mod _ _ _ _ _ _ _ _ _ _ _ _ Hb). by apply Htab.
    + intros a Ha HF. apply (Htab a Ha). left. right. left. by apply (bd_sub _ _ _ _ _ _ _ _ _ _ _ _ Hb).
  - intros a Ha Ha2. apply (Htab a Ha). left. apply (bd_bytes s0 F0 A B Hheap0 Hfits Hgr X s F pt E T frames n Hb). by right; right.
Qed.

Lemma bd_range B s F pt E T frames n n0 fs : grown B -> building s0 F0 A B X s F pt E T frames n ->
  user_range n0 fs -> (forall i, n0 <= i < n0 + Z.of_nat (length fs) -> valid (E i) = false) ->
  copy_range F E1 T1 E T n0 fs.
Proof using Hheap0 Hfits HwOk.
  intros Hgr Hb [Hr Hs Hf Hd] Hinv. split; [done|done| |done|done].
  eapply Forall_impl; [exact Hf|]. intros f [Hg Hn]. split; [done|]. intros a Ha. destruct (Hn a Ha) as [Ht Htb]. split.
  - intros [?|[?|?]]; [apply Ht; left; by left| |done]. apply Ht. left. right. left.
    by apply (bd_sub _ _ _ _ _ _ _ _ _ _ _ _ Hb).
  - intros Hv. apply Ht. left. by apply (bd_bytes s0 F0 A B Hheap0 Hfits Hgr X s F pt E T frames n Hb).
Qed.

(** Copying one range. *)
Lemma bd_copy B s F pt E T frames n n0 fs k : grown B -> building s0 F0 A B X s F pt E T frames n ->
  n = (S k + 3 * length fs)%nat -> user_range n0 fs ->
  (forall i, n0 <= i < n0 + Z.of_nat (length fs) -> valid (E i) = false) ->
  wp (copy_memory_with_pagetable pt1 pt (n0 * PGSIZE) (Z.of_nat (length fs) * PGSIZE)) (fun r s' => r = 0 /\
    glob s' = glob s /\ modifies (vm_bytes F T) (mem s) (mem s') /\ exists ps F' T' E',
    building s0 F0 A B X s' F' pt E' T' (ps ++ frames) (S k) /\ range_copied (mem s') E' (ps ++ frames) n0 fs ps /\
    (forall i, ~ (n0 <= i < n0 + Z.of_nat (length fs)) -> E' i = E i)) s.
Proof using Hheap0 Hfits Hvm1 Htab HwOk.
  intros Hgr Hb -> Hur Hinv. pose proof (bd_two _ _ _ _ _ _ _ _ Hgr Hb) as Htv.
  pose proof (bd_range _ _ _ _ _ _ _ _ _ _ Hgr Hb Hur Hinv) as Hr.
  assert (Hcap : capacity F (3 * length fs + 1)).
  { eapply capacity_le; [|exact (bd_capacity _ _ _ _ _ _ _ _ _ _ _ _ Hb)]. lia. }
  eapply wp_mono; [exact (copy_memory_enough F pt1 E1 T1 pt E T n0 fs s Htv Hr Hcap)|].
  intros r s' (-> & ps & F' & T' & Hlen & Hcp). pose proof (cp_grows _ _ _ _ _ _ _ _ _ _ _ _ _ _ Hcp) as (Hregs & HF & Hby & Hm).
  split; [done|]. split; [by destruct Hregs|]. split; [done|].
  exists ps, F', T', (pages_copied E1 E n0 (Some <$> ps)).
  assert (Hc' : capacity F' (S k)).
  { apply (cp_cost _ _ _ _ _ _ _ _ _ _ _ _ _ _ Hcp). rewrite length_fmap, Hlen. apply (bd_capacity _ _ _ _ _ _ _ _ _ _ _ _ Hb). }
  pose proof (bd_step s0 F0 A B Hheap0 Hfits Hgr X s F pt E T frames _ s' F' _ T' (S k) Hb Hregs Hm HF Hby
    (tv_target _ _ _ _ _ _ _ _ (cp_vm _ _ _ _ _ _ _ _ _ _ _ _ _ _ Hcp)) Hc') as Hb'.
  pose proof (bd_frames _ _ _ _ _ _ _ _ _ _ _ _ Hb) as Hfr. rewrite Forall_forall in Hfr.
  assert (Hlk : forall j p, ps !! j = Some p -> (Some <$> ps) !! j = Some (Some p)) by (intros j p Hj; by rewrite list_lookup_fmap, Hj).
  assert (Hps : forall p, p ∈ ps -> user_frame F' T' p /\ forall a, p <= a < p + PGSIZE -> F a).
  { intros p [j Hj]%list_elem_of_lookup. pose proof (lookup_lt_Some _ _ _ Hj).
    destruct (lookup_lt_is_Some_2 fs j ltac:(lia)) as [f Hf].
    by destruct (cp_frame _ _ _ _ _ _ _ _ _ _ _ _ _ _ Hcp j p f (Hlk j p Hj) Hf) as (? & ? & _). }
  split; [|split].
  - apply (bd_more s0 F0 A X B s' F' pt _ T' frames (S k) F ps Hb' (bd_sub _ _ _ _ _ _ _ _ _ _ _ _ Hb)); [|exact Hps|].
    + apply NoDup_alt. intros i j p Hi Hj. apply (cp_distinct _ _ _ _ _ _ _ _ _ _ _ _ _ _ Hcp i j p); by apply Hlk.
    + intros p a Hp Ha HF1. destruct (Hfr p Hp) as [[_ Hn] _]. apply (Hn a Ha). by right; left.
  - split; [done|]. intros j f p Hf Hp. pose proof (lookup_lt_Some _ _ _ Hf).
    split; [apply elem_of_app; left; by apply list_elem_of_lookup_2 with j|]. split.
    + unfold pages_copied. rewrite (proj2 (Z.leb_le _ _)) by lia. replace (Z.to_nat _) with j by lia. by rewrite (Hlk j p Hp).
    + intros i Hi. destruct (cp_frame _ _ _ _ _ _ _ _ _ _ _ _ _ _ Hcp j p f (Hlk j p Hp) Hf) as (_ & _ & Hc).
      rewrite Hc by done. apply (bd_mod _ _ _ _ _ _ _ _ _ _ _ _ Hb).
      apply (proj1 (Forall_lookup _ _) (ur_frames _ _ Hur) _ _ Hf). lia.
  - intros i Hi. unfold pages_copied. destruct (Z.leb_spec n0 i); [|done].
    rewrite lookup_ge_None_2 by (rewrite length_fmap; lia). done.
Qed.

Lemma copy_step s1 pt E0 frames0 rs secs s B F T E frames l pss n0 fs k :
  copied s1 pt E0 frames0 rs secs s B F T E frames l pss (S k + 3 * length fs) -> user_range n0 fs ->
  (forall i, n0 <= i < n0 + Z.of_nat (length fs) -> i ∉ pages rs /\ valid (E0 i) = false) ->
  wp (copy_memory_with_pagetable pt1 pt (n0 * PGSIZE) (Z.of_nat (length fs) * PGSIZE)) (fun r s' => r = 0 /\
    exists ps F' T' E', copied s1 pt E0 frames0 (rs ++ [(n0, fs)]) secs s' B F' T' E' (ps ++ frames) l (pss ++ [ps]) (S k)) s.
Proof using Hheap0 Hfits Hvm1 Htab HwOk.
  intros Hcd Hur Hfree. pose proof Hcd as [Hgr Hb _ _ Hrest _ _ _]. eapply wp_mono.
  { apply (bd_copy B s F pt E T frames _ n0 fs k Hgr Hb eq_refl Hur). intros i Hi.
    destruct (Hfree i Hi) as [Hn Hv]. by rewrite Hrest. }
  intros r s' (-> & Hg & Hm & ps & F' & T' & E' & Hb' & Hrc & HE). split; [done|]. exists ps, F', T', E'.
  apply (fill_step s0 F0 A X Hheap0 Hfits s1 pt E0 frames0 rs secs s s' B F T E frames l pss _ n0 fs ps F' T' E' _ Hcd Hg Hm Hb' Hrc HE).
  intros i Hi. by apply (Hfree i).
Qed.

(** The stack section of the child. *)
Lemma child_stack_step s1 pt E0 frames0 rs secs s s' B F T E frames l pss n :
  copied s1 pt E0 frames0 rs secs s B F T E frames l pss n -> same_regs s s' ->
  modifies (fun a => t + t_stack <= a < t + t_stack + sizeof_memory_section) (mem s) (mem s') ->
  copied s1 pt E0 frames0 rs secs s' B F T E frames l pss n.
Proof using Hheap0 Hfits HwOk.
  intros Hcd Hregs. apply (struct_step s0 F0 A X Hheap0 Hfits _ _ _ _ _ _ _ _ _ _ _ _ _ _ _ _ _ Hcd Hregs).
  intros a Ha. simpl pl_keep. unfold core_byte, struct_byte, sizeof_memory_section, sizeof_list in *. task_unfold. lia.
Qed.

(** *** All the memory of the parent *)

Definition section_of (r : Z * list Z) : Z * Z := (r.1 * PGSIZE, Z.of_nat (length r.2) * PGSIZE).

Record parent_rep (task : Z) (l0 : list (Z * Z)) (ranges : list (Z * list Z)) (stack : Z * list Z) : Prop := {
  pr_task : task_ok task;
  pr_list : list_rep (mem s0) (task + t_mem_sections) l0;
  pr_ram : Forall (fun d => KERNBASE <= d /\ d + sizeof_memory_section <= PHYSTOP) l0.*2;
  pr_sections : sections_at (mem s0) l0.*2 (section_of <$> ranges);
  pr_pagetable : rd64 (mem s0) (task + t_pagetable) = pt1;
  pr_stack : sections_at (mem s0) [task + t_stack] [section_of stack];
  pr_apart : forall a, task <= a < task + sizeof_task_struct \/ cells l0.*1 a \/ cells l0.*2 a -> ~ touch F0 A X a;
  pr_ranges : Forall (fun r => user_range r.1 r.2) (ranges ++ [stack]);
  pr_disjoint : NoDup (pages (ranges ++ [stack]))
}.

Lemma section_of_range r : user_range r.1 r.2 ->
  0 <= (section_of r).1 < 2 ^ 64 /\ 0 <= (section_of r).2 < 2 ^ 64.
Proof.
  intros [[H1 H2] _ _ _]. change (MAXVA / PGSIZE) with (2 ^ 26) in H2. unfold section_of, PGSIZE. simpl. lia.
Qed.

(** The parent is as it was. *)
Lemma parent_read B s F pt E T frames n k a : building s0 F0 A B X s F pt E T frames n ->
  (forall b, a <= b < a + Z.of_nat k -> ~ touch F0 A X b) -> rd k (mem s) a = rd k (mem s0) a.
Proof.
  intros Hb Ha. apply (modifies_rd _ _ _ _ _ (bd_mod _ _ _ _ _ _ _ _ _ _ _ _ Hb)). exact Ha.
Qed.

Section All.
Context (task : Z) (l0 : list (Z * Z)) (ranges : list (Z * list Z)) (stack : Z * list Z).
Hypothesis Hpar : parent_rep task l0 ranges stack.

Lemma parent_word B s F pt E T frames n o : building s0 F0 A B X s F pt E T frames n ->
  0 <= o -> o + 8 <= sizeof_task_struct -> rd64 (mem s) (task + o) = rd64 (mem s0) (task + o).
Proof using Hpar.
  intros Hb Ho1 Ho2. apply (parent_read _ _ _ _ _ _ _ _ 8 _ Hb). intros b Hin. apply (pr_apart _ _ _ _ Hpar). left. lia.
Qed.

Lemma parent_list B s F pt E T frames n : building s0 F0 A B X s F pt E T frames n ->
  list_rep (mem s) (task + t_mem_sections) l0.
Proof using Hpar.
  intros Hb. apply (rep_frame _ _ _ (pr_list _ _ _ _ Hpar)).
  - intros a Ha. apply (bd_mod _ _ _ _ _ _ _ _ _ _ _ _ Hb), (pr_apart _ _ _ _ Hpar). left. task_unfold. lia.
  - intros x a Hx Ha. apply (bd_mod _ _ _ _ _ _ _ _ _ _ _ _ Hb), (pr_apart _ _ _ _ Hpar). right. left. by exists x.
Qed.

(** Range [k] starts after the ranges before it. *)
Lemma range_new k r : (ranges ++ [stack]) !! k = Some r ->
  user_range r.1 r.2 /\ forall i, r.1 <= i < r.1 + Z.of_nat (length r.2) ->
  i ∉ pages (take k (ranges ++ [stack])) /\ i ∈ pages (ranges ++ [stack]).
Proof using Hpar.
  intros Hr. split; [by apply (proj1 (Forall_lookup _ _) (pr_ranges _ _ _ _ Hpar) k)|]. intros i Hi%pages_one.
  assert (Hsplit : ranges ++ [stack] = take k (ranges ++ [stack]) ++ [r] ++ drop (S k) (ranges ++ [stack])).
  { simpl. by rewrite <-(drop_S _ _ _ Hr), take_drop. }
  pose proof (pr_disjoint _ _ _ _ Hpar) as Hnd. rewrite Hsplit, !pages_app in Hnd. apply NoDup_app in Hnd as (_ & Hn & _). split.
  - intros Hin. apply (Hn i Hin). apply elem_of_app. by left.
  - rewrite Hsplit, !pages_app. apply elem_of_app. right. apply elem_of_app. by left.
Qed.

(** The count of pages that are left. *)
Lemma pages_left k r : (ranges ++ [stack]) !! k = Some r ->
  length (pages (drop k (ranges ++ [stack]))) = (length r.2 + length (pages (drop (S k) (ranges ++ [stack]))))%nat.
Proof.
  intros Hr. rewrite (drop_S _ _ _ Hr). change (r :: drop (S k) (ranges ++ [stack])) with ([r] ++ drop (S k) (ranges ++ [stack])).
  rewrite pages_app, length_app. f_equal. unfold pages. simpl. rewrite app_nil_r, length_seqZ. lia.
Qed.

Context (s1 : state) (pt : Z) (E0 : Z -> Z) (frames0 : list Z).
Hypothesis Hpt : rd64 (mem s1) (t + t_pagetable) = pt.
Hypothesis Hfree : forall i, i ∈ pages (ranges ++ [stack]) -> valid (E0 i) = false.

(** After [k] sections, with [c] pairs and [m] bytes of the heap to spare. *)
Definition sections_copied (c : nat) (m : Z) (k : nat) (s : state) : Prop := exists B F T E frames l pss,
  copied s1 pt E0 frames0 (take k ranges) (section_of <$> take k ranges) s B F T E frames l pss
    (S c + 3 * length (pages (drop k (ranges ++ [stack])))) /\
  room B (64 * (Z.of_nat (length ranges) - Z.of_nat k) + m).

Lemma child_pagetable rs secs s B F T E frames l pss n : copied s1 pt E0 frames0 rs secs s B F T E frames l pss n ->
  rd64 (mem s) (t + t_pagetable) = pt.
Proof using Hpt.
  intros Hcd. rewrite <-Hpt. apply (keeps_rd _ _ _ _ _ (cd_core _ _ _ _ _ _ _ _ _ _ _ _ _ _ _ _ _ _ _ Hcd)).
  intros b Hb. simpl pl_keep. unfold core_byte, struct_byte, sizeof_list, sizeof_memory_section. task_unfold. lia.
Qed.

(** The body of the loop. *)
Lemma section_turn_ok c m k x d s : 0 <= m -> l0 !! k = Some (x, d) -> sections_copied c m k s ->
  wp (start ← load64 (d + ms_start);
      size ← load64 (d + ms_size);
      spt ← load64 (task + t_pagetable);
      tpt ← load64 (t + t_pagetable);
      r ← copy_memory_with_pagetable spt tpt start size;
      if negb (r =? 0) then free_user_memory t;; mret (Some (-1))
      else
        r ← register_memory_section t start size;
        if truth r then
          tpt ← load64 (t + t_pagetable);
          free_memory tpt start size;;
          free_user_memory t;;
          mret (Some (-1))
        else mret None) (fun r s' => r = None /\ sections_copied c m (S k) s') s.
Proof using Hheap0 Hfits Hvm1 Htab HwOk Hpar Hpt Hfree.
  intros Hm0 Hx (B & F & T & E & frames & l & pss & Hcd & Hroom). pose proof (cd_building _ _ _ _ _ _ _ _ _ _ _ _ _ _ _ _ _ _ _ Hcd) as Hb.
  pose proof (pr_sections _ _ _ _ Hpar) as Hsecs.
  assert (Hd : l0.*2 !! k = Some d) by (by rewrite list_lookup_fmap, Hx).
  destruct (Forall2_lookup_l _ _ _ _ _ Hsecs Hd) as (sec & Hsec & Hst & Hsz).
  apply list_lookup_fmap_Some in Hsec as (r & -> & Hr).
  assert (Hr' : (ranges ++ [stack]) !! k = Some r) by (by apply lookup_app_l_Some).
  destruct (range_new k r Hr') as [Hur Hnew]. destruct (section_of_range r Hur) as [Hb1 Hb2].
  pose proof (lookup_lt_Some _ _ _ Hr) as Hk.
  destruct (proj1 (Forall_lookup _ _) (pr_ram _ _ _ _ Hpar) k d Hd) as [Hd1 Hd2].
  assert (Hdr : rd64 (mem s) (d + ms_start) = (section_of r).1 /\ rd64 (mem s) (d + ms_size) = (section_of r).2).
  { rewrite <-Hst, <-Hsz. unfold ms_start, ms_size. split; apply (parent_read _ _ _ _ _ _ _ _ 8 _ Hb); intros b Hin;
      apply (pr_apart _ _ _ _ Hpar); right; right; exists d; (split; [by apply list_elem_of_lookup_2 with k|lia]). }
  destruct Hdr as [Hds Hdz]. destruct (struct_ram s0 F0 A B Hheap0 Hfits (cd_grown _ _ _ _ _ _ _ _ _ _ _ _ _ _ _ _ _ _ _ Hcd)) as [Ht1 Ht2].
  pose proof (pr_task _ _ _ _ Hpar) as Htask. unfold sizeof_memory_section in Hd2.
  wp_task. wp_task. wp_task. wp_task. wp_task. wp_task. wp_task. wp_task.
  rewrite Hds, Hdz, (child_pagetable _ _ _ _ _ _ _ _ _ _ _ Hcd), (parent_word B s F pt E T frames _ t_pagetable Hb), (pr_pagetable _ _ _ _ Hpar) by done.
  rewrite (pages_left k r Hr') in Hcd. set (rest := length (pages (drop (S k) (ranges ++ [stack])))) in *.
  replace (S c + 3 * (length r.2 + rest))%nat with (S (c + 3 * rest) + 3 * length r.2)%nat in Hcd by lia.
  wp_step. eapply wp_mono.
  { apply (copy_step s1 pt E0 frames0 _ _ s B F T E frames l pss r.1 r.2 (c + 3 * rest) Hcd Hur). intros i Hi.
    destruct (Hnew i Hi) as [Hn Hin]. rewrite take_app_le in Hn by lia. split; [done|by apply Hfree]. }
  intros r1 s2 (-> & ps & F2 & T2 & E2 & Hcd2). change (negb (0 =? 0)) with false. cbv iota.
  wp_step. eapply wp_mono.
  { apply (register_step s0 F0 A X Hheap0 Hfits s1 pt E0 frames0 _ _ s2 B F2 T2 E2 _ l _ _ _ _ Hcd2); [|done..].
    eapply room_le; [|exact Hroom]. lia. }
  intros r2 s3 (-> & B3 & x3 & d3 & Hroom3 & _ & Hcd3). change (truth 0) with false. cbv iota. wp_step. split; [done|].
  exists B3, F2, T2, E2, (ps ++ frames), (l ++ [(x3, d3)]), (pss ++ [ps]). split.
  - rewrite (take_S_r ranges k r Hr), fmap_app. simpl fmap. fold rest.
    replace (S c + 3 * rest)%nat with (S (c + 3 * rest)) by lia. destruct r. exact Hcd3.
  - apply Hroom3; [lia|]. eapply room_le; [|exact Hroom]. lia.
Qed.

Lemma sections_list c m k s : sections_copied c m k s -> list_rep (mem s) (task + t_mem_sections) l0.
Proof using Hpar.
  intros (B & F & T & E & frames & l & pss & Hcd & _). exact (parent_list _ _ _ _ _ _ _ _ (cd_building _ _ _ _ _ _ _ _ _ _ _ _ _ _ _ _ _ _ _ Hcd)).
Qed.

(** The stack, after the sections. *)
Lemma copy_stack_ok {C} c m s (k : Z -> M C) Q : 0 <= m -> sections_copied c m (length ranges) s ->
  (forall s' B F T E frames l pss,
    copied s1 pt E0 frames0 (ranges ++ [stack]) (section_of <$> ranges) s' B F T E frames l pss (S c) ->
    room B m -> wp (k 0) Q s') ->
  wp (spt ← load64 (task + t_pagetable);
      tpt ← load64 (t + t_pagetable);
      start ← load64 (task + t_stack + ms_start);
      size ← load64 (task + t_stack + ms_size);
      r ← copy_memory_with_pagetable spt tpt start size;
      k r) Q s.
Proof using Hheap0 Hfits Hvm1 Htab HwOk Hpar Hpt Hfree.
  intros Hm (B & F & T & E & frames & l & pss & Hcd & Hroom) HQ. pose proof (cd_building _ _ _ _ _ _ _ _ _ _ _ _ _ _ _ _ _ _ _ Hcd) as Hb.
  destruct (struct_ram s0 F0 A B Hheap0 Hfits (cd_grown _ _ _ _ _ _ _ _ _ _ _ _ _ _ _ _ _ _ _ Hcd)) as [Ht1 Ht2].
  pose proof (pr_task _ _ _ _ Hpar) as Htask.
  assert (Hr : (ranges ++ [stack]) !! length ranges = Some stack) by (by rewrite list_lookup_middle).
  destruct (range_new _ _ Hr) as [Hur Hnew].
  assert (Hst : rd64 (mem s) (task + t_stack + ms_start) = (section_of stack).1 /\ rd64 (mem s) (task + t_stack + ms_size) = (section_of stack).2).
  { pose proof (pr_stack _ _ _ _ Hpar) as Hps. apply Forall2_cons in Hps as [[H1 H2] _]. rewrite <-H1, <-H2, <-!Z.add_assoc.
    split; by apply (parent_word B s F pt E T frames _ _ Hb). }
  destruct Hst as [Hs1 Hs2].
  wp_task. wp_task. wp_task. wp_task. wp_task. wp_task. wp_task. wp_task.
  rewrite Hs1, Hs2, (child_pagetable _ _ _ _ _ _ _ _ _ _ _ Hcd), (parent_word B s F pt E T frames _ t_pagetable Hb), (pr_pagetable _ _ _ _ Hpar) by done.
  rewrite drop_app_length, firstn_all in *.
  replace (length (pages [stack])) with (length stack.2) in Hcd by (unfold pages; simpl; rewrite app_nil_r, length_seqZ; lia).
  wp_step. eapply wp_mono.
  { apply (copy_step s1 pt E0 frames0 _ _ s B F T E frames l pss stack.1 stack.2 c Hcd Hur). intros i Hi.
    destruct (Hnew i Hi) as [Hn Hin]. rewrite take_app_le, firstn_all in Hn by lia. split; [done|by apply Hfree]. }
  intros r s2 (-> & ps & F2 & T2 & E2 & Hcd2). apply (HQ s2 B F2 T2 E2 (ps ++ frames) l (pss ++ [ps])).
  - destruct stack. exact Hcd2.
  - eapply room_le; [|exact Hroom]. lia.
Qed.

Lemma copy_all_ok c m s : 0 <= m -> sections_copied c m 0 s ->
  wp (copy_all_memory_with_pagetable task t) (fun r s' => r = 0 /\ exists B F T E frames l pss,
    copied s1 pt E0 frames0 (ranges ++ [stack]) (section_of <$> ranges) s' B F T E frames l pss (S c) /\ room B m /\
    sections_at (mem s') [t + t_stack] [section_of stack]) s.
Proof using Hheap0 Hfits Hvm1 Htab HwOk Hpar Hpt Hfree.
  intros Hm H0. unfold copy_all_memory_with_pagetable, head_node. pose proof (sections_list _ _ _ _ H0) as Hl.
  pose proof (pr_task _ _ _ _ Hpar) as Htask. wp_step. wp_task. rewrite (chain_hd _ _ _ (rep_chain _ _ _ Hl)).
  wp_step. eapply wp_mono.
  { apply (for_nodes_ok (sections_copied c m) (task + t_mem_sections) l0 _ s); [by intros k s'; apply sections_list|exact H0|].
    intros k x d s' Hx Hk. by apply (section_turn_ok c m k x d s'). }
  assert (Hlen : length l0 = length ranges).
  { pose proof (Forall2_length _ _ _ (pr_sections _ _ _ _ Hpar)) as He. by rewrite !length_fmap in He. }
  rewrite Hlen. intros r s2 (-> & H2). cbv iota. apply (copy_stack_ok c m s2); [done|exact H2|].
  intros s3 B F T E frames l pss Hcd Hroom. change (negb (0 =? 0)) with false. cbv iota.
  pose proof (cd_building _ _ _ _ _ _ _ _ _ _ _ _ _ _ _ _ _ _ _ Hcd) as Hb.
  destruct (struct_ram s0 F0 A B Hheap0 Hfits (cd_grown _ _ _ _ _ _ _ _ _ _ _ _ _ _ _ _ _ _ _ Hcd)) as [Ht1 Ht2].
  assert (Hr : (ranges ++ [stack]) !! length ranges = Some stack) by (by rewrite list_lookup_middle).
  destruct (range_new _ _ Hr) as [Hur _]. destruct (section_of_range stack Hur) as [Hw1 Hw2].
  pose proof (pr_stack _ _ _ _ Hpar) as Hps. apply Forall2_cons in Hps as [[H1' H2'] _].
  assert (Hread : forall s' B F T E frames l pss, copied s1 pt E0 frames0 (ranges ++ [stack]) (section_of <$> ranges) s' B F T E frames l pss (S c) ->
    rd64 (mem s') (task + t_stack + ms_start) = (section_of stack).1 /\ rd64 (mem s') (task + t_stack + ms_size) = (section_of stack).2).
  { intros s' B' F' T' E' fr' l' pss' Hcd'. pose proof (cd_building _ _ _ _ _ _ _ _ _ _ _ _ _ _ _ _ _ _ _ Hcd') as Hb'.
    rewrite <-H1', <-H2', <-!Z.add_assoc. split; by apply (parent_word B' s' F' pt E' T' fr' _ _ Hb'). }
  destruct (Hread _ _ _ _ _ _ _ _ Hcd) as [Hs1 _].
  wp_step. wp_step. wp_task. wp_task. rewrite Hs1. wp_step. wp_task.
  set (s4 := set_mem (wr64 (mem s3) (t + t_stack + ms_start) (section_of stack).1) s3) in *.
  assert (Hcd4 : copied s1 pt E0 frames0 (ranges ++ [stack]) (section_of <$> ranges) s4 B F T E frames l pss (S c)).
  { apply (child_stack_step s1 pt E0 frames0 _ _ s3 s4 B F T E frames l pss _ Hcd (same_regs_set_mem _ _)).
    apply modifies_wr. unfold sizeof_memory_section, ms_start. lia. }
  destruct (Hread _ _ _ _ _ _ _ _ Hcd4) as [_ Hs2].
  wp_task. wp_task. rewrite Hs2. wp_step. wp_task. wp_step. split; [done|]. exists B, F, T, E, frames, l, pss. split; [|split; [done|]].
  - apply (child_stack_step s1 pt E0 frames0 _ _ s4 _ B F T E frames l pss _ Hcd4 (same_regs_set_mem _ _)).
    apply modifies_wr. unfold sizeof_memory_section, ms_size. lia.
  - constructor; [|constructor]. unfold s4, ms_start, ms_size. cbn [mem set_mem]. split; by mem_simp.
Qed.

(** ** The trap frame of the child *)

(** The registers of the parent, but for the result 0 of the call and the
    program counter behind it. *)
Record frame_copied (m m' : gmap Z Z) (ttf tf : Z) : Prop := {
  fc_regs : forall o, 0 <= o < sizeof_trap_frame -> ~ (tf_a0 <= o < tf_a0 + 8) -> ~ (tf_epc <= o < tf_epc + 8) ->
    rd8 m' (tf + o) = rd8 m (ttf + o);
  fc_a0 : rd64 m' (tf + tf_a0) = 0;
  fc_epc : rd64 m' (tf + tf_epc) = rd64 m (ttf + tf_epc) +w 4
}.

Lemma child_word rs secs s B F T E frames l pss n o : copied s1 pt E0 frames0 rs secs s B F T E frames l pss n ->
  0 <= o -> o + 8 <= sizeof_task_struct ->
  o + 8 <= t_mem_sections \/ t_mem_sections + sizeof_list <= o /\ o + 8 <= t_stack \/ t_stack + sizeof_memory_section <= o ->
  rd64 (mem s) (t + o) = rd64 (mem s1) (t + o).
Proof.
  intros Hcd Ho1 Ho2 Ho3. apply (keeps_rd _ _ _ _ _ (cd_core _ _ _ _ _ _ _ _ _ _ _ _ _ _ _ _ _ _ _ Hcd)).
  intros b Hb. simpl pl_keep. unfold core_byte, struct_byte, sizeof_list, sizeof_memory_section in *. task_unfold. lia.
Qed.

Lemma frame_ok {C} rs secs s B F T E frames l pss n ttf tf (k : M C) Q :
  copied s1 pt E0 frames0 rs secs s B F T E frames l pss n -> tf ∈ frames0 ->
  rd64 (mem s1) (t + t_trap_frame) = tf -> rd64 (mem s0) (task + t_trap_frame) = ttf -> ram_range ttf sizeof_trap_frame ->
  (forall a, ttf <= a < ttf + sizeof_trap_frame -> ~ touch F0 A X a) ->
  (forall s', copied s1 pt E0 frames0 rs secs s' B F T E frames l pss n -> frame_copied (mem s0) (mem s') ttf tf ->
     modifies (fun a => tf <= a < tf + sizeof_trap_frame) (mem s) (mem s') -> wp k Q s') ->
  wp (ctf ← load64 (t + t_trap_frame);
      ttf ← load64 (task + t_trap_frame);
      memcpy ctf ttf sizeof_trap_frame;;
      ctf ← load64 (t + t_trap_frame);
      store64 (ctf + tf_a0) 0;;
      epc ← load64 (ctf + tf_epc);
      store64 (ctf + tf_epc) (epc +w 4);;
      k) Q s.
Proof using Hheap0 Hfits HwOk Hpar.
  intros Hcd Hin Htf Httf Hram Hapart HQ. pose proof (cd_building _ _ _ _ _ _ _ _ _ _ _ _ _ _ _ _ _ _ _ Hcd) as Hb.
  destruct (struct_ram s0 F0 A B Hheap0 Hfits (cd_grown _ _ _ _ _ _ _ _ _ _ _ _ _ _ _ _ _ _ _ Hcd)) as [Ht1 Ht2].
  pose proof (pr_task _ _ _ _ Hpar) as Htask.
  pose proof (cd_frames _ _ _ _ _ _ _ _ _ _ _ _ _ _ _ _ _ _ _ Hcd tf Hin) as Hin'.
  destruct (proj1 (Forall_forall _ _) (bd_frames _ _ _ _ _ _ _ _ _ _ _ _ Hb) tf Hin') as [[Hg _] HF].
  destruct (frame_range tf Hg) as (Htf1 & Htf2 & Htr). unfold ram_range, PGSIZE in Htr.
  assert (Hdis : forall a, tf <= a < tf + sizeof_trap_frame -> ~ (ttf <= a < ttf + sizeof_trap_frame)).
  { intros a Ha Ha2. apply (Hapart a Ha2). left. right. left. apply HF. unfold sizeof_trap_frame, PGSIZE in *. lia. }
  assert (Hword : forall s', copied s1 pt E0 frames0 rs secs s' B F T E frames l pss n -> rd64 (mem s') (t + t_trap_frame) = tf).
  { intros s' Hcd'. rewrite (child_word _ _ _ _ _ _ _ _ _ _ _ t_trap_frame Hcd') by (unfold sizeof_list, sizeof_memory_section; task_unfold; lia). done. }
  wp_task. wp_task. wp_task. wp_task. rewrite (Hword s Hcd), (parent_word B s F pt E T frames _ t_trap_frame Hb), Httf by done.
  wp_step. apply memcpy_ok; [unfold ram_range; unfold sizeof_trap_frame in *; lia|done| |].
  { pose proof (sep_apart tf sizeof_trap_frame ttf sizeof_trap_frame ltac:(done) ltac:(done) Hdis) as Hs.
    unfold sep, sizeof_trap_frame in *. lia. }
  intros m3 Hm3 Hmod3. set (s3 := set_mem m3 s) in *.
  assert (Hstep : forall s' s'', copied s1 pt E0 frames0 rs secs s' B F T E frames l pss n -> same_regs s' s'' ->
    modifies (fun a => tf <= a < tf + sizeof_trap_frame) (mem s') (mem s'') ->
    copied s1 pt E0 frames0 rs secs s'' B F T E frames l pss n).
  { intros s' s'' Hcd' Hregs Hm. apply (frame_step s0 F0 A X Hheap0 Hfits s1 pt E0 frames0 rs secs s' s'' B F T E frames l pss n tf Hcd' Hin Hregs).
    eapply modifies_weaken; [|exact Hm]. unfold sizeof_trap_frame, PGSIZE. lia. }
  assert (Hcd3 : copied s1 pt E0 frames0 rs secs s3 B F T E frames l pss n).
  { apply (Hstep s s3 Hcd (same_regs_set_mem _ _)). exact Hmod3. }
  wp_task. wp_task. rewrite (Hword s3 Hcd3). wp_task. wp_task. set (s4 := set_mem (wr64 (mem s3) (tf + tf_a0) 0) s3) in *.
  assert (Hcd4 : copied s1 pt E0 frames0 rs secs s4 B F T E frames l pss n).
  { apply (Hstep s3 s4 Hcd3 (same_regs_set_mem _ _)). apply modifies_wr. task_unfold. lia. }
  wp_task. wp_task. wp_task. wp_task. set (s5 := set_mem _ s4).
  assert (Hsrc : forall o, 0 <= o < sizeof_trap_frame -> rd8 (mem s) (ttf + o) = rd8 (mem s0) (ttf + o)).
  { intros o Ho. apply (bd_mod _ _ _ _ _ _ _ _ _ _ _ _ Hb), Hapart. lia. }
  assert (Hm45 : forall o v, 0 <= o -> o + 8 <= sizeof_trap_frame -> forall m,
    modifies (fun a => tf <= a < tf + sizeof_trap_frame) m (wr64 m (tf + o) v)) by (intros o v Ho1 Ho2 m; apply modifies_wr; lia).
  apply HQ.
  { apply (Hstep s4 s5 Hcd4 (same_regs_set_mem _ _)). by apply Hm45. }
  2: { eapply modifies_trans; [exact Hmod3|]. eapply modifies_trans; by apply Hm45. }
  split.
  - intros o Ho Ha0 Hepc. rewrite <-Hsrc, <-Hm3 by done. unfold s5, s4, s3. cbn [mem set_mem].
    rewrite !rd8_wr_out by lia. done.
  - unfold s5, s4. cbn [mem set_mem]. rewrite rd64_wr64_out by (task_unfold; lia). by mem_simp.
  - unfold s5. cbn [mem set_mem]. rewrite rd64_wr64_same by apply w64_range. apply (f_equal (fun v => v +w 4)).
    unfold s4, s3. cbn [mem set_mem]. rewrite rd64_wr64_out by (task_unfold; lia).
    apply rd_copied. intros i Hi. rewrite <-!Z.add_assoc. rewrite Hm3, Hsrc by (task_unfold; lia). done.
Qed.

End All.

End Parent.

End Child.

