(* ===== verification/TaskForkTheorems.v ===== *)
(** * Theorems on fork

    [fork_process] of process.c, from the task structure to the queues. *)

From S2P Require Import Prelude Machine Board Utility Uart Chain BuddySpec PageAlloc Capacity Buddy BuddyInstance BuddyTheorems Kmalloc KmallocProof KmallocTheorems LinkedList LinkedListProof LinkedListTheorems PageTable PageTableProof Task Process TaskTable UserStack UserMemory UserMemoryTheorems UserCopy UserCopyTheorems TaskCreate TaskCreateTheorems TaskFill TaskFork.

Section Theorems.
Context `{Hw : Platform} {HwOk : PlatformOk Hw} {Ops : PageOps} {HA : PageAllocator Ops}.

(** A process that can be forked: [task], with the page table [pt1] (entries
    [E1], tables [T1]), the trap frame [ttf], the memory sections [ranges] in
    the list [l0], the stack [stack]; [lr] and [la] are the tasks in the run queue and
    in the list of all tasks.  None of this lies in free memory or in the
    unused part of the kernel heap. *)
Record forkable (s : state) (F : Z -> Prop) (A : arena) (task pt1 ttf : Z) (E1 : Z -> Z) (T1 : tables) (l0 : list (Z * Z))
    (ranges : list (Z * list Z)) (stack : Z * list Z) (name : list Z) (lr la : list (Z * Z)) : Prop := {
  fo_heap : heap_rep s F (Some A);
  fo_room : room A (gross_size sizeof_task_struct + (64 * Z.of_nat (length ranges) + 64));
  fo_capacity : capacity F (11 + 3 * length (pages (ranges ++ [stack])));
  fo_globals : creatable s task;
  fo_vm : vm_at s F pt1 E1 T1;
  fo_tables : forall a, table_byte T1 a -> ~ touch F A no_bytes a;
  fo_parent : parent_rep s F A no_bytes pt1 E1 T1 task l0 ranges stack;
  fo_special : forall i, i ∈ pages (ranges ++ [stack]) ->
    i <> SHARED_MEMORY / PGSIZE /\ i <> TRAMPOLINE / PGSIZE /\ i <> TRAPFRAME / PGSIZE;
  fo_name : str_at (mem s) (Ptr (task + t_name)) name /\ (length name <= 31)%nat;
  fo_frame : rd64 (mem s) (task + t_trap_frame) = ttf /\ ram_range ttf sizeof_trap_frame;
  fo_frame_apart : forall a, ttf <= a < ttf + sizeof_trap_frame -> ~ touch F A no_bytes a;
  fo_runnable : list_rep (mem s) (glob s runnable_tasks) lr;
  fo_all : list_rep (mem s) (glob s all_tasks) la;
  fo_queues : forall a, list_byte (glob s runnable_tasks) lr a \/ list_byte (glob s all_tasks) la a ->
    ~ heap_touch F (Some A) a;
  fo_apart : forall a, list_byte (glob s runnable_tasks) lr a -> ~ list_byte (glob s all_tasks) la a
}.

(** What the two queues write of their own. *)
Definition queue_bytes (s : state) (lr la : list (Z * Z)) (a : Z) : Prop :=
  list_touch (glob s runnable_tasks) lr.*1 a \/ list_touch (glob s all_tasks) la.*1 a.

(** The fields of the child that come from [new_task] and stay. *)
Definition child_fields (pid parent ks tf pt sh : Z) : list (Z * nat * Z) :=
  [(t_shared_memory, 8%nat, sh); (t_context + context_ra, 8%nat, user_trap_return_addr);
   (t_context + context_sp, 8%nat, ks +w PGSIZE); (t_parent, 8%nat, parent); (t_pid, 8%nat, pid);
   (t_state, 4%nat, RUNNABLE); (t_trap_frame, 8%nat, tf); (t_pagetable, 8%nat, pt);
   (t_stack_permission, 8%nat, stack_rwu); (t_kernel_stack, 8%nat, ks)].

Lemma map_of_new_free tf sh i : i <> SHARED_MEMORY / PGSIZE -> i <> TRAMPOLINE / PGSIZE -> i <> TRAPFRAME / PGSIZE ->
  valid (map_of_new tf sh i) = false.
Proof. intros H1 H2 H3. unfold map_of_new. by rewrite !fn_lookup_insert_ne by done. Qed.

(** The fields of an empty list of sections. *)
Definition list_fields : list (Z * nat * Z) :=
  [(t_mem_sections + 16, 8%nat, 0); (t_mem_sections + 8, 8%nat, NULL); (t_mem_sections, 8%nat, NULL)].

Lemma list_rep_nil m L : KERNBASE <= L -> L + sizeof_list <= PHYSTOP -> rd64 m L = NULL -> rd64 m (L + 8) = NULL ->
  rd64 m (L + 16) = 0 -> list_rep m L [].
Proof.
  intros H1 H2 Hh Ht Hs. split; [|exact Hh|exact Ht|exact Hs|constructor].
  split; [done|set_solver..|apply NoDup_nil_2].
Qed.

Lemma no_sections m a : task_ok a -> fields m a list_fields -> list_rep m (a + t_mem_sections) [].
Proof.
  intros Ha Hl. assert (Hf : forall o, (o, 8%nat, 0) ∈ list_fields -> rd64 m (a + o) = 0) by (intros o; by apply (field_at _ _ _ _ _ _ Hl)).
  apply list_rep_nil; [unfold sizeof_list; task_unfold; lia|unfold sizeof_list; task_unfold; lia|..];
    rewrite <-?Z.add_assoc; apply Hf; unfold list_fields; set_solver.
Qed.

(** A task that was just made has no sections. *)
Lemma made_sections s F A s' parent ks pt tf sh name : heap_rep s F (Some A) -> fits (Some A) sizeof_task_struct ->
  task_made s s' (new_address A) parent ks pt tf sh name ->
  child_sections A s' (arena_alloc A sizeof_task_struct) [] [].
Proof.
  intros Hheap Hfits (Hl & _ & _). destruct (struct_ram s F A _ Hheap Hfits (grows_refl _)) as [H1 H2].
  split.
  - apply no_sections; [done|]. unfold fields in *. rewrite Forall_forall in *. intros f Hf. apply Hl.
    unfold list_fields, frame_fields, first_fields in *. set_solver.
  - intros a [(x & Hx & _)|(x & Hx & _)]; by apply not_elem_of_nil in Hx.
  - intros a (x & Hx & _). by apply not_elem_of_nil in Hx.
  - constructor.
Qed.

Lemma frame_copied_keep m m1 m2 ttf tf : frame_copied m m1 ttf tf ->
  keeps (fun a => tf <= a < tf + sizeof_trap_frame) m1 m2 -> frame_copied m m2 ttf tf.
Proof.
  intros [Hr Ha0 Hepc] Hk. split.
  - intros o Ho H1 H2. rewrite Hk by lia. by apply Hr.
  - rewrite <-Ha0. apply (keeps_rd _ _ _ _ _ Hk). task_unfold. lia.
  - rewrite <-Hepc. apply (keeps_rd _ _ _ _ _ Hk). task_unfold. lia.
Qed.

(** Both queues. *)
Lemma fork_queues {C} s F A task pt1 ttf E1 T1 l0 ranges stack name lr la
    s1 pt E0 frames0 rs secs s3 B F' T E frames l pss n (k : M C) Q :
  forkable s F A task pt1 ttf E1 T1 l0 ranges stack name lr la -> fits (Some A) sizeof_task_struct ->
  filled s F A no_bytes (P:=copy_plan s A E1) s1 pt E0 frames0 rs secs s3 B F' T E frames l pss n ->
  glob s1 runnable_tasks = glob s runnable_tasks -> glob s1 all_tasks = glob s all_tasks -> room B 64 ->
  (forall s5 B' x1 x2, filled s F A (queue_bytes s lr la) (P:=copy_plan s A E1) s1 pt E0 frames0 rs secs s5 B' F' T E frames l pss n ->
    list_rep (mem s5) (glob s runnable_tasks) (lr ++ [(x1, new_address A)]) ->
    list_rep (mem s5) (glob s all_tasks) (la ++ [(x2, new_address A)]) ->
    keeps (own_byte A frames) (mem s3) (mem s5) -> wp k Q s5) ->
  wp (rt ← get runnable_tasks;
      node ← make_single_linked_list_node (new_address A);
      push_tail rt node;;
      at_ ← get all_tasks;
      node ← make_single_linked_list_node (new_address A);
      push_tail at_ node;;
      k) Q s3.
Proof.
  intros Hfo Hfits Hcd Hrt Hat Hroom HQ.
  apply (two_queues_ok s F A (fo_heap _ _ _ _ _ _ _ _ _ _ _ _ _ _ Hfo) Hfits no_bytes s1 pt E0 frames0 rs secs s3 B F' T E frames l pss n
    runnable_tasks all_tasks (glob s runnable_tasks) (glob s all_tasks) lr la _ _ Hcd Hrt Hat (fun a H => False_ind _ H)
    (fo_runnable _ _ _ _ _ _ _ _ _ _ _ _ _ _ Hfo) (fo_all _ _ _ _ _ _ _ _ _ _ _ _ _ _ Hfo)
    (fo_queues _ _ _ _ _ _ _ _ _ _ _ _ _ _ Hfo) (fo_apart _ _ _ _ _ _ _ _ _ _ _ _ _ _ Hfo) Hroom).
  intros s5 B' x1 x2 Hcd5 Hr Ha Hk _. apply (HQ s5 B' x1 x2); [|done..]. eapply filled_weaken; [|exact Hcd5]. by intros a [[]|?].
Qed.

(** What [new_task] wrote and nothing after it. *)
Lemma fields_core A m m' l : fields m (new_address A) l -> within sizeof_task_struct l = true ->
  clear_of t_mem_sections sizeof_list l = true -> clear_of t_stack sizeof_memory_section l = true ->
  keeps (core_byte A) m m' -> fields m' (new_address A) l.
Proof.
  unfold fields, within. rewrite !Forall_forall, forallb_forall. intros Hl Hwi Hc1 Hc2 Hk f Hf. rewrite <-(Hl f Hf).
  pose proof (clear_of_spec _ _ _ _ Hc1 Hf). pose proof (clear_of_spec _ _ _ _ Hc2 Hf).
  apply list_elem_of_In, Hwi, andb_true_iff in Hf as [H1%Z.leb_le H2%Z.leb_le].
  apply (keeps_rd _ _ _ _ _ Hk). intros b Hb. unfold core_byte, struct_byte. lia.
Qed.

Lemma name_core A m m' l : str_at m (Ptr (new_address A + t_name)) l -> (length l <= 31)%nat ->
  keeps (core_byte A) m m' -> str_at m' (Ptr (new_address A + t_name)) l.
Proof.
  intros [Hl [Hr Hb]] Hlen Hk. split; [done|]. split; [done|]. apply (bytes_at_ext m); [|done]. intros b Hb'. apply Hk.
  rewrite length_app in Hb'. simpl in Hb'. unfold core_byte, struct_byte, sizeof_list, sizeof_memory_section. task_unfold. lia.
Qed.

Lemma made_fields s F A s' parent ks pt tf sh name : heap_rep s F (Some A) -> fits (Some A) sizeof_task_struct ->
  task_made s s' (new_address A) parent ks pt tf sh name ->
  fields (mem s') (new_address A) (child_fields (glob s next_pid) parent ks tf pt sh).
Proof.
  intros _ _ (Hl & _ & _). unfold fields in *. rewrite Forall_forall in *. intros f Hf. apply Hl.
  unfold child_fields, filled_fields, frame_fields, first_fields in *. set_solver.
Qed.

(** Page [n] is in the frame [p], with the flags of the parent's page, and the
    child reads there what the parent did. *)
Definition same_page (m m' : gmap Z Z) (E1 E' : Z -> Z) (n p : Z) : Prop :=
  valid (E' n) = true /\ PTE_FLAGS (E' n) = PTE_FLAGS (E1 n) /\ PTE2PA (E' n) = p /\
  forall i, 0 <= i < PGSIZE -> user_byte m' E' (n * PGSIZE + i) = user_byte m E1 (n * PGSIZE + i).

Lemma same_pages s m' F A X E1 T1 E' frames rs pss : Forall (fun r => user_range F A X E1 T1 r.1 r.2) rs ->
  Forall (good_block kernel_end PHYSTOP 0) frames ->
  Forall2 (fun r ps => range_filled A (P:=copy_plan s A E1) m' E' frames r.1 r.2 ps) rs pss ->
  Forall2 (same_page (mem s) m' E1 E') (pages rs) (concat pss).
Proof.
  intros Hur Hgf H. induction H as [|r ps rs pss [Hlen Hc] _ IH]; [constructor|].
  apply Forall_cons in Hur as [[[Hn0 Hmax] Hsrc Hfr _] Hur].
  change (r :: rs) with ([r] ++ rs). rewrite pages_app. simpl concat. apply Forall2_app; [|by apply IH].
  unfold pages. simpl. rewrite app_nil_r. apply Forall2_same_length_lookup_2; [by rewrite length_seqZ, Hlen, Nat2Z.id|].
  intros j n p [-> Hj]%lookup_seqZ Hp. destruct (lookup_lt_is_Some_2 r.2 j ltac:(lia)) as [f Hf].
  destruct (Hc j f p Hf Hp) as (Hin & He & Hb). simpl pl_image in He, Hb. cbn [fst snd] in He, Hb. destruct (Hsrc j f Hf) as (Hv & _ & Hpa).
  pose proof (proj1 (Forall_forall _ _) Hgf p Hin) as Hg. destruct (proj1 (Forall_lookup _ _) Hfr j f Hf) as [Hgf' _].
  destruct (frame_bits p Hg) as [Hp56 Hpd]. rewrite PGROUNDDOWN_eq in Hpd by lia.
  pose proof (flags_range (E1 (r.1 + Z.of_nat j))) as Hfl.
  assert (Hp' : PTE2PA (E' (r.1 + Z.of_nat j)) = p) by (rewrite He, leaf_pa by done; lia).
  assert (Hv' : valid (E' (r.1 + Z.of_nat j)) = true) by (by rewrite He, valid_leaf).
  split; [done|]. split; [by rewrite He, leaf_flags, flags_valid|]. split; [done|].
  intros i Hi. unfold user_byte. rewrite (translate_page E' _ p i), (translate_page E1 _ f i) by (done || lia). by apply Hb.
Qed.

Lemma made_list_fields s s' t parent ks pt tf sh name : task_made s s' t parent ks pt tf sh name ->
  fields (mem s') t (child_fields (glob s next_pid) parent ks tf pt sh ++ list_fields).
Proof.
  intros (Hl & _ & _). unfold fields in *. rewrite Forall_forall in *. intros f Hf. apply Hl.
  unfold child_fields, list_fields, filled_fields, frame_fields, first_fields in *. set_solver.
Qed.

(** The child [child] of [task], with its page table [pt], trap frame [tf],
    shared page [sh] and kernel stack [ks]. *)
Record forked (s s' : state) (F : Z -> Prop) (A : arena) (task ttf : Z) (E1 : Z -> Z)
    (ranges : list (Z * list Z)) (stack : Z * list Z) (name : list Z) (lr la : list (Z * Z))
    (child pt tf sh ks : Z) : Prop := {
  fk_fields : fields (mem s') child (child_fields (glob s next_pid) task ks tf pt sh);
  fk_name : str_at (mem s') (Ptr (child + t_name)) name;
  fk_frame : frame_copied (mem s) (mem s') ttf tf;
  fk_memory : exists B F' T' E' frames l ps,
    building s F A B (queue_bytes s lr la) s' F' pt E' T' frames 1 /\
    child_sections A s' B l (section_of <$> ranges) /\ sections_at (mem s') [child + t_stack] [section_of stack] /\
    Forall2 (same_page (mem s) (mem s') E1 E') (pages (ranges ++ [stack])) ps /\ frames ≡ₚ ps ++ [sh; tf; ks] /\
    forall i, i ∉ pages (ranges ++ [stack]) -> E' i = map_of_new tf sh i;
  fk_queues : exists x1 x2, list_rep (mem s') (glob s runnable_tasks) (lr ++ [(x1, child)]) /\
    list_rep (mem s') (glob s all_tasks) (la ++ [(x2, child)])
}.

(** C9: While memory lasts, [fork_process] makes a second process like the
    first: it returns the next pid; the child is runnable, has that pid, its
    parent and its parent's name, memory sections and stack bounds; its registers
    are the parent's, but for the result 0 of the call and the program counter
    behind it; every page of the parent's sections and stack is mapped with the
    same flags and reads the same, from a page frame of the child's own that was
    free before and that no other page shares; besides these pages it has its
    own kernel stack, trap frame and shared page; it is put at the end of the
    run queue and of the list of all tasks.  Nothing of the parent, nor
    anything else in use, is written.  (The stack permission of the child is the
    default one, not the parent's.) *)
Theorem fork_process_copies s F A task pt1 ttf E1 T1 l0 ranges stack name lr la :
  forkable s F A task pt1 ttf E1 T1 l0 ranges stack name lr la ->
  wp (fork_process task) (fun r s' => r = glob s next_pid /\
    glob s' = <[next_pid := glob s next_pid +w 1]> (glob s) /\
    exists pt tf sh ks, forked s s' F A task ttf E1 ranges stack name lr la (new_address A) pt tf sh ks) s.
Proof.
  intros Hfo. pose proof Hfo as [Hheap Hroom Hcap Hglob Hvm Htab Hpar Hspec [Hname Hlen] [Httf Htr] Hta Hlr Hla Hq Hap].
  destruct (room_alloc A sizeof_task_struct (64 * Z.of_nat (length ranges) + 64) ltac:(lia) Hroom) as [Hfits Hroom1].
  unfold fork_process. wp_step. eapply wp_mono.
  { apply (new_task_ok (Ptr (task + t_name)) name task _ F A no_bytes s Hheap Hfits Hcap Hname); [|lia|exact Hglob].
    intros b Hb. apply (pr_apart _ _ _ _ _ _ _ _ _ _ _ Hpar). left. task_unfold. lia. }
  intros t s1 (-> & Hg1 & F1 & T2 & ks & pt & tf & sh & Hmade & Hb1).
  destruct (struct_ram s F A _ Hheap Hfits (grows_refl _)) as [Ht1 Ht2].
  rewrite (proj2 (Z.eqb_neq (new_address A) NULL)) by (unfold NULL, KERNBASE in *; lia).
  pose proof (made_fields _ _ _ _ _ _ _ _ _ _ Hheap Hfits Hmade) as Hl1.
  assert (Hpt : rd64 (mem s1) (new_address A + t_pagetable) = pt) by (apply (field_at _ _ _ _ _ _ Hl1); unfold child_fields; set_solver).
  assert (Htf : rd64 (mem s1) (new_address A + t_trap_frame) = tf) by (apply (field_at _ _ _ _ _ _ Hl1); unfold child_fields; set_solver).
  assert (Hfree : forall i, i ∈ pages (ranges ++ [stack]) -> valid (map_of_new tf sh i) = false).
  { intros i Hi. destruct (Hspec i Hi) as (? & ? & ?). by apply map_of_new_free. }
  assert (Hstart : sections_copied s F A no_bytes E1 ranges stack s1 pt (map_of_new tf sh) [sh; tf; ks] 0 64 0 s1).
  { exists (arena_alloc A sizeof_task_struct), F1, T2, (map_of_new tf sh), [sh; tf; ks], [], []. split.
    - split; [apply grows_refl|exact Hb1|by eapply made_sections|constructor|done|apply keeps_refl|done|done].
    - eapply room_le; [|exact Hroom1]. lia. }
  wp_step. eapply wp_mono.
  { apply (copy_all_ok s F A no_bytes Hheap Hfits pt1 E1 T1 Hvm Htab task l0 ranges stack Hpar s1 pt (map_of_new tf sh) [sh; tf; ks]
      Hpt Hfree 0 64 s1); [done|exact Hstart]. }
  intros r s2 (-> & B & F2 & T3 & E & frames & l & pss & Hcd & Hroom2 & Hst).
  apply (frame_ok s F A no_bytes Hheap Hfits pt1 E1 T1 task l0 ranges stack Hpar s1 pt (map_of_new tf sh) [sh; tf; ks]
    (ranges ++ [stack]) (section_of <$> ranges) s2 B F2 T3 E frames l pss _ ttf tf _ _ Hcd);
    [set_solver|done..|].
  intros s3 Hcd3 Hfc3 Hm3. change (negb (0 =? 0)) with false. cbv iota.
  apply (fork_queues s F A task pt1 ttf E1 T1 l0 ranges stack name lr la s1 pt (map_of_new tf sh) [sh; tf; ks]
    (ranges ++ [stack]) (section_of <$> ranges) s3 B F2 T3 E frames l pss _ _ _ Hfo Hfits Hcd3);
    [by rewrite Hg1, fn_lookup_insert_ne by done..|exact Hroom2|].
  intros s5 B5 x1 x2 Hcd5 Hrt5 Hat5 Hk5.
  pose proof (cd_core _ _ _ _ _ _ _ _ _ _ _ _ _ _ _ _ _ _ _ Hcd5) as Hcore.
  assert (Hl5 : fields (mem s5) (new_address A) (child_fields (glob s next_pid) task ks tf pt sh)) by (by apply (fields_core A (mem s1))).
  apply (load_field s F A B5 Hheap Hfits (cd_grown _ _ _ _ _ _ _ _ _ _ _ _ _ _ _ _ _ _ _ Hcd5) s5 _ t_pid 8 (glob s next_pid) _ Hl5);
    [unfold child_fields; set_solver|done..|].
  split; [done|]. split; [by rewrite (cd_glob _ _ _ _ _ _ _ _ _ _ _ _ _ _ _ _ _ _ _ Hcd5)|]. exists pt, tf, sh, ks.
  pose proof (cd_building _ _ _ _ _ _ _ _ _ _ _ _ _ _ _ _ _ _ _ Hcd3) as Hb3.
  assert (Htf3 : tf ∈ frames) by (apply (cd_frames _ _ _ _ _ _ _ _ _ _ _ _ _ _ _ _ _ _ _ Hcd3); set_solver).
  assert (Hk1 : forall a, tf <= a < tf + PGSIZE -> rd8 (mem s5) a = rd8 (mem s3) a /\ ~ struct_byte A a).
  { intros a Ha. split; [apply Hk5; right; by exists tf|]. intros Hsb.
    destruct (struct_apart s F A B Hheap Hfits (cd_grown _ _ _ _ _ _ _ _ _ _ _ _ _ _ _ _ _ _ _ Hcd3) a Hsb) as [Hn _]. apply Hn.
    by apply (proj1 (Forall_forall _ _) (bd_frames _ _ _ _ _ _ _ _ _ _ _ _ Hb3) tf Htf3). }
  split; [exact Hl5| | | |by exists x1, x2].
  - destruct Hmade as (_ & _ & Hn). rewrite take_ge in Hn by lia. by apply (name_core A (mem s1)).
  - apply (frame_copied_keep _ (mem s3)); [done|]. intros a Ha. apply Hk1. clear -Ha. unfold sizeof_trap_frame, PGSIZE in *. lia.
  - exists B5, F2, T3, E, frames, l, (concat pss). split_and!.
    + apply (cd_building _ _ _ _ _ _ _ _ _ _ _ _ _ _ _ _ _ _ _ Hcd5).
    + apply (cd_sections _ _ _ _ _ _ _ _ _ _ _ _ _ _ _ _ _ _ _ Hcd5).
    + apply (sections_at_keep _ _ _ _ Hst). intros a (x & ->%list_elem_of_singleton & Ha).
      assert (Hs : struct_byte A a) by (clear -Ha; unfold struct_byte, t_stack, sizeof_task_struct in *; lia).
      rewrite Hk5 by (left; split; [done|]; clear -Ha; unfold sizeof_list in *; task_unfold; lia). apply Hm3. intros Hb. assert (Ha' : tf <= a < tf + PGSIZE) by (clear -Hb; unfold sizeof_trap_frame, PGSIZE in *; lia).
      by destruct (Hk1 a Ha').
    + apply (same_pages s _ F A no_bytes E1 T1 E frames _ _ (pr_ranges _ _ _ _ _ _ _ _ _ _ _ Hpar)).
      * eapply Forall_impl; [exact (bd_frames _ _ _ _ _ _ _ _ _ _ _ _ (cd_building _ _ _ _ _ _ _ _ _ _ _ _ _ _ _ _ _ _ _ Hcd5))|].
        by intros p [[? _] _].
      * apply (cd_pages _ _ _ _ _ _ _ _ _ _ _ _ _ _ _ _ _ _ _ Hcd5).
    + apply (cd_list _ _ _ _ _ _ _ _ _ _ _ _ _ _ _ _ _ _ _ Hcd5).
    + apply (cd_rest _ _ _ _ _ _ _ _ _ _ _ _ _ _ _ _ _ _ _ Hcd5).
Qed.

End Theorems.

(** ** Forking a task that was just made *)

Section Made.
Context `{Hw : Platform} {HwOk : PlatformOk Hw} {Ops : PageOps} {HA : PageAllocator Ops}.
Context (s0 : state) (F0 : Z -> Prop) (A B : arena).
Hypothesis Hheap0 : heap_rep s0 F0 (Some A).
Hypothesis Hfits : fits (Some A) sizeof_task_struct.
Hypothesis Hgrows : grows (arena_alloc A sizeof_task_struct) B.

Abbreviation t := (new_address A).

(** The child's own bytes are neither free nor unused. *)
Lemma own_untouched s F pt E T frames n a : building s0 F0 A B no_bytes s F pt E T frames n ->
  struct_byte A a \/ in_frames frames a \/ table_byte T a -> ~ touch F B no_bytes a.
Proof using Hheap0 Hfits Hgrows HwOk.
  intros Hb Ha. pose proof (bd_frames _ _ _ _ _ _ _ _ _ _ _ _ Hb) as Hf. rewrite Forall_forall in Hf.
  assert (Hin : F0 a \/ struct_byte A a).
  { destruct Ha as [Ha|[(p & Hp & Ha)|Ha]]; [by right|left; by apply (Hf p Hp)|left; by apply (bd_tables _ _ _ _ _ _ _ _ _ _ _ _ Hb)]. }
  intros [[Hp|[HF|Hs]]|[]].
  - destruct Ha as [Ha|[(p & Hp' & Ha)|Ha]].
    + by destruct (struct_apart s0 F0 A B Hheap0 Hfits Hgrows a Ha).
    + destruct (Hf p Hp') as [[_ Hn] _]. apply (Hn a Ha). by left.
    + by destruct (vm_table_apart _ _ _ _ _ _ (bd_vm _ _ _ _ _ _ _ _ _ _ _ _ Hb) Ha).
  - destruct Ha as [Ha|[(p & Hp' & Ha)|Ha]].
    + destruct (struct_apart s0 F0 A B Hheap0 Hfits Hgrows a Ha) as [Hn _]. apply Hn. by apply (bd_sub _ _ _ _ _ _ _ _ _ _ _ _ Hb).
    + destruct (Hf p Hp') as [[_ Hn] _]. apply (Hn a Ha). right. by left.
    + by destruct (vm_table_apart _ _ _ _ _ _ (bd_vm _ _ _ _ _ _ _ _ _ _ _ _ Hb) Ha).
  - change (spare B a) in Hs. destruct Hin as [HF|Hst].
    + by destruct (heap_apart s0 F0 A Hheap0 a (heap_spare A B Hgrows a Hs)).
    + destruct (struct_spare s0 F0 A B Hheap0 Hfits Hgrows a Hst) as [_ Hd]. by destruct Hs.
Qed.

Lemma made_forkable s F pt E T frames n p tf pid parent ks sh name lr la :
  building s0 F0 A B no_bytes s F pt E T frames n -> p ∈ frames -> tf ∈ frames -> (14 <= n)%nat ->
  E stack_page = leaf (PGROUNDDOWN p) stack_rwu ->
  fields (mem s) t (stack_fields ++ child_fields pid parent ks tf pt sh) -> list_rep (mem s) (t + t_mem_sections) [] ->
  str_at (mem s) (Ptr (t + t_name)) name -> (length name <= 31)%nat ->
  room B (gross_size sizeof_task_struct + 64) -> creatable s t ->
  list_rep (mem s) (glob s runnable_tasks) lr -> list_rep (mem s) (glob s all_tasks) la ->
  (forall a, list_byte (glob s runnable_tasks) lr a \/ list_byte (glob s all_tasks) la a -> ~ heap_touch F (Some B) a) ->
  (forall a, list_byte (glob s runnable_tasks) lr a -> ~ list_byte (glob s all_tasks) la a) ->
  forkable s F B t pt tf E T [] [] (stack_page, [p]) name lr la.
Proof using Hheap0 Hfits Hgrows HwOk.
  intros Hb Hp Htf Hn HE Hl Hsecs Hname Hlen Hroom Hcr Hrt Hat Hq Hap.
  destruct (struct_ram s0 F0 A B Hheap0 Hfits Hgrows) as [Ht1 Ht2].
  pose proof (own_untouched s F pt E T frames n) as Hown. pose proof (bd_vm _ _ _ _ _ _ _ _ _ _ _ _ Hb) as Hv.
  pose proof (bd_frame s0 F0 A B no_bytes _ _ _ _ _ _ _ p Hb Hp) as Hgp. destruct (frame_bits p Hgp) as [Hp56 Hpg].
  pose proof Hpg as Hpd. rewrite PGROUNDDOWN_eq in Hpd by lia.
  assert (Hf : forall o v, (o, 8%nat, v) ∈ child_fields pid parent ks tf pt sh -> rd64 (mem s) (t + o) = v).
  { intros o v Hin. apply (field_at _ _ _ _ _ _ Hl). by do 2 right. }
  destruct (frame_range tf (bd_frame s0 F0 A B no_bytes _ _ _ _ _ _ _ tf Hb Htf)) as (_ & _ & Htr).
  split.
  - apply (bd_heap _ _ _ _ _ _ _ _ _ _ _ _ Hb).
  - exact Hroom.
  - eapply capacity_le; [|exact (bd_capacity _ _ _ _ _ _ _ _ _ _ _ _ Hb)]. exact Hn.
  - exact Hcr.
  - exact Hv.
  - intros a Ha. apply (Hown a Hb). by right; right.
  - split.
    + done.
    + exact Hsecs.
    + constructor.
    + constructor.
    + apply Hf. unfold child_fields. set_solver.
    + constructor; [|constructor]. rewrite <-!Z.add_assoc. split.
      * rewrite (field_at _ _ _ (t_stack + ms_start) 8 (SHARED_MEMORY - PGSIZE) Hl) by (unfold stack_fields; set_solver). done.
      * rewrite (field_at _ _ _ (t_stack + ms_size) 8 PGSIZE Hl) by (unfold stack_fields; set_solver). done.
    + intros a [Ha|[(x & Hx & _)|(x & Hx & _)]]; [|by apply not_elem_of_nil in Hx..]. apply (Hown a Hb). by left.
    + constructor; [|constructor]. split.
      * done.
      * intros [|k] q Hk; [|done]. injection Hk as <-. simpl fst. change (stack_page + Z.of_nat 0) with stack_page.
        cbv zeta. rewrite HE, Hpg. split; [apply valid_leaf|]. rewrite leaf_flags, leaf_pa by done.
        split; [done|lia].
      * constructor; [|constructor]. split; [done|]. intros a Ha. split; [apply (Hown a Hb); right; left; by exists p|].
        intros Htb. destruct (proj1 (Forall_forall _ _) (bd_frames _ _ _ _ _ _ _ _ _ _ _ _ Hb) p Hp) as [[_ Hnv] _].
        apply (Hnv a Ha). by right; right.
      * apply NoDup_singleton.
    + apply NoDup_singleton.
  - intros i ->%list_elem_of_singleton. by vm_compute.
  - done.
  - split; [apply Hf; unfold child_fields; set_solver|]. unfold ram_range, sizeof_trap_frame, PGSIZE in *. lia.
  - intros a Ha. apply (Hown a Hb). right. left. exists tf. split; [done|]. unfold sizeof_trap_frame, PGSIZE in *. lia.
  - exact Hrt.
  - exact Hat.
  - exact Hq.
  - exact Hap.
Qed.

End Made.

(** [new_task] and [set_stack] make a process that can be forked. *)
Section Ready.
Context `{Hw : Platform} {HwOk : PlatformOk Hw} {Ops : PageOps} {HA : PageAllocator Ops}.

Lemma new_process_ready s0 F0 A name l parent lr la :
  heap_rep s0 F0 (Some A) -> room A (gross_size sizeof_task_struct + (gross_size sizeof_task_struct + 64)) -> capacity F0 27 ->
  str_at (mem s0) name l -> name_apart F0 A no_bytes name l -> (length l <= 31)%nat -> creatable s0 parent ->
  glob s0 next_pid + 1 < 2 ^ 64 ->
  list_rep (mem s0) (glob s0 runnable_tasks) lr -> list_rep (mem s0) (glob s0 all_tasks) la ->
  (forall a, list_byte (glob s0 runnable_tasks) lr a \/ list_byte (glob s0 all_tasks) la a -> ~ heap_touch F0 (Some A) a) ->
  (forall a, list_byte (glob s0 runnable_tasks) lr a -> ~ list_byte (glob s0 all_tasks) la a) ->
  wp (p ← new_task name parent; set_stack p;; mret p) (fun t s => glob s next_pid = glob s0 next_pid + 1 /\
    exists F B pt tf E T p, forkable s F B t pt tf E T [] [] (stack_page, [p]) l lr la) s0.
Proof.
  intros Hheap Hroom Hcap Hstr Hap Hlen Hcr Hpid Hrt Hat Hq Hdis.
  destruct (room_alloc A sizeof_task_struct (gross_size sizeof_task_struct + 64) ltac:(done) Hroom) as [Hfits Hroom1].
  apply wp_bind. eapply wp_mono; [apply (new_task_ok name l parent 16 F0 A no_bytes s0 Hheap Hfits Hcap Hstr Hap); [lia|exact Hcr]|].
  intros t s1 (-> & Hgl1 & F1 & T1 & ks & pt & tf & sh & Hmade & Hb1).
  pose proof (made_fields _ _ _ _ _ _ _ _ _ _ Hheap Hfits Hmade) as Hl. set (B := arena_alloc A sizeof_task_struct) in *.
  assert (Hcd1 : filled s0 F0 A no_bytes (P:=copy_plan s0 A (fun _ => 0)) s1 pt (map_of_new tf sh) [sh; tf; ks] [] []
    s1 B F1 T1 (map_of_new tf sh) [sh; tf; ks] [] [] 17).
  { split; [apply grows_refl|exact Hb1|by eapply made_sections|constructor|done|apply keeps_refl|done|done]. }
  apply wp_bind. eapply wp_mono.
  { apply (set_stack_ok s0 F0 A no_bytes Hheap Hfits _ _ _ _ _ _ _ _ _ _ _ _ _ _ _ 13 tf stack_rwu _ Hcd1 eq_refl Hl);
      [done|done|done|unfold child_fields; set_solver..|done|set_solver|by apply map_of_new_free|by apply not_elem_of_nil]. }
  intros r s2 (_ & Hl2 & _ & Hk2 & p & F2 & T2 & _ & _ & Hcd2). apply wp_ret. pose proof Hcd2 as [_ Hb2 [Hsecs _ _ _] _ _ _ Hgl2 _].
  assert (Hg : forall g, g <> next_pid -> glob s2 g = glob s0 g) by (intros g Hne; rewrite Hgl2, Hgl1; by apply fn_lookup_insert_ne).
  destruct Hcr as [Hc1 Hc2 Hc3 Hc4 Hc5].
  assert (Hpid2 : glob s2 next_pid = glob s0 next_pid + 1) by (rewrite Hgl2, Hgl1, fn_lookup_insert; apply w64_small; lia).
  split; [exact Hpid2|]. exists F2, B, pt, tf, (<[stack_page := leaf (PGROUNDDOWN p) stack_rwu]> (map_of_new tf sh)), T2, p.
  assert (Hth : forall a, heap_touch F2 (Some B) a -> heap_touch F0 (Some A) a).
  { intros a [?|[?|Hs]]; [by left|right; left; by apply (bd_sub _ _ _ _ _ _ _ _ _ _ _ _ Hb2)|right; right].
    by apply (heap_spare A B (grows_refl _)). }
  assert (Hkeep : keeps (fun a => list_byte (glob s0 runnable_tasks) lr a \/ list_byte (glob s0 all_tasks) la a) (mem s0) (mem s2)).
  { apply (keeps_modifies _ _ _ _ (bd_mod _ _ _ _ _ _ _ _ _ _ _ _ Hb2)). intros a Ha [Ht|[]]. by apply (Hq a). }
  destruct (struct_ram s0 F0 A B Hheap Hfits (grows_refl _)) as [Ht1 Ht2].
  apply (made_forkable s0 F0 A B Hheap Hfits (grows_refl _) s2 F2 pt _ T2 _ _ p tf (glob s0 next_pid) parent ks sh l lr la Hb2); rewrite ?(Hg runnable_tasks), ?(Hg all_tasks) by done.
  - by left.
  - set_solver.
  - done.
  - by rewrite fn_lookup_insert.
  - exact Hl2.
  - exact Hsecs.
  - destruct Hmade as (_ & _ & Hn). rewrite take_ge in Hn by lia. apply (name_core A (mem s1)); [done|done|].
    intros a Ha. apply Hk2. destruct Ha as (Hst & Hn1 & Hn2). split; [by left|]. split; [done|]. intros Htf.
    destruct (struct_apart s0 F0 A B Hheap Hfits (grows_refl _) a Hst) as [Hn0 _]. apply Hn0.
    apply (proj1 (Forall_forall _ _) (bd_frames _ _ _ _ _ _ _ _ _ _ _ _ Hb1) tf ltac:(set_solver)). unfold PGSIZE. revert Htf. task_unfold. lia.
  - exact Hlen.
  - exact Hroom1.
  - split; [rewrite Hpid2; lia|unfold PHYSTOP, KERNBASE, sizeof_task_struct in *; lia|by rewrite Hg|done|done].
  - apply (list_keep (mem s0)); [done|]. intros a Ha. apply Hkeep. by left.
  - apply (list_keep (mem s0)); [done|]. intros a Ha. apply Hkeep. by right.
  - intros a Ha Ht. apply (Hq a Ha). auto.
  - exact Hdis.
Qed.

End Ready.


(** The queues are not part of the heap. *)
Lemma heap_rep_glob `{Hw : Platform} {HwOk : PlatformOk Hw} {Ops : PageOps} {HA : PageAllocator Ops} g v s F h :
  g <> block_list_head -> g <> block_list_tail -> heap_rep s F h -> heap_rep (set_glob g v s) F h.
Proof.
  intros H1 H2 [Hp Hh]. split; [exact Hp|]. destruct h; simpl; by rewrite !fn_lookup_insert_ne by done.
Qed.

(** ** An instance: the first process of a booted machine is forked *)

Section Witnesses.
#[local] Existing Instances board board_ok.
#[local] Opaque booted chunk_state.

(** Two empty lists in the image. *)
Definition run_list : Z := 0x80016000.
Definition all_list : Z := 0x80016020.
Definition fork_mem (m : gmap Z Z) : gmap Z Z :=
  wr64 (wr64 (wr64 (wr64 (wr64 (wr64 m run_list NULL) (run_list + 8) NULL) (run_list + 16) 0)
    all_list NULL) (all_list + 8) NULL) (all_list + 16) 0.
Definition fork_base : state :=
  set_glob all_tasks all_list (set_glob runnable_tasks run_list (set_mem (fork_mem (mem chunk_state)) chunk_state)).

Lemma static_apart a : 0x80010080 <= a < 0x80020000 -> ~ heap_touch (without boot_free 0 page) (Some chunk_arena) a.
Proof.
  unfold heap_touch, chunk_arena, without, boot_free. simpl a_block. intros Ha [Hp|[[Hp _]|[Hp _]]].
  - change (heads a) in Hp. unfold heads in Hp. change buddy_pool with 0x80010000 in Hp. lia.
  - lia.
  - unfold page in Hp. lia.
Qed.

Lemma base_heap : heap_rep fork_base (without boot_free 0 page) (Some chunk_arena).
Proof.
  do 2 (apply heap_rep_glob; [done|done|]).
  apply (heap_rep_frame _ _ [(chunk, 104)] chunk_state _ chunk_heap);
    [by intros a Ha| |exact (glob_set_mem _ _)].
  rewrite mem_set_mem. unfold fork_mem.
  modifies_steps; apply static_untouched; unfold run_list, all_list in *; lia.
Qed.

Lemma base_lists : list_rep (mem fork_base) run_list [] /\ list_rep (mem fork_base) all_list [].
Proof.
  unfold fork_base, fork_mem, run_list, all_list, NULL. cbn [mem set_glob set_mem].
  split; apply list_rep_nil; try done; by mem_simp.
Qed.

Lemma base_globals : glob fork_base next_pid = 0 /\ glob fork_base kernel_pagetable = 0 /\
  glob fork_base runnable_tasks = run_list /\ glob fork_base all_tasks = all_list.
Proof. vm_compute. by split_and!. Qed.

#[local] Opaque fork_base.

Lemma base_creatable : creatable fork_base 0.
Proof.
  destruct base_globals as (Hg1 & Hg2 & _). split; [rewrite Hg1; by split|by split|rewrite Hg2; by split|by split|by split].
Qed.

Lemma base_queues a : list_byte run_list [] a \/ list_byte all_list [] a ->
  ~ heap_touch (without boot_free 0 page) (Some chunk_arena) a.
Proof.
  intros Ha. apply static_apart. unfold run_list, all_list.
  destruct Ha as [[Ha|(x & Hx & _)]|[Ha|(x & Hx & _)]]; [|by apply not_elem_of_nil in Hx| |by apply not_elem_of_nil in Hx];
    unfold run_list, all_list, sizeof_list in Ha; lia.
Qed.

Lemma fork_process_copies_witness :
  wp (p ← (p ← new_task (Lit "init") 0; set_stack p;; mret p); fork_process p) (fun r s' => r = 1 /\
    exists s F A task ttf E1 p child pt tf sh ks,
    forked s s' F A task ttf E1 [] (stack_page, [p]) (codes "init") [] [] child pt tf sh ks) fork_base.
Proof.
  destruct base_globals as (Hg1 & _ & Hg3 & Hg4). destruct base_lists as [Hl1 Hl2]. apply wp_bind. eapply wp_mono.
  - apply (new_process_ready fork_base (without boot_free 0 page) chunk_arena (Lit "init") (codes "init") 0 [] []).
    + exact base_heap.
    + done.
    + apply chunk_capacity. lia.
    + split; [repeat constructor; done|done].
    + done.
    + simpl. lia.
    + exact base_creatable.
    + rewrite Hg1. done.
    + by rewrite Hg3.
    + by rewrite Hg4.
    + rewrite Hg3, Hg4. exact base_queues.
    + rewrite Hg3, Hg4. unfold list_byte, run_list, all_list, sizeof_list.
      intros a [Ha|(x & Hx & _)] [Ha2|(y & Hy & _)]; [lia|by apply not_elem_of_nil in Hy|by apply not_elem_of_nil in Hx..].
  - intros t s (Hpid & F & B & pt & tf & E & T & p & Hfo). rewrite Hg1 in Hpid.
    eapply wp_mono; [exact (fork_process_copies s F B t pt tf E T [] [] (stack_page, [p]) (codes "init") [] [] Hfo)|].
    intros r s' (-> & _ & pt' & tf' & sh' & ks' & Hfk). split; [exact Hpid|].
    by exists s, F, B, t, tf, E, p, (new_address B), pt', tf', sh', ks'.
Defined.

End Witnesses.
