(* ===== verification/TaskElf.v ===== *)
(** * Loading a program

    Proofs about [load_elf] of elf.c on a task that [new_task] has made: the
    program headers are read from the image of the ELF file, every PT_LOAD
    segment gets its pages and its memory section. *)

From S2P Require Import Prelude Machine Utility Uart BuddySpec PageAlloc Capacity Kmalloc KmallocProof LinkedList LinkedListProof PageTable PageTableProof Task Process TaskTable UserStack UserMemory UserMemoryTheorems TaskCreate TaskFill.

(** ** The file *)

(** A program header. *)
Record segment := Segment {
  sg_type : Z; sg_flags : Z; sg_offset : Z; sg_vaddr : Z; sg_filesz : Z; sg_memsz : Z
}.

Definition loadable (sg : segment) : bool := sg_type sg =? PT_LOAD.
Definition loads (sgs : list segment) : list segment := base.filter (fun sg => loadable sg = true) sgs.

Lemma loads_app sgs sgs' : loads (sgs ++ sgs') = loads sgs ++ loads sgs'.
Proof. apply filter_app. Qed.

(** The permission of the stack after the headers: executable as soon as there
    is a PT_GNU_STACK header, whatever its flags. *)
Definition stack_header (sg : segment) : bool := sg_type sg =? PT_GNU_STACK.
Definition stack_after (perm : Z) (sgs : list segment) : Z :=
  foldl (fun perm sg => if stack_header sg then Z.lor perm PTE_X else perm) perm sgs.

(** The header at [a]. *)
Record header_at (m : gmap Z Z) (a : Z) (sg : segment) : Prop := {
  ha_type : rd 4 m (a + p_type) = sg_type sg;
  ha_flags : rd 4 m (a + p_flags) = sg_flags sg;
  ha_offset : rd64 m (a + p_offset) = sg_offset sg;
  ha_vaddr : rd64 m (a + p_vaddr) = sg_vaddr sg;
  ha_filesz : rd64 m (a + p_filesz) = sg_filesz sg;
  ha_memsz : rd64 m (a + p_memsz) = sg_memsz sg
}.

(** The pages of a segment: number, and for each page permission and bytes. *)
Definition seg_page (sg : segment) : Z := sg_vaddr sg / PGSIZE.
Definition seg_contents (m : gmap Z Z) (elf : Z) (sg : segment) : list (Z * (Z -> Z)) :=
  (fun k => (section_permission (sg_flags sg),
    fun i => segment_byte m (elf + sg_offset sg) (sg_filesz sg) (k * PGSIZE + i))) <$> seqZ 0 (pages_of (sg_memsz sg)).
Definition seg_range (m : gmap Z Z) (elf : Z) (sg : segment) : Z * list (Z * (Z -> Z)) := (seg_page sg, seg_contents m elf sg).
Definition seg_section (sg : segment) : Z * Z := (sg_vaddr sg, pages_of (sg_memsz sg) * PGSIZE).

(** A segment that fits the file of [size] bytes and the address space. *)
Record seg_ok (size : Z) (sg : segment) : Prop := {
  so_aligned : (4096 | sg_vaddr sg);
  so_vaddr : 0 <= sg_vaddr sg;
  so_sizes : 0 <= sg_filesz sg <= sg_memsz sg;
  so_end : sg_vaddr sg + sg_memsz sg <= MAXVA - PGSIZE;
  so_file : 0 <= sg_offset sg /\ sg_offset sg + sg_filesz sg <= size
}.

(** The ELF file of [size] bytes at [elf]: header, program headers and entry. *)
Record elf_at (m : gmap Z Z) (elf size : Z) (sgs : list segment) (entry : Z) : Prop := {
  el_magic : forall i c, ELFMAG !! i = Some c -> rd8 m (elf + Z.of_nat i) = c;
  el_headers : forall i sg, sgs !! i = Some sg ->
    header_at m (elf + rd64 m (elf + e_phoff) + Z.of_nat i * sizeof_phdr) sg;
  el_count : rd 2 m (elf + e_phnum) = Z.of_nat (length sgs);
  el_entry : rd64 m (elf + e_entry) = entry;
  el_table : rd64 m (elf + e_phoff) + Z.of_nat (length sgs) * sizeof_phdr <= size;
  el_size : 64 <= size;
  el_segments : Forall (seg_ok size) (loads sgs)
}.

(** The permission bits of a segment. *)
Lemma section_permission_range flags : 0 <= section_permission flags < 1024 /\
  Z.lor (section_permission flags) PTE_V <> PTE_V.
Proof.
  unfold section_permission. destruct (truth (Z.land flags PF_R)), (truth (Z.land flags PF_W)), (truth (Z.land flags PF_X));
    by vm_compute.
Qed.

Lemma PGROUNDUP_eq x : 0 <= x < 2 ^ 63 -> PGROUNDUP x = (x + 4095) / 4096 * 4096.
Proof.
  intros Hx. unfold PGROUNDUP, PGSIZE. rewrite w64_small by lia. replace (x + 4096 - 1) with (x + 4095) by lia.
  change (not64 (4096 - 1)) with (not64 (2 ^ 12 - 1)). rewrite (land_not_ones (x + 4095) 12) by lia. change (2 ^ 12) with 4096. pose proof (Z.div_mod (x + 4095) 4096). lia.
Qed.

(** The section of a segment, as the code computes it. *)
Lemma section_size_eq va size : (4096 | va) -> 0 <= va -> 0 <= size -> va + size <= MAXVA ->
  PGROUNDDOWN va = va /\ PGROUNDUP (va +w size) -w va = pages_of size * PGSIZE.
Proof.
  intros [n ->] Hva Hs Hmax. change MAXVA with (2 ^ 38) in Hmax. split.
  - rewrite PGROUNDDOWN_eq, Z.mod_mul by lia. lia.
  - rewrite (w64_small (n * 4096 + size)), PGROUNDUP_eq by lia. unfold pages_of, PGSIZE.
    replace (n * 4096 + size + 4095) with (size + 4096 - 1 + n * 4096) by lia. rewrite Z.div_add by done.
    pose proof (Z.div_mod (size + 4096 - 1) 4096 ltac:(done)). pose proof (Z.mod_pos_bound (size + 4096 - 1) 4096 ltac:(done)).
    rewrite w64_small; lia.
Qed.

Section Load.
Context `{Hw : Platform} {HwOk : PlatformOk Hw} {Ops : PageOps} {HA : PageAllocator Ops}.
Context (s0 : state) (F0 : Z -> Prop) (A : arena) (X : Z -> Prop).
Hypothesis Hheap0 : heap_rep s0 F0 (Some A).
Hypothesis Hfits : fits (Some A) sizeof_task_struct.

Abbreviation t := (new_address A).
Abbreviation grown B := (grows (arena_alloc A sizeof_task_struct) B).

(** The plan of a program: each page has its own permission and bytes; all of
    the structure stays but the permission of the stack. *)
Definition elf_keep (a : Z) : Prop := core_byte A a /\ ~ (t + t_stack_permission <= a < t + t_stack_permission + 8).
Lemma elf_core a : elf_keep a -> core_byte A a.
Proof. by intros [? _]. Qed.
Definition elf_plan : plan A (Z * (Z -> Z)) := Plan A (fun _ c => c) elf_keep elf_core.
Abbreviation loaded := (filled s0 F0 A X (P:=elf_plan)).

(** Bytes of the file are neither free nor of the heap. *)
Lemma file_kept B s F pt E T frames n a k : building s0 F0 A B X s F pt E T frames n ->
  (forall b, a <= b < a + Z.of_nat k -> ~ touch F0 A X b) -> rd k (mem s) a = rd k (mem s0) a.
Proof. intros Hb Ha. exact (modifies_rd _ _ _ _ _ (bd_mod _ _ _ _ _ _ _ _ _ _ _ _ Hb) Ha). Qed.

Lemma segment_byte_kept B s F pt E T frames n src src_size j : building s0 F0 A B X s F pt E T frames n ->
  (forall a, src <= a < src + src_size -> ~ touch F0 A X a) -> 0 <= j ->
  segment_byte (mem s) src src_size j = segment_byte (mem s0) src src_size j.
Proof.
  intros Hb Ha Hj. unfold segment_byte. destruct (Z.ltb_spec j src_size); [|done].
  apply (bd_mod _ _ _ _ _ _ _ _ _ _ _ _ Hb), Ha. lia.
Qed.

(** One segment. *)
Lemma bd_load B s F pt E T frames n n0 src src_size size perm k :
  grown B -> building s0 F0 A B X s F pt E T frames n -> n = (S k + 3 * Z.to_nat (pages_of size))%nat ->
  0 <= n0 -> 0 <= src_size <= size -> n0 * PGSIZE + size <= MAXVA -> 0 <= perm < 1024 -> Z.lor perm PTE_V <> PTE_V ->
  (forall i, n0 <= i < n0 + pages_of size -> valid (E i) = false) ->
  ram_range src src_size -> (forall a, src <= a < src + src_size -> ~ touch F0 A X a) ->
  wp (map_section_for_user pt (n0 * PGSIZE) src src_size size perm) (fun r s' => r = 0 /\ glob s' = glob s /\
    modifies (vm_bytes F T) (mem s) (mem s') /\ exists ps F' T' E',
    building s0 F0 A B X s' F' pt E' T' (ps ++ frames) (S k) /\
    range_filled A (P:=elf_plan) (mem s') E' (ps ++ frames) n0
      ((fun k => (perm, fun i => segment_byte (mem s0) src src_size (k * PGSIZE + i))) <$> seqZ 0 (pages_of size)) ps /\
    (forall i, ~ (n0 <= i < n0 + pages_of size) -> E' i = E i)) s.
Proof using Hheap0 Hfits HwOk.
  intros Hgr Hb -> Hn0 Hsz Hmax Hperm Hpv Hinv Hram Hap.
  assert (Hsrc : forall a, src <= a < src + src_size -> ~ vm_bytes F T a).
  { intros a Ha Hv. apply (Hap a Ha). left. by apply (bd_bytes s0 F0 A B Hheap0 Hfits Hgr X s F pt E T frames _ Hb). }
  eapply wp_mono; [apply (map_section_ok F pt E T n0 src src_size size perm s (bd_vm _ _ _ _ _ _ _ _ _ _ _ _ Hb)); done|].
  intros r s' (F' & T' & ps & (Hregs & HF & Hby & Hm) & Hcost & Hcase).
  destruct (Hcost k (bd_capacity _ _ _ _ _ _ _ _ _ _ _ _ Hb)) as [-> Hcap].
  destruct Hcase as [[_ (Hlen & _ & Hat & Hnd & Hfr)]|[[=] _]].
  split; [done|]. split; [by destruct Hregs|]. split; [done|]. exists ps, F', T', (pages_mapped E n0 ps perm).
  pose proof (bd_frames _ _ _ _ _ _ _ _ _ _ _ _ Hb) as Hf0. rewrite Forall_forall in Hf0.
  assert (Hps : forall p, p ∈ ps -> user_frame F' T' p /\ forall a, p <= a < p + PGSIZE -> F a).
  { intros p [j Hj]%list_elem_of_lookup. by destruct (Hfr j p Hj) as (? & ? & _). }
  pose proof (bd_step s0 F0 A B Hheap0 Hfits Hgr X s F pt E T frames _ s' F' _ T' (S k) Hb Hregs Hm HF Hby Hat Hcap) as Hb'.
  split; [|split; [split|]].
  - apply (bd_more s0 F0 A X B s' F' pt _ T' frames (S k) F ps Hb' (bd_sub _ _ _ _ _ _ _ _ _ _ _ _ Hb) Hnd Hps).
    intros p a Hp Ha HF1. destruct (Hf0 p Hp) as [[_ Hn] _]. apply (Hn a Ha). by right; left.
  - rewrite length_fmap, length_seqZ. lia.
  - intros j c p Hc Hp. apply list_lookup_fmap_Some in Hc as (i & -> & [-> Hij]%lookup_seqZ). simpl pl_image. cbn [fst snd].
    destruct (Hps p ltac:(by apply list_elem_of_lookup_2 with j)) as [[Hg _] _]. destruct (Hfr j p Hp) as (_ & _ & Hc).
    split; [apply elem_of_app; left; by apply list_elem_of_lookup_2 with j|]. split.
    + destruct (translate_mapped E n0 ps perm j p 0 Hperm Hg Hp) as [_ ->]; [unfold PGSIZE; lia|done].
    + intros i Hi. rewrite Hc by done. rewrite filled_byte_placed, Z.sub_0_r by (done || lia || by left). apply (segment_byte_kept _ _ _ _ _ _ _ _ _ _ _ Hb Hap). unfold PGSIZE. lia.
  - intros i Hi. unfold pages_mapped. destruct (Z.leb_spec n0 i); [|done]. by rewrite lookup_ge_None_2 by lia.
Qed.

(** The file, and the task that is loaded. *)
Context (elf size entry : Z) (sgs : list segment).
Hypothesis Helf : elf_at (mem s0) elf size sgs entry.
Hypothesis Hram : ram_range elf size.
Hypothesis Hap : forall a, elf <= a < elf + size -> ~ touch F0 A X a.
Context (s1 : state) (pt tf perm0 : Z) (E0 : Z -> Z) (frames0 : list Z).
Hypothesis Hpt : rd64 (mem s1) (t + t_pagetable) = pt.
Hypothesis Htf : rd64 (mem s1) (t + t_trap_frame) = tf.
Hypothesis Hin : tf ∈ frames0.
Abbreviation phdr_offset := (rd64 (mem s0) (elf + e_phoff)).
Abbreviation phdr := (elf + phdr_offset).
Abbreviation ranges := (fmap (seg_range (mem s0) elf)).
Hypothesis Hfree : forall i, i ∈ pages (ranges (loads sgs)) -> valid (E0 i) = false.
Hypothesis Hdisjoint : NoDup (pages (ranges (loads sgs))).

Lemma phdr_range k sg : sgs !! k = Some sg ->
  elf <= phdr + Z.of_nat k * sizeof_phdr /\ phdr + Z.of_nat k * sizeof_phdr + sizeof_phdr <= elf + size /\
  (elf +w rd64 (mem s0) (elf + e_phoff)) +w Z.of_nat k * sizeof_phdr = phdr + Z.of_nat k * sizeof_phdr.
Proof using Helf Hram.
  intros Hk%lookup_lt_Some. pose proof (el_table _ _ _ _ _ Helf) as Ht. destruct Hram as (H1 & H2 & _).
  pose proof (rd64_range (mem s0) (elf + e_phoff)). unfold sizeof_phdr, PHYSTOP, KERNBASE in *.
  rewrite (w64_small (elf + rd64 _ _)) by lia. rewrite w64_small by lia. lia.
Qed.

Lemma header_kept B s F pt' E T frames n k sg : building s0 F0 A B X s F pt' E T frames n -> sgs !! k = Some sg ->
  header_at (mem s) (phdr + Z.of_nat k * sizeof_phdr) sg.
Proof using Helf Hram Hap.
  intros Hb Hk. destruct (phdr_range k sg Hk) as (H1 & H2 & _). unfold sizeof_phdr in *.
  destruct (el_headers _ _ _ _ _ Helf k sg Hk) as [Hh1 Hh2 Hh3 Hh4 Hh5 Hh6].
  split; [rewrite <-Hh1|rewrite <-Hh2|rewrite <-Hh3|rewrite <-Hh4|rewrite <-Hh5|rewrite <-Hh6];
    apply (file_kept _ _ _ _ _ _ _ _ _ _ Hb); intros b Hb'; apply Hap;
    unfold p_type, p_flags, p_offset, p_vaddr, p_filesz, p_memsz in *; lia.
Qed.

(** A loadable segment [k]: its pages are new. *)
Lemma segment_new k sg : sgs !! k = Some sg -> loadable sg = true -> seg_ok size sg /\
  loads (take (S k) sgs) = loads (take k sgs) ++ [sg] /\ loads (drop k sgs) = sg :: loads (drop (S k) sgs) /\
  forall i, seg_page sg <= i < seg_page sg + pages_of (sg_memsz sg) ->
    i ∉ pages (ranges (loads (take k sgs))) /\ i ∈ pages (ranges (loads sgs)).
Proof using Helf Hdisjoint.
  intros Hk Hl. assert (Hd : loads (drop k sgs) = sg :: loads (drop (S k) sgs)).
  { rewrite (drop_S _ _ _ Hk). unfold loads. by rewrite filter_cons_True. }
  assert (Hs : loads sgs = loads (take k sgs) ++ [sg] ++ loads (drop (S k) sgs)).
  { rewrite <-(take_drop k sgs) at 1. by rewrite loads_app, Hd. }
  split.
  { apply (proj1 (Forall_forall _ _) (el_segments _ _ _ _ _ Helf)). rewrite Hs. apply elem_of_app. right. by left. }
  split; [|split; [done|]].
  { rewrite (take_S_r _ _ _ Hk), loads_app. f_equal. unfold loads. by rewrite filter_cons_True. }
  intros i Hi. assert (Hi1 : i ∈ pages (ranges [sg])).
  { apply (pages_one (seg_range (mem s0) elf sg)). simpl. unfold seg_contents. rewrite length_fmap, length_seqZ. lia. }
  pose proof Hdisjoint as Hnd. rewrite Hs, !fmap_app, !pages_app in Hnd |- *. apply NoDup_app in Hnd as (_ & Hn & _). split.
  - intros Hi2. apply (Hn i Hi2). apply elem_of_app. by left.
  - apply elem_of_app. right. apply elem_of_app. by left.
Qed.

Lemma segment_other k sg : sgs !! k = Some sg -> loadable sg = false ->
  loads (take (S k) sgs) = loads (take k sgs) /\ loads (drop k sgs) = loads (drop (S k) sgs).
Proof.
  intros Hk Hl. rewrite (take_S_r _ _ _ Hk), loads_app, (drop_S _ _ _ Hk). unfold loads.
  rewrite !filter_cons_False by (by rewrite Hl). by rewrite app_nil_r.
Qed.

(** After [k] headers, with [c] pairs of pages and [m] bytes of the heap to spare. *)
Definition segments_loaded (c : nat) (m : Z) (k : nat) (s : state) : Prop := exists B F T E frames l pss,
  loaded s1 pt E0 frames0 (ranges (loads (take k sgs))) (seg_section <$> loads (take k sgs)) s B F T E frames l pss
    (S c + 3 * length (pages (ranges (loads (drop k sgs))))) /\
  room B (64 * Z.of_nat (length (loads (drop k sgs))) + m) /\
  rd64 (mem s) (t + t_stack_permission) = stack_after perm0 (take k sgs).

(** Fields that stay. *)
Lemma kept_word rs secs s B F T E frames l pss n o : loaded s1 pt E0 frames0 rs secs s B F T E frames l pss n ->
  o = t_pagetable \/ o = t_trap_frame -> rd64 (mem s) (t + o) = rd64 (mem s1) (t + o).
Proof.
  intros Hcd Ho. apply (keeps_rd _ _ _ _ _ (cd_core _ _ _ _ _ _ _ _ _ _ _ _ _ _ _ _ _ _ _ Hcd)). intros b Hb. simpl pl_keep.
  unfold elf_keep, core_byte, struct_byte, sizeof_list, sizeof_memory_section. task_unfold. lia.
Qed.

(** The permission of the stack. *)
Lemma permission_step rs secs s B F T E frames l pss n v : loaded s1 pt E0 frames0 rs secs s B F T E frames l pss n ->
  loaded s1 pt E0 frames0 rs secs (set_mem (wr64 (mem s) (t + t_stack_permission) v) s) B F T E frames l pss n.
Proof using Hheap0 Hfits HwOk.
  intros Hcd.
  apply (struct_step s0 F0 A X Hheap0 Hfits (fun a => t + t_stack_permission <= a < t + t_stack_permission + 8) _ _ _ _ _ _ _ _ _ _ _ _ _ _ _ _ Hcd (same_regs_set_mem _ _)).
  - intros a Ha. simpl pl_keep. unfold elf_keep, core_byte, struct_byte, sizeof_list, sizeof_memory_section. task_unfold. lia.
  - apply modifies_wr. simpl. lia.
Qed.

(** The permission that the first [k] headers ask for survives the pages and the lists. *)
Lemma stack_after_snoc k sg : sgs !! k = Some sg ->
  stack_after perm0 (take (S k) sgs) = if stack_header sg then Z.lor (stack_after perm0 (take k sgs)) PTE_X else stack_after perm0 (take k sgs).
Proof. intros Hk. unfold stack_after. by rewrite (take_S_r _ _ _ Hk), foldl_app. Qed.

(** A PT_GNU_STACK header. *)
Lemma stack_header_ok {C} c m k sg s (j : M C) Q :
  sgs !! k = Some sg -> loadable sg = false -> segments_loaded c m k s ->
  (forall s', segments_loaded c m (S k) s' -> wp j Q s') ->
  wp ((if sg_type sg =? PT_GNU_STACK then
         perm ← load64 (t + t_stack_permission);
         store64 (t + t_stack_permission) (Z.lor perm PTE_X)
       else mret tt);; j) Q s.
Proof using Hheap0 Hfits HwOk.
  intros Hk Hl (B & F & T & E & frames & l & pss & Hcd & Hroom & Hperm) HQ. destruct (segment_other k sg Hk Hl) as [Hl1 Hl2].
  destruct (struct_ram s0 F0 A B Hheap0 Hfits (cd_grown _ _ _ _ _ _ _ _ _ _ _ _ _ _ _ _ _ _ _ Hcd)) as [Ht1 Ht2].
  pose proof (stack_after_snoc k sg Hk) as Hs. unfold stack_header in Hs. rewrite Hl2 in Hcd, Hroom. rewrite <-Hl1 in Hcd.
  wp_step. destruct (sg_type sg =? PT_GNU_STACK).
  - wp_task. wp_task. wp_task. rewrite Hperm. set (v := Z.lor _ PTE_X) in *. apply HQ. exists B, F, T, E, frames, l, pss.
    split; [by apply permission_step|]. split; [done|]. cbn [mem set_mem]. rewrite Hs. apply rd64_wr64_same.
    unfold v. rewrite <-Hperm. pose proof (rd64_range (mem s) (t + t_stack_permission)) as Hr. apply (lor_range _ _ 64); [done|exact Hr|by vm_compute].
  - wp_step. apply HQ. exists B, F, T, E, frames, l, pss. rewrite Hs. done.
Qed.

(** The pages of a segment. *)
Lemma section_step c rs secs s B F T E frames l pss sg :
  loaded s1 pt E0 frames0 rs secs s B F T E frames l pss (S c + 3 * Z.to_nat (pages_of (sg_memsz sg))) -> seg_ok size sg ->
  (forall i, seg_page sg <= i < seg_page sg + pages_of (sg_memsz sg) -> i ∉ pages rs /\ valid (E0 i) = false) ->
  wp (map_section_for_user pt (sg_vaddr sg) (elf + sg_offset sg) (sg_filesz sg) (sg_memsz sg) (section_permission (sg_flags sg)))
    (fun r s' => r = 0 /\ keeps (core_byte A) (mem s) (mem s') /\ exists ps F' T' E',
      loaded s1 pt E0 frames0 (rs ++ [seg_range (mem s0) elf sg]) secs s' B F' T' E' (ps ++ frames) l (pss ++ [ps]) (S c)) s.
Proof using Hheap0 Hfits HwOk Hram Hap.
  intros Hcd [[n0 Hal] Hva Hsz Hend Hfile] Hnew. pose proof Hcd as [Hgr Hb _ _ Hrest _ _ _]. destruct Hram as (Hr1 & Hr2 & _).
  assert (Hpg : seg_page sg = n0) by (unfold seg_page, PGSIZE; rewrite Hal; by apply Z.div_mul). rewrite Hpg in Hnew.
  destruct (section_permission_range (sg_flags sg)) as [Hp1 Hp2].
  assert (Hlen : Z.of_nat (length (seg_contents (mem s0) elf sg)) = pages_of (sg_memsz sg)).
  { unfold seg_contents. rewrite length_fmap, length_seqZ. pose proof (pages_of_spec (sg_memsz sg) 0 ltac:(lia)). lia. }
  rewrite Hal. eapply wp_mono.
  { apply (bd_load B s F pt E T frames _ n0 (elf + sg_offset sg) (sg_filesz sg) (sg_memsz sg) (section_permission (sg_flags sg)) c Hgr Hb eq_refl);
      [lia|done|unfold PGSIZE in *; lia|done|done| |unfold ram_range; lia|intros a Ha; apply Hap; lia].
    intros i Hi. destruct (Hnew i Hi) as [Hn Hv]. by rewrite Hrest. }
  intros r s' (-> & Hg & Hm & ps & F' & T' & E' & Hb' & Hrc & HE). split; [done|]. split.
  { apply (keeps_modifies _ _ _ _ Hm). intros a [Ha _] Hv.
    destruct (bd_bytes s0 F0 A B Hheap0 Hfits Hgr X s F pt E T frames _ Hb a Hv) as (_ & Hn & _).
    by apply Hn, (struct_child s0 F0 A B Hheap0 Hfits Hgr). }
  exists ps, F', T', E'. unfold seg_range. rewrite Hpg.
  apply (fill_step s0 F0 A X Hheap0 Hfits s1 pt E0 frames0 rs secs s s' B F T E frames l pss _ n0 (seg_contents (mem s0) elf sg) ps F' T' E' _ Hcd Hg Hm Hb' Hrc); rewrite Hlen.
  - exact HE.
  - intros i Hi. by apply (Hnew i).
Qed.

(** The part of the loop body for a PT_LOAD header. *)
Lemma load_part_ok c m k sg s : 0 <= m -> sgs !! k = Some sg -> loadable sg = true -> segments_loaded c m k s ->
  let a := phdr + Z.of_nat k * sizeof_phdr in
  wp (off ← load64 (a + p_offset);
      let src_addr := elf +w off in
      va ← load64 (a + p_vaddr);
      size ← load64 (a + p_memsz);
      src_size ← load64 (a + p_filesz);
      let section_start := PGROUNDDOWN va in
      let section_size := PGROUNDUP (va +w size) -w section_start in
      flags ← load32 (a + p_flags);
      pt ← load64 (t + t_pagetable);
      r ← map_section_for_user pt va src_addr src_size size (section_permission flags);
      if negb (r =? 0) then mret (Some (-1))
      else
        r ← register_memory_section t section_start section_size;
        if truth r then
          pt ← load64 (t + t_pagetable);
          free_memory pt va section_size;;
          mret (Some (-1))
        else mret None) (fun r s' => r = None /\ segments_loaded c m (S k) s') s.
Proof.
  intros Hm Hk Hl (B & F & T & E & frames & l & pss & Hcd & Hroom & Hperm) a.
  pose proof (cd_building _ _ _ _ _ _ _ _ _ _ _ _ _ _ _ _ _ _ _ Hcd) as Hb. pose proof (cd_grown _ _ _ _ _ _ _ _ _ _ _ _ _ _ _ _ _ _ _ Hcd) as Hgr.
  destruct (header_kept B s F pt E T frames _ k sg Hb Hk) as [_ Hh2 Hh3 Hh4 Hh5 Hh6]. fold a in Hh2, Hh3, Hh4, Hh5, Hh6.
  destruct (phdr_range k sg Hk) as (Ha1 & Ha2 & _). fold a in Ha1, Ha2. unfold sizeof_phdr in Ha2.
  destruct (struct_ram s0 F0 A B Hheap0 Hfits Hgr) as [Ht1 Ht2]. pose proof Hram as (Hr1 & Hr2 & Hr3).
  destruct (segment_new k sg Hk Hl) as (Hok & Hl1 & Hl2 & Hnew). pose proof Hok as [Hal Hva Hsz Hend Hfile].
  change MAXVA with (2 ^ 38) in Hend. unfold PGSIZE in Hend.
  destruct (section_size_eq (sg_vaddr sg) (sg_memsz sg)) as [Hs1 Hs2]; [done|done|lia|change MAXVA with (2 ^ 38); lia|].
  unfold p_offset, p_vaddr, p_memsz, p_filesz, p_flags in *.
  wp_task. wp_task. wp_task. wp_task. wp_task. wp_task. wp_task. wp_task. wp_task. wp_task. wp_task. wp_task.
  rewrite Hh2, Hh3, Hh4, Hh5, Hh6, (kept_word _ _ _ _ _ _ _ _ _ _ _ _ Hcd), Hpt by (by left).
  rewrite (w64_small (elf + sg_offset sg)) by (unfold PHYSTOP, KERNBASE in *; lia). cbv zeta. rewrite Hs1, Hs2.
  assert (Hpg : forall sg sgs', length (pages (ranges (sg :: sgs'))) =
    (Z.to_nat (pages_of (sg_memsz sg)) + length (pages (ranges sgs')))%nat).
  { intros sg' sgs'. rewrite fmap_cons. change (?x :: ?l) with ([x] ++ l) at 1. rewrite pages_app, length_app. f_equal.
    unfold pages, seg_range, seg_contents. simpl. rewrite app_nil_r, length_seqZ, length_fmap, length_seqZ. lia. }
  rewrite Hl2, Hpg in Hcd. set (rest := length (pages (ranges (loads (drop (S k) sgs))))) in *.
  replace (S c + 3 * (Z.to_nat (pages_of (sg_memsz sg)) + rest))%nat
    with (S (c + 3 * rest) + 3 * Z.to_nat (pages_of (sg_memsz sg)))%nat in Hcd by lia.
  wp_step. eapply wp_mono.
  { apply (section_step (c + 3 * rest) _ _ s B F T E frames l pss sg Hcd Hok). intros i Hi. destruct (Hnew i Hi). split; [done|by apply Hfree]. }
  intros r s2 (-> & Hk2 & ps & F2 & T2 & E2 & Hcd2). change (negb (0 =? 0)) with false. cbv iota.
  wp_step. eapply wp_mono.
  { apply (register_step s0 F0 A X Hheap0 Hfits s1 pt E0 frames0 _ _ s2 B F2 T2 E2 _ l _ _ (sg_vaddr sg) (pages_of (sg_memsz sg) * PGSIZE) Hcd2).
    - eapply room_le; [|exact Hroom]. rewrite Hl2. simpl length. lia.
    - lia.
    - destruct (pages_of_spec (sg_memsz sg) (pages_of (sg_memsz sg) - 1) ltac:(lia)) as [Hps1 Hps2]. unfold PGSIZE in *. lia. }
  intros r2 s3 (-> & B3 & x3 & d3 & Hroom3 & Hk3 & Hcd3). change (truth 0) with false. cbv iota. wp_step. split; [done|].
  exists B3, F2, T2, E2, (ps ++ frames), (l ++ [(x3, d3)]), (pss ++ [ps]). split; [|split].
  - rewrite Hl1, !fmap_app. fold rest. replace (S c + 3 * rest)%nat with (S (c + 3 * rest)) by lia. exact Hcd3.
  - apply Hroom3; [lia|]. eapply room_le; [|exact Hroom]. rewrite Hl2. simpl length. lia.
  - rewrite (stack_after_snoc k sg Hk). unfold stack_header. unfold loadable in Hl. apply Z.eqb_eq in Hl as ->.
    change (PT_LOAD =? PT_GNU_STACK) with false. cbv iota. rewrite <-Hperm.
    apply (keeps_rd _ _ _ _ _ (keeps_trans _ _ _ _ Hk2 (own_core _ _ _ _ Hk3))). intros b Hb'.
    unfold core_byte, struct_byte, sizeof_list, sizeof_memory_section. task_unfold. lia.
Qed.

(** One program header. *)
Lemma segment_turn_ok c m k sg s : 0 <= m -> sgs !! k = Some sg -> segments_loaded c m k s ->
  wp (load_segment elf ((elf +w phdr_offset) +w Z.of_nat k * sizeof_phdr) t)
    (fun r s' => r = None /\ segments_loaded c m (S k) s') s.
Proof using Hheap0 Hfits HwOk Helf Hram Hap Hpt Hfree Hdisjoint.
  intros Hm Hk Hs. destruct (phdr_range k sg Hk) as (Ha1 & Ha2 & ->). pose proof Hram as (Hr1 & Hr2 & _).
  set (a := phdr + Z.of_nat k * sizeof_phdr) in *. unfold sizeof_phdr in Ha2.
  assert (Htype : forall k' s', segments_loaded c m k' s' -> rd 4 (mem s') (a + p_type) = sg_type sg).
  { intros k' s' (B & F & T & E & frames & l & pss & Hcd & _).
    by destruct (header_kept B s' F pt E T frames _ k sg (cd_building _ _ _ _ _ _ _ _ _ _ _ _ _ _ _ _ _ _ _ Hcd) Hk). }
  unfold load_segment. unfold p_type in *. wp_task. wp_task. rewrite (Htype k s Hs).
  destruct (loadable sg) eqn:Hl.
  - pose proof Hl as Hty. unfold loadable in Hty. apply Z.eqb_eq in Hty.
    rewrite Hty. change (PT_LOAD =? PT_GNU_STACK) with false. cbv iota. wp_step. wp_step. wp_task. wp_task.
    rewrite (Htype k s Hs), Hty, Z.eqb_refl. cbv iota beta delta [negb]. by apply (load_part_ok c m k sg s).
  - apply (stack_header_ok c m k sg s _ _ Hk Hl Hs). intros s' Hs'. wp_task. wp_task. rewrite (Htype _ _ Hs').
    unfold loadable in Hl. rewrite Hl. cbv iota beta delta [negb]. wp_step. by split.
Qed.

(** The magic number. *)
Lemma magic_ok magic a s (Q : Z -> state -> Prop) : KERNBASE <= a -> a + Z.of_nat (length magic) <= PHYSTOP ->
  (forall i c, magic !! i = Some c -> rd8 (mem s) (a + Z.of_nat i) = c) -> Q 0 s ->
  wp (check_elf_magic_from a magic) Q s.
Proof.
  revert a. induction magic as [|c magic IH]; intros a H1 H2 Hb HQ; [exact HQ|]. simpl in H2. simpl check_elf_magic_from.
  wp_ram. wp_ram. specialize (Hb 0%nat c eq_refl) as H0. rewrite Z.add_0_r in H0.
  assert (Hrd : rd 1 (mem s) a = c) by (change (rd 1 (mem s) a) with (rd8 (mem s) a + 256 * 0); lia).
  rewrite Hrd, Z.eqb_refl. cbv iota beta delta [negb]. unfold PHYSTOP, KERNBASE in *. rewrite w64_small by lia.
  apply IH; [unfold KERNBASE; lia|unfold PHYSTOP, KERNBASE; lia| |exact HQ].
  intros i d Hi. rewrite <-(Hb (S i) d Hi). f_equal. lia.
Qed.

(** The entry point, after the headers. *)
Lemma entry_ok {C} c m s (j : M C) Q : segments_loaded c m (length sgs) s ->
  (forall s', (exists B F T E frames l pss,
      loaded s1 pt E0 frames0 (ranges (loads sgs)) (seg_section <$> loads sgs) s' B F T E frames l pss (S c) /\ room B m /\
      rd64 (mem s') (t + t_stack_permission) = stack_after perm0 sgs /\ rd64 (mem s') (tf + tf_epc) = entry) -> wp j Q s') ->
  wp (tf ← load64 (t + t_trap_frame); entry ← load64 (elf + e_entry); store64 (tf + tf_epc) entry;; j) Q s.
Proof using Hheap0 Hfits HwOk Helf Hram Hap Htf Hin.
  intros (B & F & T & E & frames & l & pss & Hcd & Hroom & Hperm) HQ. pose proof Hram as (Hr1 & Hr2 & _).
  pose proof (el_size _ _ _ _ _ Helf) as Hsz. pose proof (el_entry _ _ _ _ _ Helf) as He.
  rewrite drop_ge in Hcd, Hroom by lia. rewrite take_ge in Hcd, Hperm by lia.
  pose proof (cd_building _ _ _ _ _ _ _ _ _ _ _ _ _ _ _ _ _ _ _ Hcd) as Hb. pose proof (cd_grown _ _ _ _ _ _ _ _ _ _ _ _ _ _ _ _ _ _ _ Hcd) as Hgr.
  destruct (struct_ram s0 F0 A B Hheap0 Hfits Hgr) as [Ht1 Ht2].
  pose proof (cd_frames _ _ _ _ _ _ _ _ _ _ _ _ _ _ _ _ _ _ _ Hcd tf Hin) as Hin'.
  destruct (proj1 (Forall_forall _ _) (bd_frames _ _ _ _ _ _ _ _ _ _ _ _ Hb) tf Hin') as [[Hg _] HF].
  destruct (frame_range tf Hg) as (Htf1 & Htf2 & Htr). unfold ram_range, PGSIZE in Htr. unfold e_entry in *.
  wp_task. wp_task. rewrite (kept_word _ _ _ _ _ _ _ _ _ _ _ _ Hcd), Htf by (by right).
  wp_task. wp_task. rewrite (file_kept B s F pt E T frames _ (elf + 24) 8 Hb) by (intros b Hb'; apply Hap; lia).
  rewrite He. wp_step. wp_task. apply HQ. exists B, F, T, E, frames, l, pss. split; [|split; [eapply room_le; [|exact Hroom]; simpl; lia|split]].
  - apply (frame_step s0 F0 A X Hheap0 Hfits s1 pt E0 frames0 _ _ s _ B F T E frames l pss (S c) tf); [|done|apply same_regs_set_mem|].
    + by replace (S c) with (S c + 3 * length (pages (ranges (loads []))))%nat by (simpl; lia).
    + apply modifies_wr. unfold PGSIZE. task_unfold. simpl. lia.
  - rewrite <-Hperm. cbn [mem set_mem]. apply rd64_wr64_out.
    assert (Hd : forall b, t + t_stack_permission <= b < t + t_stack_permission + 8 -> ~ (tf <= b < tf + PGSIZE)).
    { intros b Hb' Htb. destruct (struct_apart s0 F0 A B Hheap0 Hfits Hgr b) as [Hn _]; [unfold struct_byte; task_unfold; lia|].
      by apply Hn, HF. }
    pose proof (sep_apart _ 8 tf PGSIZE ltac:(done) ltac:(done) Hd) as Hsep. unfold sep, PGSIZE in Hsep. task_unfold. lia.
  - cbn [mem set_mem]. apply rd64_wr64_same. rewrite <-He. apply rd64_range.
Qed.

(** The whole file. *)
Lemma load_elf_ok c m s : 0 <= m -> segments_loaded c m 0 s ->
  wp (load_elf elf t) (fun r s' => r = 0 /\ exists B F T E frames l pss,
    loaded s1 pt E0 frames0 (ranges (loads sgs)) (seg_section <$> loads sgs) s' B F T E frames l pss (S c) /\ room B m /\
    rd64 (mem s') (t + t_stack_permission) = stack_after perm0 sgs /\ rd64 (mem s') (tf + tf_epc) = entry) s.
Proof using Hheap0 Hfits HwOk Helf Hram Hap Hpt Htf Hin Hfree Hdisjoint.
  intros Hm Hs. pose proof Hram as (Hr1 & Hr2 & _). pose proof (el_size _ _ _ _ _ Helf) as Hsz.
  assert (Hfile : forall k' s' n o, segments_loaded c m k' s' -> 0 <= o -> o + Z.of_nat n <= 64 ->
    rd n (mem s') (elf + o) = rd n (mem s0) (elf + o)).
  { intros k' s' n o (B & F & T & E & frames & l & pss & Hcd & _) Ho1 Ho2.
    apply (file_kept B s' F pt E T frames _ _ _ (cd_building _ _ _ _ _ _ _ _ _ _ _ _ _ _ _ _ _ _ _ Hcd)). intros b Hb. apply Hap. lia. }
  unfold load_elf, check_elf_magic. wp_step. apply magic_ok; [lia|simpl; lia| |].
  { intros i ch Hi. pose proof (lookup_lt_Some _ _ _ Hi) as Hi'. simpl in Hi'. rewrite <-(el_magic _ _ _ _ _ Helf i ch Hi).
    pose proof (Hfile 0%nat s 1%nat (Z.of_nat i) Hs ltac:(lia) ltac:(lia)) as H1. change (rd 1 ?m ?a) with (rd8 m a + 256 * 0) in H1. lia. }
  change (negb (0 =? 0)) with false. cbv iota. unfold e_phoff, e_phnum, e_entry in *. wp_task. wp_task.
  rewrite (Hfile 0%nat s 8%nat 32 Hs) by lia. cbv zeta.
  apply (wp_loop (fun n i s' => exists k, (k <= length sgs)%nat /\ i = Z.of_nat k /\ n = Z.of_nat (length sgs - k) /\ segments_loaded c m k s')
    (Z.of_nat (length sgs))).
  - exists 0%nat. split; [lia|]. split; [done|]. split; [lia|done].
  - pose proof (el_count _ _ _ _ _ Helf) as Hc. pose proof (rd_range 2 (mem s0) (elf + e_phnum)). lia.
  - intros n i s' (k & Hk & -> & -> & Hsk). split; [lia|]. wp_task. wp_task.
    rewrite (Hfile k s' 2%nat 56 Hsk) by lia. pose proof (el_count _ _ _ _ _ Helf) as Hc. unfold e_phnum in Hc. rewrite Hc.
    destruct (Z.ltb_spec (Z.of_nat k) (Z.of_nat (length sgs))) as [Hlt|Hge].
    + destruct (lookup_lt_is_Some_2 sgs k ltac:(lia)) as [sg Hsg]. wp_step.
      eapply wp_mono; [exact (segment_turn_ok c m k sg s' Hm Hsg Hsk)|]. intros r s2 (-> & Hs2). wp_step.
      exists (Z.of_nat (length sgs - S k)). split; [lia|]. exists (S k). split; [lia|]. split; [lia|]. split; [done|exact Hs2].
    + assert (k = length sgs) as -> by lia.
      apply (entry_ok c m s' _ _ Hsk). intros s2 H2. wp_step. by split.
Qed.

End Load.
