(* ===== verification/TaskElfTheorems.v ===== *)
(** * Theorems on loading a program

    [load_elf] of elf.c, on a task that [new_task] of process.c has just made. *)

From S2P Require Import Prelude Machine Board Utility Uart BuddySpec PageAlloc Capacity Buddy BuddyInstance BuddyTheorems Kmalloc KmallocProof KmallocTheorems LinkedList LinkedListProof LinkedListTheorems PageTable PageTableProof Task Process TaskTable UserStack UserMemory UserMemoryTheorems UserCopyTheorems TaskCreate TaskCreateTheorems TaskFill TaskForkTheorems TaskElf.

(** Page [j] of the segment [sg]: mapped with the permission of the segment; the
    program reads there the bytes of the file, and zeros behind them. *)
Definition segment_page (m m' : gmap Z Z) (E : Z -> Z) (elf : Z) (sg : segment) (j : Z) : Prop :=
  let n := seg_page sg + j in
  valid (E n) = true /\ PTE_FLAGS (E n) = Z.lor (section_permission (sg_flags sg)) PTE_V /\
  forall i, 0 <= i < PGSIZE ->
    user_byte m' E (n * PGSIZE + i) = segment_byte m (elf + sg_offset sg) (sg_filesz sg) (j * PGSIZE + i).

(** The pages of the segments. *)
Definition segment_pages (m : gmap Z Z) (elf : Z) (sgs : list segment) : list Z := pages (seg_range m elf <$> loads sgs).

Section Theorems.
Context `{Hw : Platform} {HwOk : PlatformOk Hw} {Ops : PageOps} {HA : PageAllocator Ops}.

(** The fields of the task that come from [new_task] and stay. *)
Definition task_fields (pid parent ks tf pt sh : Z) : list (Z * nat * Z) :=
  [(t_shared_memory, 8%nat, sh); (t_context + context_ra, 8%nat, user_trap_return_addr);
   (t_context + context_sp, 8%nat, ks +w PGSIZE); (t_parent, 8%nat, parent); (t_pid, 8%nat, pid);
   (t_state, 4%nat, RUNNABLE); (t_trap_frame, 8%nat, tf); (t_pagetable, 8%nat, pt); (t_kernel_stack, 8%nat, ks)].

(** The program [sgs] with the entry point [entry] is in the memory of the task. *)
Record program_loaded (s s' : state) (F : Z -> Prop) (A : arena) (parent elf entry : Z) (sgs : list segment)
    (name : list Z) (pt tf sh ks : Z) : Prop := {
  pg_fields : fields (mem s') (new_address A) (task_fields (glob s next_pid) parent ks tf pt sh);
  pg_name : str_at (mem s') (Ptr (new_address A + t_name)) name;
  pg_stack : rd64 (mem s') (new_address A + t_stack_permission) = stack_after stack_rwu sgs;
  pg_entry : rd64 (mem s') (tf + tf_epc) = entry;
  pg_memory : exists B F' T E frames l ps,
    building s F A B no_bytes s' F' pt E T frames 1 /\ child_sections A s' B l (seg_section <$> loads sgs) /\
    Forall (fun sg => forall j, 0 <= j < pages_of (sg_memsz sg) -> segment_page (mem s) (mem s') E elf sg j) (loads sgs) /\
    Forall2 (fun n p => PTE2PA (E n) = p) (segment_pages (mem s) elf sgs) ps /\ frames ≡ₚ ps ++ [sh; tf; ks] /\
    forall i, i ∉ segment_pages (mem s) elf sgs -> E i = map_of_new tf sh i
}.

(** The pages of one segment. *)
Lemma segment_pages_filled A m m' E elf size frames sg ps : Forall (good_block kernel_end PHYSTOP 0) frames -> seg_ok size sg ->
  range_filled A (P:=elf_plan A) m' E frames (seg_page sg) (seg_contents m elf sg) ps ->
  (forall j, 0 <= j < pages_of (sg_memsz sg) -> segment_page m m' E elf sg j) /\
  Forall2 (fun n p => PTE2PA (E n) = p) (pages [seg_range m elf sg]) ps.
Proof using HwOk.
  intros Hg Hok [Hlen Hc]. pose proof (so_vaddr _ _ Hok) as Hva. pose proof (so_sizes _ _ Hok) as Hsz.
  destruct (section_permission_range (sg_flags sg)) as [Hp _].
  assert (Hn : 0 <= seg_page sg) by (unfold seg_page, PGSIZE; apply Z.div_pos; lia).
  assert (Hall : forall j, (j < length ps)%nat -> exists p, ps !! j = Some p /\ good_block kernel_end PHYSTOP 0 p /\
    E (seg_page sg + Z.of_nat j) = leaf p (section_permission (sg_flags sg)) /\ PTE2PA (E (seg_page sg + Z.of_nat j)) = p /\
    forall i, 0 <= i < PGSIZE -> rd8 m' (p + i) = segment_byte m (elf + sg_offset sg) (sg_filesz sg) (Z.of_nat j * PGSIZE + i)).
  { intros j Hj. destruct (lookup_lt_is_Some_2 ps j Hj) as [p Hpj]. exists p. split; [done|].
    unfold seg_contents in Hlen. rewrite length_fmap, length_seqZ in Hlen.
    destruct (lookup_lt_is_Some_2 (seg_contents m elf sg) j) as [c Hcj]; [unfold seg_contents; rewrite length_fmap, length_seqZ; lia|].
    destruct (Hc j c p Hcj Hpj) as (Hin & He & Hb). unfold seg_contents in Hcj. apply list_lookup_fmap_Some in Hcj as (k & -> & [-> _]%lookup_seqZ).
    simpl pl_image in He, Hb. cbn [fst snd] in He, Hb. rewrite Z.add_0_l in Hb.
    pose proof (proj1 (Forall_forall _ _) Hg p Hin) as Hgp. destruct (frame_bits p Hgp) as [Hp56 Hpd]. rewrite PGROUNDDOWN_eq in Hpd by lia.
    split; [done|]. split; [done|]. split; [rewrite He, leaf_pa by done; lia|exact Hb]. }
  assert (Hl : Z.of_nat (length ps) = pages_of (sg_memsz sg)).
  { rewrite Hlen. unfold seg_contents. rewrite length_fmap, length_seqZ. pose proof (pages_of_spec (sg_memsz sg) 0 ltac:(lia)). lia. }
  split.
  - intros j Hj. destruct (Hall (Z.to_nat j)) as (p & _ & Hgp & He & Hpa & Hb); [lia|]. rewrite Z2Nat.id in He, Hpa, Hb by lia.
    destruct (frame_bits p Hgp) as [Hp56 _]. unfold segment_page. cbv zeta. rewrite He, leaf_flags by done.
    split; [apply valid_leaf|]. split; [done|]. intros i Hi. unfold user_byte.
    rewrite (translate_page E _ p i) by (done || lia || (rewrite He; apply valid_leaf)). by apply Hb.
  - unfold pages. simpl. rewrite app_nil_r. apply Forall2_same_length_lookup_2.
    { unfold seg_contents in *. rewrite length_fmap, length_seqZ in *. rewrite length_seqZ. lia. }
    intros j n p [-> _]%lookup_seqZ Hpj. destruct (Hall j) as (p' & Hpj' & _ & _ & Hpa & _); [by eapply lookup_lt_Some|]. congruence.
Qed.

Lemma segments_filled A m m' E elf size frames sgs pss : Forall (good_block kernel_end PHYSTOP 0) frames -> Forall (seg_ok size) sgs ->
  Forall2 (fun r ps => range_filled A (P:=elf_plan A) m' E frames r.1 r.2 ps) (seg_range m elf <$> sgs) pss ->
  Forall (fun sg => forall j, 0 <= j < pages_of (sg_memsz sg) -> segment_page m m' E elf sg j) sgs /\
  Forall2 (fun n p => PTE2PA (E n) = p) (pages (seg_range m elf <$> sgs)) (concat pss).
Proof using HwOk.
  intros Hg Hok H. revert pss H. induction Hok as [|sg sgs Hsg _ IH]; intros pss H; rewrite ?fmap_cons in H.
  - apply Forall2_nil_inv_l in H as ->. split; constructor.
  - apply Forall2_cons_inv_l in H as (ps & pss' & Hps & Hpss & ->). destruct (IH _ Hpss) as [IH1 IH2].
    destruct (segment_pages_filled A m m' E elf size frames sg ps Hg Hsg Hps) as [H1 H2]. split; [by constructor|].
    rewrite fmap_cons. change (?x :: ?l) with ([x] ++ l) at 1. rewrite pages_app. simpl concat. by apply Forall2_app.
Qed.

(** What stays of [new_task]. *)
Lemma task_fields_keep A s s1 m' parent ks pt tf sh name : task_made s s1 (new_address A) parent ks pt tf sh name ->
  keeps (elf_keep A) (mem s1) m' -> fields m' (new_address A) (task_fields (glob s next_pid) parent ks tf pt sh).
Proof.
  intros Hm%made_list_fields Hk. unfold fields in *. rewrite Forall_forall in *. intros f Hf.
  rewrite <-(Hm f) by (unfold task_fields, child_fields in *; set_solver). apply (keeps_rd _ _ _ _ _ Hk).
  assert (Hc : 0 <= f.1.1 /\ f.1.1 + Z.of_nat f.1.2 <= sizeof_task_struct /\
    (f.1.1 + Z.of_nat f.1.2 <= t_mem_sections \/ t_mem_sections + sizeof_list <= f.1.1) /\
    (f.1.1 + Z.of_nat f.1.2 <= t_stack \/ t_stack + sizeof_memory_section <= f.1.1) /\
    (f.1.1 + Z.of_nat f.1.2 <= t_stack_permission \/ t_stack_permission + 8 <= f.1.1)).
  { revert f Hf. apply Forall_forall. unfold task_fields, sizeof_list, sizeof_memory_section. task_unfold.
    unfold context_ra, context_sp. repeat (constructor; [simpl; lia|]). constructor. }
  intros b Hb. unfold elf_keep, core_byte, struct_byte. lia.
Qed.

Lemma task_name_keep A m m' l : str_at m (Ptr (new_address A + t_name)) l -> (length l <= 31)%nat ->
  keeps (elf_keep A) m m' -> str_at m' (Ptr (new_address A + t_name)) l.
Proof.
  intros [Hl [Hr Hb]] Hlen Hk. split; [done|]. split; [done|]. apply (bytes_at_ext m); [|done]. intros b Hb'. apply Hk.
  rewrite length_app in Hb'. simpl in Hb'. unfold elf_keep, core_byte, struct_byte, sizeof_list, sizeof_memory_section. task_unfold. lia.
Qed.

(** The pages that [new_task] has mapped. *)
Definition new_task_pages (i : Z) : Prop := i = SHARED_MEMORY / PGSIZE \/ i = TRAMPOLINE / PGSIZE \/ i = TRAPFRAME / PGSIZE.

(** [load_elf] on a task that was just made. *)
Lemma load_made_ok name parent F A elf size entry sgs s s1 F1 T1 ks pt tf sh c m :
  heap_rep s F (Some A) -> fits (Some A) sizeof_task_struct ->
  elf_at (mem s) elf size sgs entry -> ram_range elf size ->
  (forall a, elf <= a < elf + size -> ~ heap_touch F (Some A) a) ->
  NoDup (segment_pages (mem s) elf sgs) -> (forall i, i ∈ segment_pages (mem s) elf sgs -> ~ new_task_pages i) ->
  task_made s s1 (new_address A) parent ks pt tf sh name ->
  building s F A (arena_alloc A sizeof_task_struct) no_bytes s1 F1 pt (map_of_new tf sh) T1 [sh; tf; ks]
    (1 + (c + 3 * length (segment_pages (mem s) elf sgs))) ->
  0 <= m -> room (arena_alloc A sizeof_task_struct) (64 * Z.of_nat (length (loads sgs)) + m) ->
  wp (load_elf elf (new_address A)) (fun r s' => r = 0 /\ exists B F' T E frames l pss,
    filled s F A no_bytes (P:=elf_plan A) s1 pt (map_of_new tf sh) [sh; tf; ks] (seg_range (mem s) elf <$> loads sgs)
      (seg_section <$> loads sgs) s' B F' T E frames l pss (S c) /\ room B m /\
    rd64 (mem s') (new_address A + t_stack_permission) = stack_after stack_rwu sgs /\ rd64 (mem s') (tf + tf_epc) = entry) s1.
Proof.
  intros Hheap Hfits Helf Hram Hap Hnd Hspec Hmade Hb1 Hm Hroom.
  pose proof (made_list_fields _ _ _ _ _ _ _ _ _ Hmade) as Hl1.
  assert (Hf : forall o v, (o, 8%nat, v) ∈ child_fields (glob s next_pid) parent ks tf pt sh -> rd64 (mem s1) (new_address A + o) = v).
  { intros o v Hin. apply (field_at _ _ _ _ _ _ Hl1), elem_of_app. by left. }
  assert (Hap' : forall a, elf <= a < elf + size -> ~ touch F A no_bytes a) by (intros a Ha [Ht|[]]; by apply (Hap a)).
  assert (Hfree : forall i, i ∈ segment_pages (mem s) elf sgs -> valid (map_of_new tf sh i) = false).
  { intros i Hi. apply map_of_new_free; intros ->; apply (Hspec _ Hi); unfold new_task_pages; auto. }
  apply (load_elf_ok s F A no_bytes Hheap Hfits elf size entry sgs Helf Hram Hap' s1 pt tf stack_rwu (map_of_new tf sh) [sh; tf; ks]) with (c := c) (m := m);
    [apply Hf; unfold child_fields; set_solver..|set_solver|exact Hfree|exact Hnd|exact Hm|].
  exists (arena_alloc A sizeof_task_struct), F1, T1, (map_of_new tf sh), [sh; tf; ks], [], []. split; [|split].
  - split; [apply grows_refl|exact Hb1|by eapply made_sections|constructor|done|apply keeps_refl|done|done].
  - by rewrite drop_0.
  - apply Hf. unfold child_fields. set_solver.
Qed.

(** C10: Loading a well-formed ELF file into a new task, while memory lasts (its
    PT_LOAD segments start on a page, have no page in common, and have their
    bytes in the file):
    [load_elf] returns 0; every page that a PT_LOAD segment reaches is mapped
    with the permissions of its flags, and the program reads there the bytes of
    the file and zeros from the end of the file's part to the end of the last
    page; the frames are distinct pages of the free memory that only this task
    uses, besides its kernel stack, trap frame and shared page; no other
    page is mapped but those of [new_task]; the memory sections of the task
    are the segments, in order, with their sizes rounded up to pages; the program
    starts at the entry point of the file; everything else of the task is as
    [new_task] made it, but that the stack becomes executable as soon as
    the file has a PT_GNU_STACK header, whatever its flags.  Nothing in use,
    the file included, is written. *)
Theorem load_elf_loads name l parent F A elf size entry sgs s :
  heap_rep s F (Some A) -> room A (gross_size sizeof_task_struct + 64 * Z.of_nat (length (loads sgs))) ->
  capacity F (11 + 3 * length (segment_pages (mem s) elf sgs)) ->
  str_at (mem s) name l -> name_apart F A no_bytes name l -> (length l <= 31)%nat -> creatable s parent ->
  elf_at (mem s) elf size sgs entry -> ram_range elf size ->
  (forall a, elf <= a < elf + size -> ~ heap_touch F (Some A) a) ->
  NoDup (segment_pages (mem s) elf sgs) ->
  (forall i, i ∈ segment_pages (mem s) elf sgs -> ~ new_task_pages i) ->
  wp (t ← new_task name parent; r ← load_elf elf t; mret (t, r)) (fun p s' => p = (new_address A, 0) /\
    glob s' = <[next_pid := glob s next_pid +w 1]> (glob s) /\
    exists pt tf sh ks, program_loaded s s' F A parent elf entry sgs l pt tf sh ks) s.
Proof.
  intros Hheap Hroom Hcap Hstr Hname Hlen Hcr Helf Hram Hap Hnd Hspec.
  destruct (room_alloc A sizeof_task_struct (64 * Z.of_nat (length (loads sgs))) ltac:(lia) Hroom) as [Hfits Hroom1].
  apply wp_bind. eapply wp_mono; [apply (new_task_ok name l parent _ F A no_bytes s Hheap Hfits Hcap Hstr Hname); [lia|exact Hcr]|].
  intros t s1 (-> & Hg1 & F1 & T1 & ks & pt & tf & sh & Hmade & Hb1).
  apply wp_bind. eapply wp_mono.
  { apply (load_made_ok l parent F A elf size entry sgs s s1 F1 T1 ks pt tf sh 0 0); try done. by rewrite Z.add_0_r. }
  intros r s2 (-> & B & F2 & T2 & E & frames & ls & pss & Hcd & _ & Hperm & Hepc). apply wp_ret. split; [done|].
  pose proof Hcd as [Hgr Hb Hcs Hpg Hrest Hcore Hgl Hfr]. split; [by rewrite Hgl|]. exists pt, tf, sh, ks.
  destruct (segments_filled A (mem s) (mem s2) E elf size frames (loads sgs) pss) as [Hall Hpas]; [|exact (el_segments _ _ _ _ _ Helf)|exact Hpg|].
  { eapply Forall_impl; [exact (bd_frames _ _ _ _ _ _ _ _ _ _ _ _ Hb)|]. by intros p [[? _] _]. }
  split; [by eapply task_fields_keep| |exact Hperm|exact Hepc|].
  - destruct Hmade as (_ & _ & Hn). rewrite take_ge in Hn by lia. by apply (task_name_keep A (mem s1)).
  - by exists B, F2, T2, E, frames, ls, (concat pss).
Qed.

End Theorems.

(** ** An instance: a program with one segment and a stack header *)

Section Witnesses.
#[local] Existing Instances board board_ok.
#[local] Opaque booted chunk_state.

(** The file: 12 bytes of code at offset 256, in a segment of two pages. *)
Definition elf_base : Z := 0x80013000.
Definition elf_words : list (Z * nat * Z) :=
  [(0, 1%nat, 0x7f); (1, 1%nat, code "E"); (2, 1%nat, code "L"); (3, 1%nat, code "F");
   (e_entry, 8%nat, 0x1004); (e_phoff, 8%nat, 64); (e_phnum, 2%nat, 2);
   (64 + p_type, 4%nat, PT_LOAD); (64 + p_flags, 4%nat, Z.lor PF_R PF_X); (64 + p_offset, 8%nat, 256);
   (64 + p_vaddr, 8%nat, 0x1000); (64 + p_filesz, 8%nat, 12); (64 + p_memsz, 8%nat, 0x1100);
   (120 + p_type, 4%nat, PT_GNU_STACK); (120 + p_flags, 4%nat, Z.lor PF_R PF_W); (120 + p_offset, 8%nat, 0);
   (120 + p_vaddr, 8%nat, 0); (120 + p_filesz, 8%nat, 0); (120 + p_memsz, 8%nat, 0);
   (256, 4%nat, 0x00000513); (260, 4%nat, 0x00500593); (264, 4%nat, 0x00000073)].
Definition elf_mem (m : gmap Z Z) : gmap Z Z :=
  foldr (fun f m => wr f.1.2 m (elf_base + f.1.1) f.2) m elf_words.
Definition elf_state : state := set_mem (elf_mem (mem chunk_state)) chunk_state.
Definition elf_segments : list segment :=
  [Segment PT_LOAD (Z.lor PF_R PF_X) 256 0x1000 12 0x1100; Segment PT_GNU_STACK (Z.lor PF_R PF_W) 0 0 0 0].

Lemma elf_touched m : modifies (fun a => elf_base <= a < elf_base + 0x1000) m (elf_mem m).
Proof.
  unfold elf_mem.
  assert (Hw : Forall (fun f => 0 <= f.1.1 /\ f.1.1 + Z.of_nat f.1.2 <= 0x1000) elf_words) by (repeat (constructor; [by split|]); constructor).
  induction Hw as [|f l [H1 H2] _ IH]; [by intros a Ha|]. simpl. eapply modifies_trans; [exact IH|]. apply modifies_wr. lia.
Qed.

Lemma elf_heap : heap_rep elf_state (without boot_free 0 page) (Some chunk_arena).
Proof.
  apply (heap_rep_frame _ _ [(chunk, 104)] chunk_state _ chunk_heap); [by intros a Ha| |exact (glob_set_mem _ _)].
  eapply modifies_weaken; [|exact (elf_touched (mem chunk_state))]. intros a Ha. apply static_untouched. unfold elf_base in Ha. lia.
Qed.

Lemma elf_image s : s = booted \/ s = chunk_state \/ s = power_on -> elf_at (elf_mem (mem s)) elf_base 512 elf_segments 0x1004.
Proof.
  intros Hs. split.
  - intros i c Hi. do 4 (destruct i as [|i]; [injection Hi as <-; destruct Hs as [-> |[-> | ->]]; by vm_compute|]). done.
  - intros i sg Hi. do 2 (destruct i as [|i]; [injection Hi as <-; destruct Hs as [-> |[-> | ->]]; split; by vm_compute|]). done.
  - destruct Hs as [-> |[-> | ->]]; by vm_compute.
  - destruct Hs as [-> |[-> | ->]]; by vm_compute.
  - destruct Hs as [-> |[-> | ->]]; by vm_compute.
  - done.
  - repeat constructor; done.
Qed.

Lemma load_elf_loads_witness :
  wp (t ← new_task (Lit "init") 0; r ← load_elf elf_base t; mret (t, r)) (fun p s' => p.2 = 0 /\
    exists pt tf sh ks E, rd64 (mem s') (tf + tf_epc) = 0x1004 /\ user_byte (mem s') E 0x1004 = 0x93 /\
      user_byte (mem s') E 0x2000 = 0 /\ rd64 (mem s') (p.1 + t_stack_permission) = Z.lor stack_rwu PTE_X /\
      program_loaded elf_state s' (without boot_free 0 page) chunk_arena 0 elf_base 0x1004 elf_segments (codes "init") pt tf sh ks) elf_state.
Proof.
  eapply wp_mono.
  - apply (load_elf_loads (Lit "init") (codes "init") 0 (without boot_free 0 page) chunk_arena elf_base 512 0x1004 elf_segments elf_state elf_heap).
    + done.
    + apply chunk_capacity. apply Nat.leb_le. by vm_compute.
    + split; [repeat constructor; done|done].
    + done.
    + simpl. lia.
    + split; [|done|..|done|done]; vm_compute; by split.
    + apply elf_image. by right; left.
    + by split.
    + intros a Ha. apply static_apart. unfold elf_base in Ha. lia.
    + apply (bool_decide_unpack _). by vm_compute.
    + intros i Hi. change (i ∈ [1; 2]) in Hi. assert (i = 1 \/ i = 2) as [-> | ->] by set_solver; by intros [?|[?|?]].
  - intros p s' (-> & _ & pt & tf & sh & ks & Hp). split; [done|]. destruct (pg_memory _ _ _ _ _ _ _ _ _ _ _ _ _ Hp) as (B & F' & T & E & fr & l & ps & _ & _ & Hall & _).
    exists pt, tf, sh, ks, E. apply Forall_cons in Hall as [Hs _]. split; [exact (pg_entry _ _ _ _ _ _ _ _ _ _ _ _ _ Hp)|].
    destruct (Hs 0 ltac:(by vm_compute)) as (_ & _ & H0). destruct (Hs 1 ltac:(by vm_compute)) as (_ & _ & H1).
    split; [etransitivity; [exact (H0 4 ltac:(by vm_compute))|by vm_compute]|]. split; [etransitivity; [exact (H1 0 ltac:(by vm_compute))|by vm_compute]|].
    split; [exact (pg_stack _ _ _ _ _ _ _ _ _ _ _ _ _ Hp)|exact Hp].
Defined.

End Witnesses.
