(* ===== verification/Scheduler.v ===== *)
(** * The scheduler

    The run queue, the running task and their memory as an abstract state
    [sched_rep], and the proofs that [yield] and the scheduler's loop rotate
    it. *)

From S2P Require Import Prelude Machine Utility Uart Chain BuddySpec PageAlloc Kmalloc LinkedList LinkedListProof LinkedListTheorems PageTable Task Process TaskTable.

(** The list at [R], the nodes [xs] and the tasks [ts] do not overlap. *)
Record layout (R : Z) (xs ts : list Z) : Prop := {
  lay_list : list_ok R xs;
  lay_task : forall t, t ∈ ts -> task_ok t;
  lay_list_task : forall t, t ∈ ts -> sep R sizeof_list t sizeof_task_struct;
  lay_node_task : forall x t, x ∈ xs -> t ∈ ts -> sep x sizeof_node t sizeof_task_struct;
  lay_tasks : forall t u, t ∈ ts -> u ∈ ts -> t <> u -> sep t sizeof_task_struct u sizeof_task_struct;
  lay_nodup : NoDup ts
}.

(** The bytes of the list, the nodes and the tasks. *)
Definition sched_byte (R : Z) (xs ts : list Z) (a : Z) : Prop :=
  R <= a < R + sizeof_list \/ (exists x, x ∈ xs /\ x <= a < x + sizeof_node) \/
  exists t, t ∈ ts /\ t <= a < t + sizeof_task_struct.

(** [sched_rep m g R x t q]: in the run queue at [R] wait the nodes and tasks
    [q], all runnable; the node [x] of the running task [t] is not among them. *)
Record sched_rep (s : state) (R x t : Z) (q : list (Z * Z)) : Prop := {
  sr_queue : glob s runnable_tasks = R;
  sr_running : glob s running_task = x;
  sr_list : list_rep (mem s) R q;
  sr_node : x ∉ q.*1;
  sr_task : rd64 (mem s) (x + 8) = t;
  sr_state : state_of (mem s) t = RUNNING;
  sr_ready : forall u, u ∈ q.*2 -> state_of (mem s) u = RUNNABLE;
  sr_layout : layout R (x :: q.*1) (t :: q.*2)
}.

Section Frame.
Context (R : Z) (xs ts : list Z).
Hypothesis Hlay : layout R xs ts.

Lemma layout_perm xs' ts' : xs ≡ₚ xs' -> ts ≡ₚ ts' -> layout R xs' ts'.
Proof using Hlay.
  intros Hx Ht. destruct Hlay as [[HL Hr Hs Hn Hnd] Hok Hlt Hnt Htt Htnd].
  split; [split|..]; try (intros; first [apply Hr | apply Hs | apply Hn | apply Hok | apply Hlt
    | apply Hnt | apply Htt]; by rewrite ?Hx, ?Ht); [done|by rewrite <-Hx|by rewrite <-Ht].
Qed.

(** Bytes of a task are not bytes of the list or of a node. *)
Lemma task_byte_apart t a : t ∈ ts -> t <= a < t + sizeof_task_struct ->
  ~ (R <= a < R + 24) /\ forall x, x ∈ xs -> ~ (x <= a < x + 16).
Proof using Hlay.
  intros Ht Ha. pose proof (lay_list_task _ _ _ Hlay t Ht) as HL.
  unfold sep, sizeof_list, sizeof_node in *. split; [lia|].
  intros x Hx. pose proof (lay_node_task _ _ _ Hlay x t Hx Ht).
  unfold sep, sizeof_node in *. lia.
Qed.

(** Writes to the list and the links leave the tasks alone. *)
Lemma list_write_task xs' m m' t n o :
  (forall x, x ∈ xs' -> x ∈ xs) -> modifies (list_touch R xs') m m' -> t ∈ ts ->
  0 <= o -> o + Z.of_nat n <= sizeof_task_struct -> rd n m' (t + o) = rd n m (t + o).
Proof using Hlay.
  intros Hsub Hmod Ht Ho Hn. apply (modifies_rd _ n _ _ _ Hmod). intros b Hb [HL|(x & Hx & Hxb)];
    (destruct (task_byte_apart t b Ht) as [HR Hxs]; [lia|]).
  - apply HR. unfold sizeof_list in HL. lia.
  - apply (Hxs x (Hsub x Hx)). lia.
Qed.

(** Setting the state of a task. *)
Lemma state_write m t u v : t ∈ ts -> u ∈ ts -> 0 <= v < 2 ^ 32 ->
  state_of (wr 4 m (t + t_state) v) u = if decide (u = t) then v else state_of m u.
Proof using Hlay.
  intros Ht Hu Hv. unfold state_of. case_decide as E.
  - subst u. by apply (rd_wr_same 4).
  - apply rd_wr_out. pose proof (lay_tasks _ _ _ Hlay u t Hu Ht E).
    unfold sep, sizeof_task_struct, t_state in *. lia.
Qed.

Lemma state_write_byte m t v a : t ∈ ts ->
  R <= a < R + 24 \/ (exists x, x ∈ xs /\ x <= a < x + 16) ->
  rd8 (wr 4 m (t + t_state) v) a = rd8 m a.
Proof using Hlay.
  intros Ht Ha. apply rd8_wr_out. unfold t_state. simpl.
  destruct (decide (t <= a < t + sizeof_task_struct)) as [Hin|Hout].
  - destruct (task_byte_apart t a Ht Hin) as [HR Hxs].
    destruct Ha as [Ha|(x & Hx & Ha)]; [done|by destruct (Hxs x Hx)].
  - unfold sizeof_task_struct in Hout. lia.
Qed.

Lemma state_write_list m t v l : t ∈ ts -> (forall x, x ∈ l.*1 -> x ∈ xs) ->
  list_rep m R l -> list_rep (wr 4 m (t + t_state) v) R l.
Proof using Hlay.
  intros Ht Hsub Hrep. apply (rep_frame R l m Hrep).
  - intros a Ha. apply state_write_byte; [done|by left].
  - intros x a Hx Ha. apply state_write_byte; [done|]. right. exists x. auto.
Qed.

Lemma state_write_data m t v x : t ∈ ts -> x ∈ xs ->
  rd64 (wr 4 m (t + t_state) v) (x + 8) = rd64 m (x + 8).
Proof using Hlay.
  intros Ht Hx. apply (rd_ext 8). intros b Hb. apply state_write_byte; [done|]. right.
  exists x. split; [done|lia].
Qed.

Lemma list_write_data xs' m m' x : (forall y, y ∈ xs' -> y ∈ xs) ->
  modifies (list_touch R xs') m m' -> x ∈ xs -> rd64 m' (x + 8) = rd64 m (x + 8).
Proof using Hlay.
  intros Hsub Hmod Hx. apply (modifies_rd _ 8 _ _ _ Hmod). intros b Hb.
  apply (touch_data_word R xs (lay_list _ _ _ Hlay) xs' x); [done|done|lia].
Qed.

(** All of it is unchanged by a computation that leaves its bytes alone. *)
Lemma byte_task t a : t ∈ ts -> t <= a < t + sizeof_task_struct -> sched_byte R xs ts a.
Proof. intros Ht Ha. right. right. by exists t. Qed.
Lemma byte_node x a : x ∈ xs -> x <= a < x + sizeof_node -> sched_byte R xs ts a.
Proof. intros Hx Ha. right. left. by exists x. Qed.

End Frame.

Lemma sched_frame s s' R x t q : sched_rep s R x t q ->
  (forall a, sched_byte R (x :: q.*1) (t :: q.*2) a -> rd8 (mem s') a = rd8 (mem s) a) ->
  glob s' runnable_tasks = glob s runnable_tasks -> glob s' running_task = glob s running_task ->
  sched_rep s' R x t q.
Proof.
  intros [HR Hx Hl Hn Ht Hst Hrd Hlay] Hb Hg1 Hg2.
  assert (Hstate : forall u, u ∈ t :: q.*2 -> state_of (mem s') u = state_of (mem s) u).
  { intros u Hu. apply (rd_ext 4). intros b Hb'. apply Hb, (byte_task _ _ _ u); [done|].
    unfold t_state, sizeof_task_struct in *. lia. }
  split; [congruence|congruence| |done| | | |done].
  - apply (rep_frame R q (mem s) Hl); intros; apply Hb; [by left|].
    apply (byte_node _ _ _ x0); [by right|done].
  - rewrite <-Ht. apply (rd_ext 8). intros b Hb'. apply Hb, (byte_node _ _ _ x); [by left|].
    unfold sizeof_node. lia.
  - by rewrite Hstate by (by left).
  - intros u Hu. rewrite Hstate by (by right). by apply Hrd.
Qed.

(** ** One turn of the queue, in memory

    From [m0], the running task is marked runnable ([m1]), its node goes to the
    end of the queue ([m2]), the first node leaves it ([m4]) and its task is
    marked running ([m5]). *)

Section Rotate.
Context (R x t y u : Z) (r : list (Z * Z)) (s : state) (m2 m4 : gmap Z Z).
Let xs := x :: y :: r.*1.
Let ts := t :: u :: r.*2.
Let m1 := wr 4 (mem s) (t + t_state) RUNNABLE.
Let m5 := wr 4 m4 (u + t_state) RUNNING.
Hypothesis Hrep : sched_rep s R x t ((y, u) :: r).
Hypothesis Hmod2 : modifies (list_touch R ((y :: r.*1) ++ [x])) m1 m2.
Hypothesis Hmod4 : modifies (list_touch R []) m2 m4.

Lemma rotate_layout : layout R xs ts.
Proof using Hrep. apply (sr_layout _ _ _ _ _ Hrep). Qed.

Lemma rotate_nodes z : z ∈ (y :: r.*1) ++ [x] -> z ∈ xs.
Proof using Type. unfold xs. rewrite elem_of_app, list_elem_of_singleton, !elem_of_cons. tauto. Qed.

Lemma rotate_perm : xs ≡ₚ y :: (r ++ [(x, t)]).*1 /\ ts ≡ₚ u :: (r ++ [(x, t)]).*2.
Proof using Type.
  rewrite !fmap_app. change ([(x, t)].*1) with [x]. change ([(x, t)].*2) with [t].
  rewrite <-!Permutation_cons_append. split; constructor.
Qed.

Lemma rotate_ready v : v ∈ ts -> state_of m2 v = RUNNABLE.
Proof using Hrep Hmod2.
  intros Hv. unfold state_of.
  rewrite (list_write_task _ _ _ rotate_layout _ m1 _ v 4 t_state rotate_nodes Hmod2 Hv) by done.
  change (state_of m1 v = RUNNABLE). unfold m1.
  rewrite (state_write _ _ _ rotate_layout (mem s) t v RUNNABLE); [|by left|exact Hv|done].
  case_decide as E; [done|]. apply (sr_ready _ _ _ _ _ Hrep). by apply elem_of_cons in Hv as [->|Hv].
Qed.

Lemma rotate_states v : v ∈ ts -> state_of m5 v = if decide (v = u) then RUNNING else RUNNABLE.
Proof using Hrep Hmod2 Hmod4.
  intros Hv. unfold m5.
  rewrite (state_write _ _ _ rotate_layout m4 u v RUNNING); [|by right; left|exact Hv|done].
  case_decide; [done|]. unfold state_of.
  rewrite (list_write_task _ _ _ rotate_layout [] m2 _ v 4 t_state); [by apply rotate_ready| |done..].
  by intros ? ?%not_elem_of_nil.
Qed.

Lemma rotate_modifies : modifies (sched_byte R xs ts) (mem s) m5.
Proof using Hrep Hmod2 Hmod4.
  intros a Ha.
  assert (Hou : forall v m w, v ∈ ts -> rd8 (wr 4 m (v + t_state) w) a = rd8 m a).
  { intros v m w Hv. apply rd8_wr_out. simpl.
    destruct (decide (v <= a < v + sizeof_task_struct)) as [Hin|Hout].
    - exfalso. apply Ha. by apply (byte_task _ _ _ v).
    - unfold sizeof_task_struct, t_state in *. lia. }
  assert (Hlt : forall xs', (forall z, z ∈ xs' -> z ∈ xs) -> ~ list_touch R xs' a).
  { intros xs' Hs [HL|(z & Hz & Hza)]; apply Ha; [by left|].
    apply (byte_node _ _ _ z); [by apply Hs|]. unfold sizeof_node. lia. }
  unfold m5. rewrite Hou by (by right; left). rewrite Hmod4 by (apply Hlt; by intros ? ?%not_elem_of_nil).
  rewrite Hmod2 by (apply Hlt, rotate_nodes). unfold m1. by rewrite Hou by (by left).
Qed.

Lemma rotate_rep s' :
  mem s' = m5 -> glob s' = <[running_task := y]> (glob s) ->
  list_rep m4 R (r ++ [(x, t)]) -> rd64 m2 (y + 8) = u -> sched_rep s' R y u (r ++ [(x, t)]).
Proof using Hrep Hmod2 Hmod4.
  intros Hm Hg Hl4 Hdy. pose proof rotate_layout as Hlay. destruct rotate_perm as [Hp1 Hp2].
  pose proof (node_nodup _ _ (lay_list _ _ _ Hlay)) as [Hnx [Hny _]%NoDup_cons]%NoDup_cons.
  pose proof (lay_nodup _ _ _ Hlay) as [Hnt [Hnu _]%NoDup_cons]%NoDup_cons.
  split; rewrite ?Hm, ?Hg.
  - rewrite fn_lookup_insert_ne by done. apply (sr_queue _ _ _ _ _ Hrep).
  - apply fn_lookup_insert.
  - apply (state_write_list _ _ _ Hlay); [by right; left| |done].
    intros z Hz. rewrite Hp1. by right.
  - rewrite fmap_app, elem_of_app. change ([(x, t)].*1) with [x]. rewrite list_elem_of_singleton.
    intros [?| ->]; [done|]. apply Hnx. by left.
  - unfold m5. rewrite (state_write_data _ _ _ Hlay) by (by right; left).
    rewrite (list_write_data _ _ _ Hlay [] m2); [done|by intros ? ?%not_elem_of_nil|done|by right; left].
  - rewrite rotate_states by (by right; left). by rewrite decide_True.
  - intros v Hv. rewrite rotate_states by (rewrite Hp2; by right). rewrite decide_False; [done|].
    rewrite fmap_app, elem_of_app in Hv. change ([(x, t)].*2) with [t] in Hv.
    rewrite list_elem_of_singleton in Hv. intros ->. destruct Hv as [?|E]; [done|].
    apply Hnt. rewrite E. by left.
  - by apply (layout_perm _ _ _ Hlay).
Qed.

End Rotate.

Section Yield.
Context `{Hw : Platform} {HwOk : PlatformOk Hw} {Ops : PageOps} {HA : PageAllocator Ops}.

(** A kernel stack waiting to be released: none, or a page in use that is not
    part of the scheduler's memory. *)
Definition stack_unused (F : Z -> Prop) (U : Z -> Prop) (p : Z) : Prop :=
  p = NULL \/ good_block kernel_end PHYSTOP 0 p /\
    forall a, p <= a < p + bsz 0 -> ~ F a /\ ~ U a.

Definition with_stack (F : Z -> Prop) (p : Z) : Z -> Prop :=
  if decide (p = NULL) then F else with_block F 0 p.

(** The allocator beside the scheduler's memory [U], with the stacks that
    exited processes left behind. *)
Record stacks_rep (s : state) (F U : Z -> Prop) : Prop := {
  st_pool : pool_owns (mem s) F;
  st_apart : forall a, U a -> ~ pool_private a /\ ~ F a;
  st_old : stack_unused F U (glob s stack_to_remove);
  st_new : stack_unused (with_stack F (glob s stack_to_remove)) U (glob s stack_to_remove_next)
}.

Lemma release_stack F U s :
  stacks_rep s F U ->
  wp (deallocate (glob s stack_to_remove) 0) (fun _ s' => same_regs s s' /\
    pool_owns (mem s') (with_stack F (glob s stack_to_remove)) /\
    forall a, U a -> rd8 (mem s') a = rd8 (mem s) a) s.
Proof.
  intros [Hp Hap Hold _]. unfold with_stack. destruct Hold as [E|[Hg Hx]].
  - rewrite E, decide_True by done. by eapply wp_ok; [apply deallocate_null|].
  - assert (glob s stack_to_remove <> NULL) as Hne.
    { destruct Hg as (_ & _ & Hlo & _). pose proof kernel_end_range. unfold NULL, KERNBASE in *. lia. }
    rewrite decide_False by done.
    eapply wp_mono; [apply (deallocate_law F 0); [done|done|]|].
    { intros a Ha. by apply Hx. }
    intros [] s' (Hregs & Hmod & Hp'). split; [done|]. split; [done|]. intros a Ha.
    apply Hmod. destruct (Hap a Ha). intros [?|[?|Ha']]; [done|done|]. by apply (Hx a).
Qed.

(** What is left of the code once the queue is known not to be empty. *)
Lemma next_runnable R y u r s :
  glob s runnable_tasks = R -> R <> NULL -> list_rep (mem s) R ((y, u) :: r) -> task_ok u ->
  state_of (mem s) u = RUNNABLE ->
  wp next_task_to_run (fun n s' => n = y /\ s' = s) s.
Proof.
  intros HR Hne Hrep Hu Hst. destruct (rep_range _ _ _ Hrep) as (? & ? & Hlen).
  destruct (rep_node _ _ _ Hrep y u ltac:(set_solver)) as (? & ? & _).
  pose proof (rep_data _ _ _ Hrep) as [Hd _]%Forall_cons. simpl in Hd.
  unfold next_task_to_run, runnable_size, head_node.
  wp_step. wp_step. wp_step. rewrite HR. wp_ram. wp_ram. wp_step.
  rewrite (rep_size _ _ _ Hrep). unfold s64. rewrite w64_small by lia.
  rewrite (proj2 (Z.ltb_lt _ (2 ^ 63))) by lia. simpl length.
  rewrite (proj2 (Z.eqb_neq _ 0)) by lia.
  wp_step. wp_step. rewrite HR. wp_ram. wp_ram.
  rewrite (chain_hd _ _ _ (rep_chain _ _ _ Hrep)), fmap_cons, hd0_cons. simpl fst.
  wp_ram. wp_ram. rewrite Hd.
  apply (wp_loop (fun n c s' => n = 0 /\ c = (y, u) /\ s' = s) 0); [done|done|].
  intros n [c1 c2] s' (-> & [= -> ->] & ->). split; [done|].
  rewrite (proj2 (Z.eqb_neq _ _) (task_nonnull u Hu)). wp_task. wp_task.
  change (rd 4 (mem s) (u + t_state)) with (state_of (mem s) u). rewrite Hst. simpl. by wp_step.
Qed.

Lemma reschedule_ok R x t y u r s :
  sched_rep s R x t ((y, u) :: r) ->
  switches reschedule (fun old new s' k => old = t + t_context /\ new = u + t_context /\
    (forall s'', k s'' = Ok tt s'') /\ sched_rep s' R y u (r ++ [(x, t)]) /\
    modifies (sched_byte R (x :: y :: r.*1) (t :: u :: r.*2)) (mem s) (mem s') /\
    (forall g, g <> running_task -> glob s' g = glob s g) /\ sie_on s' = true) s.
Proof.
  intros Hrep. pose proof Hrep as [HR Hx Hl Hn Ht Hst Hrd Hlay].
  rewrite !fmap_cons in Hlay. simpl fst in *. simpl snd in *. destruct (rep_range _ _ _ Hl) as (? & ? & Hlen).
  assert (HRne : R <> NULL) by (unfold NULL, KERNBASE in *; lia).
  pose proof (lay_task _ _ _ Hlay t ltac:(by left)) as Htok.
  pose proof (lay_task _ _ _ Hlay u ltac:(by right; left)) as Huok.
  destruct (node_ram _ _ (lay_list _ _ _ Hlay) x ltac:(by left)) as [Hx1 Hx2]. unfold sizeof_node in Hx2.
  unfold reschedule, current_task, runnable_size.
  apply switches_bind. wp_step. wp_step. rewrite HR, (proj2 (Z.eqb_neq R NULL) HRne).
  wp_step. wp_step. rewrite Hx. wp_ram. rewrite Ht.
  apply switches_bind. wp_step. wp_step. rewrite HR. wp_ram. wp_ram. wp_step.
  rewrite (rep_size _ _ _ Hl). unfold s64. rewrite w64_small by lia.
  rewrite (proj2 (Z.ltb_lt _ (2 ^ 63))) by lia. simpl length.
  rewrite (proj2 (Z.eqb_neq _ 0)) by lia.
  apply switches_bind. rewrite (proj2 (Z.eqb_neq _ _) (task_nonnull t Htok)). wp_step. wp_task.
  wp_step. change (rd 4 (mem s) (t + t_state)) with (state_of (mem s) t). rewrite Hst. simpl (_ =? _).
  apply switches_bind. cbv iota. wp_step. wp_task.
  set (m1 := wr 4 (mem s) (t + t_state) RUNNABLE).
  assert (Hl1 : list_rep m1 R ((y, u) :: r)).
  { apply (state_write_list _ _ _ Hlay); [by left| |done]. intros z Hz. by right. }
  assert (Hx1' : rd64 m1 (x + 8) = t).
  { unfold m1. rewrite (state_write_data _ _ _ Hlay); [done|by left|by left]. }
  wp_step. wp_step. simpl glob. rewrite HR. wp_step. wp_step. simpl glob. rewrite Hx. wp_step.
  assert (Hfresh : node_fresh R ((y, u) :: r).*1 x).
  { apply (fresh_among R (x :: y :: r.*1) (lay_list _ _ _ Hlay)); [|by left|done].
    intros z Hz. by right. }
  eapply wp_mono; [apply (push_tail_ok R ((y, u) :: r) x); [exact Hl1|exact Hfresh]|].
  intros v s2 (-> & Hs2 & Hl2 & Hmod2). simpl mem in *. rewrite Hx1' in Hl2. wp_step.
  assert (Hg2 : glob s2 = glob s) by (by rewrite Hs2).
  apply switches_bind. eapply wp_mono; [apply (next_runnable R y u (r ++ [(x, t)])); [by rewrite Hg2|done|
    exact Hl2|done|apply (rotate_ready R x t y u r s (mem s2) Hrep Hmod2); by right; left]|].
  intros v s3 (-> & ->). apply switches_bind. wp_step. apply switches_bind. wp_step. simpl glob.
  rewrite fn_lookup_insert.
  destruct (node_ram _ _ (lay_list _ _ _ Hlay) y ltac:(by right; left)) as [Hy1 Hy2].
  unfold sizeof_node in Hy2. rewrite (proj2 (Z.eqb_neq y NULL)) by (unfold NULL, KERNBASE in *; lia).
  apply switches_bind. wp_step. apply switches_bind. wp_step. wp_step. simpl glob.
  rewrite fn_lookup_insert_ne, Hg2, HR, (proj2 (Z.eqb_neq R NULL) HRne) by done.
  wp_step. wp_step. simpl glob. rewrite fn_lookup_insert. wp_ram. simpl mem.
  pose proof (rep_data _ _ _ Hl2) as [Hdy _]%Forall_cons. simpl in Hdy. rewrite Hdy.
  apply switches_bind. wp_step. simpl glob. rewrite fn_lookup_insert_ne, Hg2, HR by done.
  apply switches_bind. eapply wp_mono; [apply (pop_head_without_free_ok R (((y, u) :: r) ++ [(x, t)])); exact Hl2|].
  intros [] s4 (Hs4 & Hl4 & Hmod4). simpl mem in *. simpl drop in Hl4.
  apply switches_bind. wp_task. set (m5 := wr 4 (mem s4) (u + t_state) RUNNING).
  apply switches_bind, wp_interrupt_on. intros c Hon. unfold switches, switch_context.
  split; [done|]. split; [done|]. split; [done|].
  split; [|split; [exact (rotate_modifies R x t y u r s (mem s2) (mem s4) Hrep Hmod2 Hmod4)|split; [|done]]].
  - apply (rotate_rep R x t y u r s (mem s2) (mem s4) Hrep Hmod2 Hmod4); [done| |done|done].
    simpl glob. rewrite Hs4. simpl glob. by rewrite Hg2.
  - intros g Hg. simpl glob. rewrite Hs4. simpl glob. by rewrite fn_lookup_insert_ne, Hg2.
Qed.

(** The scheduler's memory of a running task [x], [t] and a queue [q]. *)
Definition sched_mem (R x t : Z) (q : list (Z * Z)) : Z -> Prop :=
  sched_byte R (x :: q.*1) (t :: q.*2).

Lemma stacks_weaken s F (U V : Z -> Prop) :
  (forall a, V a -> U a) -> stacks_rep s F U -> stacks_rep s F V.
Proof.
  intros HUV [Hp Ha Ho Hn].
  assert (Hpage : forall G p, stack_unused G U p -> stack_unused G V p).
  { intros G p [?|[Hg Hx]]; [by left|right]. split; [done|]. intros a Hb.
    destruct (Hx a Hb) as [? HU]. auto. }
  split; [done| |by apply Hpage|by apply Hpage]. intros a Hb. apply Ha, HUV, Hb.
Qed.

Lemma sched_mem_rotate R x t y u r a :
  sched_mem R y u (r ++ [(x, t)]) a -> sched_mem R x t ((y, u) :: r) a.
Proof.
  unfold sched_mem, sched_byte. rewrite !fmap_app, !fmap_cons.
  intros [?|[(z & Hz & ?)|(z & Hz & ?)]]; [by left|right; left|right; right]; exists z;
    (split; [|done]); revert Hz; change ([(x, t)].*1) with [x]; change ([(x, t)].*2) with [t];
    rewrite !elem_of_cons, elem_of_app, elem_of_cons; intros [?|[?|[?|Hz]]];
    rewrite ?elem_of_cons; try tauto; by apply not_elem_of_nil in Hz.
Qed.

(** [stacks_rep] after one stack was released and the next one moved up. *)
Lemma stacks_shift s s' F U p n :
  stacks_rep s F U -> glob s stack_to_remove = p -> glob s stack_to_remove_next = n ->
  pool_owns (mem s') (with_stack F p) ->
  glob s' stack_to_remove = n -> glob s' stack_to_remove_next = NULL ->
  stacks_rep s' (with_stack F p) U.
Proof.
  intros [Hp Ha Ho Hn] Eo En Hp' Eo' En'. rewrite Eo, En in *. split; rewrite ?Eo', ?En'; [done| | |by left].
  - intros a Hb. destruct (Ha a Hb) as [Hpr HF]. split; [done|]. unfold with_stack.
    case_decide as E; [done|]. intros [?|Hpg]; [done|]. destruct Ho as [?|[_ Hx]]; [done|].
    by apply (Hx a Hpg).
  - done.
Qed.

Lemma yield_ok F U R x t y u r s :
  sched_rep s R x t ((y, u) :: r) -> stacks_rep s F U ->
  (forall a, sched_mem R x t ((y, u) :: r) a -> U a) ->
  switches yield (fun old new s' k => old = t + t_context /\ new = u + t_context /\
    (forall s'', k s'' = Ok tt s'') /\ sched_rep s' R y u (r ++ [(x, t)]) /\
    stacks_rep s' (with_stack F (glob s stack_to_remove)) U /\
    (forall a, U a -> ~ sched_mem R x t ((y, u) :: r) a -> rd8 (mem s') a = rd8 (mem s) a) /\
    glob s' stack_to_remove = glob s stack_to_remove_next /\
    glob s' stack_to_remove_next = NULL /\ sie_on s' = true) s.
Proof.
  intros Hrep Hst HU. unfold yield. apply switches_bind, wp_interrupt_off. intros c _.
  set (s1 := set_csr sstatus c s). apply switches_bind. wp_step.
  apply switches_bind. eapply wp_mono; [apply (release_stack F U s1)|].
  { destruct Hst. by split. }
  intros [] s2 ((Hg2 & _) & Hp2 & Hb2). change (glob s1) with (glob s) in *.
  apply switches_bind. wp_step. apply switches_bind. wp_step. apply switches_bind. wp_step.
  simpl glob. rewrite Hg2. set (s3 := set_glob _ _ _).
  assert (Hg3 : forall g, g <> stack_to_remove -> g <> stack_to_remove_next -> glob s3 g = glob s g).
  { intros g H1 H2. unfold s3. simpl glob. by rewrite !fn_lookup_insert_ne, Hg2. }
  assert (Hst' : stacks_rep s3 (with_stack F (glob s stack_to_remove)) U).
  { apply (stacks_shift s _ F _ (glob s stack_to_remove) (glob s stack_to_remove_next));
      [exact Hst|done|done|exact Hp2| |]; unfold s3; simpl glob.
    - by rewrite fn_lookup_insert_ne, fn_lookup_insert.
    - apply fn_lookup_insert. }
  eapply switches_mono; [apply (reschedule_ok R x t y u r s3)|].
  { apply (sched_frame s); [done| |by apply Hg3|by apply Hg3]. intros a Ha. by apply Hb2, HU. }
  intros old new s' k (-> & -> & Hk & Hrep' & Hmod & Hg & Hon).
  assert (Ho' : glob s' stack_to_remove = glob s stack_to_remove_next).
  { rewrite Hg by done. unfold s3. simpl glob. by rewrite fn_lookup_insert_ne, fn_lookup_insert. }
  assert (Hn' : glob s' stack_to_remove_next = NULL).
  { rewrite Hg by done. unfold s3. simpl glob. apply fn_lookup_insert. }
  split; [done|]. split; [done|]. split; [done|]. split; [done|]. split; [|split; [|done]].
  - apply (stacks_shift s _ F _ (glob s stack_to_remove) (glob s stack_to_remove_next)); try done.
    eapply pool_owns_frame; [exact (st_pool _ _ _ Hst')|]. intros a Ha. apply Hmod. intros Hs.
    destruct (st_apart _ _ _ Hst' a (HU a Hs)). tauto.
  - intros a Ha Hn. rewrite Hmod by done. by apply Hb2.
Qed.

Lemma runnable_size_ok R l s :
  glob s runnable_tasks = R -> list_rep (mem s) R l ->
  wp runnable_size (fun n s' => n = Z.of_nat (length l) /\ s' = s) s.
Proof.
  intros HR Hl. destruct (rep_range _ _ _ Hl) as (? & ? & ?). unfold runnable_size.
  wp_step. wp_step. rewrite HR. wp_ram. wp_ram. wp_step. rewrite (rep_size _ _ _ Hl). unfold s64.
  rewrite w64_small by lia. by rewrite (proj2 (Z.ltb_lt _ (2 ^ 63))) by lia.
Qed.

(** With an empty queue, and no stack to release, [yield] returns to its caller
    with interrupts off. *)
Lemma yield_alone R x s :
  glob s runnable_tasks = R -> list_rep (mem s) R [] -> glob s running_task = x ->
  KERNBASE <= x -> x + 16 <= PHYSTOP -> glob s stack_to_remove = NULL ->
  wp yield (fun _ s' => mem s' = mem s /\ sie_on s' = false /\
    forall g, glob s' g = <[stack_to_remove_next := NULL]>
      (<[stack_to_remove := glob s stack_to_remove_next]> (glob s)) g) s.
Proof.
  intros HR Hl Hx Hx1 Hx2 Hold. destruct (rep_range _ _ _ Hl) as (? & ? & _).
  unfold yield. apply wp_bind, wp_interrupt_off. intros c Hoff. set (s1 := set_csr sstatus c s) in *.
  wp_step. wp_step. wp_step. change (glob s1) with (glob s). rewrite Hold.
  eapply wp_ok; [apply deallocate_null|]. wp_step. wp_step. wp_step. wp_step. wp_step. wp_step.
  change (glob s1) with (glob s). set (s3 := set_glob _ _ _).
  assert (Hg3 : forall g, g <> stack_to_remove -> g <> stack_to_remove_next -> glob s3 g = glob s g).
  { intros g H1 H2. unfold s3. simpl glob. by rewrite !fn_lookup_insert_ne. }
  unfold reschedule, current_task. wp_step. wp_step. wp_step. rewrite Hg3, HR by done.
  rewrite (proj2 (Z.eqb_neq R NULL)) by (unfold NULL, KERNBASE in *; lia).
  wp_step. wp_step. rewrite Hg3, Hx by done. wp_ram. wp_step.
  eapply wp_mono; [apply (runnable_size_ok R []); [by rewrite Hg3|done]|].
  intros n s' (-> & ->). change (Z.of_nat (length []) =? 0) with true. wp_step. wp_step.
  split; [done|]. split; [exact Hoff|done].
Qed.

(** The scheduler before any task runs: a queue and no running task. *)
Record idle_rep (s : state) (R : Z) (q : list (Z * Z)) : Prop := {
  id_queue : glob s runnable_tasks = R;
  id_running : glob s running_task = NULL;
  id_list : list_rep (mem s) R q;
  id_ready : forall u, u ∈ q.*2 -> state_of (mem s) u = RUNNABLE;
  id_layout : layout R q.*1 q.*2
}.

(** What a turn writes: the head of the queue and the state of the task. *)
Definition turn_byte (R u a : Z) : Prop :=
  R <= a < R + sizeof_list \/ u + t_state <= a < u + t_state + 4.

(** One turn of [scheduler]: the first task of the queue starts. *)
Lemma scheduler_starts R y u r s :
  idle_rep s R ((y, u) :: r) ->
  switches scheduler_turn (fun old new s' _ => old = now_context /\ new = u + t_context /\
    sched_rep s' R y u r /\ sie_on s' = false /\ modifies (turn_byte R u) (mem s) (mem s') /\
    glob s' = <[running_task := y]> (glob s) /\ log s' = log s /\ forall r, r <> sstatus -> csr_val s' r = csr_val s r) s.
Proof.
  intros [HR Hx Hl Hrd Hlay]. rewrite !fmap_cons in *. simpl fst in *. simpl snd in *.
  destruct (rep_range _ _ _ Hl) as (? & ? & Hlen).
  destruct (rep_node _ _ _ Hl y u ltac:(by left)) as (? & ? & _).
  pose proof (lay_task _ _ _ Hlay u ltac:(by left)) as Huok.
  pose proof (rep_data _ _ _ Hl) as [Hd _]%Forall_cons. simpl in Hd.
  unfold scheduler_turn. apply switches_bind, wp_interrupt_off. intros c Hoff.
  set (s1 := set_csr sstatus c s) in *.
  apply switches_bind. wp_step. change (glob s1) with (glob s). rewrite Hx. simpl (negb _).
  apply switches_bind. cbv iota. wp_step.
  apply switches_bind. eapply wp_mono; [apply (runnable_size_ok R ((y, u) :: r)); done|].
  intros n s' (-> & ->). simpl length. rewrite (proj2 (Z.ltb_lt 0 _)) by lia. unfold head_node.
  apply switches_bind_l. apply switches_bind. wp_step. change (glob s1) with (glob s). rewrite HR.
  apply switches_bind. wp_ram.
  rewrite (chain_hd _ _ _ (rep_chain _ _ _ Hl : chain (mem s1) R _)), fmap_cons, hd0_cons. simpl fst.
  apply switches_bind. wp_step. apply switches_bind. wp_ram. simpl mem. change (mem s1) with (mem s).
  rewrite Hd. apply switches_bind. wp_task. apply switches_bind. wp_step. simpl glob.
  rewrite fn_lookup_insert_ne, HR by done.
  set (m1 := wr 4 (mem s) (u + t_state) RUNNING).
  assert (Hl1 : list_rep m1 R ((y, u) :: r)) by (apply (state_write_list _ _ _ Hlay); [by left|done|done]).
  apply switches_bind. eapply wp_mono; [apply (pop_head_without_free_ok R ((y, u) :: r)); exact Hl1|].
  intros [] s2 (Hs2 & Hl2 & Hmod2). simpl drop in Hl2. simpl mem in Hmod2. fold m1 in Hmod2.
  pose proof (node_nodup _ _ (lay_list _ _ _ Hlay)) as [Hny _]%NoDup_cons.
  pose proof (lay_nodup _ _ _ Hlay) as [Hnu _]%NoDup_cons.
  assert (Hst : forall v, v ∈ u :: r.*2 -> state_of (mem s2) v = if decide (v = u) then RUNNING else RUNNABLE).
  { intros v Hv. unfold state_of.
    rewrite (list_write_task _ _ _ Hlay [] m1 _ v 4 t_state); [|by intros ? ?%not_elem_of_nil|done..].
    change (state_of m1 v = if decide (v = u) then RUNNING else RUNNABLE). unfold m1.
    rewrite (state_write _ _ _ Hlay (mem s) u v RUNNING); [|by left|exact Hv|done].
    case_decide; [done|by apply Hrd]. }
  unfold switches, switch_context. split; [done|]. split; [done|]. split; [|split; [by rewrite Hs2|split; [|rewrite Hs2; split; [done|split; [done|]]]]].
  2:{ eapply (modifies_trans _ _ m1); [apply modifies_wr; intros b Hb; right; simpl in Hb; lia|].
      eapply modifies_weaken; [|exact Hmod2]. intros a [Ha|(z & Hz%not_elem_of_nil & _)]; [by left|done]. }
  2:{ intros g Hg. change (csr_val (set_csr sstatus c s) g = csr_val s g). rewrite csr_val_set_csr. by rewrite decide_False. }
  split; [by rewrite Hs2; simpl glob; rewrite fn_lookup_insert_ne|
    by rewrite Hs2; simpl glob; rewrite fn_lookup_insert|done|done| | | |done].
  - rewrite (list_write_data _ _ _ Hlay [] m1); [|by intros ? ?%not_elem_of_nil|done|by left].
    unfold m1. rewrite (state_write_data _ _ _ Hlay); [done|by left|by left].
  - rewrite Hst by (by left). by rewrite decide_True.
  - intros v Hv. rewrite Hst by (by right). rewrite decide_False; [done|]. by intros ->.
Qed.

End Yield.
