(* ===== verification/FirstProcess.v ===== *)
(** * The first process

    Proofs about [init_scheduler] of process.c: the two queues, the program
    [init] with its stack, and the page with its arguments. *)

From S2P Require Import Prelude Machine Utility Uart Chain BuddySpec PageAlloc Capacity Kmalloc KmallocProof KmallocTheorems LinkedList LinkedListProof LinkedListTheorems PageTable PageTableProof Task Process TaskTable UserStack UserMemory UserMemoryTheorems UserCopyTheorems TaskCreate TaskFill TaskForkTheorems TaskElf TaskElfTheorems.

(** ** The queues *)

Section Lists.
Context `{Hw : Platform} {HwOk : PlatformOk Hw} {Ops : PageOps} {HA : PageAllocator Ops}.

Lemma init_list_ok {C} L s (k : M C) Q : KERNBASE <= L -> L + sizeof_list <= PHYSTOP ->
  (forall m', list_rep m' L [] -> modifies (fun a => L <= a < L + sizeof_list) (mem s) m' -> wp k Q (set_mem m' s)) ->
  wp (init_single_linked_list L;; k) Q s.
Proof.
  intros H1 H2 HQ. unfold init_single_linked_list, sizeof_list in *. wp_step. wp_step. wp_ram. wp_step. wp_ram. wp_ram. cbn [mem set_mem].
  change (wp k Q (set_mem (wr64 (wr64 (wr64 (mem s) L NULL) (L + 8) NULL) (L + 16) 0) s)). apply HQ.
  - apply list_rep_nil; unfold NULL; [done|done|by mem_simp..].
  - eapply modifies_trans; [eapply modifies_trans|]; apply modifies_wr; lia.
Qed.

(** The arena behind the first two chunks, for the headers of the queues. *)
Definition list_block (b : Z) : arena := mkArena b 0 (b + 80) [(b + 56, 24)].
Definition queue_block (b : Z) : arena := arena_alloc (list_block b) 24.

Lemma first_list_ok {C} F n s (k : Z -> M C) Q : heap_rep s F None -> capacity F (S n) ->
  (forall b s', same_but_heap s s' -> modifies (heap_touch F None) (mem s) (mem s') ->
    good_block kernel_end PHYSTOP 0 b -> (forall a, b <= a < b + PGSIZE -> F a) -> capacity (without F 0 b) n ->
    heap_rep s' (without F 0 b) (Some (list_block b)) -> list_rep (mem s') (b + 56) [] -> wp (k (b + 56)) Q s') ->
  wp (L ← create_single_linked_list; k L) Q s.
Proof.
  intros Hheap Hcap HQ. wp_step. unfold create_single_linked_list. wp_step.
  eapply wp_mono; [exact (kmalloc_ok F None sizeof_list s Hheap ltac:(done) I)|].
  intros r s1 (Hsame & Hm & Hcase). assert (Hleast : forall p, 0 <= p -> least_power (sizeof_block_meta + gross_size sizeof_list) p -> p = 0).
  { intros p Hp Hl. apply (least_power_unique _ p 0 Hp ltac:(done) Hl). split; [by vm_compute|lia]. }
  destruct Hcase as [(_ & _ & _ & _ & He)|(F' & h' & (b & p & Hl & Hg & HF & -> & -> & ->) & Hh)].
  { destruct (capacity_some F 0 n ltac:(lia) Hcap). apply He. split; [by vm_compute|lia]. }
  assert (p = 0) as -> by (destruct Hg as (Ho & _); unfold order in Ho; apply Hleast; [lia|done]).
  change (align sizeof_list) with 24 in Hh. replace (b + 56 + 24) with (b + 80) in Hh by lia. change (heap_rep s1 (without F 0 b) (Some (list_block b))) in Hh.
  pose proof Hh as (_ & _ & _ & Hwf & _). destruct (arena_bounds _ Hwf) as (_ & Hb1 & Hb2 & _). simpl in Hb1, Hb2.
  rewrite (proj2 (Z.eqb_neq (b + 56) NULL)) by (unfold NULL, KERNBASE in *; lia).
  apply init_list_ok; [lia|unfold sizeof_list; change (bsz 0) with 4096 in Hb2; lia|]. intros m' Hrep Hm'. wp_step.
  apply HQ; [done| |done|done|by apply capacity_take| |exact Hrep].
  - eapply modifies_trans; [exact Hm|]. eapply modifies_weaken; [|exact Hm']. intros a Ha. right. left. apply HF.
    change (bsz 0) with 4096. unfold sizeof_list in Ha. lia.
  - apply (heap_keep s1 _ (without F 0 b) (without F 0 b)); [exact Hh|apply same_regs_set_mem| |..|done].
    + intros a [_ Hn]. apply Hm'. intros Ha. apply Hn. exists (b + 56), 24. split; [by left|done].
    + destruct Hh as (Hp & _). apply (pool_owns_frame _ _ _ Hp). intros a Ha. apply Hm'. intros Hla. unfold sizeof_list in Hla.
      destruct Ha as [Ha%pool_private_range|[_ Ha]]; [destruct Hg as (_ & _ & Hlo & _); lia|]. change (bsz 0) with 4096 in Ha. lia.
Qed.

(** A list in a block that is in use. *)
Lemma next_list_ok {C} F A s (k : Z -> M C) Q : heap_rep s F (Some A) -> fits (Some A) sizeof_list ->
  (forall s', same_regs s s' -> modifies (spare A) (mem s) (mem s') -> heap_rep s' F (Some (arena_alloc A sizeof_list)) ->
    list_rep (mem s') (a_free A + sizeof_header) [] ->
    (forall a, a_free A + sizeof_header <= a < a_free A + sizeof_header + sizeof_list -> spare A a /\ data (a_live (arena_alloc A sizeof_list)) a) ->
    wp (k (a_free A + sizeof_header)) Q s') ->
  wp (L ← create_single_linked_list; k L) Q s.
Proof.
  intros Hheap Hfits HQ. wp_step. unfold create_single_linked_list. wp_step.
  eapply wp_mono; [exact (heap_chunk s F A sizeof_list Hheap ltac:(done) Hfits)|].
  intros r s1 (-> & Hregs & Hm & Hh & Hch & Hr1 & Hr2).
  rewrite (proj2 (Z.eqb_neq _ NULL)) by (unfold NULL, KERNBASE in *; lia).
  apply init_list_ok; [done|done|]. intros m' Hrep Hm'. wp_step.
  apply HQ; [etrans; [exact Hregs|apply same_regs_set_mem]| | |exact Hrep|exact Hch].
  - eapply modifies_trans; [exact Hm|]. eapply modifies_weaken; [|exact Hm']. intros a Ha. by apply Hch.
  - apply (heap_keep s1 _ F F); [exact Hh|apply same_regs_set_mem| |..|done].
    + intros a [_ Hn]. apply Hm'. intros Ha. by apply Hn, Hch.
    + destruct Hh as (Hp & _). apply (pool_owns_frame _ _ _ Hp). intros a Ha. apply Hm'. intros Hla.
      destruct (Hch a Hla) as [[Hs _] _]. destruct (heap_block_apart s F A a Hheap Hs). by destruct Ha.
Qed.

(** Both queues, as [init_scheduler] makes them. *)
Lemma make_queues_ok {C} F n s (k : M C) Q : heap_rep s F None -> capacity F (S n) ->
  (forall b s', same_but_heap (set_glob all_tasks (b + 96) (set_glob runnable_tasks (b + 56) s)) s' -> modifies (heap_touch F None) (mem s) (mem s') ->
    good_block kernel_end PHYSTOP 0 b -> (forall a, b <= a < b + PGSIZE -> F a) -> capacity (without F 0 b) n ->
    heap_rep s' (without F 0 b) (Some (queue_block b)) ->
    list_rep (mem s') (b + 56) [] -> list_rep (mem s') (b + 96) [] -> wp k Q s') ->
  wp (l ← create_single_linked_list; put runnable_tasks l;; l ← create_single_linked_list; put all_tasks l;; k) Q s.
Proof.
  intros Hheap Hcap HQ. apply (first_list_ok F n); [done|done|].
  intros b s1 (Hc1 & Hl1 & Hr1 & Hg1) Hm1 Hgb HF Hcap1 Hh1 Hrep1. wp_step. wp_step.
  apply (next_list_ok (without F 0 b) (list_block b)); [by apply heap_rep_glob|unfold fits; change (gross_size sizeof_list) with 40; change (bsz (a_power (list_block b))) with 4096; simpl; lia|].
  intros s2 (Hg2 & Hc2 & Hl2 & Hr2) Hm2 Hh2 Hrep2 Hch. wp_step. wp_step.
  replace (a_free (list_block b) + sizeof_header) with (b + 96) in * by (unfold sizeof_header; simpl; lia).
  apply (HQ b); [|simpl mem|done|done|done|by apply heap_rep_glob| |done].
  - split; [simpl; rewrite Hc2; exact Hc1|]. split; [simpl; rewrite Hl2; exact Hl1|]. split; [intros r Hr; simpl; etrans; [by apply Hr2|by apply Hr1]|].
    intros g Hgh Hgt. simpl. destruct (decide (g = all_tasks)) as [->|Hne]; [by rewrite !fn_lookup_insert|].
    rewrite !fn_lookup_insert_ne by done. rewrite Hg2. simpl. destruct (decide (g = runnable_tasks)) as [->|Hne2]; [by rewrite !fn_lookup_insert|].
    rewrite !fn_lookup_insert_ne by done. by apply Hg1.
  - eapply modifies_trans; [exact Hm1|]. eapply modifies_weaken; [|exact Hm2]. intros a [Ha _]. simpl in Ha. right. left. by apply HF.
  - simpl mem. apply (rep_frame _ _ _ Hrep1).
    + intros a Ha. apply Hm2. intros [_ Hn]. apply Hn. exists (b + 56), 24. split; [by left|done].
    + intros x a Hx. by apply not_elem_of_nil in Hx.
Qed.

End Lists.

(** ** Memory above the sections *)

Definition sections_end (secs : list (Z * Z)) : Z :=
  foldl (fun mx sec => if mx <? sec.1 + sec.2 then sec.1 + sec.2 else mx) 0 secs.

Lemma sections_end_snoc secs sec : sections_end (secs ++ [sec]) = Z.max (sections_end secs) (sec.1 + sec.2).
Proof. unfold sections_end. rewrite foldl_app. simpl. destruct (Z.ltb_spec (foldl (fun mx sec => if mx <? sec.1 + sec.2 then sec.1 + sec.2 else mx) 0 secs) (sec.1 + sec.2)); lia. Qed.

Lemma sections_end_ge secs : 0 <= sections_end secs /\ forall sec, sec ∈ secs -> sec.1 + sec.2 <= sections_end secs.
Proof.
  induction secs as [|sec secs IH] using rev_ind; [by split; [|intros sec ?%not_elem_of_nil]|]. rewrite sections_end_snoc. destruct IH as [IH1 IH2].
  split; [lia|]. intros sec' [H%IH2| ->%list_elem_of_singleton]%elem_of_app; lia.
Qed.

Lemma sections_end_aligned secs : Forall (fun sec => (4096 | sec.1) /\ (4096 | sec.2)) secs -> (4096 | sections_end secs).
Proof.
  induction secs as [|sec secs IH] using rev_ind; intros H; [by exists 0|]. rewrite sections_end_snoc. apply Forall_app in H as [H1 [[H2 H3] _]%Forall_cons].
  destruct (Z.max_spec (sections_end secs) (sec.1 + sec.2)) as [[_ ->]|[_ ->]]; [by apply Z.divide_add_r|by apply IH].
Qed.

Section Available.
Context `{Hw : Platform} {HwOk : PlatformOk Hw} {Ops : PageOps}.

Lemma available_from_ok a l secs s : list_rep (mem s) (a + t_mem_sections) l -> sections_at (mem s) l.*2 secs ->
  (forall d, d ∈ l.*2 -> KERNBASE <= d /\ d + sizeof_memory_section <= PHYSTOP) ->
  Forall (fun sec => 0 <= sec.1 /\ 0 <= sec.2 /\ sec.1 + sec.2 < 2 ^ 64) secs ->
  wp (available_from a) (fun r s' => r = sections_end secs /\ s' = s) s.
Proof.
  intros Hrep Hat Hds Hsecs. destruct (rep_range _ _ _ Hrep) as (Hr1 & Hr2 & Hlen). unfold available_from, sizeof_memory_section in *.
  assert (Hls : length secs = length l) by (rewrite <-(Forall2_length _ _ _ Hat); by rewrite length_fmap).
  wp_ram. wp_ram. rewrite (chain_hd _ _ _ (rep_chain _ _ _ Hrep)).
  apply (wp_loop (fun n '(node, mx) s' => exists k, (k <= length l)%nat /\ node = hd0 (drop k l).*1 /\ n = Z.of_nat (length l - k) /\
    mx = sections_end (take k secs) /\ s' = s) (Z.of_nat (length l))); [|lia|].
  { exists 0%nat. rewrite drop_0. split; [lia|]. split; [done|]. split; [lia|done]. }
  intros n [node mx] s' (k & Hk & -> & -> & -> & ->). split; [lia|].
  destruct (l !! k) as [[x d]|] eqn:Hx.
  - pose proof (lookup_lt_Some _ _ _ Hx) as Hlt. rewrite (drop_S _ _ _ Hx), fmap_cons, hd0_cons. simpl fst.
    destruct (rep_node _ _ _ Hrep x d ltac:(by apply list_elem_of_lookup_2 with k)) as (? & ? & _).
    rewrite (proj2 (Z.eqb_neq x NULL)) by (unfold NULL, KERNBASE in *; lia).
    assert (Hd : l.*2 !! k = Some d) by (by rewrite list_lookup_fmap, Hx).
    destruct (Hds d ltac:(by apply list_elem_of_lookup_2 with k)) as [Hd1 Hd2].
    destruct (lookup_lt_is_Some_2 secs k ltac:(rewrite Hls; by eapply lookup_lt_Some)) as [sec Hsec].
    destruct (Forall2_lookup_lr _ _ _ _ _ _ Hat Hd Hsec) as [Hs1 Hs2]. unfold ms_start, ms_size in *.
    wp_ram. wp_ram. rewrite (proj1 (Forall_lookup _ _) (rep_data _ _ _ Hrep) k (x, d) Hx : rd64 (mem s) (x + 8) = d).
    wp_ram. wp_ram. wp_ram. wp_ram. wp_ram. wp_ram. rewrite Hs1, Hs2.
    destruct (proj1 (Forall_lookup _ _) Hsecs k sec Hsec) as (Hp1 & Hp2 & Hp3). rewrite w64_small by lia. wp_step.
    exists (Z.of_nat (length l - S k)). split; [lia|]. exists (S k). split; [lia|]. split; [|split; [done|split; [|done]]].
    + pose proof (rep_chain _ _ _ Hrep) as Hc. rewrite <-(take_drop k l), (drop_S _ _ _ Hx), fmap_app in Hc.
      apply chain_tail in Hc. simpl in Hc. destruct Hc as [_ Hc]. by rewrite (chain_hd _ _ _ Hc).
    + rewrite (take_S_r _ _ _ Hsec). unfold sections_end. by rewrite foldl_app.
  - apply lookup_ge_None in Hx. rewrite drop_ge by lia. simpl. wp_step. split; [|done]. by rewrite take_ge by lia.
Qed.

End Available.

(** ** The arguments *)

Section Arguments.
Context `{Hw : Platform} {HwOk : PlatformOk Hw} {Ops : PageOps} {HA : PageAllocator Ops}.
Context (s0 : state) (F0 : Z -> Prop) (A : arena) (X : Z -> Prop).
Hypothesis Hheap0 : heap_rep s0 F0 (Some A).
Hypothesis Hfits : fits (Some A) sizeof_task_struct.

Abbreviation t := (new_address A).
Context {C : Type} {P : plan A C}.
Abbreviation filled := (filled s0 F0 A X (P:=P)).

(** What [init_scheduler] writes: the name in the first page, the vectors in the
    second, and the registers of the program. *)
Definition argument_byte (page tf a : Z) : Prop :=
  page <= a < page + 6 \/ page + PGSIZE <= a < page + PGSIZE + 24 \/ tf + tf_a0 <= a < tf + tf_a0 + 24.
Record arguments_at (m : gmap Z Z) (page tf va : Z) : Prop := {
  ar_name : str_at m (Ptr page) (codes "init");
  ar_argv : rd64 m (page + PGSIZE) = va /\ rd64 m (page + PGSIZE + 8) = NULL;
  ar_envp : rd64 m (page + PGSIZE + 16) = NULL;
  ar_registers : fields m tf [(tf_a0, 8%nat, 1); (tf_a1, 8%nat, va + PGSIZE); (tf_a2, 8%nat, va + PGSIZE + 16)]
}.

Lemma write_arguments {D} s1 pt E0 frames0 rs secs s B F T E frames l pss n page tf va fl (k : M D) Q :
  filled s1 pt E0 frames0 rs secs s B F T E frames l pss n ->
  page ∈ frames0 -> page + PGSIZE ∈ frames0 -> tf ∈ frames0 -> page <> tf -> page + PGSIZE <> tf ->
  fields (mem s) t fl -> within sizeof_task_struct fl = true -> (t_trap_frame, 8%nat, tf) ∈ fl ->
  0 <= va -> va + PGSIZE + 16 < 2 ^ 64 ->
  (forall s', filled s1 pt E0 frames0 rs secs s' B F T E frames l pss n -> glob s' = glob s ->
    modifies (argument_byte page tf) (mem s) (mem s') -> arguments_at (mem s') page tf va -> wp k Q s') ->
  wp (strcpy page (Lit "init") 5;;
      store64 (page +w PGSIZE) va;;
      store64 (page +w PGSIZE + 8) NULL;;
      store64 (page +w PGSIZE + 16) NULL;;
      tf ← load64 (t + t_trap_frame);
      store64 (tf + tf_a0) 1;;
      store64 (tf + tf_a1) (va +w PGSIZE);;
      store64 (tf + tf_a2) (va +w PGSIZE +w 16);; k) Q s.
Proof using Hheap0 Hfits HwOk.
  intros Hcd Hp1 Hp2 Htf Hne1 Hne2 Hl Hwi Hin Hva0 Hva HQ. pose proof (cd_grown _ _ _ _ _ _ _ _ _ _ _ _ _ _ _ _ _ _ _ Hcd) as Hgr.
  pose proof (cd_building _ _ _ _ _ _ _ _ _ _ _ _ _ _ _ _ _ _ _ Hcd) as Hb. pose proof (cd_frames _ _ _ _ _ _ _ _ _ _ _ _ _ _ _ _ _ _ _ Hcd) as Hfr.
  destruct (struct_ram s0 F0 A B Hheap0 Hfits Hgr) as [Ht1 Ht2].
  pose proof (bd_frame s0 F0 A B X _ _ _ _ _ _ _ page Hb (Hfr _ Hp1)) as Hg1.
  pose proof (bd_frame s0 F0 A B X _ _ _ _ _ _ _ _ Hb (Hfr _ Hp2)) as Hg2.
  pose proof (bd_frame s0 F0 A B X _ _ _ _ _ _ _ tf Hb (Hfr _ Htf)) as Hgt.
  destruct (frame_range page Hg1) as (_ & _ & Hr1). destruct (frame_range _ Hg2) as (_ & _ & Hr2). destruct (frame_range tf Hgt) as (_ & _ & Hrt).
  unfold ram_range in Hr1, Hr2, Hrt.
  assert (Hd1 : tf + PGSIZE <= page \/ page + PGSIZE <= tf).
  { destruct (Z.le_gt_cases (tf + PGSIZE) page); [by left|]. destruct (Z.le_gt_cases (page + PGSIZE) tf); [by right|]. destruct Hne1.
    apply (frames_apart page tf (Z.max page tf)); [done|done|unfold PGSIZE in *; lia..]. }
  assert (Hd2 : tf + PGSIZE <= page + PGSIZE \/ page + PGSIZE + PGSIZE <= tf).
  { destruct (Z.le_gt_cases (tf + PGSIZE) (page + PGSIZE)); [by left|]. destruct (Z.le_gt_cases (page + PGSIZE + PGSIZE) tf); [by right|]. destruct Hne2.
    apply (frames_apart (page + PGSIZE) tf (Z.max (page + PGSIZE) tf)); [done|done|unfold PGSIZE in *; lia..]. }
  unfold PGSIZE in Hr1, Hr2, Hrt, Hd1, Hd2, Hva.
  rewrite (w64_small (va + PGSIZE)), (w64_small (va + PGSIZE + 16)), (w64_small (page + PGSIZE)) by (unfold PGSIZE, PHYSTOP, KERNBASE in *; lia).
  wp_step. apply (strcpy_ok page (Lit "init") (codes "init")); [unfold ram_range; lia|split; [repeat constructor; done|done]|done|done|].
  intros m1 H1 Hz Hm1. set (m4 := wr64 (wr64 (wr64 m1 (page + PGSIZE) va) (page + PGSIZE + 8) NULL) (page + PGSIZE + 16) NULL).
  assert (Hm4 : modifies (argument_byte page tf) (mem s) m4).
  { eapply modifies_trans; [eapply modifies_weaken; [|exact Hm1]; unfold argument_byte, range; lia|].
    unfold m4. eapply modifies_trans; [eapply modifies_trans|]; apply modifies_wr; unfold argument_byte; lia. }
  assert (Hsub : forall a, argument_byte page tf a -> in_frames frames0 a).
  { unfold argument_byte, tf_a0. intros a [Ha|[Ha|Ha]]; [exists page|exists (page + PGSIZE)|exists tf]; (split; [done|unfold PGSIZE in *; lia]). }
  assert (Hsub' : forall a, argument_byte page tf a -> in_frames frames a).
  { intros a (p & Hp & Ha)%Hsub. exists p. by split; [apply Hfr|]. }
  assert (Hl4 : fields m4 t fl).
  { apply (fields_out (mem s) _ _ sizeof_task_struct _ Hl Hwi). apply (frames_struct s0 F0 A X Hheap0 Hfits _ _ _ _ _ _ _ _ _ _ _ _ _ _ _ _ Hcd).
    by eapply modifies_weaken; [|exact Hm4]. }
  pose proof (eq_refl : PGSIZE = 4096) as HP. wp_step. wp_ram. wp_step. wp_ram. wp_step. wp_ram. cbn [mem set_mem]. change (set_mem _ s) with (set_mem m4 s).
  wp_step. apply (load_field s0 F0 A B Hheap0 Hfits Hgr (set_mem m4 s) fl t_trap_frame 8 tf _ Hl4 Hin); [done..|].
  unfold tf_a0, tf_a1, tf_a2 in *. wp_step. wp_ram. wp_step. wp_ram. wp_step. wp_ram. cbn [mem set_mem].
  set (m7 := wr64 (wr64 (wr64 m4 (tf + 112) 1) (tf + 120) (va + PGSIZE)) (tf + 128) (va + PGSIZE + 16)). change (set_mem _ s) with (set_mem m7 s).
  assert (Hm7 : modifies (argument_byte page tf) (mem s) m7).
  { eapply modifies_trans; [exact Hm4|]. unfold m7. eapply modifies_trans; [eapply modifies_trans|]; apply modifies_wr; unfold argument_byte, tf_a0; lia. }
  apply HQ; [|done|exact Hm7|].
  - apply (frames_step s0 F0 A X Hheap0 Hfits _ _ _ _ _ _ s); [done|apply same_regs_set_mem|]. by eapply modifies_weaken; [|exact Hm7].
  - cbn [mem set_mem]. split.
    + split; [repeat constructor; done|]. split; [unfold ram_range; simpl; lia|]. apply bytes_at_intro. intros i c Hi.
      assert (Hi5 : (i < 5)%nat) by (by apply lookup_lt_Some in Hi). unfold m7, m4. rewrite !rd8_wr_out by lia. rewrite H1 by lia. rewrite Nat2Z.id.
      by do 5 (destruct i as [|i]; [by injection Hi as <-|]).
    + unfold m7, m4, NULL. split; by mem_simp.
    + unfold m7, m4, NULL. by mem_simp.
    + unfold m7. unfold tf_a0, tf_a1, tf_a2. repeat constructor; simpl fst; simpl snd; change (rd 8) with rd64; mem_simp; done.
Qed.
(** The sections of the task are in its block of the heap. *)
Lemma sections_ram s B l secs d : child_sections A s B l secs -> d ∈ l.*2 -> KERNBASE <= d /\ d + sizeof_memory_section <= PHYSTOP.
Proof using Hheap0 HwOk.
  intros Hcs Hd. pose proof Hheap0 as (_ & _ & _ & Hwf & _). destruct (arena_bounds A Hwf) as (_ & ? & ? & _).
  assert (Hin : forall a, d <= a < d + 16 -> a_block A <= a < a_block A + bsz (a_power A)).
  { intros a Ha. destruct (cs_own _ _ _ _ _ Hcs a) as [[[Hr _] _] _]; [right; by exists d|done]. }
  pose proof (Hin d ltac:(lia)). pose proof (Hin (d + 15) ltac:(lia)). unfold sizeof_memory_section. lia.
Qed.

Definition argument_permission : Z := Z.lor (Z.lor PTE_R PTE_W) PTE_U.
Definition argument_map (page va : Z) (E : Z -> Z) : Z -> Z :=
  <[va / PGSIZE + 1 := leaf (page + PGSIZE) argument_permission]> (<[va / PGSIZE := leaf page argument_permission]> E).

Lemma map_arguments {D} s1 pt E0 frames0 rs secs s B F T E frames l pss n i m va fl (k : Z -> Z -> M D) Q :
  filled s1 pt E0 frames0 rs secs s B F T E frames l pss n -> n = (i + 6)%nat -> 0 <= m -> room B (64 + m) ->
  fields (mem s) t fl -> within sizeof_task_struct fl = true -> clear_of t_mem_sections sizeof_list fl = true ->
  (t_pagetable, 8%nat, pt) ∈ fl -> va = sections_end secs -> (4096 | va) -> va + 2 * PGSIZE <= MAXVA ->
  Forall (fun sec => 0 <= sec.1 /\ 0 <= sec.2) secs ->
  (forall j, va / PGSIZE <= j <= va / PGSIZE + 1 -> valid (E j) = false /\ j ∉ pages rs) ->
  (forall s' page B' F' T' l',
    filled s1 pt (argument_map page va E0) (page :: page + PGSIZE :: frames0) rs (secs ++ [(va, PGSIZE * 2)])
      s' B' F' T' (argument_map page va E) (page :: page + PGSIZE :: frames) l' pss (i + 1) ->
    room B' m -> keeps (own_byte A frames) (mem s) (mem s') -> wp (k page va) Q s') ->
  wp (page ← allocate_for_user 1;
      (if page =? NULL then panic "init_scheduler: cannot allocate page for init task" else mret tt);;
      va ← available_from t;
      r ← register_memory_section t va (PGSIZE * 2);
      (if negb (r =? 0)
       then panic "init_scheduler: cannot register memory section for init task" else mret tt);;
      pt ← load64 (t + t_pagetable);
      r ← map_page pt va page argument_permission;
      (if negb (r =? 0) then panic "init_scheduler: cannot map page for init task" else mret tt);;
      pt ← load64 (t + t_pagetable);
      r ← map_page pt (va +w PGSIZE) (page +w PGSIZE) argument_permission;
      (if negb (r =? 0) then panic "init_scheduler: cannot map page for init task" else mret tt);;
      k page va) Q s.
Proof using Hheap0 Hfits HwOk.
  intros Hcd -> Hm Hroom Hl Hwi Hcm Hpt Hva Hal Hmax Hsecs Hnew HQ. pose proof (sections_end_ge secs) as [Hva0 Hends]. rewrite <-Hva in Hva0, Hends.
  pose proof (eq_refl : PGSIZE = 4096) as HP. change MAXVA with (2 ^ 38) in Hmax.
  wp_step. eapply wp_mono; [apply (block_step s0 F0 A X Hheap0 Hfits _ _ _ _ _ _ _ _ _ _ _ _ _ _ _ Hcd 1 (i + 5)); [done|lia]|].
  intros page s2 (Hne & Hg & Hk2 & _ & Hcd2). rewrite (proj2 (Z.eqb_neq page NULL) Hne).
  change (frames_of 1 page ++ ?x) with (page :: page + PGSIZE :: x) in Hcd2. pose proof (cd_grown _ _ _ _ _ _ _ _ _ _ _ _ _ _ _ _ _ _ _ Hcd2) as Hgr.
  pose proof (bd_frame s0 F0 A B X _ _ _ _ _ _ _ page (cd_building _ _ _ _ _ _ _ _ _ _ _ _ _ _ _ _ _ _ _ Hcd2) ltac:(by left)) as Hg1.
  pose proof (bd_frame s0 F0 A B X _ _ _ _ _ _ _ (page + PGSIZE) (cd_building _ _ _ _ _ _ _ _ _ _ _ _ _ _ _ _ _ _ _ Hcd2) ltac:(by right; left)) as Hg2.
  destruct (frame_bits page Hg1) as [Hp1 Hd1]. destruct (frame_bits _ Hg2) as [Hp2 Hd2].
  rewrite (w64_small (page + PGSIZE)) by lia. wp_step. wp_step. wp_step.
  pose proof (cd_sections _ _ _ _ _ _ _ _ _ _ _ _ _ _ _ _ _ _ _ Hcd2) as Hcs2.
  eapply wp_mono; [apply (available_from_ok t l secs s2 (cs_rep _ _ _ _ _ Hcs2) (cs_data _ _ _ _ _ Hcs2))|].
  { intros d. by apply (sections_ram s2 B l secs). }
  { apply Forall_forall. intros sec Hsec. destruct (proj1 (Forall_forall _ _) Hsecs sec Hsec). specialize (Hends sec Hsec). lia. }
  intros r s2' [-> ->]. rewrite <-Hva. wp_step. eapply wp_mono.
  { apply (register_step s0 F0 A X Hheap0 Hfits _ _ _ _ _ _ _ _ _ _ _ _ _ _ _ va (PGSIZE * 2) Hcd2); [|lia..]. eapply room_le; [|exact Hroom]. lia. }
  intros r s3 (-> & B3 & x & d & Hroom3 & Hk3 & Hcd3). change (negb (0 =? 0)) with false. cbv iota. wp_step. wp_step.
  assert (Hk23 : keeps (own_byte A frames) (mem s) (mem s3)).
  { eapply keeps_trans; [exact Hk2|]. intros a Ha. apply Hk3. destruct Ha as [Ha|(q & Hq & Ha)]; [by left|right; exists q; split; [by do 2 right|done]]. }
  pose proof (cd_grown _ _ _ _ _ _ _ _ _ _ _ _ _ _ _ _ _ _ _ Hcd3) as Hgr3.
  pose proof (fields_own A frames _ _ _ Hl Hwi Hcm Hk23) as Hl3.
  wp_step. apply (load_field s0 F0 A B3 Hheap0 Hfits Hgr3 s3 fl t_pagetable 8 pt _ Hl3 Hpt); [done..|].
  destruct (Hnew (va / PGSIZE)) as [Hi1 Hn1]; [lia|]. destruct (Hnew (va / PGSIZE + 1)) as [Hi2 Hn2]; [lia|].
  assert (Hvp : (va + PGSIZE) / PGSIZE = va / PGSIZE + 1) by (rewrite HP; replace (va + 4096) with (va + 1 * 4096) by lia; by rewrite Z.div_add).
  wp_step. eapply wp_mono.
  { apply (map_step s0 F0 A X Hheap0 Hfits _ _ _ _ _ _ _ _ _ _ _ _ _ _ _ Hcd3 va page argument_permission (i + 2)); [lia|change MAXVA with (2 ^ 38); lia|lia|done|done|done]. }
  intros r s4 (-> & Hk4 & F4 & T4 & Hcd4). change (negb (0 =? 0)) with false. cbv iota. wp_step. wp_step.
  assert (Hk24 : keeps (own_byte A frames) (mem s) (mem s4)).
  { eapply keeps_trans; [exact Hk23|]. intros a Ha. apply Hk4. destruct Ha as [Ha|(q & Hq & Ha)]; [by left|right; exists q; split; [by do 2 right|done]]. }
  pose proof (fields_own A frames _ _ _ Hl Hwi Hcm Hk24) as Hl4.
  wp_step. apply (load_field s0 F0 A B3 Hheap0 Hfits Hgr3 s4 fl t_pagetable 8 pt _ Hl4 Hpt); [done..|].
  rewrite (w64_small (va + PGSIZE)) by lia. wp_step. eapply wp_mono.
  { apply (map_step s0 F0 A X Hheap0 Hfits _ _ _ _ _ _ _ _ _ _ _ _ _ _ _ Hcd4 (va + PGSIZE) (page + PGSIZE) argument_permission i);
      rewrite ?Hvp; [lia|change MAXVA with (2 ^ 38); lia|lia|done| |done]. rewrite fn_lookup_insert_ne by lia. exact Hi2. }
  intros r s5 (-> & Hk5 & F5 & T5 & Hcd5). change (negb (0 =? 0)) with false. cbv iota. wp_step. wp_step.
  rewrite Hvp, Hd1, Hd2 in Hcd5.
  apply (HQ s5 page B3 F5 T5 _ Hcd5); [apply Hroom3; [done|exact Hroom]|].
  eapply keeps_trans; [exact Hk24|]. intros a Ha. apply Hk5. destruct Ha as [Ha|(q & Hq & Ha)]; [by left|right; exists q; split; [by do 2 right|done]].
Qed.

End Arguments.
