(* ===== verification/FirstProcessTheorems.v ===== *)
(** * Theorems on the first process

    [init_scheduler] of process.c, from the empty kernel heap to the queues. *)

From S2P Require Import Prelude Machine Board Utility Uart BuddySpec PageAlloc Capacity Buddy BuddyInstance BuddyTheorems Kmalloc KmallocProof KmallocTheorems LinkedList LinkedListProof LinkedListTheorems PageTable PageTableProof Task Process TaskTable Scheduler UserStack UserMemory UserMemoryTheorems UserCopyTheorems TaskCreate TaskCreateTheorems TaskFill TaskForkTheorems TaskElf TaskElfTheorems FirstProcess.

(** The first address above the program. *)
Definition program_end (sgs : list segment) : Z := sections_end (seg_section <$> loads sgs).

Lemma elf_at_keep m m' elf size sgs entry : elf_at m elf size sgs entry -> ram_range elf size ->
  keeps (fun a => elf <= a < elf + size) m m' -> elf_at m' elf size sgs entry.
Proof.
  intros [Hma Hh Hc He Ht Hs Hsg] Hram Hk. assert (Hw : forall k o, 0 <= o -> o + Z.of_nat k <= size -> rd k m' (elf + o) = rd k m (elf + o)).
  { intros k o Ho1 Ho2. apply (keeps_rd _ _ _ _ _ Hk). lia. }
  assert (Hph : rd64 m' (elf + e_phoff) = rd64 m (elf + e_phoff)) by (apply Hw; unfold e_phoff; lia).
  pose proof (rd64_range m (elf + e_phoff)) as Hpr. split; rewrite ?Hph; [| | | |done..].
  - intros i c Hi. rewrite <-(Hma i c Hi). apply Hk. assert (Z.of_nat i < 4) by (apply lookup_lt_Some in Hi; simpl in Hi; lia). lia.
  - intros i sg Hi. destruct (Hh i sg Hi) as [H1 H2 H3 H4 H5 H6]. pose proof (lookup_lt_Some _ _ _ Hi). unfold sizeof_phdr in *.
    split; [rewrite <-H1|rewrite <-H2|rewrite <-H3|rewrite <-H4|rewrite <-H5|rewrite <-H6]; apply (keeps_rd _ _ _ _ _ Hk); intros b Hb;
      unfold p_type, p_flags, p_offset, p_vaddr, p_filesz, p_memsz in Hb; lia.
  - rewrite <-Hc. apply Hw; unfold e_phnum; lia.
  - rewrite <-He. apply Hw; unfold e_entry; lia.
Qed.

Lemma segment_pages_mem m m' elf sgs : segment_pages m elf sgs = segment_pages m' elf sgs.
Proof.
  unfold segment_pages, pages. f_equal. induction (loads sgs) as [|sg l IH]; [done|]. rewrite !fmap_cons, IH. f_equal.
  unfold seg_range, seg_contents. simpl. by rewrite !length_fmap.
Qed.

Lemma segment_page_mem m1 m2 m' E elf size sg j : seg_ok size sg -> keeps (fun a => elf <= a < elf + size) m1 m2 -> 0 <= j ->
  segment_page m2 m' E elf sg j -> segment_page m1 m' E elf sg j.
Proof.
  intros Hok Hk Hj (H1 & H2 & H3). split; [done|]. split; [done|]. intros i Hi. rewrite (H3 i Hi). unfold segment_byte.
  destruct (Z.ltb_spec (j * PGSIZE + i) (sg_filesz sg)); [|done]. apply Hk. destruct (so_file _ _ Hok). unfold PGSIZE in *. lia.
Qed.

(** The sections of the program, and its pages below [program_end]. *)
Lemma program_sections size sgs : Forall (seg_ok size) (loads sgs) ->
  Forall (fun sec => (4096 | sec.1) /\ (4096 | sec.2)) (seg_section <$> loads sgs) /\
  Forall (fun sec => 0 <= sec.1 /\ 0 <= sec.2) (seg_section <$> loads sgs).
Proof.
  intros H. split; apply Forall_fmap; (eapply Forall_impl; [exact H|]); intros sg [Hal Hva Hsz _ _]; simpl.
  - split; [done|]. by exists (pages_of (sg_memsz sg)).
  - destruct (pages_of_spec (sg_memsz sg) 0 ltac:(lia)). unfold PGSIZE. lia.
Qed.

Lemma segment_pages_below m elf size sgs i : Forall (seg_ok size) (loads sgs) -> i ∈ segment_pages m elf sgs ->
  0 <= i < program_end sgs / PGSIZE.
Proof.
  intros Hok Hi. assert (Hsg : exists sg, sg ∈ loads sgs /\ seg_page sg <= i < seg_page sg + pages_of (sg_memsz sg)).
  { revert Hi. unfold segment_pages. induction Hok as [|sg l Hsg _ IH]; [by intros ?%not_elem_of_nil|].
    rewrite fmap_cons. change (?x :: ?y) with ([x] ++ y) at 1. rewrite pages_app. intros [Hi|Hi]%elem_of_app.
    - exists sg. split; [by left|]. apply pages_one in Hi. simpl in Hi. unfold seg_contents in Hi. rewrite length_fmap, length_seqZ in Hi. lia.
    - destruct (IH Hi) as (sg' & ? & ?). exists sg'. split; [by right|done]. }
  destruct Hsg as (sg & Hin & Hi1). destruct (proj1 (Forall_forall _ _) Hok sg Hin) as [[n Hn] Hva _ _ _].
  destruct (sections_end_ge (seg_section <$> loads sgs)) as [_ Hge]. specialize (Hge (seg_section sg) (list_elem_of_fmap_2 _ _ _ Hin)). simpl in Hge.
  unfold seg_page, program_end, PGSIZE in *. rewrite Hn, Z.div_mul in Hi1 by done. split; [lia|].
  assert (i + 1 <= sections_end (seg_section <$> loads sgs) / 4096); [|lia]. apply Z.div_le_lower_bound; lia.
Qed.

Lemma stack_after_range sgs : 0 <= stack_after stack_rwu sgs < 1024.
Proof.
  induction sgs as [|sg sgs IH] using rev_ind; [by vm_compute|]. unfold stack_after in *. rewrite foldl_app. simpl.
  destruct (stack_header sg); [|done]. by apply (lor_range _ _ 10).
Qed.

Section Steps.
Context `{Hw : Platform} {HwOk : PlatformOk Hw} {Ops : PageOps} {HA : PageAllocator Ops}.

(** The fields of the task, and the registers that the loader and the stack set. *)
Definition program_fields (sgs : list segment) (pid ks tf pt sh : Z) : list (Z * nat * Z) :=
  (t_stack_permission, 8%nat, stack_after stack_rwu sgs) :: task_fields pid NULL ks tf pt sh.
Definition entry_fields (entry : Z) : list (Z * nat * Z) := [(tf_sp, 8%nat, SHARED_MEMORY); (tf_epc, 8%nat, entry)].

Record standing (m : gmap Z Z) (t tf stack entry : Z) (fl : list (Z * nat * Z)) : Prop := {
  sd_task : fields m t fl;
  sd_entry : fields m tf (entry_fields entry);
  sd_zero : forall a, stack <= a < stack + PGSIZE -> rd8 m a = 0
}.

Lemma standing_own A frames m m' tf stack entry fl : standing m (new_address A) tf stack entry fl -> tf ∈ frames -> stack ∈ frames ->
  within sizeof_task_struct fl = true -> clear_of t_mem_sections sizeof_list fl = true -> keeps (own_byte A frames) m m' ->
  standing m' (new_address A) tf stack entry fl.
Proof.
  intros [H1 H2 H3] Htf Hst Hwi Hcm Hk. split.
  - by apply (fields_own A frames m).
  - apply (fields_out m _ _ PGSIZE _ H2); [done|]. intros b Hb. apply Hk. right. by exists tf.
  - intros a Ha. rewrite Hk; [by apply H3|]. right. by exists stack.
Qed.

(** The argument bytes are apart from other frames. *)
Lemma argument_apart page tf q a : good_block kernel_end PHYSTOP 0 page -> good_block kernel_end PHYSTOP 0 (page + PGSIZE) ->
  good_block kernel_end PHYSTOP 0 tf -> good_block kernel_end PHYSTOP 0 q -> q <> page -> q <> page + PGSIZE ->
  q <= a < q + PGSIZE -> argument_byte page tf a -> q = tf /\ tf + tf_a0 <= a < tf + tf_a0 + 24.
Proof.
  intros Hg1 Hg2 Hgt Hgq Hn1 Hn2 Ha [Hb|[Hb|Hb]].
  - destruct Hn1. apply (frames_apart q page a); [done|done|done|unfold PGSIZE; lia].
  - destruct Hn2. apply (frames_apart q (page + PGSIZE) a); [done|done|done|unfold PGSIZE in *; lia].
  - split; [|done]. apply (frames_apart q tf a); [done|done|done|unfold PGSIZE, tf_a0 in *; lia].
Qed.

(** ** The stages of [init_scheduler] *)

Section Stages.
Context (s0 : state) (F0 : Z -> Prop) (A : arena).
Hypothesis Hheap0 : heap_rep s0 F0 (Some A).
Hypothesis Hfits : fits (Some A) sizeof_task_struct.
Abbreviation t := (new_address A).
Context (elf size entry : Z) (sgs : list segment).
Hypothesis Helf : elf_at (mem s0) elf size sgs entry.
Context (s1 : state) (pt tf sh ks : Z).
Hypothesis Hmade : task_made s0 s1 t NULL ks pt tf sh (codes "init").
Hypothesis Hend : program_end sgs + 2 * PGSIZE <= SHARED_MEMORY - PGSIZE.

Abbreviation filled := (filled s0 F0 A no_bytes (P:=elf_plan A)).
Abbreviation ranges := (seg_range (mem s0) elf <$> loads sgs).
Abbreviation secs := (seg_section <$> loads sgs).
Abbreviation perm := (stack_after stack_rwu sgs).
Abbreviation fl := (stack_fields ++ program_fields sgs (glob s0 next_pid) ks tf pt sh).
Abbreviation va := (program_end sgs).

Lemma page_below i : i ∈ segment_pages (mem s0) elf sgs -> 0 <= i < va / PGSIZE /\ i <> stack_page /\ ~ new_task_pages i.
Proof using Helf Hend.
  intros Hi. pose proof (segment_pages_below _ _ size _ _ (el_segments _ _ _ _ _ Helf) Hi) as Hb. split; [done|].
  assert (Hv : va / PGSIZE * PGSIZE <= va) by (rewrite Z.mul_comm; apply Z.mul_div_le; done).
  unfold new_task_pages, stack_page. change ((SHARED_MEMORY - PGSIZE) / PGSIZE) with (2 ^ 26 - 4) in *.
  change (SHARED_MEMORY / PGSIZE) with (2 ^ 26 - 3). change (TRAMPOLINE / PGSIZE) with (2 ^ 26 - 1). change (TRAPFRAME / PGSIZE) with (2 ^ 26 - 2).
  change (SHARED_MEMORY - PGSIZE) with ((2 ^ 26 - 4) * 4096) in Hend. unfold PGSIZE in *. lia.
Qed.

(** After the stack. *)
Definition stack_ready (n : nat) (m : Z) (s : state) : Prop := exists B F T E frames l pss stack,
  good_block kernel_end PHYSTOP 0 stack /\
  filled s1 pt (<[stack_page := leaf stack perm]> (map_of_new tf sh)) [stack; sh; tf; ks] ranges secs s B F T E frames l pss n /\
  room B m /\ standing (mem s) t tf stack entry fl.

Lemma stack_stage B F T E frames l pss k m s :
  filled s1 pt (map_of_new tf sh) [sh; tf; ks] ranges secs s B F T E frames l pss (k + 4) -> room B m ->
  rd64 (mem s) (t + t_stack_permission) = perm -> rd64 (mem s) (tf + tf_epc) = entry ->
  wp (set_stack t) (fun r s' => r = 0 /\ stack_ready (k + 1) m s') s.
Proof using Hheap0 Hfits HwOk Hmade Hend Helf.
  intros Hcd Hroom Hperm Hepc.
  assert (Hl : fields (mem s) t (program_fields sgs (glob s0 next_pid) ks tf pt sh)).
  { constructor; [exact Hperm|]. apply (task_fields_keep A s0 s1 (mem s) NULL ks pt tf sh (codes "init") Hmade).
    exact (cd_core _ _ _ _ _ _ _ _ _ _ _ _ _ _ _ _ _ _ _ Hcd). }
  assert (Hnot : stack_page ∉ segment_pages (mem s0) elf sgs) by (intros Hi; by apply page_below in Hi as (_ & ? & _)).
  eapply wp_mono.
  { apply (set_stack_ok s0 F0 A no_bytes Hheap0 Hfits _ _ _ _ _ _ _ _ _ _ _ _ _ _ _ k tf perm _ Hcd eq_refl Hl);
      [done|done|done|unfold program_fields, task_fields; in_list..|apply stack_after_range|in_list| |exact Hnot].
    rewrite (cd_rest _ _ _ _ _ _ _ _ _ _ _ _ _ _ _ _ _ _ _ Hcd) by exact Hnot. by apply map_of_new_free. }
  intros r s' (-> & Hl' & Hsp & Hk & p & F' & T' & Hg & Hz & Hcd'). split; [done|].
  destruct (frame_bits p Hg) as [_ Hpd]. rewrite Hpd in Hcd'. exists B, F', T', (<[stack_page := leaf p perm]> E), (p :: frames), l, pss, p.
  split; [done|]. split; [exact Hcd'|]. split; [done|]. split; [exact Hl'| |exact Hz].
  constructor; [exact Hsp|]. constructor; [|constructor]. simpl fst. simpl snd. rewrite <-Hepc. change (rd 8) with rd64.
  pose proof (cd_building _ _ _ _ _ _ _ _ _ _ _ _ _ _ _ _ _ _ _ Hcd) as Hb. pose proof (cd_grown _ _ _ _ _ _ _ _ _ _ _ _ _ _ _ _ _ _ _ Hcd) as Hgr.
  assert (Hin : tf ∈ frames) by (apply (cd_frames _ _ _ _ _ _ _ _ _ _ _ _ _ _ _ _ _ _ _ Hcd); in_list).
  apply (keeps_rd _ _ _ _ _ Hk). intros b Hb'. assert (Hbt : tf <= b < tf + PGSIZE) by (unfold PGSIZE, tf_epc in *; lia).
  split; [right; by exists tf|]. split; [|unfold tf_epc, tf_sp in *; lia]. intros Hst.
  destruct (struct_apart s0 F0 A B Hheap0 Hfits Hgr b) as [Hn _]; [unfold struct_byte, sizeof_memory_section in *; task_unfold; lia|].
  by apply Hn, (proj1 (Forall_forall _ _) (bd_frames _ _ _ _ _ _ _ _ _ _ _ _ Hb) tf Hin).
Qed.

(** After the arguments. *)
Definition arguments_ready (n : nat) (m : Z) (s : state) : Prop := exists B F T E frames l pss stack page,
  good_block kernel_end PHYSTOP 0 stack /\
  filled s1 pt (argument_map page va (<[stack_page := leaf stack perm]> (map_of_new tf sh))) [page; page + PGSIZE; stack; sh; tf; ks]
    ranges (secs ++ [(va, PGSIZE * 2)]) s B F T E frames l pss n /\
  room B m /\ standing (mem s) t tf stack entry fl /\ arguments_at (mem s) page tf va.

Lemma frames0_nodup E0 frames0 rs ss s B F T E frames l pss n : filled s1 pt E0 frames0 rs ss s B F T E frames l pss n -> NoDup frames0.
Proof.
  clear Helf Hmade Hend. intros Hcd. pose proof (bd_nodup _ _ _ _ _ _ _ _ _ _ _ _ (cd_building _ _ _ _ _ _ _ _ _ _ _ _ _ _ _ _ _ _ _ Hcd)) as Hnd.
  rewrite (cd_list _ _ _ _ _ _ _ _ _ _ _ _ _ _ _ _ _ _ _ Hcd) in Hnd. by apply NoDup_app in Hnd as (_ & _ & ?).
Qed.

Lemma standing_arguments E0 rs ss s B F T E frames l pss n page stack m' :
  filled s1 pt E0 [page; page + PGSIZE; stack; sh; tf; ks] rs ss s B F T E frames l pss n ->
  modifies (argument_byte page tf) (mem s) m' -> standing (mem s) t tf stack entry fl -> standing m' t tf stack entry fl.
Proof using Hheap0 Hfits HwOk.
  clear Helf Hmade Hend. intros Hcd Hm [H1 H2 H3]. pose proof (frames0_nodup _ _ _ _ _ _ _ _ _ _ _ _ _ Hcd) as Hnd.
  pose proof (cd_frames _ _ _ _ _ _ _ _ _ _ _ _ _ _ _ _ _ _ _ Hcd) as Hfr.
  assert (Hg : forall q, q ∈ [page; page + PGSIZE; stack; sh; tf; ks] -> good_block kernel_end PHYSTOP 0 q).
  { intros q Hq. exact (bd_frame s0 F0 A B no_bytes _ _ _ _ _ _ _ q (cd_building _ _ _ _ _ _ _ _ _ _ _ _ _ _ _ _ _ _ _ Hcd) (Hfr q Hq)). }
  rewrite !NoDup_cons, !not_elem_of_cons in Hnd. destruct Hnd as ((Hn1 & Hn2 & Hn3 & Hn4 & _) & (Hn5 & Hn6 & Hn7 & _) & (Hn8 & Hn9 & _) & _).
  assert (Hout : forall q a, q ∈ [page; page + PGSIZE; stack; sh; tf; ks] -> q <> page -> q <> page + PGSIZE -> q <= a < q + PGSIZE ->
    ~ (tf + tf_a0 <= a < tf + tf_a0 + 24) -> rd8 m' a = rd8 (mem s) a).
  { intros q a Hq Hq1 Hq2 Ha Hna. apply Hm. intros Hb. apply Hna.
    apply (argument_apart page tf q a); [apply Hg; in_list|apply Hg; in_list|apply Hg; in_list|by apply Hg|done..]. }
  split.
  - apply (fields_out (mem s) _ _ sizeof_task_struct _ H1); [done|].
    apply (frames_struct s0 F0 A no_bytes Hheap0 Hfits _ _ _ _ _ _ _ _ _ _ _ _ _ _ _ _ Hcd). eapply modifies_weaken; [|exact Hm].
    intros a [Ha|[Ha|Ha]]; [exists page|exists (page + PGSIZE)|exists tf]; (split; [apply Hfr; in_list|unfold PGSIZE, tf_a0 in *; lia]).
  - unfold fields in *. rewrite Forall_forall in *. intros f Hf. rewrite <-(H2 f Hf). apply rd_ext. intros b Hb.
    assert (Hall : Forall (fun f : Z * nat * Z => 24 <= f.1.1 /\ f.1.1 + Z.of_nat f.1.2 <= 56) (entry_fields entry)) by by repeat constructor.
    pose proof (proj1 (Forall_forall _ _) Hall f Hf) as Ho. simpl in Ho.
    apply (Hout tf b); [in_list|congruence|congruence|unfold PGSIZE; lia|unfold tf_a0; lia].
  - intros a Ha. rewrite (Hout stack a); [by apply H3|in_list|congruence|congruence|done|].
    intros Hb. apply Hn9. apply (frames_apart stack tf a); [apply Hg; in_list|apply Hg; in_list|done|unfold PGSIZE, tf_a0 in *; lia].
Qed.

Lemma arguments_stage {D} i m s (k : M D) Q : 0 <= m -> stack_ready (i + 6) (64 + m) s ->
  (forall s', arguments_ready (i + 1) m s' -> wp k Q s') ->
  wp (page ← allocate_for_user 1;
      (if page =? NULL then panic "init_scheduler: cannot allocate page for init task" else mret tt);;
      va ← available_from t;
      r ← register_memory_section t va (PGSIZE * 2);
      (if negb (r =? 0)
       then panic "init_scheduler: cannot register memory section for init task" else mret tt);;
      pt ← load64 (t + t_pagetable);
      r ← map_page pt va page argument_permission;
      (if negb (r =? 0) then panic "init_scheduler: cannot map page for init task" else mret tt);;
      pt ← load64 (t + t_pagetable);
      r ← map_page pt (va +w PGSIZE) (page +w PGSIZE) argument_permission;
      (if negb (r =? 0) then panic "init_scheduler: cannot map page for init task" else mret tt);;
      strcpy page (Lit "init") 5;;
      store64 (page +w PGSIZE) va;;
      store64 (page +w PGSIZE + 8) NULL;;
      store64 (page +w PGSIZE + 16) NULL;;
      tf ← load64 (t + t_trap_frame);
      store64 (tf + tf_a0) 1;;
      store64 (tf + tf_a1) (va +w PGSIZE);;
      store64 (tf + tf_a2) (va +w PGSIZE +w 16);; k) Q s.
Proof using Hheap0 Hfits HwOk Hmade Hend Helf.
  intros Hm (B & F & T & E & frames & l & pss & stack & Hgs & Hcd & Hroom & Hst) HQ.
  destruct (program_sections size sgs (el_segments _ _ _ _ _ Helf)) as [Hsa Hs0]. pose proof (sections_end_aligned _ Hsa) as Hal.
  pose proof (proj1 (sections_end_ge secs)) as Hva0. change (sections_end secs) with va in Hal, Hva0. pose proof Hend as Hend'.
  change (SHARED_MEMORY - PGSIZE) with ((2 ^ 26 - 4) * 4096) in Hend'. change (va + 2 * PGSIZE) with (va + 2 * 4096) in Hend'.
  assert (Hfl : forall o v, (o, 8%nat, v) ∈ task_fields (glob s0 next_pid) NULL ks tf pt sh -> (o, 8%nat, v) ∈ fl).
  { intros o v Hin. apply elem_of_app. right. by right. }
  apply (map_arguments s0 F0 A no_bytes Hheap0 Hfits _ _ _ _ _ _ s B F T E frames l pss _ i m va fl
    (fun page va => strcpy page (Lit "init") 5;; store64 (page +w PGSIZE) va;; store64 (page +w PGSIZE + 8) NULL;;
      store64 (page +w PGSIZE + 16) NULL;; tf ← load64 (t + t_trap_frame); store64 (tf + tf_a0) 1;;
      store64 (tf + tf_a1) (va +w PGSIZE);; store64 (tf + tf_a2) (va +w PGSIZE +w 16);; k) _ Hcd eq_refl Hm Hroom (sd_task _ _ _ _ _ _ Hst));
    [done|done|apply Hfl; unfold task_fields; in_list|done|done|unfold PGSIZE; change MAXVA with (2 ^ 26 * 4096); lia|done| |].
  { destruct Hal as [q Hq]. assert (Hvq : va / PGSIZE = q) by (rewrite Hq; by apply Z.div_mul). rewrite Hvq. intros j Hj.
    assert (Hjn : j ∉ segment_pages (mem s0) elf sgs) by (intros Hjp; apply page_below in Hjp as (Hlt & _); lia). split; [|exact Hjn].
    rewrite (cd_rest _ _ _ _ _ _ _ _ _ _ _ _ _ _ _ _ _ _ _ Hcd j Hjn). rewrite fn_lookup_insert_ne by (change stack_page with (2 ^ 26 - 4); lia).
    apply map_of_new_free; [change (SHARED_MEMORY / PGSIZE) with (2 ^ 26 - 3)|change (TRAMPOLINE / PGSIZE) with (2 ^ 26 - 1)|change (TRAPFRAME / PGSIZE) with (2 ^ 26 - 2)]; lia. }
  intros s2 page B' F' T' l' Hcd2 Hroom2 Hk2.
  assert (Hin : tf ∈ frames /\ stack ∈ frames).
  { pose proof (cd_frames _ _ _ _ _ _ _ _ _ _ _ _ _ _ _ _ _ _ _ Hcd) as Hfr. split; apply Hfr; in_list. }
  assert (Hst2 : standing (mem s2) t tf stack entry fl) by (apply (standing_own A frames (mem s)); [done|apply Hin|apply Hin|done|done|exact Hk2]).
  pose proof (frames0_nodup _ _ _ _ _ _ _ _ _ _ _ _ _ Hcd2) as Hnd.
  rewrite !NoDup_cons, !not_elem_of_cons in Hnd. destruct Hnd as ((_ & _ & _ & Hn4 & _) & (_ & _ & Hn7 & _) & _).
  apply (write_arguments s0 F0 A no_bytes Hheap0 Hfits _ _ _ _ _ _ s2 B' F' T' _ _ l' pss _ page tf va fl k _ Hcd2);
    [in_list|in_list|in_list|done|done|exact (sd_task _ _ _ _ _ _ Hst2)|done|apply Hfl; unfold task_fields; in_list|done|unfold PGSIZE; lia|].
  intros s3 Hcd3 _ Hm3 Har. apply HQ. exists B', F', T', (argument_map page va E), (page :: page + PGSIZE :: frames), l', pss, stack, page.
  split; [done|]. split; [exact Hcd3|]. split; [done|]. split; [|done]. by apply (standing_arguments _ _ _ _ _ _ _ _ _ _ _ _ _ _ _ Hcd2 Hm3).
Qed.

End Stages.
(** What the program finds: [page] has its name at [va], the next page the
    vectors, and the registers point there. *)
Record program_arguments (m : gmap Z Z) (E : Z -> Z) (tf va page : Z) : Prop := {
  pa_pages : E (va / PGSIZE) = leaf page argument_permission /\ E (va / PGSIZE + 1) = leaf (page + PGSIZE) argument_permission;
  pa_name : forall i c, (codes "init" ++ [0]) !! i = Some c -> user_byte m E (va + Z.of_nat i) = c;
  pa_argv : rd64 m (translate E (va + PGSIZE)) = va /\ rd64 m (translate E (va + PGSIZE + 8)) = NULL;
  pa_envp : rd64 m (translate E (va + PGSIZE + 16)) = NULL;
  pa_registers : fields m tf [(tf_a0, 8%nat, 1); (tf_a1, 8%nat, va + PGSIZE); (tf_a2, 8%nat, va + PGSIZE + 16)]
}.

(** The memory of the program, through its page table [E]: the segments [sgs] of
    the file at [elf] in the frames [ps], the stack, the arguments. *)
Record user_image (m0 m : gmap Z Z) (elf : Z) (sgs : list segment) (E : Z -> Z) (tf sh page stack : Z) (ps : list Z) : Prop := {
  ui_segments : Forall (fun sg => forall j, 0 <= j < pages_of (sg_memsz sg) -> segment_page m0 m E elf sg j) (loads sgs);
  ui_frames : Forall2 (fun n p => PTE2PA (E n) = p) (segment_pages m0 elf sgs) ps;
  ui_stack : E stack_page = leaf stack (stack_after stack_rwu sgs);
  ui_zero : forall i, 0 <= i < PGSIZE -> user_byte m E (stack_page * PGSIZE + i) = 0;
  ui_arguments : program_arguments m E tf (program_end sgs) page;
  ui_rest : forall i, i ∉ segment_pages m0 elf sgs -> i <> stack_page ->
    ~ (program_end sgs / PGSIZE <= i <= program_end sgs / PGSIZE + 1) -> E i = map_of_new tf sh i
}.

(** The kernel's side: the heap, the frames, the queues with the nodes [x1] and
    [x2], apart from what the program uses. *)
Record first_memory (m0 : gmap Z Z) (s' : state) (F : Z -> Prop) (elf : Z) (sgs : list segment) (t pt tf sh ks : Z)
    (F' : Z -> Prop) (B : arena) (E : Z -> Z) (T : tables) (l : list (Z * Z)) (page stack : Z) (ps : list Z) (x1 x2 : Z) : Prop := {
  fm_heap : heap_rep s' F' (Some B);
  fm_free : forall a, F' a -> F a;
  fm_vm : vm_at s' F' pt E T;
  fm_sections : list_rep (mem s') (t + t_mem_sections) l /\
    sections_at (mem s') l.*2 ((seg_section <$> loads sgs) ++ [(program_end sgs, PGSIZE * 2)]);
  fm_image : user_image m0 (mem s') elf sgs E tf sh page stack ps;
  fm_nodup : NoDup (ps ++ [page; page + PGSIZE; stack; sh; tf; ks]);
  fm_frames : Forall (fun p => user_frame F' T p /\ forall a, p <= a < p + PGSIZE -> F a) (ps ++ [page; page + PGSIZE; stack; sh; tf; ks]);
  fm_all : list_rep (mem s') (glob s' all_tasks) [(x1, t)];
  fm_run : list_rep (mem s') (glob s' runnable_tasks) [(x2, t)];
  fm_layout : layout (glob s' runnable_tasks) [x2] [t];
  fm_all_apart : forall a, list_byte (glob s' all_tasks) [(x1, t)] a -> ~ turn_byte (glob s' runnable_tasks) t a;
  fm_apart : forall a, list_byte (glob s' all_tasks) [(x1, t)] a \/ sched_byte (glob s' runnable_tasks) [x2] [t] a ->
    F a /\ ~ vm_bytes F' T a /\ ~ in_frames (ps ++ [page; page + PGSIZE; stack; sh; tf; ks]) a
}.

(** The first process [t]: its page table [pt], trap frame [tf], shared page [sh]
    and kernel stack [ks]. *)
Record first_process (s s' : state) (F : Z -> Prop) (elf entry : Z) (sgs : list segment) (t pt tf sh ks : Z) : Prop := {
  fp_fields : fields (mem s') t (stack_fields ++ program_fields sgs (glob s next_pid) ks tf pt sh);
  fp_name : str_at (mem s') (Ptr (t + t_name)) (codes "init");
  fp_entry : fields (mem s') tf (entry_fields entry);
  fp_memory : exists F' B E T l page stack ps x1 x2, first_memory (mem s) s' F elf sgs t pt tf sh ks F' B E T l page stack ps x1 x2
}.

(** The pages of the arguments and of the stack, as the program sees them. *)
Lemma frame_bytes m E n p perm i : 0 <= n -> good_block kernel_end PHYSTOP 0 p -> 0 <= perm < 1024 -> E n = leaf p perm -> 0 <= i < PGSIZE ->
  translate E (n * PGSIZE + i) = p + i /\ user_byte m E (n * PGSIZE + i) = rd8 m (p + i).
Proof using HwOk.
  intros Hn Hg Hp He Hi. assert (Ht : translate E (n * PGSIZE + i) = p + i).
  { destruct (frame_bits p Hg) as [Hp56 Hpd]. rewrite PGROUNDDOWN_eq in Hpd by lia.
    apply translate_page; [done|rewrite He; apply valid_leaf|rewrite He, leaf_pa by done; lia|done|done]. }
  split; [done|]. unfold user_byte. by rewrite Ht.
Qed.

Lemma program_arguments_ok m E tf va page : 0 <= va -> (4096 | va) -> good_block kernel_end PHYSTOP 0 page ->
  good_block kernel_end PHYSTOP 0 (page + PGSIZE) -> E (va / PGSIZE) = leaf page argument_permission ->
  E (va / PGSIZE + 1) = leaf (page + PGSIZE) argument_permission -> arguments_at m page tf va -> program_arguments m E tf va page.
Proof using HwOk.
  intros Hva [q ->] Hg1 Hg2 He1 He2 [[_ [_ Hname]] [Hv1 Hv2] Henv Hreg]. pose proof (eq_refl : PGSIZE = 4096) as HP.
  assert (Hdiv : q * 4096 / PGSIZE = q) by (rewrite HP; by apply Z.div_mul). rewrite Hdiv in He1, He2.
  assert (Ht : forall i, 0 <= i < PGSIZE -> translate E (q * 4096 + PGSIZE + i) = page + PGSIZE + i).
  { intros i Hi. replace (q * 4096 + PGSIZE + i) with ((q + 1) * PGSIZE + i) by lia.
    by apply (frame_bytes m E (q + 1) (page + PGSIZE) argument_permission i); [lia|..]. }
  split.
  - rewrite Hdiv. done.
  - intros i c Hi. assert (Hi5 : (i < 5)%nat) by (by apply lookup_lt_Some in Hi). rewrite <-HP.
    destruct (frame_bytes m E q page argument_permission (Z.of_nat i)) as [_ ->]; [lia|done|done|done|lia|].
    by apply (bytes_at_lookup m page (codes "init" ++ [0])).
  - rewrite <-(Z.add_0_r (q * 4096 + PGSIZE)) at 1. rewrite !Ht by lia. by rewrite Z.add_0_r.
  - by rewrite Ht by lia.
  - done.
Qed.

Lemma first_process_keep s s0 s' F F0 elf size entry sgs t pt tf sh ks : first_process s0 s' F0 elf entry sgs t pt tf sh ks ->
  glob s0 next_pid = glob s next_pid -> Forall (seg_ok size) (loads sgs) -> keeps (fun a => elf <= a < elf + size) (mem s) (mem s0) ->
  (forall a, F0 a -> F a) -> first_process s s' F elf entry sgs t pt tf sh ks.
Proof.
  intros [H1 H2 H3 (F' & B & E & T & l & page & stack & ps & x1 & x2 & [M1 M2 M3 M4 [M5 M6 M7 M8 M9 M10] M11 M12 M13 M14 M15 M16 M17])] Hpid Hok Hk HF.
  rewrite Hpid in H1. rewrite (segment_pages_mem (mem s0) (mem s)) in M6, M10. split; [done|done|done|].
  exists F', B, E, T, l, page, stack, ps, x1, x2. split; [done|auto|done|done| |done| |done|done|done|done|].
  - split; [|done..]. rewrite Forall_forall in *. intros sg Hsg j Hj.
    apply (segment_page_mem (mem s) (mem s0) _ _ _ size); [by apply Hok|done|lia|by apply M5].
  - eapply Forall_impl; [exact M12|]. intros p [Hu HFp]. split; [done|]. intros a Ha. by apply HF, HFp.
  - intros a Ha. destruct (M17 a Ha) as (? & ? & ?). by split; [apply HF|].
Qed.

Lemma arguments_own A frames m m' page tf va : arguments_at m page tf va -> page ∈ frames -> page + PGSIZE ∈ frames -> tf ∈ frames ->
  keeps (own_byte A frames) m m' -> arguments_at m' page tf va.
Proof.
  intros [[Hl [Hr Hname]] [Hv1 Hv2] Henv Hreg] H1 H2 H3 Hk. assert (HP : PGSIZE = 4096) by done.
  assert (Hf : forall q a, q ∈ frames -> q <= a < q + PGSIZE -> rd8 m' a = rd8 m a) by (intros q a Hq Ha; apply Hk; right; by exists q).
  assert (Hword : forall o, 0 <= o <= 16 -> rd64 m' (page + PGSIZE + o) = rd64 m (page + PGSIZE + o)).
  { intros o Ho. apply rd_ext. intros b Hb. apply (Hf (page + PGSIZE) b H2). lia. }
  split.
  - split; [done|]. split; [done|]. apply (bytes_at_ext m); [|done]. intros b Hb. simpl in Hb. apply (Hf page b H1). lia.
  - specialize (Hword 0) as H0. rewrite Z.add_0_r in H0. rewrite H0, (Hword 8) by lia. done.
  - by rewrite (Hword 16) by lia.
  - apply (fields_out m _ _ PGSIZE _ Hreg); [done|]. intros b Hb. by apply (Hf tf).
Qed.

(** Where the queues are: in the block of the heap, apart from the task and from
    what its program uses. *)
Lemma queues_placed s0 F0 A B B' s X F pt E T frames n m L R x1 x2 :
  heap_rep s0 F0 (Some A) -> fits (Some A) sizeof_task_struct -> grows (arena_alloc A sizeof_task_struct) B ->
  building s0 F0 A B' X s F pt E T frames n -> list_rep m R [(x2, new_address A)] ->
  (forall a, L <= a < L + sizeof_list \/ R <= a < R + sizeof_list -> ~ heap_touch F0 (Some A) a) ->
  (forall a, L <= a < L + sizeof_list -> ~ (R <= a < R + sizeof_list)) ->
  (forall a, L <= a < L + sizeof_list \/ R <= a < R + sizeof_list -> a_block A <= a < a_block A + bsz (a_power A)) ->
  (forall a, x1 <= a < x1 + 16 \/ x2 <= a < x2 + 16 -> spare B a) ->
  layout R [x2] [new_address A] /\
  (forall a, list_byte L [(x1, new_address A)] a -> ~ turn_byte R (new_address A) a) /\
  forall a, list_byte L [(x1, new_address A)] a \/ sched_byte R [x2] [new_address A] a ->
    (F0 a \/ a_block A <= a < a_block A + bsz (a_power A)) /\ ~ vm_bytes F T a /\ ~ in_frames frames a.
Proof.
  intros Hheap Hfits Hgr Hb Hrep Hq Hap Hin Hx. set (t := new_address A) in *.
  pose proof (struct_ram s0 F0 A B Hheap Hfits Hgr) as Hram. pose proof (rep_range _ _ _ Hrep) as HR.
  assert (Hst : forall a, t <= a < t + sizeof_task_struct -> heap_touch F0 (Some A) a /\ ~ spare B a /\ a_block A <= a < a_block A + bsz (a_power A)).
  { intros a Ha. destruct (struct_spare s0 F0 A B Hheap Hfits Hgr a Ha) as [Hs Hd]. split; [right; by right|]. split; [by intros [_ ?]|apply Hs]. }
  assert (Hxt : forall a, x1 <= a < x1 + 16 \/ x2 <= a < x2 + 16 -> heap_touch F0 (Some A) a /\ a_block A <= a < a_block A + bsz (a_power A)).
  { intros a Ha. pose proof (heap_spare A B Hgr a (Hx a Ha)) as Hs. split; [right; by right|apply Hs]. }
  split; [|split].
  - split.
    + exact (rep_ok _ _ _ Hrep).
    + by intros u ->%list_elem_of_singleton.
    + intros u ->%list_elem_of_singleton. apply sep_apart; [done..|]. intros a Ha Hu. apply (Hq a); [by right|by apply Hst].
    + intros x u ->%list_elem_of_singleton ->%list_elem_of_singleton. apply sep_apart; [done..|]. intros a Ha Hu.
      destruct (Hst a Hu) as (_ & Hn & _). apply Hn, Hx. by right.
    + by intros u v ->%list_elem_of_singleton ->%list_elem_of_singleton.
    + apply NoDup_singleton.
  - intros a [Ha|(x & ->%list_elem_of_singleton & Ha)] Hturn.
    + destruct Hturn as [Hturn|Hturn]; [by apply (Hap a)|]. apply (Hq a); [by left|]. apply Hst. unfold sizeof_task_struct, t_state in *. lia.
    + destruct Hturn as [Hturn|Hturn]; [apply (Hq a); [by right|apply Hxt; by left]|].
      assert (Ht : t <= a < t + sizeof_task_struct) by (unfold sizeof_task_struct, t_state in *; lia).
      destruct (Hst a Ht) as (_ & Hn & _). apply Hn, Hx. by left.
  - intros a Ha. assert (Hblk : a_block A <= a < a_block A + bsz (a_power A)).
    { destruct Ha as [[Ha|(x & ->%list_elem_of_singleton & Ha)]|[Ha|[(x & ->%list_elem_of_singleton & Ha)|(u & ->%list_elem_of_singleton & Ha)]]];
        [apply Hin; by left|apply Hxt; by left|apply Hin; by right|apply Hxt; by right|by apply Hst]. }
    destruct (heap_block_apart s0 F0 A a Hheap Hblk) as [HnF Hnp]. split; [by right|]. split.
    + intros [?|[?|?]]; [done|..]; apply HnF; [by apply (bd_sub _ _ _ _ _ _ _ _ _ _ _ _ Hb)|by apply (bd_tables _ _ _ _ _ _ _ _ _ _ _ _ Hb)].
    + intros (p & Hp & Hpa). apply HnF. by apply (proj1 (Forall_forall _ _) (bd_frames _ _ _ _ _ _ _ _ _ _ _ _ Hb) p Hp).
Qed.

Lemma queues_stage s0 F0 A elf size entry sgs s1 pt tf sh ks s :
  heap_rep s0 F0 (Some A) -> fits (Some A) sizeof_task_struct -> elf_at (mem s0) elf size sgs entry ->
  task_made s0 s1 (new_address A) NULL ks pt tf sh (codes "init") -> program_end sgs + 2 * PGSIZE <= SHARED_MEMORY - PGSIZE ->
  glob s1 = <[next_pid := glob s0 next_pid +w 1]> (glob s0) ->
  list_rep (mem s0) (glob s0 runnable_tasks) [] -> list_rep (mem s0) (glob s0 all_tasks) [] ->
  (forall a, list_byte (glob s0 all_tasks) [] a \/ list_byte (glob s0 runnable_tasks) [] a -> ~ heap_touch F0 (Some A) a) ->
  (forall a, list_byte (glob s0 all_tasks) [] a -> ~ list_byte (glob s0 runnable_tasks) [] a) ->
  (forall a, list_byte (glob s0 all_tasks) [] a \/ list_byte (glob s0 runnable_tasks) [] a -> a_block A <= a < a_block A + bsz (a_power A)) ->
  arguments_ready s0 F0 A elf entry sgs s1 pt tf sh ks 1 64 s ->
  wp (tasks ← get all_tasks; node ← make_single_linked_list_node (new_address A); push_tail tasks node;;
      rt ← get runnable_tasks; node ← make_single_linked_list_node (new_address A); push_tail rt node;;
      put init_task_ptr (new_address A))
    (fun _ s' => glob s' = <[init_task_ptr := new_address A]> (<[next_pid := glob s0 next_pid +w 1]> (glob s0)) /\
      modifies (fun a => heap_touch F0 (Some A) a \/ list_byte (glob s0 all_tasks) [] a \/ list_byte (glob s0 runnable_tasks) [] a) (mem s0) (mem s') /\
      (forall r, r <> sstatus -> csr_val s' r = csr_val s0 r) /\
      first_process s0 s' (fun a => F0 a \/ a_block A <= a < a_block A + bsz (a_power A)) elf entry sgs (new_address A) pt tf sh ks) s.
Proof.
  intros Hheap Hfits Helf Hmade Hend Hg1 Hl1 Hl2 Hq Hap Hblk (B & F & T & E & frames & l & pss & stack & page & Hgs & Hcd & Hroom & Hst & Har).
  apply (two_queues_ok s0 F0 A Hheap Hfits no_bytes _ _ _ _ _ _ s B F T E frames l pss 1 all_tasks runnable_tasks
    (glob s0 all_tasks) (glob s0 runnable_tasks) [] [] _ _ Hcd); [by rewrite Hg1, fn_lookup_insert_ne by done..|by intros a []|exact Hl2|exact Hl1|exact Hq|exact Hap|exact Hroom|].
  intros s5 B5 x1 x2 Hcd5 Hr1 Hr2 Hk5 Hx. apply wp_put. pose proof (cd_frames _ _ _ _ _ _ _ _ _ _ _ _ _ _ _ _ _ _ _ Hcd) as Hin.
  pose proof Hcd5 as [Hgr5 Hb5 Hcs5 Hpg5 Hrest5 Hcore5 Hgl5 Hfr5]. cbn [mem glob set_glob]. rewrite Hgl5, Hg1.
  split; [done|]. split.
  { eapply modifies_weaken; [|exact (bd_mod _ _ _ _ _ _ _ _ _ _ _ _ Hb5)]. intros a [Ha|[[]|[Ha|Ha]]]; [by left|right; left|right; right]; by apply touch_byte. }
  split; [by destruct (bd_regs _ _ _ _ _ _ _ _ _ _ _ _ Hb5) as (_ & _ & ? & _)|].
  destruct (segments_filled A (mem s0) (mem s5) E elf size frames (loads sgs) pss) as [Hall Hpas]; [|exact (el_segments _ _ _ _ _ Helf)|exact Hpg5|].
  { eapply Forall_impl; [exact (bd_frames _ _ _ _ _ _ _ _ _ _ _ _ Hb5)|]. by intros p [[? _] _]. }
  assert (Hst5 : standing (mem s5) (new_address A) tf stack entry (stack_fields ++ program_fields sgs (glob s0 next_pid) ks tf pt sh)).
  { apply (standing_own A frames (mem s)); [done|apply Hin; in_list|apply Hin; in_list|done|done|exact Hk5]. }
  destruct Hst5 as [Hf1 Hf2 Hf3]. split; cbn [mem glob set_glob].
  - exact Hf1.
  - destruct Hmade as (_ & _ & Hn). rewrite take_ge in Hn by (simpl; lia). apply (task_name_keep A (mem s1)); [exact Hn|simpl; lia|exact Hcore5].
  - exact Hf2.
  - exists F, B5, E, T, l, page, stack, (concat pss), x1, x2. destruct (queues_placed s0 F0 A B B5 s5 _ F pt E T frames 1 (mem s5)
      (glob s0 all_tasks) (glob s0 runnable_tasks) x1 x2 Hheap Hfits (cd_grown _ _ _ _ _ _ _ _ _ _ _ _ _ _ _ _ _ _ _ Hcd) Hb5 Hr2) as (Hlay & Hall2 & Hplace).
    { intros a Ha. apply Hq. destruct Ha as [Ha|Ha]; [left|right]; by left. }
    { intros a Ha Hb. apply (Hap a); by left. } { intros a Ha. apply Hblk. destruct Ha as [Ha|Ha]; [left|right]; by left. }
    { exact Hx. }
    assert (Hgr_ : forall g, g <> next_pid -> g <> init_task_ptr -> glob (set_glob init_task_ptr (new_address A) s5) g = glob s0 g).
    { intros g Hn1 Hn2. cbn [glob set_glob]. rewrite fn_lookup_insert_ne, Hgl5, Hg1, fn_lookup_insert_ne by done. done. }
    assert (Hseg : forall i, i ∈ segment_pages (mem s0) elf sgs -> i < program_end sgs / PGSIZE /\ i <> stack_page).
    { intros i Hi. destruct (page_below s0 elf size entry sgs Helf Hend i Hi) as (? & ? & _). by split; [lia|]. }
    pose proof (program_sections size sgs (el_segments _ _ _ _ _ Helf)) as [Hsa _]. pose proof (sections_end_aligned _ Hsa) as Hal.
    pose proof (proj1 (sections_end_ge (seg_section <$> loads sgs))) as Hva0. change (sections_end _) with (program_end sgs) in Hal, Hva0.
    assert (Hva : program_end sgs / PGSIZE + 1 < stack_page).
    { change stack_page with (2 ^ 26 - 4). change (SHARED_MEMORY - PGSIZE) with ((2 ^ 26 - 4) * 4096) in Hend. destruct Hal as [q Hq4]. rewrite Hq4 in *. unfold PGSIZE in *. rewrite Z.div_mul by done. lia. }
    assert (HE : forall i, i = stack_page \/ program_end sgs / PGSIZE <= i <= program_end sgs / PGSIZE + 1 ->
      E i = argument_map page (program_end sgs) (<[stack_page := leaf stack (stack_after stack_rwu sgs)]> (map_of_new tf sh)) i).
    { intros i Hi. apply Hrest5. intros Hi'. apply Hseg in Hi'. lia. }
    assert (Hgood : forall q, q ∈ [page; page + PGSIZE; stack; sh; tf; ks] -> good_block kernel_end PHYSTOP 0 q).
    { intros q Hq5. exact (bd_frame s0 F0 A B5 _ _ _ _ _ _ _ _ q Hb5 (Hin q Hq5)). }
    assert (Hs : E stack_page = leaf stack (stack_after stack_rwu sgs)).
    { rewrite HE by (by left). unfold argument_map. rewrite !fn_lookup_insert_ne by lia. by rewrite fn_lookup_insert. }
    assert (Ha1 : E (program_end sgs / PGSIZE) = leaf page argument_permission).
    { rewrite HE by (right; lia). unfold argument_map. rewrite fn_lookup_insert_ne by lia. by rewrite fn_lookup_insert. }
    assert (Ha2 : E (program_end sgs / PGSIZE + 1) = leaf (page + PGSIZE) argument_permission).
    { rewrite HE by (right; lia). unfold argument_map. by rewrite fn_lookup_insert. }
    pose proof (bd_frames _ _ _ _ _ _ _ _ _ _ _ _ Hb5) as Hfrs. split; rewrite ?Hgr_ by done; cbn [mem set_glob].
    + apply heap_rep_glob; [done|done|]. exact (bd_heap _ _ _ _ _ _ _ _ _ _ _ _ Hb5).
    + intros a Ha. left. by apply (bd_sub _ _ _ _ _ _ _ _ _ _ _ _ Hb5).
    + exact (bd_vm _ _ _ _ _ _ _ _ _ _ _ _ Hb5).
    + split; [exact (cs_rep _ _ _ _ _ Hcs5)|exact (cs_data _ _ _ _ _ Hcs5)].
    + split; [exact Hall|exact Hpas|exact Hs| | |].
      * intros i Hi. destruct (frame_bytes (mem s5) E stack_page stack _ i ltac:(done) (Hgood stack ltac:(in_list)) (stack_after_range sgs) Hs Hi) as [_ ->].
        apply Hf3. lia.
      * apply program_arguments_ok; [done|done|apply Hgood; in_list|apply Hgood; in_list|done|done|].
        apply (arguments_own A frames (mem s)); [done|apply Hin; in_list|apply Hin; in_list|apply Hin; in_list|exact Hk5].
      * intros i Hi Hns Hna. rewrite Hrest5 by done. unfold argument_map. by rewrite !fn_lookup_insert_ne by lia.
    + rewrite <-Hfr5. exact (bd_nodup _ _ _ _ _ _ _ _ _ _ _ _ Hb5).
    + rewrite <-Hfr5. eapply Forall_impl; [exact Hfrs|]. intros p [? HF0]. split; [done|]. intros a Ha. left. by apply HF0.
    + exact Hr1.
    + exact Hr2.
    + exact Hlay.
    + exact Hall2.
    + intros a Ha. destruct (Hplace a Ha) as (? & ? & Hn). split; [done|]. split; [done|].
      intros (p & Hp & Hpa). apply Hn. exists p. by rewrite Hfr5.
Qed.

End Steps.

Section Theorems.
Context `{Hw : Platform} {HwOk : PlatformOk Hw} {Ops : PageOps} {HA : PageAllocator Ops}.

(** The two list headers are in use. *)
Lemma empty_queue_byte L a : list_byte L [] a -> L <= a < L + sizeof_list.
Proof. intros [Ha|(x & Hx & _)]; [done|]. by apply not_elem_of_nil in Hx. Qed.

Lemma queue_lists_apart s F b a : heap_rep s F (Some (queue_block b)) -> b + 56 <= a < b + 56 + sizeof_list \/ b + 96 <= a < b + 96 + sizeof_list ->
  ~ heap_touch F (Some (queue_block b)) a.
Proof.
  unfold sizeof_list. intros Hh Ha. destruct (heap_block_apart s F _ a Hh) as [H1 H2].
  { change (b <= a < b + 4096). lia. }
  intros [?|[?|[_ Hd]]]; [done|done|]. apply Hd. destruct Ha as [Ha|Ha].
  - exists (b + 56), 24. split; [right; by left|done].
  - exists (b + 96), 24. split; [|done]. unfold queue_block, arena_alloc. simpl. change (align 24) with 24. unfold sizeof_header.
    replace (b + 80 + 16) with (b + 96) by lia. by left.
Qed.

(** [init_scheduler] as a whole, stage after stage. *)
Lemma init_scheduler_ok F size entry sgs s :
  heap_rep s F None -> capacity F (20 + 3 * length (segment_pages (mem s) init_program sgs)) -> creatable s NULL ->
  elf_at (mem s) init_program size sgs entry -> ram_range init_program size ->
  (forall a, init_program <= a < init_program + size -> ~ heap_touch F None a) ->
  (length (loads sgs) <= 55)%nat -> NoDup (segment_pages (mem s) init_program sgs) ->
  program_end sgs + 2 * PGSIZE <= SHARED_MEMORY - PGSIZE ->
  wp init_scheduler (fun _ s' => glob s' next_pid = glob s next_pid +w 1 /\
    (forall r, r <> sstatus -> csr_val s' r = csr_val s r) /\
    (forall g, g ∉ [block_list_head; block_list_tail; runnable_tasks; all_tasks; init_task_ptr; next_pid] -> glob s' g = glob s g) /\
    modifies (heap_touch F None) (mem s) (mem s') /\
    exists pt tf sh ks, first_process s s' F init_program entry sgs (glob s' init_task_ptr) pt tf sh ks) s.
Proof.
  intros Hheap Hcap Hcr Helf Hram Hap Hlen Hnd Hend. set (np := length (segment_pages (mem s) init_program sgs)) in *.
  unfold init_scheduler. apply (make_queues_ok F (19 + 3 * np)); [done|by replace (S (19 + 3 * np)) with (20 + 3 * np)%nat by lia|].
  intros b s2 (_ & _ & Hc2 & Hg2) Hm2 Hgb HF Hcap2 Hh2 Hr1 Hr2. set (A := queue_block b) in *. set (F2 := without F 0 b) in *.
  assert (Hroom : room A (gross_size sizeof_task_struct + (64 * Z.of_nat (length (loads sgs)) + 128))).
  { unfold room. change (gross_size sizeof_task_struct) with 280. change (bsz (a_power A)) with 4096. change (a_block A) with b.
    change (a_free A) with (b + 80 + gross_size 24). change (gross_size 24) with 40. lia. }
  destruct (room_alloc A sizeof_task_struct (64 * Z.of_nat (length (loads sgs)) + 128) ltac:(lia) Hroom) as [Hfits Hroom1].
  assert (Hk2 : keeps (fun a => init_program <= a < init_program + size) (mem s) (mem s2)) by (by apply (keeps_modifies _ _ _ _ Hm2)).
  pose proof (elf_at_keep _ _ _ _ _ _ Helf Hram Hk2) as Helf2.
  assert (Hglob : forall g, g ∉ [block_list_head; block_list_tail; runnable_tasks; all_tasks] -> glob s2 g = glob s g).
  { intros g Hg. rewrite Hg2 by set_solver. simpl. rewrite !fn_lookup_insert_ne by set_solver. done. }
  assert (Hrt : glob s2 runnable_tasks = b + 56) by (by rewrite Hg2 by done).
  assert (Hat : glob s2 all_tasks = b + 96) by (by rewrite Hg2 by done).
  assert (Hcr2 : creatable s2 NULL) by (destruct Hcr as [? ? ? ? ?]; split; rewrite ?Hglob by set_solver; done).
  assert (Htouch : forall a, heap_touch F2 (Some A) a -> heap_touch F None a).
  { intros a [?|[[? _]|[Ha _]]]; [by left|by right; left|]. right. left. apply HF. exact Ha. }
  assert (Hap2 : forall a, init_program <= a < init_program + size -> ~ heap_touch F2 (Some A) a).
  { intros a Ha Ht. by apply (Hap a Ha), Htouch. }
  pose proof (segment_pages_mem (mem s2) (mem s) init_program sgs) as Hpages.
  wp_step. eapply wp_mono.
  { apply (new_task_ok (Lit "init") (codes "init") NULL (8 + 3 * np) F2 A no_bytes s2 Hh2 Hfits);
      [exact Hcap2|split; [repeat constructor; done|done]|done|done|exact Hcr2]. }
  intros t s3 (-> & Hg3 & F3 & T3 & ks & pt & tf & sh & Hmade & Hb3).
  destruct (struct_ram s2 F2 A _ Hh2 Hfits (grows_refl _)) as [Ht1 Ht2].
  rewrite (proj2 (Z.eqb_neq (new_address A) NULL)) by (unfold NULL, KERNBASE in *; lia). wp_step. wp_step. wp_step.
  eapply wp_mono.
  { apply (load_made_ok (codes "init") NULL F2 A init_program size entry sgs s2 s3 F3 T3 ks pt tf sh 8 128 Hh2 Hfits Helf2 Hram Hap2);
      [by rewrite Hpages| |exact Hmade|rewrite Hpages; exact Hb3|done|exact Hroom1].
    intros i Hi. by apply (page_below s2 init_program size entry sgs Helf2 Hend) in Hi as (_ & _ & ?). }
  intros r s4 (_ & B & F4 & T4 & E & frames & l & pss & Hcd & Hroom4 & Hperm & Hepc). wp_step. eapply wp_mono.
  { exact (stack_stage s2 F2 A Hh2 Hfits init_program size entry sgs Helf2 s3 pt tf sh ks Hmade Hend B F4 T4 E frames l pss 5 128 s4 Hcd Hroom4 Hperm Hepc). }
  intros r2 s5 (-> & Hsr). change (negb (0 =? 0)) with false. cbv iota. wp_step. wp_step.
  apply (arguments_stage s2 F2 A Hh2 Hfits init_program size entry sgs Helf2 s3 pt tf sh ks Hmade Hend 0 64); [done|exact Hsr|].
  intros s6 Har. eapply wp_mono.
  { apply (queues_stage s2 F2 A init_program size entry sgs s3 pt tf sh ks s6 Hh2 Hfits Helf2 Hmade Hend Hg3);
      rewrite ?Hrt, ?Hat; [exact Hr1|exact Hr2| | | |exact Har].
    - intros a [Ha%empty_queue_byte|Ha%empty_queue_byte]; apply (queue_lists_apart s2 F2 b a Hh2); [by right|by left].
    - unfold sizeof_list. intros a Ha%empty_queue_byte Hb%empty_queue_byte. unfold sizeof_list in *. lia.
    - intros a [Ha%empty_queue_byte|Ha%empty_queue_byte]; unfold sizeof_list in Ha; change (b <= a < b + 4096); lia. }
  intros [] s' (Hg' & Hm' & Hc' & Hfp). rewrite Hg', fn_lookup_insert. split; [|split; [|split; [|split]]].
  - rewrite fn_lookup_insert_ne, fn_lookup_insert by done. by rewrite Hglob by set_solver.
  - intros r3 Hr3. rewrite Hc' by done. by apply Hc2.
  - intros g Hg. rewrite !fn_lookup_insert_ne by set_solver. apply Hglob. set_solver.
  - eapply modifies_trans; [exact Hm2|]. eapply modifies_weaken; [|exact Hm']. rewrite Hrt, Hat.
    intros a [Ha|[Ha%empty_queue_byte|Ha%empty_queue_byte]]; [by apply Htouch|right; left; apply HF; unfold sizeof_list, PGSIZE in *; lia..].
  - exists pt, tf, sh, ks. apply (first_process_keep s s2 s' F (fun a => F2 a \/ a_block A <= a < a_block A + bsz (a_power A)) init_program size); [exact Hfp|by rewrite Hglob by set_solver|exact (el_segments _ _ _ _ _ Helf)|exact Hk2|].
    intros a [[? _]|Ha]; [done|]. by apply HF.
Qed.

(** C11: While memory lasts, [init_scheduler] starts the first process from an empty
    kernel heap, for an ELF file whose PT_LOAD segments start on a page and have
    no page in common: the program of the ELF file [init_program] is in memory as its
    headers say, with its permissions, at the entry point of the file; it has
    a zeroed stack page below the shared page, with the stack pointer on its
    end, and above the program two pages with its name and its vectors, which
    [a0], [a1] and [a2] describe (one argument, no environment); the two pages
    are registered as a section, so the program can use and release them; every
    page has a frame of its own from the free memory, and nothing else is mapped
    but the pages of [new_task]; the process is the only one in the run queue and
    in the list of all tasks; only memory that was free and the allocator's own
    is written. *)
Theorem init_scheduler_starts F size entry sgs s :
  heap_rep s F None -> capacity F (20 + 3 * length (segment_pages (mem s) init_program sgs)) -> creatable s NULL ->
  elf_at (mem s) init_program size sgs entry -> ram_range init_program size ->
  (forall a, init_program <= a < init_program + size -> ~ heap_touch F None a) ->
  (length (loads sgs) <= 55)%nat -> NoDup (segment_pages (mem s) init_program sgs) ->
  program_end sgs + 2 * PGSIZE <= SHARED_MEMORY - PGSIZE ->
  wp init_scheduler (fun _ s' => glob s' next_pid = glob s next_pid +w 1 /\
    (forall r, r <> sstatus -> csr_val s' r = csr_val s r) /\
    (forall g, g ∉ [block_list_head; block_list_tail; runnable_tasks; all_tasks; init_task_ptr; next_pid] -> glob s' g = glob s g) /\
    modifies (heap_touch F None) (mem s) (mem s') /\
    exists pt tf sh ks, first_process s s' F init_program entry sgs (glob s' init_task_ptr) pt tf sh ks) s.
Proof. apply init_scheduler_ok. Qed.

End Theorems.

(** ** An instance: the booted machine starts the program of TaskElfTheorems.v *)

Section Witnesses.
#[local] Existing Instances board board_ok.
#[local] Opaque booted.

Definition init_state : state := set_mem (elf_mem (mem booted)) booted.

Lemma init_heap : heap_rep init_state boot_free None.
Proof.
  destruct booted_heap as (Hp & Hh & Ht). split; [|by split]. apply (pool_owns_frame _ _ _ Hp). intros a Ha.
  apply (elf_touched (mem booted)). unfold elf_base. intros Hr. destruct Ha as [Ha|Ha].
  - change (heads a) in Ha. unfold heads in Ha. change buddy_pool with 0x80010000 in Ha. lia.
  - unfold boot_free in Ha. lia.
Qed.

Lemma init_scheduler_starts_witness :
  wp init_scheduler (fun _ s' => exists pt tf sh ks E, rd64 (mem s') (tf + tf_epc) = 0x1004 /\ rd64 (mem s') (tf + tf_sp) = SHARED_MEMORY /\
    user_byte (mem s') E 0x1004 = 0x93 /\ user_byte (mem s') E 0x3000 = code "i" /\ user_byte (mem s') E (SHARED_MEMORY - 8) = 0 /\
    first_process init_state s' boot_free elf_base 0x1004 elf_segments (glob s' init_task_ptr) pt tf sh ks) init_state.
Proof.
  eapply wp_mono.
  - apply (init_scheduler_starts boot_free 512 0x1004 elf_segments init_state init_heap).
    + apply (capacity_le _ 1000); [apply Nat.leb_le; by vm_compute|]. apply (capacity_range _ 0x80030000); [by exists 0x40018|done|done|].
      intros a Ha. change (8192 * Z.of_nat 1000) with 8192000 in Ha. unfold boot_free. lia.
    + split; [|done|..|done|done]; vm_compute; by split.
    + apply (elf_image booted). by left.
    + by split.
    + change init_program with elf_base. unfold elf_base. intros a Ha [Hp|[Hp|[]]]; [|unfold boot_free in Hp; lia].
      change (heads a) in Hp. unfold heads in Hp. change buddy_pool with 0x80010000 in Hp. lia.
    + simpl. lia.
    + apply (bool_decide_unpack _). by vm_compute.
    + by vm_compute.
  - intros _ s' (_ & _ & _ & _ & pt & tf & sh & ks & Hp). pose proof (fp_entry _ _ _ _ _ _ _ _ _ _ _ Hp) as He.
    destruct (fp_memory _ _ _ _ _ _ _ _ _ _ _ Hp) as (F' & B & E & T & l & page & stack & ps & x1 & x2 & Hmem).
    destruct (fm_image _ _ _ _ _ _ _ _ _ _ _ _ _ _ _ _ _ _ _ _ Hmem) as [Hall _ _ Hz Harg _].
    exists pt, tf, sh, ks, E. unfold entry_fields, fields in He. rewrite !Forall_cons in He. destruct He as (Hsp & Hepc & _).
    split; [exact Hepc|]. split; [exact Hsp|]. apply Forall_cons in Hall as [Hs _]. destruct (Hs 0 ltac:(by vm_compute)) as (_ & _ & H0).
    split; [etransitivity; [exact (H0 4 ltac:(by vm_compute))|by vm_compute]|]. split; [exact (pa_name _ _ _ _ _ Harg 0%nat (code "i") eq_refl)|].
    split; [exact (Hz 4088 ltac:(by vm_compute))|exact Hp].
Defined.

End Witnesses.
