(* ===== verification/TaskBoard.v ===== *)
(** * Concrete tasks

    Memory with two tasks, a run queue and a task table, at fixed addresses of
    the kernel image of Board.v, for the instances of the theorems on processes
    and traps.  The page allocator owns no free page in these states. *)

From S2P Require Import Prelude Machine Board Utility Uart Chain BuddySpec PageAlloc Buddy BuddyInstance Kmalloc LinkedList LinkedListProof PageTable Task Process TaskTable Scheduler.

#[local] Existing Instances board board_ok.

Definition queue_at : Z := 0x80016000.
Definition table_at : Z := 0x80016040.
Definition node1 : Z := 0x80017000.
Definition node2 : Z := 0x80017010.
Definition entry1 : Z := 0x80017020.
Definition entry2 : Z := 0x80017030.
Definition task1 : Z := 0x80018000.
Definition task2 : Z := 0x80018200.
Definition frame1 : Z := 0x80019000.
Definition frame2 : Z := 0x80019200.
Definition status_at : Z := 0x8001a000.

(** The list [l] of nodes and data, as a chain of nodes below the list at [L]. *)
Fixpoint link_nodes (m : gmap Z Z) (l : list (Z * Z)) : gmap Z Z :=
  match l with
  | [] => m
  | (x, d) :: r => wr64 (wr64 (link_nodes m r) x (hd0 r.*1)) (x + 8) d
  end.
Definition place_list (m : gmap Z Z) (L : Z) (l : list (Z * Z)) : gmap Z Z :=
  wr64 (wr64 (wr64 (link_nodes m l) L (hd0 l.*1)) (L + 8) (last_node NULL l.*1))
    (L + 16) (Z.of_nat (length l)).

Definition place_task (m : gmap Z Z) (t st pid parent frame : Z) : gmap Z Z :=
  wr64 (wr64 (wr64 (wr64 (wr 4 m (t + t_state) st) (t + t_pid) pid) (t + t_parent) parent)
    (t + t_trap_frame) frame) (t + t_shared_memory) status_at.

(** Task 1 (pid 1) runs; task 2 (pid 2), its child, is in state [st2].  The run
    queue is [q]. *)
Definition task_mem (st2 : Z) (q : list (Z * Z)) : gmap Z Z :=
  place_list (place_list
    (wr64 (place_task (place_task ∅ task1 RUNNING 1 NULL frame1) task2 st2 2 task1 frame2)
      (node1 + 8) task1)
    queue_at q) table_at [(entry1, task1); (entry2, task2)].

Definition task_glob (g : global) : Z :=
  match g with
  | runnable_tasks => queue_at
  | all_tasks => table_at
  | running_task => node1
  | _ => 0
  end.

Definition task_state (st2 : Z) (q : list (Z * Z)) : state :=
  mkState (task_mem st2 q) ∅ task_glob 0 [].

(** Task 2 waits in the queue; it is a zombie; task 1 is alone. *)
Definition two_ready : state := task_state RUNNABLE [(node2, task2)].
Definition zombie_state : state := task_state ZOMBIE [].
Definition alone_state : state := task_state SLEEPING [].

(** Membership in a list of one or two elements. *)
Ltac in_list := repeat match goal with
  | H : _ ∈ [] |- _ => by apply not_elem_of_nil in H
  | H : _ ∈ _ :: _ |- _ => apply elem_of_cons in H as [->|H]
  end.

(** Reading back what was placed. *)
Ltac place_simp :=
  unfold task_mem, place_list, link_nodes, table_at, entry1, entry2, task1, task2, queue_at, node2, hd0, last_node;
  simpl; unfold NULL; by mem_simp.

Lemma NoDup_pair (x y : Z) : x <> y -> NoDup [x; y].
Proof. intros H. apply NoDup_cons. split; [by intros ?%list_elem_of_singleton|apply NoDup_singleton]. Qed.

Lemma table_list st2 q :
  list_rep (task_mem st2 q) table_at [(entry1, task1); (entry2, task2)].
Proof.
  unfold task_mem. set (m := place_list _ queue_at q). split.
  - split; simpl; [done|intros x Hx; in_list; done|intros x Hx; in_list; by left| |by apply NoDup_pair].
    intros x y Hx Hy Hne. in_list; done || (by left) || by right.
  - simpl. split; [|split]; place_simp.
  - place_simp.
  - place_simp.
  - repeat constructor; place_simp.
Qed.

Lemma two_tasks st2 q : task_table (task_state st2 q) [task1; task2].
Proof.
  exists [(entry1, task1); (entry2, task2)]. split; [by apply table_list|].
  split; [done|]. repeat constructor; done.
Qed.

Lemma queue_list st2 q : q = [] \/ q = [(node2, task2)] -> list_rep (task_mem st2 q) queue_at q.
Proof.
  intros [->| ->]; (split; [split|..]); simpl; try done; try (split; [|split]); try place_simp.
  - intros x Hx. in_list.
  - intros x Hx. in_list.
  - intros x y Hx. in_list.
  - by apply NoDup_nil.
  - intros x Hx. in_list; done.
  - intros x Hx. in_list; by left.
  - intros x y Hx Hy ?. in_list; done.
  - apply NoDup_singleton.
  - repeat constructor; place_simp.
Qed.

(** Two placed ranges, on either side of each other. *)
Ltac apart := first [done | by left | by right].

Lemma queue_layout : layout queue_at [node1; node2] [task1; task2].
Proof.
  split; [split| | | | |].
  - done.
  - intros x Hx. in_list; done.
  - intros x Hx. in_list; apart.
  - intros x y Hx Hy Hne. in_list; apart.
  - by apply NoDup_pair.
  - intros x Hx. in_list; done.
  - intros x Hx. in_list; apart.
  - intros x y Hx Hy. in_list; apart.
  - intros x y Hx Hy Hne. in_list; apart.
  - by apply NoDup_pair.
Qed.

Lemma alone_layout : layout queue_at [node1] [task1].
Proof.
  split; [split| | | | |].
  - done.
  - intros x Hx. in_list; done.
  - intros x Hx. in_list; apart.
  - intros x y Hx Hy Hne. in_list; apart.
  - apply NoDup_singleton.
  - intros x Hx. in_list; done.
  - intros x Hx. in_list; apart.
  - intros x y Hx Hy. in_list; apart.
  - intros x y Hx Hy Hne. in_list; apart.
  - apply NoDup_singleton.
Qed.

Lemma ready_sched : sched_rep two_ready queue_at node1 task1 [(node2, task2)].
Proof.
  split; [done|done|apply queue_list; by right| |by vm_compute|by vm_compute| |apply queue_layout].
  - by intros ?%list_elem_of_singleton.
  - intros u Hu. simpl in Hu. in_list. by vm_compute.
Qed.

Lemma alone_sched : sched_rep alone_state queue_at node1 task1 [].
Proof.
  split; [done|done|apply queue_list; by left| |by vm_compute|by vm_compute| |apply alone_layout].
  - apply not_elem_of_nil.
  - intros u Hu. simpl in Hu. in_list.
Qed.

Lemma empty_pool_wf : buddy_wf (fun _ => []).
Proof.
  split; simpl.
  - intros. constructor.
  - intros k x [_ Hx]. by apply not_elem_of_nil in Hx.
  - intros k x j y [_ Hx]. by apply not_elem_of_nil in Hx.
  - intros k x [_ Hx]. by apply not_elem_of_nil in Hx.
Qed.

Lemma rd_empty n a : rd n ∅ a = 0.
Proof. revert a. induction n as [|n IH]; intros a; [done|]. change (rd8 ∅ a + 256 * rd n ∅ (a + 1) = 0). by rewrite IH. Qed.

Lemma heads_zero st2 k : order k -> rd64 (task_mem st2 [(node2, task2)]) (space k) = 0.
Proof.
  intros Hk. unfold order, BUDDY_MAX_ORDER in Hk. unfold space. change buddy_pool with 0x80010000.
  unfold task_mem, place_list, link_nodes, place_task, table_at, entry1, entry2, task1, task2,
    queue_at, node1, node2, t_state, t_pid, t_parent, t_trap_frame, t_shared_memory.
  simpl. rewrite !rd64_wr64_out by lia.
  rewrite (rd_wr_out 4 8) by (simpl; lia). rewrite !rd64_wr64_out by lia.
  rewrite (rd_wr_out 4 8) by (simpl; lia). apply rd_empty.
Qed.

Lemma ready_pool : pool_owns (mem two_ready) no_bytes.
Proof.
  exists (fun _ => []). split; [|split; [apply empty_pool_wf|]].
  - intros k Hk. by apply heads_zero.
  - intros a. split; [|done]. intros (k & x & [_ Hx] & _). by apply not_elem_of_nil in Hx.
Qed.

(** The scheduler's memory and the rest of the image above the list heads. *)
Definition image (a : Z) : Prop := 0x80011000 <= a < 0x80020000.

Lemma image_stacks s : pool_owns (mem s) no_bytes -> glob s stack_to_remove = NULL ->
  glob s stack_to_remove_next = NULL -> stacks_rep s no_bytes image.
Proof.
  intros Hp H1 H2. split; [done| |by left|by left]. intros a Ha. split; [|by intros []].
  change (~ heads a). unfold heads, image in *. change buddy_pool with 0x80010000. lia.
Qed.

Lemma ready_mem a : sched_mem queue_at node1 task1 [(node2, task2)] a -> image a.
Proof.
  unfold sched_mem, sched_byte, image, sizeof_list, sizeof_node, sizeof_task_struct. simpl.
  unfold queue_at. intros [?|[(x & Hx & ?)|(x & Hx & ?)]]; [lia| |]; in_list;
    unfold node1, node2, task1, task2 in *; lia.
Qed.
