(* ===== verification/ProcessTheorems.v ===== *)
(** * Theorems on processes

    The task searches, signals and waiting, the rotation of the run queue by
    [yield], the start of the scheduler, unknown system calls, and the return
    to user mode. *)

From S2P Require Import Prelude Machine Board Utility Uart ConsoleTheorems Chain BuddySpec PageAlloc Buddy BuddyInstance BuddyTheorems Kmalloc LinkedList LinkedListProof LinkedListTheorems PageTable Task Process TaskTable Scheduler TaskBoard.

Section Family.
Context `{Hw : Platform} {Ops : PageOps}.

(** Every task has a finite line of ancestors. *)
Definition family_ok (m : gmap Z Z) (ts : list Z) : Prop :=
  forall t, t ∈ ts -> exists c, lineage m t c /\ Z.of_nat (length c) < 2 ^ 64.

(** The searches through [all_tasks] return the first task that qualifies,
    NULL if there is none, and change nothing.  [has_alive_child] counts every
    child, also a dead one, and [child_with_pid] never returns a zombie. *)
Lemma task_searches ts task pid s :
  task_table s ts -> let m := mem s in
  wp (find_task pid) (fun r s' => s' = s /\ r = search (fun t => pid_of m t =? pid) ts) s /\
  wp (get_one_zombie_child task) (fun r s' => s' = s /\
    r = search (fun t => (parent_of m t =? task) && (state_of m t =? ZOMBIE)) ts) s /\
  wp (has_alive_child task) (fun r s' => s' = s /\
    r = if existsb (fun t => parent_of m t =? task) ts then 1 else 0) s /\
  wp (child_with_pid task pid) (fun r s' => s' = s /\
    (r <> NULL -> r = search (fun t => pid_of m t =? pid) ts /\ parent_of m r = task /\
       state_of m r <> ZOMBIE)) s.
Proof.
  intros Ht m. split; [by apply (find_task_ok ts)|].
  split; [by apply (get_one_zombie_child_ok ts)|].
  split; [by apply (has_alive_child_ok ts)|].
  apply (child_with_pid_ok ts); [done|]. cbv zeta. split; [done|].
  set (c := search _ _). destruct (Z.eqb_spec c NULL); simpl; [done|].
  destruct (Z.eqb_spec (parent_of (mem s) c) task); simpl; [|done].
  by destruct (Z.eqb_spec (state_of (mem s) c) ZOMBIE).
Qed.

(** [is_ancestor] terminates on a finite line of ancestors, answers whether
    its first argument is in it, and changes nothing. *)
Lemma is_ancestor_decides a t c s :
  task_ok t -> a <> NULL -> lineage (mem s) t c -> Z.of_nat (length c) < 2 ^ 64 ->
  wp (is_ancestor a t) (fun r s' => s' = s /\ r = if bool_decide (a ∈ c) then 1 else 0) s.
Proof.
  intros Ht Ha Hc Hlen. apply (is_ancestor_ok a t c); [by right|done|done|]. split; [done|].
  by rewrite (proj2 (Z.eqb_neq _ _) (task_nonnull t Ht)), (proj2 (Z.eqb_neq _ _) Ha).
Qed.

(** C31: [sys_send_signal] never delivers anything: whatever the pid and the
    signal, it returns -1 and changes nothing, because [is_alive] holds of every
    task. *)
Theorem send_signal_refused ts task s :
  task_table s ts -> family_ok (mem s) ts -> task_ok task ->
  frame_ok (trap_frame_of (mem s) task) ->
  wp (sys_send_signal task) (fun r s' => r = w64 (-1) /\ s' = s) s.
Proof.
  intros Ht Hfam Hok Hfr. pose proof Ht as (l & _ & _ & Hall). rewrite Forall_forall in Hall.
  unfold sys_send_signal, trap_frame_of in *. repeat wp_task. apply (find_task_ok ts); [done|].
  set (target := search _ _). wp_step.
  destruct (decide (target = NULL)) as [E|E].
  - apply (is_ancestor_ok _ _ []); [by left|done|done|]. rewrite E. simpl. by wp_steps.
  - destruct (search_some _ _ _ eq_refl E) as [Hin _]. destruct (Hfam _ Hin) as (c & Hc & Hlen).
    apply (is_ancestor_ok _ _ c); [by right; apply Hall|done|done|].
    set (b := if (target =? NULL) || (task =? NULL) then 0 else if bool_decide (task ∈ c) then 1 else 0). wp_step. destruct (b =? 0); [by wp_steps|].
    apply is_alive_ok; [by apply Hall|]. by wp_steps.
Qed.

(** C32: waiting by pid for a child that has exited, and is still a zombie, fails:
    [sys_wait_pid] returns -1 and changes nothing. *)
Theorem wait_pid_zombie_refused ts task z s :
  task_table s ts -> task_ok task -> frame_ok (trap_frame_of (mem s) task) ->
  let pid := rd64 (mem s) (trap_frame_of (mem s) task + tf_a0) in
  s64 pid <> -1 -> search (fun t => pid_of (mem s) t =? pid) ts = z ->
  z <> NULL -> parent_of (mem s) z = task -> state_of (mem s) z = ZOMBIE ->
  wp (sys_wait_pid task) (fun r s' => r = w64 (-1) /\ s' = s) s.
Proof.
  intros Ht Hok Hfr pid Hpid Hz Hne Hpar Hst. unfold sys_wait_pid, trap_frame_of in *.
  wp_task. wp_task. wp_task. wp_task. unfold wait_pid_target. fold pid. wp_step.
  rewrite (proj2 (Z.eqb_neq _ _) Hpid). wp_step. apply (child_with_pid_ok ts); [done|].
  cbv zeta. rewrite Hz, Hst, orb_true_r. by wp_steps.
Qed.

(** C30: with a zombie among its children [sys_wait] does not block: it returns the
    pid of the first one, marks it dead, and stores its exit status in the
    shared page when a status is asked for; nothing else changes. *)
Theorem wait_reaps_zombie ts task z s :
  task_table s ts -> task_ok task -> frame_ok (trap_frame_of (mem s) task) ->
  let status := rd64 (mem s) (task + t_shared_memory) in
  let asked := truth (rd64 (mem s) (trap_frame_of (mem s) task + tf_a0)) in
  search (fun t => (parent_of (mem s) t =? task) && (state_of (mem s) t =? ZOMBIE)) ts = z ->
  z <> NULL -> KERNBASE <= status -> status + 4 <= PHYSTOP -> sep status 4 z sizeof_task_struct ->
  wp (sys_wait task) (fun r s' => r = pid_of (mem s) z /\ state_of (mem s') z = DEAD /\
    (asked = true -> rd 4 (mem s') status = rd 4 (mem s) (z + t_exit_status)) /\
    modifies (fun a => z <= a < z + 4 \/ (asked = true /\ status <= a < status + 4)) (mem s) (mem s') /\
    s' = set_mem (mem s') s) s.
Proof.
  intros Ht Hok Hfr status asked Hz Hne Hlo Hhi Hsep. unfold sys_wait, trap_frame_of in *.
  pose proof Ht as (l & _ & _ & Hall). rewrite Forall_forall in Hall.
  pose proof (Hall z (proj1 (search_some _ _ _ Hz Hne))) as Hzok.
  unfold sep, sizeof_task_struct in Hsep.
  wp_step. apply (get_one_zombie_child_ok ts); [done|].
  change (search (zombie_child_of (mem s) task) ts)
    with (search (fun t => (parent_of (mem s) t =? task) && (state_of (mem s) t =? ZOMBIE)) ts).
  rewrite Hz, (proj2 (Z.eqb_neq _ _) Hne). repeat wp_task. simpl (negb _). cbv iota.
  unfold reap, load_int, store_int. fold asked.
  assert (Hend : forall m1, (forall a, z <= a < z + 264 -> rd8 m1 a = rd8 (mem s) a) ->
    (asked = true -> rd 4 m1 status = rd 4 (mem s) (z + t_exit_status)) ->
    modifies (fun a => asked = true /\ status <= a < status + 4) (mem s) m1 ->
    wp (store32 (z + t_state) DEAD;; load64 (z + t_pid)) (fun r s' => r = pid_of (mem s) z /\
      state_of (mem s') z = DEAD /\
      (asked = true -> rd 4 (mem s') status = rd 4 (mem s) (z + t_exit_status)) /\
      modifies (fun a => z <= a < z + 4 \/ (asked = true /\ status <= a < status + 4)) (mem s) (mem s') /\
      s' = set_mem (mem s') s) (set_mem m1 s)).
  { intros m1 Hm1 Hst1 Hmod. repeat wp_task. simpl mem. unfold pid_of, state_of, t_state, t_pid in *.
    rewrite Z.add_0_r. split; [|split; [by apply (rd_wr_same 4)|split; [|split; [|done]]]].
    - rewrite rd_wr_out by (simpl; lia). apply (rd_ext 8). intros b Hb. apply Hm1. lia.
    - intros Hask. rewrite <-Hst1 by done. apply rd_wr_out. simpl. lia.
    - intros a Ha. rewrite rd8_wr_out by (simpl; lia). apply Hmod. tauto. }
  destruct asked eqn:Easked.
  - do 7 wp_task. fold status. wp_ram.
    assert (Hw32 : w32 (s32 (rd 4 (mem s) (z + t_exit_status))) = rd 4 (mem s) (z + t_exit_status)).
    { pose proof (rd_range 4 (mem s) (z + t_exit_status)) as Hr. simpl in Hr.
      set (v := rd 4 _ _) in *. unfold s32, w32. rewrite (Z.mod_small v) by lia.
      destruct (Z.ltb_spec v (2 ^ 31)); [by apply Z.mod_small|].
      replace (v - 2 ^ 32) with (v + (-1) * 2 ^ 32) by lia. rewrite Z.mod_add by lia. by apply Z.mod_small. }
    rewrite Hw32. apply Hend.
    + intros a Ha. apply rd8_wr_out. simpl. lia.
    + intros _. apply (rd_wr_same 4), (rd_range 4).
    + apply modifies_wr. simpl. intros b Hb. split; [done|lia].
  - wp_step. wp_step. pose proof (Hend (mem s)) as Hs. rewrite set_mem_id in Hs. by apply Hs.
Qed.

End Family.

Section Rotation.
Context `{Hw : Platform} {HwOk : PlatformOk Hw} {Ops : PageOps} {HA : PageAllocator Ops}.

(** C17: with another task in the queue [yield] neither returns nor faults: it
    switches from the running task to the first one of the queue, which is now
    the running one, while the old one waits, runnable, at the end of the
    queue; the pending kernel stack is released, the rest of the protected memory
    [U] is unchanged, interrupts are on, and the resumed task returns from its
    [yield]. *)
Theorem yield_rotates F U R x t y u r s :
  sched_rep s R x t ((y, u) :: r) -> stacks_rep s F U ->
  (forall a, sched_mem R x t ((y, u) :: r) a -> U a) ->
  switches yield (fun old new s' k => old = t + t_context /\ new = u + t_context /\
    (forall s'', k s'' = Ok tt s'') /\ sched_rep s' R y u (r ++ [(x, t)]) /\
    stacks_rep s' (with_stack F (glob s stack_to_remove)) U /\
    (forall a, U a -> ~ sched_mem R x t ((y, u) :: r) a -> rd8 (mem s') a = rd8 (mem s) a) /\
    glob s' stack_to_remove = glob s stack_to_remove_next /\
    glob s' stack_to_remove_next = NULL /\ sie_on s' = true) s.
Proof. apply yield_ok. Qed.

(** Between two switches the running task does what it likes outside the
    scheduler's memory [U], and leaves the allocator consistent. *)
Definition runs (U : Z -> Prop) (s s' : state) : Prop :=
  (forall a, U a -> rd8 (mem s') a = rd8 (mem s) a) /\
  glob s' runnable_tasks = glob s runnable_tasks /\
  glob s' running_task = glob s running_task /\ exists F, stacks_rep s' F U.

(** [n] turns: each task in its turn runs and calls [yield]. *)
Inductive turns (U : Z -> Prop) : nat -> state -> state -> Prop :=
  | turns_0 s : turns U 0 s s
  | turns_S n s old new s1 k s2 s3 :
      yield s = Switch old new s1 k -> runs U s1 s2 -> turns U n s2 s3 ->
      turns U (S n) s s3.

(** The running task and the queue as one cycle. *)
Definition rot (l : list (Z * Z)) : list (Z * Z) :=
  match l with [] => [] | c :: l => l ++ [c] end.
Definition cycle_rep (s : state) (R : Z) (l : list (Z * Z)) : Prop :=
  match l with [] => False | (x, t) :: q => sched_rep s R x t q end.
Definition cycle_mem (R : Z) (l : list (Z * Z)) : Z -> Prop := sched_byte R l.*1 l.*2.

Lemma iter_rot a b : Nat.iter (length a) rot (a ++ b) = b ++ a.
Proof.
  revert b. induction a as [|c a IH]; intros b; [by rewrite app_nil_r|].
  simpl length. rewrite Nat.iter_succ_r. simpl app. simpl rot. rewrite <-app_assoc, IH.
  by rewrite <-app_assoc.
Qed.

Lemma turns_cycle U R n s s' : turns U n s s' -> forall l F, (2 <= length l)%nat ->
  (forall a, cycle_mem R l a -> U a) -> cycle_rep s R l -> stacks_rep s F U ->
  cycle_rep s' R (Nat.iter n rot l).
Proof.
  induction 1 as [s|n s old new s1 k s2 s3 Hy (Hb & Hg1 & Hg2 & F' & Hst) _ IH];
    intros l F Hlen HU Hrep Hstk; [done|].
  destruct l as [|[x t] [|[y u] r]]; simpl in Hlen; try lia.
  destruct (switches_elim _ _ _ _ _ _ _ (yield_ok F U R x t y u r s Hrep
    Hstk HU) Hy) as (_ & _ & _ & Hrep1 & _).
  assert (HU' : forall a, sched_mem R y u (r ++ [(x, t)]) a -> U a).
  { intros a Ha. by apply HU, sched_mem_rotate. }
  rewrite Nat.iter_succ_r. apply (IH _ F'); [|exact HU'| |done].
  - simpl. rewrite length_app. simpl. lia.
  - apply (sched_frame s1); [done| |done|done]. intros a Ha. by apply Hb, HU'.
Qed.

(** C18: round robin: the task with [length l1] tasks before it in the queue is
    the running one after [length l1 + 1] turns, with the queue rotated
    accordingly; so no task waits for more turns than the queue is long. *)
Theorem round_robin F R x t l1 y u l2 s s' :
  let q := l1 ++ (y, u) :: l2 in
  sched_rep s R x t q -> stacks_rep s F (sched_mem R x t q) ->
  turns (sched_mem R x t q) (S (length l1)) s s' ->
  sched_rep s' R y u (l2 ++ (x, t) :: l1).
Proof.
  intros q Hrep Hst Hturns.
  pose proof (turns_cycle _ R _ _ _ Hturns ((x, t) :: q) F) as H. change (S (length l1)) with
    (length ((x, t) :: l1)) in H. unfold q in H.
  rewrite (iter_rot ((x, t) :: l1) ((y, u) :: l2) : Nat.iter _ rot ((x, t) :: l1 ++ (y, u) :: l2) = _) in H.
  apply H; [simpl; rewrite length_app; simpl; lia|done|done|done].
Qed.

(** C33: a task that goes to sleep while no other task is in the queue does not
    block: [sleep] returns, with the task still the running one, marked as
    sleeping, and interrupts off. *)
Theorem sleep_alone_returns R x t channel s :
  sched_rep s R x t [] -> glob s stack_to_remove = NULL -> 0 <= channel < 2 ^ 64 ->
  wp (sleep t channel) (fun _ s' => glob s' running_task = x /\
    state_of (mem s') t = SLEEPING /\ rd64 (mem s') (t + t_channel) = channel /\
    sie_on s' = false) s.
Proof.
  intros Hrep Hold Hch. pose proof Hrep as [HR Hx Hl Hn Ht Hst Hrd Hlay].
  destruct (rep_range _ _ _ Hl) as (? & ? & _).
  pose proof (lay_task _ _ _ Hlay t ltac:(by left)) as Htok.
  unfold sleep. do 4 wp_task. simpl mem. wp_step. wp_step. simpl glob. rewrite HR.
  set (s2 := set_mem _ (set_mem _ s)).
  assert (Hout : forall a, ~ (t <= a < t + sizeof_task_struct) -> rd8 (mem s2) a = rd8 (mem s) a).
  { intros a Ha. unfold s2. simpl mem. task_unfold. rewrite !rd8_wr_out; [done|simpl; lia..]. }
  assert (Hl2 : list_rep (mem s2) R []).
  { apply (rep_frame R [] (mem s) Hl); [|by intros ? ? ?%not_elem_of_nil]. intros a Ha. apply Hout.
    intros Hin. by destruct (task_byte_apart _ _ _ Hlay t a ltac:(by left) Hin). }
  destruct (node_ram _ _ (lay_list _ _ _ Hlay) x ltac:(by left)) as [Hx1 Hx2]. unfold sizeof_node in Hx2.
  wp_step. eapply wp_mono; [apply removeAt_empty; exact Hl2|]. intros r s3 (_ & ->).
  eapply wp_mono; [by apply (yield_alone R x)|].
  intros [] s' (Hm & Hoff & Hg). rewrite Hm. unfold s2. simpl mem. unfold state_of.
  split; [by rewrite Hg, !fn_lookup_insert_ne|]. split; [|split; [|done]].
  - task_unfold. rewrite rd_wr_out by (simpl; lia). by apply (rd_wr_same 4).
  - by apply rd64_wr64_same.
Qed.

(** A poll of the UART that finds a character: two loads. *)
Definition uart_ready (n : nat) : bool := truth (Z.land (w8 (mmio (Reg LSR) n)) 0x01).
Definition uart_poll (s : state) : state :=
  set_io (S (S (clock s))) (MmioRead (Reg RHR) (mmio (Reg RHR) (S (clock s))) :: MmioRead (Reg LSR) (mmio (Reg LSR) (clock s)) :: log s) s.

Lemma uart_getc_ready s (Q : Z -> state -> Prop) : uart_ready (clock s) = true ->
  Q (w8 (mmio (Reg RHR) (S (clock s)))) (uart_poll s) -> wp uart_getc Q s.
Proof.
  unfold uart_ready. intros Hr HQ. unfold uart_getc. wp_step. apply wp_ReadReg. rewrite Hr.
  apply wp_ReadReg. exact HQ.
Qed.

(** [sys_get_char] drops a character that is ready when it starts: it reads the
    receive register twice and returns the second character. *)
Lemma sys_get_char_drops task s : uart_ready (clock s) = true -> uart_ready (S (S (clock s))) = true ->
  wp (sys_get_char task) (fun r s' => r = w8 (mmio (Reg RHR) (3 + clock s)) /\ s' = uart_poll (uart_poll s)) s.
Proof.
  intros H1 H2. unfold sys_get_char.
  assert (Hw8 : forall v, (w8 v =? -1) = false) by (intros v; pose proof (w8_range v); lia).
  wp_step. apply (wp_loop (fun n _ s' => n = 0 /\ s' = s) 0); [done|done|]. intros n [] s' [-> ->]. split; [lia|].
  wp_step. apply uart_getc_ready; [done|]. rewrite Hw8. simpl negb. wp_step. wp_step. wp_step.
  apply (wp_loop (fun n _ s' => n = 0 /\ s' = uart_poll s) 0); [done|done|]. intros n' [] s' [-> ->]. split; [lia|].
  wp_step. apply uart_getc_ready; [done|]. rewrite Hw8. wp_step. wp_step. split; [|done].
  match goal with |- w64 (w8 ?v) = _ => rewrite (w64_small (w8 v)) by (pose proof (w8_range v); lia) end. done.
Qed.

End Rotation.

(** ** Instances: two tasks on the board *)

Section Witnesses.
#[local] Existing Instances board board_ok.

Lemma task_searches_witness :
  wp (find_task 2) (fun r s' => s' = zombie_state /\ r = task2) zombie_state /\
  wp (get_one_zombie_child task1) (fun r s' => s' = zombie_state /\ r = task2) zombie_state.
Proof.
  destruct (task_searches [task1; task2] task1 2 zombie_state (two_tasks _ _)) as (Hf & Hz & _).
  split.
  - eapply wp_mono; [exact Hf|]. intros r s' [Hs Hr]. split; [exact Hs|]. rewrite Hr. vm_compute. reflexivity.
  - eapply wp_mono; [exact Hz|]. intros r s' [Hs Hr]. split; [exact Hs|]. rewrite Hr. vm_compute. reflexivity.
Defined.

Lemma parents : lineage (mem zombie_state) task2 [task1] /\ lineage (mem zombie_state) task1 [].
Proof. split; [split; [|split]|]; vm_compute; done. Qed.

Lemma is_ancestor_decides_witness :
  wp (is_ancestor task1 task2) (fun r s' => s' = zombie_state /\ r = 1) zombie_state.
Proof.
  eapply wp_mono; [apply (is_ancestor_decides task1 task2 [task1]); [done|done|apply parents|done]|].
  intros r s' [Hs Hr]. split; [exact Hs|]. rewrite Hr, bool_decide_true; [reflexivity|by left].
Defined.

Lemma send_signal_refused_witness :
  wp (sys_send_signal task1) (fun r s' => r = 2 ^ 64 - 1 /\ s' = zombie_state) zombie_state.
Proof.
  apply (send_signal_refused [task1; task2] task1).
  - apply two_tasks.
  - intros t Ht. in_list; [exists []|exists [task1]]; (split; [apply parents|done]).
  - done.
  - by vm_compute.
Defined.

(** The trap frame of task 1 asks for pid 2. *)
Definition wait_state : state := set_mem (wr64 (mem zombie_state) (frame1 + tf_a0) 2) zombie_state.

Lemma wait_table : task_table wait_state [task1; task2].
Proof.
  exists [(entry1, task1); (entry2, task2)]. split; [|split; [done|repeat constructor; done]].
  apply (rep_frame table_at _ (mem zombie_state)); [apply table_list| |].
  - intros a Ha. apply rd8_wr_out. unfold table_at, frame1, tf_a0 in *. simpl. lia.
  - intros x a Hx Ha. apply rd8_wr_out. simpl in Hx.
    in_list; unfold entry1, entry2, frame1, tf_a0 in *; simpl; lia.
Qed.

Lemma wait_pid_zombie_refused_witness :
  wp (sys_wait_pid task1) (fun r s' => r = 2 ^ 64 - 1 /\ s' = wait_state) wait_state.
Proof.
  apply (wait_pid_zombie_refused [task1; task2] task1 task2);
    [apply wait_table|done|by vm_compute|by vm_compute|by vm_compute|done|by vm_compute|by vm_compute].
Defined.

Lemma wait_reaps_zombie_witness :
  wp (sys_wait task1) (fun r s' => r = 2 /\ state_of (mem s') task2 = DEAD) wait_state.
Proof.
  eapply wp_mono; [apply (wait_reaps_zombie [task1; task2] task1 task2);
    [apply wait_table|done|by vm_compute|by vm_compute|done|by vm_compute|by vm_compute|by right; vm_compute]|].
  intros r s' (Hr & Hs & _). split; [|exact Hs]. rewrite Hr. vm_compute. reflexivity.
Defined.

Lemma yield_rotates_witness :
  switches yield (fun old new s' _ => old = task1 + t_context /\ new = task2 + t_context /\
    sched_rep s' queue_at node2 task2 [(node1, task1)]) two_ready.
Proof.
  eapply switches_mono; [apply (yield_rotates no_bytes image queue_at node1 task1 node2 task2 []);
    [exact ready_sched|exact (image_stacks _ ready_pool eq_refl eq_refl)|exact ready_mem]|].
  intros old new s' k (Ho & Hn & _ & Hrep & _). split; [exact Ho|]. split; [exact Hn|exact Hrep].
Defined.

(** A turn from [two_ready] exists. *)
Lemma round_robin_witness :
  exists s', turns (sched_mem queue_at node1 task1 [(node2, task2)]) 1 two_ready s' /\
    sched_rep s' queue_at node2 task2 [(node1, task1)].
Proof.
  pose proof (stacks_weaken _ _ _ _ ready_mem (image_stacks _ ready_pool eq_refl eq_refl)) as Hst.
  pose proof (yield_ok no_bytes _ queue_at node1 task1 node2 task2 [] two_ready ready_sched Hst
    (fun a H => H)) as Hy.
  destruct (yield two_ready) as [| | | |old new s' k|] eqn:E; unfold switches in Hy; rewrite E in Hy;
    try contradiction.
  destruct Hy as (_ & _ & _ & _ & Hst' & _). exists s'.
  assert (Ht : turns (sched_mem queue_at node1 task1 [(node2, task2)]) 1 two_ready s').
  { eapply turns_S; [exact E| |apply turns_0]. split; [intros; reflexivity|].
    split; [reflexivity|]. split; [reflexivity|]. eexists. exact Hst'. }
  split; [exact Ht|].
  exact (round_robin no_bytes queue_at node1 task1 [] node2 task2 [] two_ready s' ready_sched Hst Ht).
Defined.

Lemma sleep_alone_returns_witness :
  wp (sleep task1 task1) (fun _ s' => glob s' running_task = node1 /\
    state_of (mem s') task1 = SLEEPING /\ sie_on s' = false) alone_state.
Proof.
  eapply wp_mono; [apply (sleep_alone_returns queue_at node1 task1 task1 alone_state alone_sched);
    [reflexivity|done]|].
  intros [] s' (H1 & H2 & _ & H3). split; [exact H1|]. split; [exact H2|exact H3].
Defined.

End Witnesses.
