(* ===== verification/Trap.v ===== *)
(** * Traps: trap.c

    Decoding the cause of a trap, and the handlers of traps from user mode and
    from the kernel. *)

From S2P Require Import Prelude Machine Utility Uart BuddySpec PageAlloc Kmalloc LinkedList PageTable Task Process.

Inductive cause :=
  | UNKNOWN | SYSCALL | TIMER | UART | VIRTIO
  | ILLEGAL_INSTRUCTION | INSTRUCTION_PAGE_FAULT | LOAD_PAGE_FAULT | STORE_PAGE_FAULT.

#[export] Instance cause_eq_dec : EqDecision cause.
Proof. solve_decision. Defined.

Section Code.
Context `{Hw : Platform} {Ops : PageOps}.

(** The [switch] on [scause] of [supervisor_trap_cause]. *)
Definition exception_cause (x : Z) : M cause :=
  if x =? 0x8000000000000001 then
    ip ← read_sip;
    write_sip (Z.land ip (not64 2));;
    mret TIMER
  else mret (if x =? 8 then SYSCALL
    else if x =? 2 then ILLEGAL_INSTRUCTION
    else if x =? 12 then INSTRUCTION_PAGE_FAULT
    else if x =? 13 then LOAD_PAGE_FAULT
    else if x =? 15 then STORE_PAGE_FAULT
    else UNKNOWN).

Definition supervisor_trap_cause : M cause :=
  x ← read_scause;
  if truth (Z.land x 0x8000000000000000) && (Z.land x 0xff =? 9) then
    irq ← plic_claim;
    if irq =? UART0_IRQ then
      uart_intr;;
      plic_complete irq;;
      mret UART
    else if irq =? VIRTIO0_IRQ then
      plic_complete irq;;
      mret VIRTIO
    else if truth irq then
      print_string (Lit "unexpected interrupt irq=");;
      print_int (w64 irq) 10;;
      print_string (Lit newline);;
      plic_complete irq;;
      mret UNKNOWN
    else exception_cause x
  else exception_cause x.

(** The report and the exit of the two cases that have no handler. *)
Definition kill_faulting (message : string) (task : Z) : M unit :=
  print_string (Lit message);;
  addr ← read_stval;
  print_int addr 16;;
  print_string (Lit ", pid ");;
  pid ← load64 (task + t_pid);
  print_int pid 10;;
  print_string (Lit newline);;
  exit_process task (-1).

(** The cases of the [switch] of [user_trap] fall through to the next one where
    the code has no [break]. *)
Definition user_trap_switch (trap_cause : cause) (task : Z) : M unit :=
  let store_page_fault := handle_store_page_fault task in
  let load_page_fault := handle_load_page_fault task;; store_page_fault in
  let instruction_page_fault :=
    kill_faulting "Instruction page fault at " task;; load_page_fault in
  let illegal_instruction :=
    kill_faulting "Illegal instruction: " task;; instruction_page_fault in
  match trap_cause with
  | TIMER => yield
  | SYSCALL => syscall
  | ILLEGAL_INSTRUCTION => illegal_instruction
  | INSTRUCTION_PAGE_FAULT => instruction_page_fault
  | LOAD_PAGE_FAULT => load_page_fault
  | STORE_PAGE_FAULT => store_page_fault
  | _ => mret tt
  end.

Definition user_trap : M unit :=
  pc ← read_sepc;
  status ← read_sstatus;
  trap_cause ← supervisor_trap_cause;
  (if negb (Z.land status SSTATUS_SPP =? 0) then panic "user_trap: not from user mode"
   else mret tt);;
  write_stvec kernel_vector;;
  task ← current_task;
  tf ← load64 (task + t_trap_frame);
  store64 (tf + tf_epc) pc;;
  user_trap_switch trap_cause task;;
  user_trap_return.

Definition kernel_trap : M unit :=
  pc ← read_sepc;
  status ← read_sstatus;
  trap_cause ← supervisor_trap_cause;
  (if Z.land status SSTATUS_SPP =? 0 then panic "kernel_trap: not in supervisor mode"
   else mret tt);;
  on ← interrupt_status;
  (if negb (on =? 0) then panic "kernel_trap: interrupts enabled in supervisor mode"
   else mret tt);;
  (match trap_cause with TIMER => yield | _ => mret tt end);;
  write_sepc pc;;
  write_sstatus status.

End Code.
