(* ===== verification/TrapProof.v ===== *)
(** * Entering and leaving the kernel

    Proofs shared by the theorems on traps: the running task, the way from a
    trap to its handler ([user_trap] of trap.c up to the [switch]), and the way
    back to user mode ([user_trap_return]). *)

From S2P Require Import Prelude Machine Utility Uart Chain BuddySpec PageAlloc Kmalloc LinkedList PageTable Task Process TaskTable Trap.

(** Reading back a register. *)
Ltac csr_simp :=
  repeat first [rewrite csr_val_set_mem
    | rewrite csr_val_set_csr; first [rewrite decide_True by done | rewrite decide_False by done]].

Section Traps.
Context `{Hw : Platform} {Ops : PageOps}.

(** ** The running task *)

(** [t] is the running task, with trap frame [tf] and page table [pt]. *)
Record on_cpu (s : state) (t tf pt : Z) : Prop := {
  oc_queue : glob s runnable_tasks <> NULL;
  oc_node : KERNBASE <= glob s running_task /\ glob s running_task + 16 <= PHYSTOP;
  oc_current : rd64 (mem s) (glob s running_task + 8) = t;
  oc_task : task_ok t;
  oc_frame : trap_frame_of (mem s) t = tf;
  oc_frame_ok : frame_ok tf;
  oc_apart : sep tf sizeof_trap_frame t sizeof_task_struct;
  oc_node_apart : sep tf sizeof_trap_frame (glob s running_task) 16;
  oc_pagetable : rd64 (mem s) (t + t_pagetable) = pt
}.

Lemma current_task_ok s t tf pt : on_cpu s t tf pt -> current_task s = Ok t s.
Proof.
  intros [HR [Hx1 Hx2] Hc]. unfold current_task, mbind, M_bind, get, load. simpl obind.
  rewrite (proj2 (Z.eqb_neq _ _) HR). simpl obind.
  rewrite in_ram_true by (simpl; lia). by rewrite Hc.
Qed.

(** Only the trap frame changed. *)
Lemma on_cpu_frame s s' t tf pt : on_cpu s t tf pt -> glob s' = glob s ->
  modifies (fun a => tf <= a < tf + sizeof_trap_frame) (mem s) (mem s') -> on_cpu s' t tf pt.
Proof.
  intros [HR Hx Hc Hok Hf Hfok Hs Hn Hp] Hg Hm. unfold sep, sizeof_trap_frame, sizeof_task_struct in *.
  split; rewrite ?Hg; try done; unfold trap_frame_of in *.
  - rewrite (modifies_rd _ 8 _ _ _ Hm); [done|]. intros b Hb. lia.
  - rewrite (modifies_rd _ 8 _ _ _ Hm); [done|]. task_unfold. intros b Hb. lia.
  - rewrite (modifies_rd _ 8 _ _ _ Hm); [done|]. task_unfold. intros b Hb. lia.
Qed.

(** ** The way back to user mode *)

(** [sret] will go to user mode with interrupts on; they are off until then. *)
Definition user_mode (s : state) : Prop :=
  Z.land (csr_val s sstatus) SSTATUS_SPP = 0 /\
  truth (Z.land (csr_val s sstatus) SSTATUS_SPIE) = true /\ sie_on s = false.

(** The bytes of the trap frame that the kernel keeps for itself. *)
Definition kernel_word (tf a : Z) : Prop := tf <= a < tf + tf_epc.

Lemma user_mode_bits x :
  let y := Z.lor (Z.land (Z.land x (not64 SSTATUS_SIE)) (not64 SSTATUS_SPP)) SSTATUS_SPIE in
  Z.land y SSTATUS_SPP = 0 /\ truth (Z.land y SSTATUS_SPIE) = true /\ Z.land y SSTATUS_SIE = 0.
Proof.
  intros y. unfold SSTATUS_SPP, SSTATUS_SPIE, SSTATUS_SIE in *.
  change (Z.shiftl 1 8) with (2 ^ 8) in *. change (Z.shiftl 1 5) with (2 ^ 5) in *.
  change (Z.shiftl 1 1) with (2 ^ 1) in *. rewrite !land_pow2 by lia. unfold y.
  rewrite !Z.lor_spec, !Z.land_spec.
  change (Z.testbit (not64 (2 ^ 8)) 8) with false. change (Z.testbit (not64 (2 ^ 1)) 1) with false.
  change (Z.testbit (2 ^ 5) 8) with false. change (Z.testbit (2 ^ 5) 5) with true.
  change (Z.testbit (2 ^ 5) 1) with false. by rewrite !andb_false_r, !orb_true_r.
Qed.

Lemma user_trap_return_ok s t tf pt : on_cpu s t tf pt ->
  leaves user_trap_return (fun entry v s' =>
    entry = TRAMPOLINE +w (user_return -w trampoline) /\ v = MAKE_SATP pt /\
    csr_val s' stvec = TRAMPOLINE +w (user_vector -w trampoline) /\
    csr_val s' sepc = rd64 (mem s) (tf + tf_epc) /\ user_mode s' /\
    rd64 (mem s') (tf + tf_kernel_satp) = w64 (csr_val s satp) /\
    rd64 (mem s') (tf + tf_kernel_sp) = rd64 (mem s) (t + t_kernel_stack) +w PGSIZE /\
    rd64 (mem s') (tf + tf_kernel_trap) = w64 user_trap_addr /\
    glob s' = glob s /\ log s' = log s /\ modifies (kernel_word tf) (mem s) (mem s')) s.
Proof.
  intros Hon. pose proof Hon as [_ _ _ Hok Hf Hfok Hs _ Hp].
  unfold user_trap_return, read_satp, interrupt_off, read_sstatus, write_sstatus, write_stvec, write_sepc.
  apply leaves_bind. eapply wp_ok; [by apply (current_task_ok s t tf pt)|].
  assert (Hfield : forall m o, modifies (kernel_word tf) (mem s) m -> 0 <= o -> o + 8 <= sizeof_task_struct ->
    rd64 m (t + o) = rd64 (mem s) (t + o)).
  { intros m o Hm Ho Hsz. apply (modifies_rd _ 8 _ _ _ Hm). intros b Hb.
    unfold kernel_word, sep, sizeof_trap_frame in *. task_unfold. lia. }
  unfold trap_frame_of in Hf.
  apply leaves_bind. wp_step. wp_step. wp_step. apply leaves_bind. wp_step.
  apply leaves_bind. wp_task. simpl mem. rewrite Hf.
  apply leaves_bind. wp_step. apply leaves_bind. wp_task. simpl mem. set (m1 := wr64 (mem s) _ _).
  assert (H1 : modifies (kernel_word tf) (mem s) m1).
  { apply modifies_wr. unfold kernel_word. task_unfold. intros b Hb. lia. }
  apply leaves_bind. wp_task. simpl mem. rewrite Hfield by done.
  apply leaves_bind. wp_task. simpl mem. rewrite Hfield by done. rewrite Hf.
  apply leaves_bind. wp_task. simpl mem. set (m2 := wr64 m1 _ _).
  assert (H2 : modifies (kernel_word tf) (mem s) m2).
  { eapply modifies_trans; [exact H1|]. apply modifies_wr. unfold kernel_word. task_unfold. intros b Hb. lia. }
  apply leaves_bind. wp_task. simpl mem. rewrite Hfield by done. rewrite Hf.
  apply leaves_bind. wp_task. simpl mem. set (m3 := wr64 m2 _ _).
  assert (H3 : modifies (kernel_word tf) (mem s) m3).
  { eapply modifies_trans; [exact H2|]. apply modifies_wr. unfold kernel_word. task_unfold. intros b Hb. lia. }
  apply leaves_bind. wp_step. apply leaves_bind. wp_step.
  apply leaves_bind. wp_task. simpl mem. rewrite Hfield by done. rewrite Hf.
  apply leaves_bind. wp_task. simpl mem. apply leaves_bind. wp_step.
  apply leaves_bind. wp_task. simpl mem. rewrite Hfield by done. rewrite Hp.
  unfold leaves, jump_user_return. split; [done|]. split; [done|]. simpl mem. simpl glob.
  split; [by csr_simp|]. split.
  { csr_simp. apply (modifies_rd _ 8 _ _ _ H3). intros b Hb. unfold kernel_word. task_unfold. lia. }
  split.
  { unfold user_mode, sie_on. csr_simp.
    pose proof (user_mode_bits (csr_val s sstatus)) as (Hb1 & Hb2 & Hb3). split; [exact Hb1|].
    split; [exact Hb2|]. unfold truth. by rewrite Hb3. }
  unfold m3, m2, m1. task_unfold. split.
  { rewrite !rd64_wr64_out by lia. csr_simp. apply (rd_wr 8). }
  split; [rewrite rd64_wr64_out by lia; apply rd64_wr64_same, w64_range|].
  split; [apply (rd_wr 8)|]. done.
Qed.

(** ** From the trap to its handler *)

(** [user_trap] has saved the program counter [pc] in the trap frame [tf]. *)
Definition entered (tf pc : Z) (s : state) : state :=
  set_mem (wr64 (mem s) (tf + tf_epc) pc) (set_csr stvec kernel_vector s).

Lemma entered_modifies tf pc s :
  modifies (fun a => tf + tf_epc <= a < tf + tf_epc + 8) (mem s) (mem (entered tf pc s)).
Proof. apply modifies_wr. simpl. intros b Hb. lia. Qed.

Lemma entered_on_cpu tf pc s t pt : on_cpu s t tf pt -> on_cpu (entered tf pc s) t tf pt.
Proof.
  intros Hon. apply (on_cpu_frame s); [done|done|]. eapply modifies_weaken; [|apply entered_modifies].
  intros a Ha. simpl in Ha. task_unfold. lia.
Qed.

Lemma entered_epc tf pc s : rd64 (mem (entered tf pc s)) (tf + tf_epc) = w64 pc.
Proof. apply (rd_wr 8). Qed.

Lemma user_trap_enters s s1 c t tf pt : on_cpu s1 t tf pt ->
  Z.land (csr_val s sstatus) SSTATUS_SPP = 0 -> supervisor_trap_cause s = Ok c s1 ->
  user_trap s = (user_trap_switch c t;; user_trap_return) (entered tf (csr_val s sepc) s1).
Proof.
  intros Hon Hspp Hc. unfold user_trap, read_sepc, read_sstatus, write_stvec.
  rewrite (bind_ok _ _ s _ s (eq_refl : read_csr sepc s = Ok (csr_val s sepc) s)).
  rewrite (bind_ok _ _ s _ s (eq_refl : read_csr sstatus s = Ok (csr_val s sstatus) s)).
  rewrite (bind_ok _ _ _ _ _ Hc), Hspp. simpl (negb _). cbv iota.
  rewrite (bind_ok (mret tt : M unit) _ s1 tt s1 eq_refl), (bind_ok (write_csr stvec kernel_vector) _ s1 tt _ eq_refl).
  set (s2 := set_csr stvec kernel_vector s1).
  assert (Hon2 : on_cpu s2 t tf pt) by (apply (on_cpu_frame s1); done).
  rewrite (bind_ok _ _ _ _ _ (current_task_ok s2 t tf pt Hon2)).
  assert (Hl : load64 (t + t_trap_frame) s2 = Ok tf s2).
  { pose proof (oc_task _ _ _ _ Hon). rewrite <-(oc_frame _ _ _ _ Hon2). unfold load.
    by rewrite in_ram_true by (task_unfold; simpl; lia). }
  rewrite (bind_ok _ _ _ _ _ Hl).
  assert (Hst : store64 (tf + tf_epc) (csr_val s sepc) s2 = Ok tt (entered tf (csr_val s sepc) s1)).
  { pose proof (oc_frame_ok _ _ _ _ Hon). unfold store.
    by rewrite in_ram_true by (task_unfold; simpl; lia). }
  by rewrite (bind_ok _ _ _ _ _ Hst).
Qed.

(** ** Causes *)

(** The supervisor software interrupt that the timer handler of machine mode
    raises. *)
Definition timer_scause : Z := 0x8000000000000001.

(** Any cause but an external interrupt. *)
Lemma not_external s x : csr_val s scause = x ->
  truth (Z.land x 0x8000000000000000) && (Z.land x 0xff =? 9) = false ->
  supervisor_trap_cause s = exception_cause x s.
Proof.
  intros H E. unfold supervisor_trap_cause, read_scause.
  rewrite (bind_ok (read_csr scause) _ s (csr_val s scause) s eq_refl), H. cbv beta. by rewrite E.
Qed.

Lemma timer_cause s : csr_val s scause = timer_scause ->
  supervisor_trap_cause s = Ok TIMER (set_csr sip (Z.land (csr_val s sip) (not64 2)) s).
Proof. intros H. by rewrite (not_external s _ H eq_refl). Qed.

Lemma exception_causes s c : (c = SYSCALL /\ csr_val s scause = 8) \/
  (c = LOAD_PAGE_FAULT /\ csr_val s scause = 13) \/ (c = STORE_PAGE_FAULT /\ csr_val s scause = 15) ->
  supervisor_trap_cause s = Ok c s.
Proof. intros [[-> H]|[[-> H]|[-> H]]]; by rewrite (not_external s _ H eq_refl). Qed.

End Traps.
