(* ===== verification/TrapTheorems.v ===== *)
(** * Theorems on traps

    Preemption by the timer, system calls and page faults, from the trap to the
    return to user mode. *)

From S2P Require Import Prelude Machine Board Utility Uart ConsoleTheorems Chain BuddySpec PageAlloc Buddy BuddyInstance BuddyTheorems Kmalloc LinkedList LinkedListProof LinkedListTheorems PageTable PageTableProof PageTableTheorems Task Process TaskTable UserStack Scheduler TaskBoard ProcessTheorems Trap TrapProof.

Section Preemption.
Context `{Hw : Platform} {HwOk : PlatformOk Hw} {Ops : PageOps} {HA : PageAllocator Ops}.

Definition frame_byte (tf a : Z) : Prop := tf <= a < tf + sizeof_trap_frame.

(** The user registers: the rest of the trap frame. *)
Definition register_byte (tf a : Z) : Prop := tf + tf_epc + 8 <= a < tf + sizeof_trap_frame.

(** C19: preemption is transparent to the user program.  A timer interrupt from
    user mode switches to the next task of the queue; whenever the preempted
    task is running again, with its trap frame as it was left, it goes back to
    user mode at the interrupted instruction, with its page table and with the
    saved registers untouched. *)
Theorem preemption_resumes F U R x t y u r tf pt s :
  on_cpu s t tf pt -> Z.land (csr_val s sstatus) SSTATUS_SPP = 0 -> csr_val s scause = timer_scause ->
  sched_rep s R x t ((y, u) :: r) -> stacks_rep s F U ->
  (forall a, sched_mem R x t ((y, u) :: r) a -> U a) ->
  (forall a, frame_byte tf a -> U a /\ ~ sched_mem R x t ((y, u) :: r) a) ->
  switches user_trap (fun old new s' k =>
    old = t + t_context /\ new = u + t_context /\ sched_rep s' R y u (r ++ [(x, t)]) /\
    forall s'', on_cpu s'' t tf pt -> (forall a, frame_byte tf a -> rd8 (mem s'') a = rd8 (mem s') a) ->
      leaves k (fun entry v s3 => entry = TRAMPOLINE +w (user_return -w trampoline) /\
        v = MAKE_SATP pt /\ csr_val s3 sepc = w64 (csr_val s sepc) /\ user_mode s3 /\
        forall a, register_byte tf a -> rd8 (mem s3) a = rd8 (mem s) a) s'') s.
Proof.
  intros Hon Hspp Hcause Hrep Hst HU Hfr. set (s1 := set_csr sip (Z.land (csr_val s sip) (not64 2)) s).
  assert (Hon1 : on_cpu s1 t tf pt) by (by apply (on_cpu_frame s)).
  eapply switches_eq; [exact (user_trap_enters s s1 TIMER t tf pt Hon1 Hspp (timer_cause s Hcause))|].
  simpl user_trap_switch. set (s2 := entered tf (csr_val s sepc) s1).
  assert (Hin : forall a, ~ frame_byte tf a -> rd8 (mem s2) a = rd8 (mem s) a).
  { intros a Ha. apply (entered_modifies tf (csr_val s sepc) s1). unfold frame_byte in Ha. task_unfold. lia. }
  assert (Hrep2 : sched_rep s2 R x t ((y, u) :: r)).
  { apply (sched_frame s); [done| |done|done]. intros a Ha. apply Hin. intros Hb. by apply (Hfr a Hb). }
  assert (Hst2 : stacks_rep s2 F U).
  { destruct Hst as [Hp Ha Ho Hn]. split; [|done..]. apply (pool_owns_frame _ _ _ Hp). intros a Hpa.
    apply Hin. intros Hb. destruct (Ha a (proj1 (Hfr a Hb))). tauto. }
  apply switches_bind_l.
  eapply switches_mono; [by apply (yield_ok F U R x t y u r s2)|].
  intros old new s' k (-> & -> & Hk & Hrep' & _ & Hb' & _). do 3 (split; [done|]).
  intros s'' Hon' Hfb.
  apply (leaves_eq _ user_trap_return _ s'' s''); [cbv beta; by rewrite Hk|].
  assert (Hfb2 : forall a, frame_byte tf a -> rd8 (mem s'') a = rd8 (mem s2) a).
  { intros a Ha. destruct (Hfr a Ha). by rewrite Hfb, Hb'. }
  eapply leaves_mono; [by apply (user_trap_return_ok s'' t tf pt)|].
  intros entry v s3 (-> & -> & _ & Hpc & Hum & _ & _ & _ & _ & _ & Hm3).
  split; [done|]. split; [done|]. split; [|split; [done|]].
  - rewrite Hpc, <-(entered_epc tf (csr_val s sepc) s1). apply (rd_ext 8). intros b Hb. apply Hfb2.
    unfold frame_byte. task_unfold. simpl in Hb. lia.
  - intros a Ha. unfold register_byte, frame_byte, kernel_word in *. rewrite Hm3 by (task_unfold; lia).
    rewrite Hfb2 by (task_unfold; lia). apply (entered_modifies tf (csr_val s sepc) s1). task_unfold. lia.
Qed.

(** A timer interrupt inside the kernel is transparent too: [kernel_trap]
    switches to the next task, and whenever the interrupted thread is resumed it
    returns with the interrupted program counter and status, and changes nothing
    else. *)
Lemma kernel_preemption_restores F U R x t y u r s :
  Z.land (csr_val s sstatus) SSTATUS_SPP <> 0 -> sie_on s = false ->
  csr_val s scause = timer_scause ->
  sched_rep s R x t ((y, u) :: r) -> stacks_rep s F U ->
  (forall a, sched_mem R x t ((y, u) :: r) a -> U a) ->
  switches kernel_trap (fun old new s' k =>
    old = t + t_context /\ new = u + t_context /\ sched_rep s' R y u (r ++ [(x, t)]) /\
    forall s'', exists s3, k s'' = Ok tt s3 /\ csr_val s3 sepc = csr_val s sepc /\
      csr_val s3 sstatus = csr_val s sstatus /\ mem s3 = mem s'' /\ glob s3 = glob s'') s.
Proof.
  intros Hspp Hsie Hcause Hrep Hst HU. unfold kernel_trap, read_sepc, read_sstatus.
  apply switches_bind. wp_step. apply switches_bind. wp_step. apply switches_bind.
  eapply wp_ok; [by apply timer_cause|]. set (s1 := set_csr sip _ s).
  rewrite (proj2 (Z.eqb_neq _ _) Hspp). apply switches_bind. wp_step.
  unfold interrupt_status, read_sstatus. apply switches_bind. wp_step. wp_step. wp_step.
  assert (Hs1 : csr_val s1 sstatus = csr_val s sstatus) by (unfold s1; by csr_simp).
  rewrite Hs1. unfold sie_on in Hsie. rewrite Hsie. simpl (negb _). apply switches_bind. cbv iota. wp_step.
  apply switches_bind_l. eapply switches_mono; [apply (yield_ok F U R x t y u r s1); [|by destruct Hst|done]|].
  { by apply (sched_frame s). }
  intros old new s' k (-> & -> & Hk & Hrep' & _). do 3 (split; [done|]).
  intros s''. rewrite Hk. eexists. split; [reflexivity|]. split; [by csr_simp|]. by csr_simp.
Qed.

End Preemption.

Section Syscalls.
Context `{Hw : Platform} {Ops : PageOps}.

(** The trap frame word [o], and the bytes that the return from a system call
    writes. *)
Definition frame_word (s : state) (tf o : Z) : Z := rd64 (mem s) (tf + o).
Definition result_byte (tf a : Z) : Prop :=
  tf <= a < tf + tf_epc + 8 \/ tf + tf_a0 <= a < tf + tf_a0 + 8.

Lemma entered_word tf pc s o : tf_epc + 8 <= o -> frame_word (entered tf pc s) tf o = frame_word s tf o.
Proof. intros H. apply (modifies_rd _ 8 _ _ _ (entered_modifies tf pc s)). intros b Hb. task_unfold. lia. Qed.

(** What [syscall] does around the handler. *)
Lemma syscall_found h t tf pt s (Q : unit -> state -> Prop) :
  on_cpu s t tf pt -> syscalls (s32 (frame_word s tf tf_a7)) = Some h ->
  wp (h t) (fun r s1 => on_cpu s1 t tf pt /\
    Q tt (set_mem (wr64 (wr64 (mem s1) (tf + tf_a0) r) (tf + tf_epc) (frame_word s1 tf tf_epc +w 4)) s1)) s ->
  wp syscall Q s.
Proof.
  intros Hon Hh Hwp. pose proof Hon as [_ _ _ Hok Hf Hfok _ _ _]. unfold syscall. unfold trap_frame_of in Hf.
  wp_step. eapply wp_ok; [by apply (current_task_ok s t tf pt)|].
  rewrite (proj2 (Z.eqb_neq _ _) (task_nonnull t Hok)). do 4 wp_task. rewrite Hf. wp_task. wp_task.
  unfold frame_word in Hh. rewrite Hh. wp_step. eapply wp_mono; [exact Hwp|].
  intros r s1 [[_ _ _ _ Hf1 _ Hs _ _] HQ]. unfold trap_frame_of, sep, sizeof_trap_frame, sizeof_task_struct in *.
  wp_task. wp_task. rewrite Hf1. wp_task. wp_task. simpl mem. wp_task. wp_task. simpl mem.
  replace (rd64 _ (t + t_trap_frame)) with tf.
  2:{ rewrite <-Hf1 at 1. symmetry. apply rd64_wr64_out. task_unfold. lia. }
  wp_task. wp_task. wp_task. simpl mem.
  replace (rd64 _ (tf + tf_epc)) with (frame_word s1 tf tf_epc).
  2:{ symmetry. apply rd64_wr64_out. task_unfold. lia. }
  exact HQ.
Qed.

(** C21: a system call returns to the program behind its [ecall], with the result
    of the handler in a0, in user mode and with the page table of the task; apart
    from that, the return changes only the words of the trap frame that are the
    kernel's own. *)
Theorem syscall_returns (P : Z -> state -> Prop) h t tf pt s :
  on_cpu s t tf pt -> Z.land (csr_val s sstatus) SSTATUS_SPP = 0 -> csr_val s scause = 8 ->
  syscalls (s32 (frame_word s tf tf_a7)) = Some h ->
  wp (h t) (fun r s1 => on_cpu s1 t tf pt /\ frame_word s1 tf tf_epc = w64 (csr_val s sepc) /\ P r s1)
    (entered tf (csr_val s sepc) s) ->
  leaves user_trap (fun entry v s3 => exists r s1, P r s1 /\
    entry = TRAMPOLINE +w (user_return -w trampoline) /\ v = MAKE_SATP pt /\
    csr_val s3 sepc = csr_val s sepc +w 4 /\ frame_word s3 tf tf_a0 = w64 r /\ user_mode s3 /\
    modifies (result_byte tf) (mem s1) (mem s3)) s.
Proof.
  intros Hon Hspp Hcause Hh Hwp.
  assert (Hc : supervisor_trap_cause s = Ok SYSCALL s) by (apply exception_causes; auto).
  eapply leaves_eq; [exact (user_trap_enters s s SYSCALL t tf pt Hon Hspp Hc)|].
  simpl user_trap_switch. set (s2 := entered tf (csr_val s sepc) s) in *.
  apply leaves_bind. apply (syscall_found h t tf pt).
  { by apply entered_on_cpu. }
  { unfold s2. by rewrite entered_word by done. }
  eapply wp_mono; [exact Hwp|]. intros r s1 (Hon1 & Hepc & HP). split; [done|]. rewrite Hepc.
  set (m := wr64 _ (tf + tf_epc) _).
  assert (Hm : modifies (result_byte tf) (mem s1) m).
  { eapply modifies_trans; apply modifies_wr; unfold result_byte; task_unfold; simpl; intros b Hb; lia. }
  assert (Hon3 : on_cpu (set_mem m s1) t tf pt).
  { apply (on_cpu_frame s1); [done|done|]. eapply modifies_weaken; [|exact Hm].
    unfold result_byte. task_unfold. intros a Ha. lia. }
  eapply leaves_mono; [exact (user_trap_return_ok _ t tf pt Hon3)|].
  intros entry v s3 (-> & -> & _ & Hpc & Hum & _ & _ & _ & _ & _ & Hm3). simpl mem in *.
  exists r, s1. split; [done|]. split; [done|]. split; [done|]. split; [|split; [|split; [done|]]].
  - rewrite Hpc. unfold m. rewrite rd64_wr64_same by apply w64_range.
    unfold w64. by rewrite Zplus_mod_idemp_l.
  - unfold frame_word. rewrite (modifies_rd _ 8 _ _ _ Hm3); [|unfold kernel_word; task_unfold; intros b Hb; lia].
    unfold m. rewrite rd64_wr64_out by (task_unfold; lia). apply (rd_wr 8).
  - eapply modifies_trans; [exact Hm|]. eapply modifies_weaken; [|exact Hm3].
    unfold kernel_word, result_byte. task_unfold. lia.
Qed.

Lemma print_decimal_ok x s (Q : unit -> state -> Prop) :
  uart_responsive -> glob s panicked = 0 -> 0 <= x < 2 ^ 64 ->
  (forall s', same_but_io s s' -> transmitted s' = transmitted s ++ (digit_char <$> digits_rec 64 10 x) ->
    Q tt s') -> wp (print_int x 10) Q s.
Proof.
  intros Hresp Hp Hx HQ. unfold print_int, acquire, release. wp_step. wp_step. wp_step.
  change (10 =? 10) with true. cbv iota. apply (print_int_dec_ok 64); [done|done|lia|done|].
  intros s' Hio Htr. wp_step. by apply HQ.
Qed.

(** The message of the code for a system call that does not exist. *)
Definition unknown_message (id : Z) : list Z :=
  codes "syscall: unknown syscall id: " ++ (digit_char <$> digits_rec 64 10 (w64 id)) ++ codes ("." +:+ newline).

Lemma syscall_unknown t tf pt s (Q : unit -> state -> Prop) :
  on_cpu s t tf pt -> syscalls (s32 (frame_word s tf tf_a7)) = None ->
  uart_responsive -> glob s panicked = 0 ->
  (forall s1, same_but_io s s1 ->
    transmitted s1 = transmitted s ++ unknown_message (s32 (frame_word s tf tf_a7)) ->
    Q tt (set_mem (wr64 (mem s) (tf + tf_a0) (w64 (-1))) s1)) ->
  wp syscall Q s.
Proof.
  intros Hon Hh Hresp Hp HQ. pose proof Hon as [_ _ _ Hok Hf Hfok _ _ _]. unfold trap_frame_of in Hf.
  unfold syscall. wp_step. eapply wp_ok; [by apply (current_task_ok s t tf pt)|].
  rewrite (proj2 (Z.eqb_neq _ _) (task_nonnull t Hok)). do 4 wp_task. rewrite Hf. wp_task. wp_task.
  unfold frame_word in *. rewrite Hh. wp_step.
  apply print_literal_ok; [done|done|by repeat constructor|done|]. intros s1 Hio1 Htr1.
  pose proof Hio1 as (Hm1 & _ & Hg1). wp_step.
  apply print_decimal_ok; [done|by rewrite Hg1|apply w64_range|]. intros s2 Hio2 Htr2.
  pose proof Hio2 as (Hm2 & _ & Hg2). wp_step.
  apply print_literal_ok; [done|by rewrite Hg2, Hg1|by repeat constructor|done|]. intros s3 Hio3 Htr3.
  pose proof Hio3 as (Hm3 & _ & _).
  assert (Hm : mem s3 = mem s) by congruence.
  wp_task. wp_task. rewrite Hm, Hf. wp_task. rewrite Hm. apply HQ.
  - by transitivity s1; [|transitivity s2].
  - rewrite Htr3, Htr2, Htr1. unfold unknown_message. by rewrite <-!app_assoc.
Qed.

(** C36: an unknown system call never gets past its [ecall]: the kernel reports it
    and puts -1 in a0, but leaves the program counter alone, so that the task
    resumes at the same [ecall]. *)
Theorem unknown_syscall_repeats t tf pt s :
  on_cpu s t tf pt -> Z.land (csr_val s sstatus) SSTATUS_SPP = 0 -> csr_val s scause = 8 ->
  syscalls (s32 (frame_word s tf tf_a7)) = None -> uart_responsive -> glob s panicked = 0 ->
  leaves user_trap (fun entry v s3 =>
    entry = TRAMPOLINE +w (user_return -w trampoline) /\ v = MAKE_SATP pt /\
    csr_val s3 sepc = w64 (csr_val s sepc) /\ frame_word s3 tf tf_a0 = w64 (-1) /\ user_mode s3 /\
    transmitted s3 = transmitted s ++ unknown_message (s32 (frame_word s tf tf_a7)) /\
    modifies (result_byte tf) (mem s) (mem s3)) s.
Proof.
  intros Hon Hspp Hcause Hh Hresp Hp.
  assert (Hc : supervisor_trap_cause s = Ok SYSCALL s) by (apply exception_causes; auto).
  eapply leaves_eq; [exact (user_trap_enters s s SYSCALL t tf pt Hon Hspp Hc)|].
  simpl user_trap_switch. set (s2 := entered tf (csr_val s sepc) s).
  pose proof (entered_on_cpu tf (csr_val s sepc) s t pt Hon) as Hon2. fold s2 in Hon2.
  assert (Ha7 : frame_word s2 tf tf_a7 = frame_word s tf tf_a7) by (by apply entered_word).
  apply leaves_bind. apply (syscall_unknown t tf pt); [done|by rewrite Ha7|done|done|].
  intros s1 (Hm1 & Hc1 & Hg1) Htr1. rewrite Ha7 in Htr1. set (m := wr64 _ (tf + tf_a0) _).
  assert (Hm : modifies (result_byte tf) (mem s) m).
  { eapply modifies_trans; [eapply modifies_weaken; [|apply (entered_modifies tf (csr_val s sepc) s)]|
      apply modifies_wr]; unfold result_byte; task_unfold; simpl; intros b Hb; lia. }
  assert (Hon3 : on_cpu (set_mem m s1) t tf pt).
  { apply (on_cpu_frame s); [done|by rewrite glob_set_mem, Hg1|]. eapply modifies_weaken; [|exact Hm].
    unfold result_byte. task_unfold. intros a Ha. lia. }
  eapply leaves_mono; [exact (user_trap_return_ok _ t tf pt Hon3)|].
  intros entry v s3 (-> & -> & _ & Hpc & Hum & _ & _ & _ & _ & Hlog & Hm3). simpl mem in *.
  split; [done|]. split; [done|]. split; [|split; [|split; [done|split]]].
  - rewrite Hpc. unfold m. rewrite rd64_wr64_out by (task_unfold; lia). apply entered_epc.
  - unfold frame_word. rewrite (modifies_rd _ 8 _ _ _ Hm3); [|unfold kernel_word; task_unfold; intros b Hb; lia].
    apply rd64_wr64_same, w64_range.
  - unfold transmitted. rewrite Hlog. exact Htr1.
  - eapply modifies_trans; [exact Hm|]. eapply modifies_weaken; [|exact Hm3].
    unfold kernel_word, result_byte. task_unfold. lia.
Qed.

End Syscalls.

Section PageFaults.
Context `{Hw : Platform} {HwOk : PlatformOk Hw} {Ops : PageOps} {HA : PageAllocator Ops}.

(** The stack of [t] reaches down to [addr]: it has the [n] pages it had, or as
    many as the address needs. *)
Definition reaches (F : Z -> Prop) (t root : Z) (E : Z -> Z) (T : tables) (n permission addr : Z)
    (s s' : state) : Prop :=
  exists F' T' ps, stack_grows F t T s s' F' T' /\
    n + Z.of_nat (length ps) = Z.max n (pages_for addr) /\
    stack_rep s' F' t root (map_frames E n ps permission) T' (Z.max n (pages_for addr)) permission.

(** The memory ran out before that, and [try_enlarge_stack] says so. *)
Definition cut_short (F : Z -> Prop) (t root : Z) (E : Z -> Z) (T : tables) (n permission addr : Z)
    (s : state) : Prop :=
  exists s' F' T' ps, try_enlarge_stack t addr s = Ok (-1) s' /\
    stack_grows F t T s s' F' T' /\ stack_grown F t root E n permission ps s' F' T' /\
    n + Z.of_nat (length ps) < pages_for addr /\ out_of_memory F'.

Lemma try_enlarge_cases F t root E T n permission addr s :
  stack_rep s F t root E T n permission -> within_stack_range addr = true ->
  (exists s', try_enlarge_stack t addr s = Ok 0 s' /\ reaches F t root E T n permission addr s s') \/
  cut_short F t root E T n permission addr s.
Proof.
  intros Hst Ha. destruct (wp_ok_inv _ _ _ (try_enlarge_ok F t root E T n permission addr s Hst))
    as (r & s' & Hr & HQ). rewrite Ha in HQ.
  destruct HQ as (F' & T' & ps & Hgr & Hps & [[-> Hn]|(-> & Hn & Hout)]); [left|right].
  - exists s'. split; [done|]. exists F', T', ps. split; [done|]. split; [done|]. destruct Hps as (_ & _ & H). by rewrite <-Hn.
  - by exists s', F', T', ps.
Qed.

(** A stack that reaches the address is not changed any more. *)
Lemma try_enlarge_again F t root E T n permission addr s :
  stack_rep s F t root E T n permission -> within_stack_range addr = true -> pages_for addr <= n ->
  exists s' F' T', try_enlarge_stack t addr s = Ok 0 s' /\ stack_grows F t T s s' F' T' /\
    stack_rep s' F' t root E T' n permission.
Proof.
  intros Hst Ha Hn. destruct (wp_ok_inv _ _ _ (try_enlarge_ok F t root E T n permission addr s Hst))
    as (r & s' & Hr & HQ). rewrite Ha in HQ.
  destruct HQ as (F' & T' & ps & Hgr & (_ & _ & Hrep) & [[-> Hlen]|(_ & Hlen & _)]); [|lia].
  destruct ps as [|p ps]; [|simpl in Hlen; lia].
  exists s', F', T'. split; [done|]. split; [done|]. simpl in Hrep. by rewrite Z.add_0_r in Hrep.
Qed.

Lemma fault_handlers t addr s s' : csr_val s stval = addr -> try_enlarge_stack t addr s = Ok 0 s' ->
  handle_load_page_fault t s = Ok tt s' /\ handle_store_page_fault t s = Ok tt s'.
Proof.
  intros Ha Hr. unfold handle_load_page_fault, handle_store_page_fault, read_stval.
  rewrite !(bind_ok (read_csr stval) _ s (csr_val s stval) s eq_refl), Ha.
  by rewrite !(bind_ok _ _ _ _ _ Hr).
Qed.

(** Load and store page faults: the first handler may be followed by the second. *)
Lemma switch_reaches c F t root E T n permission addr s :
  c = LOAD_PAGE_FAULT \/ c = STORE_PAGE_FAULT -> csr_val s stval = addr ->
  stack_rep s F t root E T n permission -> within_stack_range addr = true ->
  (exists s', user_trap_switch c t s = Ok tt s' /\ reaches F t root E T n permission addr s s') \/
  cut_short F t root E T n permission addr s.
Proof.
  intros Hc Ha Hst Hin.
  destruct (try_enlarge_cases F t root E T n permission addr s Hst Hin) as [(s1 & Hr1 & Hre)|?]; [left|by right].
  destruct (fault_handlers t addr s s1 Ha Hr1) as [Hl1 Hs1].
  destruct Hc as [-> | ->]; [|by exists s1]. destruct Hre as (F1 & T1 & ps & Hgr1 & Hlen & Hst1).
  destruct (try_enlarge_again F1 t root _ T1 _ permission addr s1 Hst1 Hin (Z.le_max_r _ _))
    as (s2 & F2 & T2 & Hr2 & Hgr2 & Hst2).
  assert (Ha1 : csr_val s1 stval = addr).
  { destruct Hgr1 as ((_ & _ & _ & Hcsr) & _). by rewrite Hcsr. }
  destruct (fault_handlers t addr s1 s2 Ha1 Hr2) as [_ Hs2].
  exists s2. split; [cbn [user_trap_switch]; by rewrite (bind_ok _ _ _ _ _ Hl1)|].
  exists F2, T2, ps. split; [by eapply stack_grows_trans|]. by split.
Qed.

(** The stack and the page table depend only on their bytes. *)
Lemma stack_rep_frame F t root E T n permission s s' :
  stack_rep s F t root E T n permission ->
  (forall a, t <= a < t + sizeof_task_struct \/ vm_bytes F T a -> rd8 (mem s') a = rd8 (mem s) a) ->
  stack_rep s' F t root E T n permission.
Proof.
  intros [Hok Hpt Hpe Hs Hz Hn Hp Hat Hap Hma Hfr] Hm. pose proof Hat as (_ & Hpool & _).
  assert (Hw8 : forall o, 0 <= o -> o + 8 <= sizeof_task_struct ->
    rd64 (mem s') (t + o) = rd64 (mem s) (t + o)).
  { intros o Ho Hsz. apply (rd_ext 8). intros b Hb. apply Hm. left. simpl in Hb. lia. }
  split; try done; rewrite <-?Z.add_assoc in *; rewrite ?Hw8 by done; try done.
  apply (vm_at_frame s _ F); [done| | |].
  - intros a Ha. apply Hm. by right; right; right.
  - intros a Ha. by apply (vm_table_apart _ _ _ _ _ _ Hat Ha).
  - apply (pool_owns_frame _ _ _ Hpool). intros a [?|?]; apply Hm; right; [by left|by right; left].
Qed.

Lemma map_frames_other E n ps permission page :
  (forall k, n <= k < n + Z.of_nat (length ps) -> page <> stack_vpn k) ->
  map_frames E n ps permission page = E page.
Proof.
  revert E n. induction ps as [|p ps IH]; intros E n H; simpl in *; [done|].
  rewrite IH by (intros k Hk; apply H; lia). rewrite fn_lookup_insert_ne; [done|].
  intros E'. by apply (H n); [lia|].
Qed.

(** The task stays the running one while its stack grows. *)
Lemma on_cpu_grows F t root tf E T n permission s s' F' T' :
  on_cpu s t tf root -> stack_grows F t T s s' F' T' -> stack_rep s F t root E T n permission ->
  (forall a, frame_byte tf a \/ glob s running_task <= a < glob s running_task + 16 -> ~ vm_bytes F T a) ->
  sep (glob s running_task) 16 t sizeof_task_struct ->
  on_cpu s' t tf root /\ forall a, frame_byte tf a -> rd8 (mem s') a = rd8 (mem s) a.
Proof.
  intros [HR Hx Hc Hok Hf Hfok Hs Hn Hp] ((Hg & _) & _ & _ & Hm) Hst Hap Hsep.
  unfold stack_field_byte, sizeof_memory_section, frame_byte, sep, sizeof_trap_frame, sizeof_task_struct in *.
  assert (Hfield : forall o, 0 <= o -> o + 8 <= t_stack \/ t_stack + 16 <= o -> o + 8 <= 264 ->
    rd64 (mem s') (t + o) = rd64 (mem s) (t + o)).
  { intros o Ho Hor Hsz. apply (rd_ext 8). intros b Hb. simpl in Hb. apply Hm. intros [Hv|Hv].
    - apply (sk_apart _ _ _ _ _ _ _ _ Hst b); [unfold sizeof_task_struct; lia|done].
    - unfold t_stack in *. lia. }
  split.
  - split; rewrite ?Hg; try done.
    + rewrite <-Hc. apply (rd_ext 8). intros b Hb. simpl in Hb. apply Hm. intros [Hv|Hv].
      * by apply (Hap b); [right; lia|].
      * unfold t_stack in *. lia.
    + unfold trap_frame_of. by rewrite Hfield by (unfold t_trap_frame, t_stack; lia).
    + by rewrite Hfield by (unfold t_pagetable, t_stack; lia).
  - intros a Ha. apply Hm. intros [Hv|Hv]; [by apply (Hap a); [left|]|unfold t_stack in *; lia].
Qed.

(** What the growth of the stack means for the page table. *)
Lemma reaches_vm F t root E T n permission addr s s' :
  stack_rep s F t root E T n permission -> within_stack_range addr = true ->
  reaches F t root E T n permission addr s s' ->
  exists F' E' T', vm_at s' F' root E' T' /\ valid (E' (addr / PGSIZE)) = true /\
    (forall a, vm_bytes F' T' a -> vm_bytes F T a) /\
    forall page, valid (E page) = true -> E' page = E page.
Proof.
  intros Hst Ha (F' & T' & ps & (_ & _ & Hb & _) & Hlen & Hst').
  exists F', (map_frames E n ps permission), T'. split; [by destruct Hst'|].
  pose proof (sk_pages _ _ _ _ _ _ _ _ Hst') as Hmax. pose proof (sk_pages _ _ _ _ _ _ _ _ Hst) as Hn.
  destruct (pages_for_spec n addr Ha Hn) as (Hp & _). split; [|split; [done|]].
  - rewrite <-(sk_mapped _ _ _ _ _ _ _ _ Hst' (pages_for addr - 1)) by lia. f_equal. f_equal.
    unfold stack_vpn, pages_for. lia.
  - intros page Hv. apply map_frames_other. intros k Hk ->.
    by rewrite (sk_free _ _ _ _ _ _ _ _ Hst) in Hv by lia.
Qed.

(** C20: a fault on the user stack is repaired: after a load or store page fault at
    an address of the stack area, the program resumes at the faulting
    instruction with its registers unchanged and with the page of the address
    mapped, every page that was mapped staying as it was; otherwise the memory
    ran out while the stack was growing. *)
Theorem stack_fault_retries F t tf root E T n permission s :
  on_cpu s t tf root -> Z.land (csr_val s sstatus) SSTATUS_SPP = 0 ->
  csr_val s scause = 13 \/ csr_val s scause = 15 ->
  stack_rep s F t root E T n permission ->
  (forall a, frame_byte tf a \/ glob s running_task <= a < glob s running_task + 16 -> ~ vm_bytes F T a) ->
  sep (glob s running_task) 16 t sizeof_task_struct ->
  let addr := csr_val s stval in
  within_stack_range addr = true ->
  leaves user_trap (fun entry v s3 => v = MAKE_SATP root /\ csr_val s3 sepc = w64 (csr_val s sepc) /\
    user_mode s3 /\ (forall a, register_byte tf a -> rd8 (mem s3) a = rd8 (mem s) a) /\
    exists F' E' T', vm_at s3 F' root E' T' /\ valid (E' (addr / PGSIZE)) = true /\
      forall page, valid (E page) = true -> E' page = E page) s \/
  cut_short F t root E T n permission addr (entered tf (csr_val s sepc) s).
Proof.
  intros Hon Hspp Hcause Hst Hap Hsep addr Ha. set (pc := csr_val s sepc). set (s2 := entered tf pc s).
  assert (Hc : exists c, (c = LOAD_PAGE_FAULT \/ c = STORE_PAGE_FAULT) /\ supervisor_trap_cause s = Ok c s).
  { destruct Hcause; [exists LOAD_PAGE_FAULT|exists STORE_PAGE_FAULT]; (split; [tauto|]);
      apply exception_causes; tauto. }
  destruct Hc as (c & Hc & Hcs).
  pose proof (entered_on_cpu tf pc s t root Hon) as Hon2. fold s2 in Hon2.
  assert (Hout : forall a, ~ frame_byte tf a -> rd8 (mem s2) a = rd8 (mem s) a).
  { intros a Hn. apply (entered_modifies tf pc s). unfold frame_byte in Hn. task_unfold. lia. }
  assert (Hst2 : stack_rep s2 F t root E T n permission).
  { apply (stack_rep_frame _ _ _ _ _ _ _ s); [done|]. intros a Hb. apply Hout. intros Hf.
    destruct Hb as [Hb|Hb]; [|by apply (Hap a); [left|]].
    pose proof (oc_apart _ _ _ _ Hon) as Hoa. unfold sep, frame_byte in *. lia. }
  assert (Hval2 : csr_val s2 stval = addr) by (unfold s2, entered; by csr_simp).
  destruct (switch_reaches c F t root E T n permission addr s2 Hc Hval2 Hst2 Ha)
    as [(s1 & Hr1 & Hre)|?]; [left|by right].
  eapply leaves_eq; [exact (user_trap_enters s s c t tf root Hon Hspp Hcs)|]. fold pc s2.
  apply leaves_bind. eapply wp_ok; [exact Hr1|].
  destruct (reaches_vm F t root E T n permission addr s2 s1 Hst2 Ha Hre) as (F' & E' & T' & Hat & Hval & Hvb & Hold).
  destruct Hre as (F1 & T1 & ps & Hgr & _).
  destruct (on_cpu_grows F t root tf E T n permission s2 s1 F1 T1 Hon2 Hgr Hst2 Hap Hsep) as [Hon1 Hfr].
  eapply leaves_mono; [exact (user_trap_return_ok s1 t tf root Hon1)|].
  intros entry v s3 (_ & -> & _ & Hpc & Hum & _ & _ & _ & _ & _ & Hm3).
  split; [done|]. split; [|split; [done|split]].
  - rewrite Hpc, <-(entered_epc tf pc s). apply (rd_ext 8). intros b Hb. apply Hfr.
    unfold frame_byte. task_unfold. simpl in Hb. lia.
  - intros a Hra. unfold register_byte, frame_byte, kernel_word in *. rewrite Hm3 by (task_unfold; lia).
    rewrite Hfr by (task_unfold; lia). apply (entered_modifies tf pc s). task_unfold. lia.
  - exists F', E', T'. split; [|by split].
    assert (Hkeep : forall a, vm_bytes F' T' a -> rd8 (mem s3) a = rd8 (mem s1) a).
    { intros a Hva. apply Hm3. intros Hk. apply (Hap a); [left|by apply Hvb].
      unfold frame_byte, kernel_word in *. task_unfold. lia. }
    pose proof Hat as (_ & Hpool & _). apply (vm_at_frame s1 _ F'); [done| | |].
    + intros a Hta. apply Hkeep. by right; right.
    + intros a Hta. by apply (vm_table_apart _ _ _ _ _ _ Hat Hta).
    + apply (pool_owns_frame _ _ _ Hpool). intros a [?|?]; apply Hkeep; [by left|by right; left].
Qed.

(** C22: [try_enlarge_stack] refuses an address outside the stack area and changes
    nothing; for one inside, it maps, below the stack, as many new pages as the
    address needs, each to a frame of its own that held free memory and is
    zeroed, and updates the recorded start and size; it returns -1 only when the
    memory ran out, and then the pages mapped so far are part of the stack.  No
    other page changes, and no page is mapped that is out of the area. *)
Theorem try_enlarge_grows_stack F t root E T n permission addr s :
  stack_rep s F t root E T n permission ->
  wp (try_enlarge_stack t addr) (fun r s' =>
    if within_stack_range addr then
      exists F' T' ps, stack_grows F t T s s' F' T' /\
        stack_grown F t root E n permission ps s' F' T' /\
        let n' := n + Z.of_nat (length ps) in
        ((r = 0 /\ n' = Z.max n (pages_for addr)) \/
         (r = -1 /\ n' < pages_for addr /\ out_of_memory F'))
    else r = -1 /\ s' = s) s.
Proof. apply try_enlarge_ok. Qed.

End PageFaults.

(** ** Instances *)

Section Witnesses.
#[local] Existing Instances board board_ok.

(** A trap at address 0x1000 of task 1, for a cause and a status. *)
Definition trapped (cause status : Z) (s : state) : state :=
  set_csr sstatus status (set_csr scause cause (set_csr sepc 0x1000 s)).

Lemma two_ready_on_cpu : on_cpu two_ready task1 frame1 0.
Proof. split; try done; try (by vm_compute); try (by left); by right. Qed.

Lemma frame_in_image a : frame_byte frame1 a ->
  image a /\ ~ sched_mem queue_at node1 task1 [(node2, task2)] a.
Proof.
  unfold frame_byte, image, sched_mem, sched_byte, frame1, sizeof_trap_frame, sizeof_list, sizeof_node,
    sizeof_task_struct. intros Ha. split; [lia|]. simpl. unfold queue_at.
  intros [?|[(z & Hz & ?)|(z & Hz & ?)]]; [lia| |]; in_list; unfold node1, node2, task1, task2 in *; lia.
Qed.

Lemma preemption_resumes_witness :
  switches user_trap (fun old new s' _ => old = task1 + t_context /\ new = task2 + t_context /\
    sched_rep s' queue_at node2 task2 [(node1, task1)]) (trapped timer_scause 0 two_ready).
Proof.
  eapply switches_mono; [apply (preemption_resumes no_bytes image queue_at node1 task1 node2 task2 [] frame1 0)|].
  - apply (on_cpu_frame two_ready); [exact two_ready_on_cpu|reflexivity|apply modifies_refl].
  - reflexivity.
  - reflexivity.
  - apply (sched_frame two_ready); [exact ready_sched|intros; reflexivity|reflexivity|reflexivity].
  - destruct (image_stacks two_ready ready_pool eq_refl eq_refl) as [H1 H2 H3 H4]. split; assumption.
  - exact ready_mem.
  - exact frame_in_image.
  - intros old new s' k (Ho & Hn & Hrep & _). split; [exact Ho|]. split; [exact Hn|exact Hrep].
Defined.

Lemma kernel_preemption_restores_witness :
  switches kernel_trap (fun old new s' k => old = task1 + t_context /\ new = task2 + t_context /\
    forall s'', exists s3, k s'' = Ok tt s3 /\ csr_val s3 sepc = 0x1000) (trapped timer_scause SSTATUS_SPP two_ready).
Proof.
  eapply switches_mono; [apply (kernel_preemption_restores no_bytes image queue_at node1 task1 node2 task2 [])|].
  - vm_compute. discriminate.
  - reflexivity.
  - reflexivity.
  - apply (sched_frame two_ready); [exact ready_sched|intros; reflexivity|reflexivity|reflexivity].
  - destruct (image_stacks two_ready ready_pool eq_refl eq_refl) as [H1 H2 H3 H4]. split; assumption.
  - exact ready_mem.
  - intros old new s' k (Ho & Hn & _ & Hk). split; [exact Ho|]. split; [exact Hn|].
    intros s''. destruct (Hk s'') as (s3 & E & Hpc & _). exists s3. split; [exact E|]. rewrite Hpc. reflexivity.
Defined.

(** Task 1 asks for a system call. *)
Definition call_state (id : Z) : state :=
  trapped 8 0 (set_mem (wr64 (mem two_ready) (frame1 + tf_a7) id) two_ready).

Lemma call_on_cpu id : on_cpu (call_state id) task1 frame1 0.
Proof.
  apply (on_cpu_frame two_ready); [exact two_ready_on_cpu|reflexivity|].
  apply modifies_wr. unfold sizeof_trap_frame, tf_a7. simpl. intros b Hb. lia.
Qed.

Lemma call_id id : 0 <= id < 2 ^ 64 -> frame_word (call_state id) frame1 tf_a7 = id.
Proof. intros H. by apply rd64_wr64_same. Qed.

(** Task 1 has the pid 1 and may switch the machine off. *)
Lemma syscall_returns_witness :
  leaves user_trap (fun _ _ s3 => csr_val s3 sepc = 0x1004 /\ frame_word s3 frame1 tf_a0 = 0 /\ user_mode s3)
    (call_state SYSCALL_POWER_OFF).
Proof.
  eapply leaves_mono; [apply (syscall_returns (fun r _ => r = 0) sys_power_off task1 frame1 0)|].
  - apply call_on_cpu.
  - reflexivity.
  - reflexivity.
  - rewrite call_id; [reflexivity|done].
  - unfold sys_power_off. wp_step. apply wp_load; [reflexivity|].
    replace (rd64 _ (task1 + t_pid)) with 1.
    + change (negb (s64 1 =? 1)) with false. cbv iota. apply wp_bind. unfold mmio_write, wp. apply wp_ret.
      split; [|split; [|reflexivity]].
      * apply (on_cpu_frame (entered frame1 0x1000 (call_state SYSCALL_POWER_OFF)));
          [apply entered_on_cpu, call_on_cpu|reflexivity|apply modifies_refl].
      * apply entered_epc.
    + simpl mem. unfold frame1, task1, t_pid, tf_epc, tf_a7. rewrite !rd64_wr64_out by lia.
      vm_compute. reflexivity.
  - intros entry v s3 (r & s1 & Hr & _ & _ & Hpc & Ha0 & Hum & _). rewrite Hr in Ha0.
    split; [rewrite Hpc; reflexivity|]. split; [exact Ha0|exact Hum].
Defined.

Lemma unknown_syscall_repeats_witness :
  leaves user_trap (fun _ _ s3 => csr_val s3 sepc = 0x1000 /\ frame_word s3 frame1 tf_a0 = 2 ^ 64 - 1)
    (call_state 99).
Proof.
  eapply leaves_mono; [apply (unknown_syscall_repeats task1 frame1 0)|].
  - apply call_on_cpu.
  - reflexivity.
  - reflexivity.
  - rewrite call_id; [reflexivity|done].
  - apply board_responsive.
  - reflexivity.
  - intros entry v s3 (_ & _ & Hpc & Ha0 & _). split; [exact Hpc|exact Ha0].
Defined.

(** Task 1 with an empty page table, rooted at [page], and no stack yet. *)
Definition user_perm : Z := Z.lor (Z.lor PTE_U PTE_R) PTE_W.
Definition place_user (m : gmap Z Z) : gmap Z Z :=
  wr64 (wr64 (wr64 (wr64 (wr64 (wr64 m (node1 + 8) task1) (task1 + t_trap_frame) frame1)
    (task1 + t_pagetable) page) (task1 + t_stack_permission) user_perm)
    (task1 + t_stack + ms_start) SHARED_MEMORY) (task1 + t_stack + ms_size) 0.
Definition user_state : state :=
  trapped 15 0 (set_csr stval (SHARED_MEMORY - 8) (set_glob running_task node1
    (set_glob runnable_tasks queue_at (set_mem (place_user (mem root_state)) root_state)))).

#[local] Opaque root_state.

Lemma place_user_out m a : a < 0x80011000 \/ 0x80020000 <= a -> rd8 (place_user m) a = rd8 m a.
Proof.
  intros Ha. unfold place_user, node1, task1, t_trap_frame, t_pagetable, t_stack_permission, t_stack, ms_start, ms_size.
  rewrite !rd8_wr_out by (simpl; lia). done.
Qed.

(** A word of the placed task. *)
Ltac user_word := unfold place_user, node1, task1, t_trap_frame, t_pagetable, t_stack_permission, t_stack,
  ms_start, ms_size;
  repeat first [rewrite rd64_wr64_same by done | rewrite rd64_wr64_out by lia]; reflexivity.

Lemma user_words m : let m' := place_user m in
  rd64 m' (node1 + 8) = task1 /\ trap_frame_of m' task1 = frame1 /\ rd64 m' (task1 + t_pagetable) = page /\
  rd64 m' (task1 + t_stack_permission) = user_perm /\
  rd64 m' (task1 + t_stack + ms_start) = SHARED_MEMORY /\ rd64 m' (task1 + t_stack + ms_size) = 0.
Proof. unfold trap_frame_of. cbv zeta. split_and!; user_word. Qed.

Lemma user_mem : mem user_state = place_user (mem root_state).
Proof. reflexivity. Qed.

Lemma user_on_cpu : on_cpu user_state task1 frame1 page.
Proof.
  destruct (user_words (mem root_state)) as (H1 & H2 & H3 & _). rewrite <-user_mem in *.
  assert (Hr : glob user_state running_task = node1) by reflexivity.
  assert (Hq : glob user_state runnable_tasks = queue_at) by reflexivity.
  split; rewrite ?Hr, ?Hq;
    [by clear|by clear|exact H1|by clear|exact H2|by clear|clear; by right|clear; by right|exact H3].
Qed.

(** The page table's bytes are not in the image, but for the heads of the pool. *)
Lemma user_vm_bytes F T a : vm_at root_state F page (fun _ => 0) T -> (forall a, F a -> 0x80020000 <= a) ->
  vm_bytes F T a -> a < 0x80011000 \/ 0x80020000 <= a.
Proof.
  intros (Hrep & _) HF [Hp|[Ha|(l & p & Hl & Ha)]].
  - left. change (heads a) in Hp. unfold heads in Hp. change buddy_pool with 0x80010000 in Hp. lia.
  - right. by apply HF.
  - right. destruct (pt_page _ _ _ _ Hrep _ _ Hl) as [(_ & Hk & _) _]. change kernel_end with 0x80020000 in Hk. lia.
Qed.

Lemma user_stack : exists T, stack_rep user_state root_free task1 page (fun _ => 0) T 0 user_perm /\
  forall a, vm_bytes root_free T a -> a < 0x80011000 \/ 0x80020000 <= a.
Proof.
  destruct root_vm as (T & Hat).
  assert (HF : forall a, root_free a -> 0x80020000 <= a).
  { intros a [Ha _]. pose proof (pool_owns_range _ _ _ booted_pool Ha) as Hr.
    change kernel_end with 0x80020000 in Hr. lia. }
  pose proof (fun a => user_vm_bytes root_free T a Hat HF) as Hvb.
  exists T. split; [|exact Hvb]. pose proof Hat as (_ & Hpool & _).
  destruct (user_words (mem root_state)) as (_ & _ & H3 & H4 & H5 & H6). rewrite <-user_mem in *.
  split; [by clear|exact H3|exact H4|exact H5|exact H6|by clear|by clear| | |lia|reflexivity].
  - apply (vm_at_frame root_state _ root_free); [exact Hat| | |].
    + intros a Ha. rewrite user_mem. apply place_user_out, Hvb. by right; right.
    + intros a Ha. by apply (vm_table_apart root_state root_free page (fun _ => 0) T a Hat Ha).
    + rewrite user_mem. apply (pool_owns_frame _ _ _ Hpool).
      intros a [?|?]; apply place_user_out, Hvb; [by left|by right; left].
  - intros a Ha Hv. apply Hvb in Hv. unfold task1, sizeof_task_struct in Ha. lia.
Qed.

Lemma try_enlarge_grows_stack_witness :
  exists T, wp (try_enlarge_stack task1 (SHARED_MEMORY - 8)) (fun r s' => exists F' T' ps,
    stack_grown root_free task1 page (fun _ => 0) 0 user_perm ps s' F' T' /\
    ((r = 0 /\ Z.of_nat (length ps) = 1) \/ (r = -1 /\ out_of_memory F'))) user_state /\
    stack_rep user_state root_free task1 page (fun _ => 0) T 0 user_perm.
Proof.
  destruct user_stack as (T & Hst & _). exists T. split; [|exact Hst].
  eapply wp_mono; [apply (try_enlarge_grows_stack root_free task1 page (fun _ => 0) T 0 user_perm); exact Hst|].
  intros r s' H. change (within_stack_range (SHARED_MEMORY - 8)) with true in H.
  destruct H as (F' & T' & ps & _ & Hps & Hc). exists F', T', ps. split; [exact Hps|].
  change (pages_for (SHARED_MEMORY - 8)) with 1 in Hc. destruct Hc as [[Hr Hn]|(Hr & _ & Ho)]; [left|right].
  - split; [exact Hr|]. exact Hn.
  - split; [exact Hr|exact Ho].
Defined.

Lemma user_csrs : csr_val user_state sepc = 0x1000 /\ csr_val user_state sstatus = 0 /\
  csr_val user_state scause = 15 /\ csr_val user_state stval = SHARED_MEMORY - 8 /\
  glob user_state running_task = node1.
Proof. unfold user_state, trapped. split_and!; by csr_simp. Qed.

Lemma stack_fault_retries_witness :
  exists T, leaves user_trap (fun _ v s3 => csr_val s3 sepc = 0x1000 /\ user_mode s3 /\
    exists F' E' T', vm_at s3 F' page E' T' /\ valid (E' ((SHARED_MEMORY - 8) / PGSIZE)) = true) user_state \/
  cut_short root_free task1 page (fun _ => 0) T 0 user_perm (SHARED_MEMORY - 8) (entered frame1 0x1000 user_state).
Proof.
  destruct user_stack as (T & Hst & Hvb). exists T. destruct user_csrs as (H1 & H2 & H3 & H4 & H5).
  pose proof (stack_fault_retries root_free task1 frame1 page (fun _ => 0) T 0 user_perm user_state user_on_cpu) as H.
  cbv zeta in H. rewrite H1, H2, H3, H4, H5 in H. destruct H as [H|H].
  - reflexivity.
  - right. reflexivity.
  - exact Hst.
  - intros a Ha Hv. apply Hvb in Hv. unfold frame_byte, frame1, sizeof_trap_frame, node1 in Ha. lia.
  - left. unfold node1, task1. lia.
  - reflexivity.
  - left. eapply leaves_mono; [exact H|].
    intros entry v s3 (_ & Hpc & Hum & _ & F' & E' & T' & Hat & Hval & _).
    split; [exact Hpc|]. split; [exact Hum|]. exists F', E', T'. split; [exact Hat|exact Hval].
  - right. exact H.
Defined.

End Witnesses.
