(* ===== verification/Boot.v ===== *)
(** * Boot: start.c and main.c

    The machine-mode start-up code and the supervisor-mode [main]. *)

From S2P Require Import Prelude Machine Utility Uart BuddySpec PageAlloc Buddy BuddyInstance Kmalloc LinkedList PageTable Task Process.

Section Code.
Context `{Hw : Platform}.

(** [pte_t pagetable[512]]: every entry is a 1 GiB page mapped to itself. *)
Definition establish_page_table : M unit :=
  for_range 512 1 (fun i =>
    let pte := 0 in
    let pte := Z.lor pte (shl64 i 28) in
    let pte := Z.lor pte 15 in
    store64 (boot_pagetable + 8 * i) pte).

Definition init_timer : M unit :=
  let interval := 1000000 in
  now ← mmio_read CLINT_MTIME;
  mmio_write (CLINT_MTIMECMP 0) (now +w interval);;
  let scratch := timer_scratch in
  store64 (scratch + 8 * 3) (CLINT_MTIMECMP 0);;
  store64 (scratch + 8 * 4) interval;;
  write_mscratch scratch;;
  write_mtvec timer_vector;;
  x ← read_mstatus;
  write_mstatus (Z.lor x MSTATUS_MIE);;
  x ← read_mie;
  write_mie (Z.lor x MIE_MTIE).

(** The final [mret] to [main] is not part of the definition: the register
    [mepc] holds the address of [main]. *)
Definition start : M unit :=
  uart_init;;
  print_string (Lit (String.append "Entering kernel..." newline));;
  print_string (Lit "Establishing page table... ");;
  establish_page_table;;
  print_string (Lit (String.append "Done." newline));;
  print_string (Lit "Setting mstatus... ");;
  x ← read_mstatus;
  let x := Z.land x (not64 MSTATUS_MPP_MASK) in
  let x := Z.lor x MSTATUS_MPP_S in
  write_mstatus x;;
  print_string (Lit (String.append "Done." newline));;
  print_string (Lit "Setting things for interruption... ");;
  write_medeleg 0xffff;;
  write_mideleg 0xffff;;
  x ← read_sie;
  write_sie (Z.lor (Z.lor (Z.lor x SIE_SEIE) SIE_STIE) SIE_SSIE);;
  print_string (Lit (String.append "Done." newline));;
  print_string (Lit "Setting PMP... ");;
  write_pmpaddr0 0x3fffffffffffff;;
  write_pmpcfg0 0xf;;
  print_string (Lit (String.append "Done." newline));;
  print_string (Lit "Enabling paging... ");;
  write_satp (Z.lor (Z.shiftr boot_pagetable 12) SATP_SV39);;
  x ← read_sstatus;
  write_sstatus (Z.land (Z.lor x SSTATUS_SPP) (not64 SSTATUS_SIE));;
  print_string (Lit (String.append "Done." newline));;
  write_mepc main_addr;;
  print_string (Lit "Setting timer... ");;
  init_timer;;
  print_string (Lit (String.append "Done." newline)).

(** [test] is empty in the build without the test macros. *)
Definition test : M unit := mret tt.

Definition main : M Z :=
  print_string (Lit (String.append "Switch to supervisor mode." newline));;
  print_string (Lit "Initialize memory buddy system... ");;
  init_mem_manage;;
  print_string (Lit (String.append "Done." newline));;
  print_string (Lit "Changing page table... ");;
  init_kernel_pagetable;;
  print_string (Lit (String.append "Done." newline));;
  plicinit;;
  plicinithart;;
  init_scheduler;;
  scheduler;;
  test;;
  mret 0.

End Code.
