(* ===== verification/BootTheorems.v ===== *)
(** * Theorems on start-up

    The boot page table of start.c and the machine state that [start] leaves to
    [main]. *)

From S2P Require Import Prelude Machine Board Utility Uart ConsoleTheorems BuddySpec PageAlloc LinkedList PageTable PageTableProof Boot.

Lemma same_but_io_set s s' : same_but_io s s' -> s' = set_io (clock s') (log s') s.
Proof. destruct s, s'. by intros (? & ? & ?); simpl in *; subst. Qed.

Lemma csr_val_set_io c l s r : csr_val (set_io c l s) r = csr_val s r.
Proof. done. Qed.

(** Reading back a register after other registers, memory and devices. *)
Ltac regs :=
  repeat first [rewrite csr_val_set_mem | rewrite csr_val_set_io
    | rewrite csr_val_set_csr; first [rewrite decide_True by done | rewrite decide_False by done]].

Section Boot.
Context `{Hw : Platform}.

(** Printing a message: only the device changes. *)
Lemma say_ok t s (Q : unit -> state -> Prop) :
  uart_responsive -> glob s panicked = 0 -> Forall (fun c => 0 < c < 256) (codes t) ->
  Z.of_nat (String.length t) < 2 ^ 63 -> (forall c l, Q tt (set_io c l s)) ->
  wp (print_string (Lit t)) Q s.
Proof.
  intros Hresp Hp Ht Hlen HQ. apply print_literal_ok; [done..|].
  intros s' Hio _. rewrite (same_but_io_set s s' Hio). apply HQ.
Qed.

Lemma wp_mmio_write a v (Q : unit -> state -> Prop) s :
  (forall c l, Q tt (set_io c l s)) -> wp (mmio_write a v) Q s.
Proof. intros HQ. apply HQ. Qed.

Lemma wp_mmio_read a (Q : Z -> state -> Prop) s :
  (forall v c l, Q v (set_io c l s)) -> wp (mmio_read a) Q s.
Proof. intros HQ. apply HQ. Qed.

(** ** The boot page table *)

(** Entry [i] maps a page of 1 GiB to itself. *)
Definition gigapage (i : Z) : Z := Z.lor (Z.lor 0 (shl64 i 28)) 15.

Lemma gigapage_eq i : 0 <= i < 512 -> gigapage i = i * 2 ^ 28 + 15.
Proof.
  intros Hi. unfold gigapage, shl64. rewrite Z.lor_0_l, Z.shiftl_mul_pow2 by done.
  change (28 mod 64) with 28. rewrite w64_small by lia. by apply lor_low.
Qed.

Lemma gigapage_spec i : 0 <= i < 512 ->
  0 <= gigapage i < 2 ^ 64 /\ PTE_FLAGS (gigapage i) = 15 /\ PTE2PA (gigapage i) = i * 2 ^ 30.
Proof.
  intros Hi. rewrite gigapage_eq by done. split; [lia|]. unfold PTE_FLAGS, PTE2PA. split.
  - change 0x3FF with (Z.ones 10). rewrite Z.land_ones by done.
    replace (i * 2 ^ 28 + 15) with (15 + (i * 2 ^ 18) * 2 ^ 10) by lia. by rewrite Z.mod_add.
  - rewrite Z.shiftr_div_pow2 by done.
    replace (i * 2 ^ 28 + 15) with (15 + (i * 2 ^ 18) * 2 ^ 10) by lia. rewrite Z.div_add by done.
    change (15 / 2 ^ 10) with 0. unfold shl64. rewrite Z.shiftl_mul_pow2 by done.
    change (12 mod 64) with 12. rewrite w64_small by lia. lia.
Qed.

(** The first [n] entries are in place. *)
Definition boot_entries (m : gmap Z Z) (n : Z) : Prop :=
  forall i, 0 <= i < n -> rd64 m (boot_pagetable + 8 * i) = gigapage i.

Lemma establish_ok s (Q : unit -> state -> Prop) :
  ram_range boot_pagetable PGSIZE ->
  (forall m, boot_entries m 512 -> modifies (range boot_pagetable PGSIZE) (mem s) m -> Q tt (set_mem m s)) ->
  wp establish_page_table Q s.
Proof.
  intros (Hlo & Hhi & _) HQ. unfold establish_page_table, PGSIZE, range in *.
  apply (wp_for_range (fun i s' => exists m, s' = set_mem m s /\ boot_entries m i /\
    modifies (range boot_pagetable PGSIZE) (mem s) m)); unfold range, PGSIZE; [done..| | |].
  - exists (mem s). split; [by destruct s|]. split; [intros i Hi; lia|done].
  - intros i s1 _ Hi (m & -> & Hm & Hmod). cbv zeta. fold (gigapage i). wp_ram.
    destruct (gigapage_spec i Hi) as (Hg & _ & _). eexists. split; [reflexivity|]. split.
    + intros j Hj. destruct (decide (j = i)) as [->|Hne]; [by apply rd64_wr64_same|].
      rewrite rd64_wr64_out by lia. apply Hm. lia.
    + eapply modifies_trans; [exact Hmod|]. apply modifies_wr. simpl. lia.
  - intros i s1 _ Hi (m & -> & Hm & Hmod). assert (i = 512) as -> by lia. by apply HQ.
Qed.

(** Translation by a top-level leaf entry of Sv39. *)
Definition giga_translate (m : gmap Z Z) (va : Z) : Z :=
  PTE2PA (rd64 m (boot_pagetable + 8 * PX 2 va)) + va mod 2 ^ 30.

(** [establish_page_table] terminates and makes the identity mapping of all
    512 GiB of the Sv39 address space: every address translates to itself, by a
    valid entry that allows reading, writing and executing; it writes the page
    of the table only. *)
Lemma establish_page_table_identity s :
  ram_range boot_pagetable PGSIZE ->
  wp establish_page_table (fun _ s' => s' = set_mem (mem s') s /\
    modifies (range boot_pagetable PGSIZE) (mem s) (mem s') /\
    forall va, 0 <= va < 2 ^ 39 -> giga_translate (mem s') va = va /\
      PTE_FLAGS (rd64 (mem s') (boot_pagetable + 8 * PX 2 va)) = Z.lor (Z.lor (Z.lor PTE_V PTE_R) PTE_W) PTE_X) s.
Proof.
  intros Hr. apply establish_ok; [done|]. intros m Hm Hmod. split; [done|]. split; [done|].
  intros va Hva. pose proof (PX_range 2 va) as Hi. unfold giga_translate. simpl mem. rewrite Hm by done.
  destruct (gigapage_spec (PX 2 va) Hi) as (_ & Hf & Hpa). split; [|done].
  rewrite Hpa, PX_eq by done. change (12 + 9 * 2) with 30. rewrite Z.mod_small.
  - pose proof (Z.div_mod va (2 ^ 30) ltac:(done)). lia.
  - split; [apply Z.div_pos; lia|]. apply Z.div_lt_upper_bound; lia.
Qed.

(** ** The start-up in machine mode *)

Definition timer_interval : Z := 1000000.

(** What the hardware is told before [mret]: where to continue, in which mode,
    with which page table, which traps to delegate, and the timer. *)
Record started (s : state) : Prop := {
  st_main : csr_val s mepc = main_addr;
  st_mode : Z.land (csr_val s mstatus) MSTATUS_MPP_MASK = MSTATUS_MPP_S;
  st_satp : csr_val s satp = MAKE_SATP boot_pagetable;
  st_exceptions : csr_val s medeleg = 0xffff;
  st_interrupts : csr_val s mideleg = 0xffff;
  st_enabled : Z.land (csr_val s sie) (Z.lor (Z.lor SIE_SEIE SIE_STIE) SIE_SSIE) =
    Z.lor (Z.lor SIE_SEIE SIE_STIE) SIE_SSIE;
  st_masked : sie_on s = false;
  st_pmp : csr_val s pmpaddr0 = 0x3fffffffffffff /\ csr_val s pmpcfg0 = 0xf;
  st_vector : csr_val s mtvec = timer_vector /\ csr_val s mscratch = timer_scratch;
  st_timer : truth (Z.land (csr_val s mie) MIE_MTIE) = true /\
    truth (Z.land (csr_val s mstatus) MSTATUS_MIE) = true;
  st_scratch : rd64 (mem s) (timer_scratch + 8 * 3) = CLINT_MTIMECMP 0 /\
    rd64 (mem s) (timer_scratch + 8 * 4) = timer_interval;
  st_table : boot_entries (mem s) 512
}.

Lemma truth_pow2 x n : 0 <= n -> truth (Z.land (Z.lor x (2 ^ n)) (2 ^ n)) = true.
Proof.
  intros Hn. rewrite land_pow2 by done. rewrite Z.lor_spec, Z.pow2_bits_true, orb_true_r by done.
  unfold truth. by rewrite (proj2 (Z.eqb_neq _ 0)) by lia.
Qed.

(** The previous-privilege field of mstatus is set to supervisor mode, and the
    enable bit of machine mode does not touch it. *)
Lemma mpp_bits x :
  Z.land (Z.lor (Z.lor (Z.land x (not64 MSTATUS_MPP_MASK)) MSTATUS_MPP_S) MSTATUS_MIE) MSTATUS_MPP_MASK =
  MSTATUS_MPP_S.
Proof.
  rewrite !Z.land_lor_distr_l, <-Z.land_assoc.
  change (Z.land (not64 MSTATUS_MPP_MASK) MSTATUS_MPP_MASK) with 0. rewrite Z.land_0_r. reflexivity.
Qed.

Lemma sie_bits x : Z.land (Z.lor (Z.lor (Z.lor x SIE_SEIE) SIE_STIE) SIE_SSIE)
  (Z.lor (Z.lor SIE_SEIE SIE_STIE) SIE_SSIE) = Z.lor (Z.lor SIE_SEIE SIE_STIE) SIE_SSIE.
Proof.
  rewrite <-!Z.lor_assoc. apply Z.bits_inj'. intros i Hi. rewrite Z.land_spec, !Z.lor_spec.
  by destruct (Z.testbit x i), (Z.testbit SIE_SEIE i), (Z.testbit SIE_STIE i), (Z.testbit SIE_SSIE i).
Qed.

(** The steps of [start]. *)
Ltac boot_step :=
  lazymatch goal with
  | |- wp (_ ≫= _) _ _ => apply wp_bind
  | |- wp (mret _) _ _ => apply wp_ret
  | |- wp (mmio_write _ _) _ _ => apply wp_mmio_write; intros ? ?
  | |- wp (mmio_read _) _ _ => apply wp_mmio_read; intros ? ? ?
  | |- wp (print_string _) _ _ => apply say_ok; [assumption|assumption|by repeat constructor|done|intros ? ?]
  | |- wp (read_csr _) _ _ => apply wp_read_csr
  | |- wp (write_csr _ _) _ _ => apply wp_write_csr
  end.
Ltac boot_steps := repeat boot_step.

(** C23: [start] terminates and leaves the processor ready for [mret]: to [main], in
    supervisor mode, with the identity page table, all traps delegated and the
    timer armed; interrupts in supervisor mode are off until [main] enables
    them. *)
Theorem start_prepares_main s :
  uart_responsive -> glob s panicked = 0 ->
  ram_range boot_pagetable PGSIZE -> ram_range timer_scratch 40 -> sep boot_pagetable PGSIZE timer_scratch 40 ->
  wp start (fun _ s' => started s' /\ glob s' = glob s) s.
Proof.
  intros Hresp Hp Hpt (Hs1 & Hs2 & _) Hsep.
  unfold start, uart_init, WriteReg, initlock, init_timer, read_mstatus, write_mstatus, read_sie, write_sie,
    read_mie, write_mie, read_sstatus, write_sstatus, write_medeleg, write_mideleg, write_pmpaddr0, write_pmpcfg0,
    write_satp, write_mepc, write_mscratch, write_mtvec.
  boot_steps. apply establish_ok; [done|]. intros m Hm Hmod.
  boot_steps. apply wp_store; [ram|]. boot_steps. apply wp_store; [ram|]. boot_steps.
  split; [|reflexivity].
  unfold ram_range, sep, range, PGSIZE in *.
  split.
  - regs. reflexivity.
  - regs. apply mpp_bits.
  - regs. apply Z.lor_comm.
  - regs. reflexivity.
  - regs. reflexivity.
  - regs. apply sie_bits.
  - unfold sie_on. regs. rewrite <-Z.land_assoc.
    change (Z.land (not64 SSTATUS_SIE) SSTATUS_SIE) with 0. by rewrite Z.land_0_r.
  - split; regs; reflexivity.
  - split; regs; reflexivity.
  - split; regs; [by apply (truth_pow2 _ 7)|by apply (truth_pow2 _ 3)].
  - change (rd64 (wr64 (wr64 m (timer_scratch + 8 * 3) (CLINT_MTIMECMP 0)) (timer_scratch + 8 * 4) timer_interval)
      (timer_scratch + 8 * 3) = CLINT_MTIMECMP 0 /\
      rd64 (wr64 (wr64 m (timer_scratch + 8 * 3) (CLINT_MTIMECMP 0)) (timer_scratch + 8 * 4) timer_interval)
      (timer_scratch + 8 * 4) = timer_interval).
    rewrite rd64_wr64_out by lia. split; by apply rd64_wr64_same.
  - intros i Hi. change (rd64 (wr64 (wr64 m (timer_scratch + 8 * 3) (CLINT_MTIMECMP 0))
      (timer_scratch + 8 * 4) timer_interval) (boot_pagetable + 8 * i) = gigapage i).
    rewrite !rd64_wr64_out by lia. by apply Hm.
Qed.

End Boot.

(** ** Instances on the board *)

Section Witnesses.
#[local] Existing Instances board board_ok.

Lemma boot_ranges : ram_range boot_pagetable PGSIZE /\ ram_range timer_scratch 40 /\
  sep boot_pagetable PGSIZE timer_scratch 40.
Proof. split; [|split]; [done|done|by left]. Qed.

Lemma establish_page_table_identity_witness :
  wp establish_page_table (fun _ s' => giga_translate (mem s') 0x80001234 = 0x80001234) power_on.
Proof.
  eapply wp_mono; [apply (establish_page_table_identity power_on); apply boot_ranges|].
  intros [] s' (_ & _ & H). apply H. done.
Defined.

Lemma start_prepares_main_witness :
  wp start (fun _ s' => csr_val s' mepc = main_addr /\ sie_on s' = false) power_on.
Proof.
  destruct boot_ranges as (H1 & H2 & H3).
  eapply wp_mono; [apply (start_prepares_main power_on); [apply board_responsive|reflexivity|exact H1|exact H2|exact H3]|].
  intros [] s' (H & _). split; [exact (st_main _ H)|exact (st_masked _ H)].
Defined.

End Witnesses.
