(* ===== verification/MainTheorems.v ===== *)
(** * From [main] to the first process

    The way of main.c as a whole: the page allocator, the page table of the
    kernel, the first process, the scheduler, and the return to user mode that
    the first switch leads to. *)

From S2P Require Import Prelude Machine Board Utility Uart ConsoleTheorems BuddySpec PageAlloc Capacity Buddy BuddyInit BuddyInstance BuddyTheorems Kmalloc KmallocProof LinkedList LinkedListProof PageTable PageTableProof KernelMap Task Process TaskTable Scheduler UserStack UserMemory UserMemoryTheorems UserCopyTheorems TaskCreate TaskFill TaskElf TaskElfTheorems FirstProcess FirstProcessTheorems Trap TrapProof Boot BootTheorems.

(** ** The program stays in memory *)

Section Image.
Context `{Hw : Platform} {HwOk : PlatformOk Hw}.

(** The pages of a segment are among those of the program. *)
Lemma segment_page_in m elf size sgs sg j : Forall (seg_ok size) (loads sgs) -> sg ∈ loads sgs -> 0 <= j < pages_of (sg_memsz sg) ->
  seg_page sg + j ∈ segment_pages m elf sgs.
Proof.
  intros _ Hin Hj. unfold segment_pages. apply list_elem_of_split in Hin as (l1 & l2 & ->).
  rewrite fmap_app, fmap_cons. change (?x :: ?y) with ([x] ++ y) at 1. rewrite !pages_app, !elem_of_app. right. left.
  apply pages_one. simpl. unfold seg_contents. rewrite length_fmap, length_seqZ. lia.
Qed.

Section Keep.
Context (m0 m m' : gmap Z Z) (elf size entry : Z) (sgs : list segment) (E : Z -> Z) (tf sh page stack ks : Z) (ps : list Z).
Abbreviation frames := (ps ++ [page; page + PGSIZE; stack; sh; tf; ks]).
Hypothesis Himage : user_image m0 m elf sgs E tf sh page stack ps.
Hypothesis Helf : elf_at m0 elf size sgs entry.
Hypothesis Hend : program_end sgs + 2 * PGSIZE <= SHARED_MEMORY - PGSIZE.
Hypothesis Hnodup : NoDup frames.
Hypothesis Hgood : Forall (good_block kernel_end PHYSTOP 0) frames.
Hypothesis Hkeep : forall a, in_frames frames a -> ~ kernel_word tf a -> rd8 m' a = rd8 m a.

Lemma frame_keep p a : p ∈ frames -> p <> tf -> p <= a < p + PGSIZE -> rd8 m' a = rd8 m a.
Proof using Hgood Hkeep.
  intros Hp Hne Ha. apply Hkeep; [by exists p|]. intros Hk. apply Hne. pose proof (proj1 (Forall_forall _ _) Hgood) as Hgd.
  apply (frames_apart p tf a); [by apply Hgd|apply Hgd, elem_of_app; right; in_list|done|].
  unfold kernel_word, PGSIZE, tf_epc in *. lia.
Qed.

Lemma page_keep n p : 0 <= n -> valid (E n) = true -> PTE2PA (E n) = p -> p ∈ frames -> p <> tf ->
  (forall i, 0 <= i < PGSIZE -> user_byte m' E (n * PGSIZE + i) = user_byte m E (n * PGSIZE + i)) /\
  forall o, 0 <= o -> o + 8 <= PGSIZE -> rd64 m' (translate E (n * PGSIZE + o)) = rd64 m (translate E (n * PGSIZE + o)).
Proof using HwOk Hgood Hkeep.
  intros Hn Hv Hp Hin Hne. pose proof (proj1 (Forall_forall _ _) Hgood p Hin) as Hg.
  assert (Ht : forall i, 0 <= i < PGSIZE -> translate E (n * PGSIZE + i) = p + i) by (intros i Hi; by apply translate_page).
  split.
  - intros i Hi. unfold user_byte. rewrite Ht by done. apply (frame_keep p); [done|done|lia].
  - intros o Ho1 Ho2. rewrite Ht by lia. apply rd_ext. intros b Hb. apply (frame_keep p); [done|done|lia].
Qed.

Lemma user_image_keep : user_image m0 m' elf sgs E tf sh page stack ps.
Proof using HwOk Himage Helf Hend Hnodup Hgood Hkeep.
  destruct Himage as [Hseg Hfr Hst Hz [[Ha1 Ha2] Hname [Hv1 Hv2] Henv Hreg] Hrest].
  pose proof (el_segments _ _ _ _ _ Helf) as Hok. pose proof (proj1 (Forall_forall _ _) Hgood) as Hgd.
  assert (Hntf : forall p, p ∈ ps ++ [page; page + PGSIZE; stack] -> p ∈ frames /\ p <> tf).
  { pose proof Hnodup as Hnd. replace frames with ((ps ++ [page; page + PGSIZE; stack]) ++ [sh; tf; ks]) in Hnd |- * by (by rewrite <-app_assoc).
    apply NoDup_app in Hnd as (_ & Hd & _). intros p Hp. split; [apply elem_of_app; by left|]. intros ->. apply (Hd tf Hp). in_list. }
  assert (Hframe : forall p, p ∈ [page; page + PGSIZE; stack] -> p ∈ frames /\ p <> tf).
  { intros p Hp. apply Hntf, elem_of_app. by right. }
  assert (Hleaf : forall n p perm, 0 <= n -> 0 <= perm < 1024 -> E n = leaf p perm -> p ∈ [page; page + PGSIZE; stack] ->
    (forall i, 0 <= i < PGSIZE -> user_byte m' E (n * PGSIZE + i) = user_byte m E (n * PGSIZE + i)) /\
    forall o, 0 <= o -> o + 8 <= PGSIZE -> rd64 m' (translate E (n * PGSIZE + o)) = rd64 m (translate E (n * PGSIZE + o))).
  { intros n p perm Hn Hperm He Hp. destruct (Hframe p Hp) as [Hin Hne]. destruct (frame_bits p (Hgd p Hin)) as [Hp56 Hpd].
    assert (Hpa : PTE2PA (E n) = p). { destruct (Hgd p Hin) as (_ & Hal & _). rewrite He. by apply leaf_frame. }
    apply (page_keep n p); [done|rewrite He; apply valid_leaf|done..]. }
  destruct (program_sections size sgs Hok) as [Hsa _]. pose proof (sections_end_aligned _ Hsa) as Hal.
  pose proof (proj1 (sections_end_ge (seg_section <$> loads sgs))) as Hva0. change (sections_end _) with (program_end sgs) in Hal, Hva0.
  pose proof (eq_refl : PGSIZE = 4096) as HP. destruct Hal as [q Hq]. assert (Hdiv : program_end sgs / PGSIZE = q) by (rewrite Hq; by apply Z.div_mul).
  rewrite Hdiv in Ha1, Ha2. destruct (Hleaf q page argument_permission) as [Hb1 _]; [lia|done|done|in_list|].
  destruct (Hleaf (q + 1) (page + PGSIZE) argument_permission) as [_ Hw2]; [lia|done|done|in_list|].
  destruct (Hleaf stack_page stack (stack_after stack_rwu sgs)) as [Hb3 _]; [done|apply stack_after_range|done|in_list|].
  split; [|done|done| |split|done].
  - rewrite Forall_forall in *. intros sg Hsg j Hj. destruct (Hseg sg Hsg j Hj) as (H1 & H2 & H3). split; [done|]. split; [done|].
    intros i Hi. rewrite <-(H3 i Hi). pose proof (segment_page_in m0 elf size sgs sg j (proj2 (Forall_forall _ _) Hok) Hsg Hj) as Hin.
    apply list_elem_of_lookup in Hin as [k Hk]. destruct (Forall2_lookup_l _ _ _ _ _ Hfr Hk) as (p & Hp & Hpa).
    assert (Hpin : p ∈ ps ++ [page; page + PGSIZE; stack]) by (apply elem_of_app; left; by eapply list_elem_of_lookup_2).
    destruct (Hntf p Hpin) as [Hf Hne]. destruct (page_keep (seg_page sg + j) p) as [Hb _]; [|done|done|done|done|by apply Hb].
    destruct (Hok sg Hsg) as [_ Hva _ _ _]. unfold seg_page. assert (0 <= sg_vaddr sg / PGSIZE) by (by apply Z.div_pos). lia.
  - intros i Hi. rewrite Hb3 by done. by apply Hz.
  - by rewrite Hdiv.
  - intros i c Hi. rewrite <-(Hname i c Hi). assert (Hi5 : (i < 5)%nat) by (by apply lookup_lt_Some in Hi). rewrite Hq, <-HP. apply Hb1. lia.
  - assert (Hx : program_end sgs + PGSIZE = (q + 1) * PGSIZE + 0) by lia. rewrite Hx, <-Z.add_assoc in *. rewrite !Hw2 by lia. done.
  - assert (Hx : program_end sgs + PGSIZE + 16 = (q + 1) * PGSIZE + 16) by lia. rewrite Hx in *. by rewrite Hw2 by lia.
  - unfold fields in *. rewrite Forall_forall in *. intros f Hf. rewrite <-(Hreg f Hf). apply rd_ext. intros b Hb.
    assert (Ho : tf + 112 <= b < tf + 136).
    { apply elem_of_cons in Hf as [->|[->|[->|[]%not_elem_of_nil]%elem_of_cons]%elem_of_cons]; simpl in Hb; unfold tf_a0, tf_a1, tf_a2 in Hb; lia. }
    apply Hkeep; [exists tf; split; [apply elem_of_app; right; in_list|lia]|]. unfold kernel_word, tf_epc. lia.
Qed.

End Keep.
End Image.

(** ** The stages of [main] *)

(** What the kernel is loaded as, with [np] pages of the program of [init]: the
    sections and the devices of kernel.ld and qemu, cleared globals, the ELF file
    in the image, and memory enough. *)
Record boot_image `{Hw : Platform} (s : state) (size entry : Z) (sgs : list segment) : Prop := {
  bi_text : text_ok;
  bi_uart : uart_responsive;
  bi_globals : Forall (fun g => glob s g = 0) [panicked; block_list_head; block_list_tail; running_task];
  bi_pid : 0 <= glob s next_pid < 2 ^ 64;
  bi_return : 0 <= user_trap_return_addr < 2 ^ 64;
  bi_context : KERNBASE <= now_context /\ now_context + 112 <= kernel_end /\ forall a, now_context <= a < now_context + 112 -> ~ heads a;
  bi_elf : elf_at (mem s) init_program size sgs entry;
  bi_place : KERNBASE <= init_program /\ 0 <= size /\ init_program + size <= kernel_end;
  bi_apart : forall a, init_program <= a < init_program + size -> ~ heads a;
  bi_segments : (length (loads sgs) <= 55)%nat /\ NoDup (segment_pages (mem s) init_program sgs);
  bi_end : program_end sgs + 2 * PGSIZE <= SHARED_MEMORY - PGSIZE;
  bi_memory : kernel_end + 8192 * Z.of_nat (94 + 3 * length (segment_pages (mem s) init_program sgs)) <= PHYSTOP
}.

Section Main.
Context `{Hw : Platform} {HwOk : PlatformOk Hw}.

Definition ram (a : Z) : Prop := kernel_end <= a < PHYSTOP.

Lemma ram_capacity n : kernel_end + 8192 * Z.of_nat (S n) <= PHYSTOP -> capacity ram n.
Proof.
  intros H. destruct kernel_end_aligned as [q Hq]. pose proof kernel_end_range.
  assert (Hb : exists b, (8192 | b) /\ kernel_end <= b <= kernel_end + 4096).
  { pose proof (Z.div_mod q 2 ltac:(done)). pose proof (Z.mod_pos_bound q 2 ltac:(done)).
    exists ((q + q mod 2) * 4096). split; [|lia]. exists (q / 2 + q mod 2). lia. }
  destruct Hb as (b & Hal & Hb). apply (capacity_range _ b); [done|lia|lia|]. unfold ram. lia.
Qed.

(** The allocator owns the RAM above the image. *)
Lemma memory_stage s : wp init_mem_manage (fun _ s' => pool_owns (mem s') ram /\ same_regs s s' /\
  modifies (heap_touch ram None) (mem s) (mem s')) s.
Proof.
  eapply wp_mono; [apply init_mem_manage_ok|]. intros [] s' (P & Hwf & Hrep & HF & Hregs & Hm).
  split; [by exists P|]. split; [done|]. eapply modifies_weaken; [|exact Hm]. intros a [?|?]; [by left|by right; left].
Qed.

(** The machine when [init_scheduler] starts. *)
Record kernel_running (s0 s : state) (n : nat) (root : Z) (F : Z -> Prop) (T : tables) : Prop := {
  kr_table : vm_at s F root kernel_entry T;
  kr_capacity : capacity F n;
  kr_free : forall a, F a -> ram a;
  kr_satp : csr_val s satp = MAKE_SATP root;
  kr_glob : glob s = <[kernel_pagetable := root]> (glob s0);
  kr_modifies : modifies (heap_touch ram None) (mem s0) (mem s)
}.

Lemma kernel_running_io s0 s n root F T c l : kernel_running s0 s n root F T -> kernel_running s0 (set_io c l s) n root F T.
Proof. intros [H1 H2 H3 H4 H5 H6]. by split. Qed.

(** Messages and devices on the way. *)
Ltac kernel_step :=
  lazymatch goal with
  | |- switches (print_string _ ≫= _) _ _ => apply switches_bind, say_ok; [assumption|assumption|by repeat constructor|done|intros ? ?]
  | |- switches (_ ≫= _) _ _ => apply switches_bind, wp_bind, wp_mmio_write; intros ? ?; apply wp_mmio_write; intros ? ?
  end.

Lemma start_up n s (Q : Z -> Z -> state -> (state -> outcome Z) -> Prop) :
  text_ok -> uart_responsive -> glob s panicked = 0 -> capacity ram (n + 73) ->
  (forall s1 root F T, kernel_running s s1 n root F T ->
    switches (init_scheduler;; scheduler;; test;; mret 0) Q s1) ->
  switches main Q s.
Proof.
  intros Htext Hresp Hpan Hcap HQ. unfold main.
  kernel_step. kernel_step. apply switches_bind. eapply wp_mono; [apply memory_stage|].
  intros [] s1 (Hp & (Hg1 & _) & Hm1). assert (Hpan1 : glob s1 panicked = 0) by (by rewrite Hg1).
  kernel_step. kernel_step. apply switches_bind. eapply wp_mono; [apply (init_kernel_pagetable_ok Htext ram n); [exact Hp|exact Hcap]|].
  intros [] s2 (root & F & T & Hat & Hcap2 & HF & Hsatp & Hg2 & _ & Hm2).
  assert (Hrun : kernel_running s s2 n root F T).
  { split; [done..|by rewrite Hg2; cbn [glob set_io]; rewrite Hg1|]. eapply modifies_trans; [exact Hm1|].
    eapply modifies_weaken; [|exact Hm2]. intros a [?|?]; [by left|by right; left]. }
  assert (Hpan2 : glob s2 panicked = 0). { rewrite Hg2, fn_lookup_insert_ne by done. done. }
  kernel_step. unfold plicinit, plicinithart. kernel_step. kernel_step.
  apply (HQ _ root F T). by do 5 apply kernel_running_io.
Qed.

(** The scheduler's loop runs its first turn. *)
Lemma switches_loop {X A} (body : X -> M (X + A)) x (Q : Z -> Z -> state -> Prop) s :
  switches (body x) (fun old new s' _ => Q old new s') s -> switches (loop body x) (fun old new s' _ => Q old new s') s.
Proof.
  intros H. assert (Hit : forall d, switches (iterate d body x) (fun old new s' _ => Q old new s') s).
  { induction d as [|d IH]; [done|]. simpl. by apply switches_bind_l. }
  unfold loop. apply switches_bind_l, Hit.
Qed.

Lemma scheduler_first R y u r s : idle_rep s R ((y, u) :: r) ->
  switches scheduler (fun old new s' _ => old = now_context /\ new = u + t_context /\ sched_rep s' R y u r /\
    modifies (turn_byte R u) (mem s) (mem s') /\ glob s' = <[running_task := y]> (glob s) /\
    forall r, r <> sstatus -> csr_val s' r = csr_val s r) s.
Proof.
  intros Hidle. unfold scheduler. apply (switches_loop _ tt (fun old new s' => old = now_context /\ new = u + t_context /\ sched_rep s' R y u r /\
    modifies (turn_byte R u) (mem s) (mem s') /\ glob s' = <[running_task := y]> (glob s) /\
    forall r, r <> sstatus -> csr_val s' r = csr_val s r)).
  apply switches_bind_l. eapply switches_mono; [exact (scheduler_starts _ _ _ _ _ Hidle)|].
  by intros old new s' k (-> & -> & ? & _ & ? & ? & _ & ?).
Qed.

(** ** From the scheduler to user mode *)

(** [switch_context] saves the registers of [main]. *)
Definition saved (s s' : state) : Prop := exists m, s' = set_mem m s /\ modifies (range now_context sizeof_context) (mem s) m.

(** The machine at the first instruction of the first process [t]: what the
    program finds, and what the kernel needs when the program comes back. *)
Record first_instruction (m0 : gmap Z Z) (s : state) (root t pt tf sh ks entry : Z) (sgs : list segment) (E : Z -> Z) (page stack : Z) (ps : list Z) : Prop := {
  fi_pc : csr_val s sepc = entry;
  fi_mode : user_mode s;
  fi_vector : csr_val s stvec = TRAMPOLINE +w (user_vector -w trampoline);
  fi_image : user_image m0 (mem s) init_program sgs E tf sh page stack ps;
  fi_stack : rd64 (mem s) (tf + tf_sp) = SHARED_MEMORY;
  fi_tables : exists F T, kernel_table F s root /\ vm_at s F pt E T;
  fi_return : fields (mem s) tf [(tf_kernel_satp, 8%nat, w64 (MAKE_SATP root)); (tf_kernel_sp, 8%nat, ks +w PGSIZE); (tf_kernel_trap, 8%nat, w64 user_trap_addr)];
  fi_state : state_of (mem s) t = RUNNING;
  fi_queues : list_rep (mem s) (glob s runnable_tasks) [] /\ exists x, list_rep (mem s) (glob s all_tasks) [(x, t)]
}.

Lemma vm_root s F root E T : vm_at s F root E T -> KERNBASE <= root < PHYSTOP.
Proof.
  intros (Hrep & _). destruct (pt_page _ _ _ _ Hrep [] root (pt_root _ _ _ _ Hrep)) as [(? & ? & ? & _) _]. pose proof kernel_end_range. lia.
Qed.

Section First.
Context (s0 s1 s2 s3 s4 : state) (n : nat) (root : Z) (F : Z -> Prop) (T : tables) (size entry : Z) (sgs : list segment) (t pt tf sh ks : Z).
Hypothesis Htext : text_ok.
Hypothesis Hrun : kernel_running s0 s1 n root F T.
Hypothesis Hm12 : modifies (heap_touch F None) (mem s1) (mem s2).
Hypothesis Hc12 : forall r, r <> sstatus -> csr_val s2 r = csr_val s1 r.
Hypothesis Hcontext : now_context + 112 <= kernel_end /\ forall a, now_context <= a < now_context + 112 -> ~ heads a.
Context (F' : Z -> Prop) (B : arena) (E : Z -> Z) (T' : tables) (l : list (Z * Z)) (page stack : Z) (ps : list Z) (x1 x2 : Z).
Abbreviation frames := (ps ++ [page; page + PGSIZE; stack; sh; tf; ks]).
Hypothesis Hfm : first_memory (mem s0) s2 F init_program sgs t pt tf sh ks F' B E T' l page stack ps x1 x2.
Abbreviation R := (glob s2 runnable_tasks).
Hypothesis Hm23 : modifies (turn_byte R t) (mem s2) (mem s3).
Hypothesis Hm34 : modifies (range now_context sizeof_context) (mem s3) (mem s4).

(** The bytes in question: above the image, but for those of the context. *)
Lemma table_above s G r D U a : vm_at s G r D U -> table_byte U a -> kernel_end <= a.
Proof using HwOk. intros (Hrep & _) (k & p & Hk & Ha). destruct (pt_page _ _ _ _ Hrep _ _ Hk) as [(_ & ? & _) _]. lia. Qed.

Lemma frame_good p : p ∈ frames -> good_block kernel_end PHYSTOP 0 p /\ forall a, p <= a < p + PGSIZE -> F a /\ ~ vm_bytes F' T' a.
Proof using Hfm.
  intros Hp. destruct (proj1 (Forall_forall _ _) (fm_frames _ _ _ _ _ _ _ _ _ _ _ _ _ _ _ _ _ _ _ _ Hfm) p Hp) as [[Hg Hn] HF].
  split; [done|]. intros a Ha. split; [by apply HF|by apply Hn].
Qed.

Lemma turn_sched a : turn_byte R t a -> sched_byte R [x2] [t] a.
Proof using Type. intros [Ha|Ha]; [by left|]. right. right. exists t. split; [by left|]. unfold sizeof_task_struct, t_state in *. lia. Qed.

Definition touched (a : Z) : Prop := turn_byte R t a \/ range now_context sizeof_context a.

Lemma m24 : modifies touched (mem s2) (mem s4).
Proof using Hm23 Hm34. eapply modifies_trans; (eapply modifies_weaken; [|eassumption]); intros a Ha; [by left|by right]. Qed.

Lemma context_low a : range now_context sizeof_context a -> a < kernel_end /\ ~ heads a.
Proof using Hcontext. unfold range, sizeof_context. intros Ha. split; [lia|by apply Hcontext]. Qed.

(** What is written after [init_scheduler] belongs to nobody else. *)
Lemma touched_apart a : touched a -> ~ vm_bytes F' T' a /\ ~ in_frames frames a /\ ~ table_byte T a.
Proof using HwOk Hfm Hrun Hcontext.
  pose proof (kr_table _ _ _ _ _ _ Hrun) as Hat. intros [Ha|Ha].
  - destruct (fm_apart _ _ _ _ _ _ _ _ _ _ _ _ _ _ _ _ _ _ _ _ Hfm a (or_intror (turn_sched a Ha))) as (HF & H1 & H2).
    split; [done|]. split; [done|]. intros Ht. by destruct (vm_table_apart _ _ _ _ _ _ Hat Ht).
  - destruct (context_low a Ha) as [Hlo Hnh]. split; [|split].
    + intros [?|[HF'|Ht]]; [done|..].
      * apply (fm_free _ _ _ _ _ _ _ _ _ _ _ _ _ _ _ _ _ _ _ _ Hfm), (kr_free _ _ _ _ _ _ Hrun) in HF'. unfold ram in HF'. lia.
      * pose proof (table_above _ _ _ _ _ a (fm_vm _ _ _ _ _ _ _ _ _ _ _ _ _ _ _ _ _ _ _ _ Hfm) Ht). lia.
    + intros (p & Hp & Hpa). destruct (frame_good p Hp) as [(_ & _ & ? & _) _]. lia.
    + intros Ht. pose proof (table_above _ _ _ _ _ a Hat Ht). lia.
Qed.

Lemma word_apart a : kernel_word tf a -> F a /\ ~ vm_bytes F' T' a /\ ~ sched_byte R [x2] [t] a.
Proof using Hfm.
  intros Ha. assert (Htf : tf ∈ frames) by (apply elem_of_app; right; in_list).
  assert (Hpa : tf <= a < tf + PGSIZE) by (unfold kernel_word, tf_epc, PGSIZE in *; lia).
  destruct (frame_good tf Htf) as [_ H]. destruct (H a Hpa) as [HF Hn]. split; [done|]. split; [done|].
  intros Hs. destruct (fm_apart _ _ _ _ _ _ _ _ _ _ _ _ _ _ _ _ _ _ _ _ Hfm a (or_intror Hs)) as (_ & _ & Hf). apply Hf. by exists tf.
Qed.

Hypothesis Hg3 : glob s3 = <[running_task := x2]> (glob s2).
Hypothesis Hg4 : glob s4 = glob s3.
Hypothesis Hrep3 : sched_rep s3 R x2 t [].
Hypothesis Hfields : fields (mem s2) t (stack_fields ++ program_fields sgs (glob s0 next_pid) ks tf pt sh).

Lemma sched_high a : sched_byte R [x2] [t] a -> ~ range now_context sizeof_context a.
Proof using Hfm Hrun Hcontext.
  intros Hs Hc. destruct (fm_apart _ _ _ _ _ _ _ _ _ _ _ _ _ _ _ _ _ _ _ _ Hfm a (or_intror Hs)) as (HF%(kr_free _ _ _ _ _ _ Hrun) & _).
  destruct (context_low a Hc). unfold ram in HF. lia.
Qed.

Lemma sched_4 : sched_rep s4 R x2 t [].
Proof using Hrep3 Hg4 Hm34 Hfm Hrun Hcontext.
  apply (sched_frame s3); [done| |by rewrite Hg4..]. intros a Ha. by apply Hm34, sched_high.
Qed.

(** The task as [new_task] made it, but for its state. *)
Lemma task_word o k v : (o, k, v) ∈ stack_fields ++ program_fields sgs (glob s0 next_pid) ks tf pt sh ->
  0 <= o -> o + Z.of_nat k <= sizeof_task_struct -> o + Z.of_nat k <= t_state \/ t_state + 4 <= o -> rd k (mem s4) (t + o) = v.
Proof using Hfields Hm23 Hm34 Hfm Hrun Hcontext.
  intros Hin Ho1 Ho2 Ho3. etransitivity; [|exact (proj1 (Forall_forall _ _) Hfields _ Hin)]. simpl. apply rd_ext. intros b Hb.
  assert (Hbt : t <= b < t + sizeof_task_struct) by lia. apply m24. intros [[Hturn|Hturn]|Hturn].
  - pose proof (lay_list_task _ _ _ (fm_layout _ _ _ _ _ _ _ _ _ _ _ _ _ _ _ _ _ _ _ _ Hfm) t ltac:(by left)) as Hsep. unfold sep in Hsep. lia.
  - lia.
  - apply (sched_high b); [|done]. right. right. exists t. by split; [left|].
Qed.

Lemma on_cpu_4 : on_cpu s4 t tf pt.
Proof using HwOk Hfields Hm23 Hm34 Hfm Hrun Hcontext Hrep3 Hg4.
  pose proof sched_4 as [HR Hx _ _ Ht _ _ Hlay]. pose proof (lay_task _ _ _ Hlay t ltac:(by left)) as Htok.
  destruct (list_ram _ _ (lay_list _ _ _ Hlay)) as [HR1 _]. destruct (node_ram _ _ (lay_list _ _ _ Hlay) x2 ltac:(by left)) as [Hx1 Hx2].
  assert (Htf : tf ∈ frames) by (apply elem_of_app; right; in_list). destruct (frame_good tf Htf) as [(_ & _ & Hlo & Hhi) _].
  assert (Hout : forall a, tf <= a < tf + sizeof_trap_frame -> ~ sched_byte R [x2] [t] a).
  { intros a Ha Hs. destruct (fm_apart _ _ _ _ _ _ _ _ _ _ _ _ _ _ _ _ _ _ _ _ Hfm a (or_intror Hs)) as (_ & _ & Hf). apply Hf. exists tf.
    split; [done|]. unfold sizeof_trap_frame, PGSIZE in *. lia. }
  pose proof kernel_end_range. change (bsz 0) with 4096 in Hhi.
  split; rewrite ?HR, ?Hx; unfold sizeof_node, sizeof_trap_frame in *.
  - unfold NULL, KERNBASE in *. lia.
  - done.
  - done.
  - done.
  - apply (task_word t_trap_frame 8); [apply elem_of_app; right; right; unfold task_fields; in_list|done|done|task_unfold; lia].
  - unfold frame_ok, sizeof_trap_frame. lia.
  - apply sep_apart; [done..|]. intros a Ha Hu. apply (Hout a Ha). right. right. exists t. by split; [left|].
  - apply sep_apart; [done..|]. intros a Ha Hu. apply (Hout a Ha). right. left. exists x2. by split; [left|].
  - apply (task_word t_pagetable 8); [apply elem_of_app; right; right; unfold task_fields; in_list|done|done|task_unfold; lia].
Qed.

Section Fifth.
Context (s5 : state).
Hypothesis Hm45 : modifies (kernel_word tf) (mem s4) (mem s5).

Lemma keep_25 a : ~ touched a -> ~ kernel_word tf a -> rd8 (mem s5) a = rd8 (mem s2) a.
Proof using Hm23 Hm34 Hm45. intros H1 H2. rewrite Hm45 by done. by apply m24. Qed.

(** Both page tables hold. *)
Lemma kernel_table_5 : kernel_table F' s5 root.
Proof using HwOk Htext Hrun Hfm Hm12 Hm23 Hm34 Hm45 Hcontext.
  apply (kernel_table_intro Htext F' F'); [|done]. exists T. pose proof (kr_table _ _ _ _ _ _ Hrun) as Hat.
  apply (vm_at_frame s1 s5 F F' root kernel_entry T Hat).
  - intros a Ha. destruct (vm_table_apart _ _ _ _ _ _ Hat Ha) as [HnF Hnp].
    rewrite keep_25; [|by intros (_ & _ & ?)%touched_apart|by intros (? & _)%word_apart]. apply Hm12. by intros [?|[?|[]]].
  - intros a Ha HF'. destruct (vm_table_apart _ _ _ _ _ _ Hat Ha) as [HnF _].
    by apply HnF, (fm_free _ _ _ _ _ _ _ _ _ _ _ _ _ _ _ _ _ _ _ _ Hfm).
  - pose proof (fm_heap _ _ _ _ _ _ _ _ _ _ _ _ _ _ _ _ _ _ _ _ Hfm) as (Hp & _). apply (pool_owns_frame _ _ _ Hp).
    intros a Ha. assert (Hv : vm_bytes F' T' a) by (destruct Ha; [by left|by right; left]).
    apply keep_25; [by intros [? _]%touched_apart|by intros (_ & ? & _)%word_apart].
Qed.

Lemma user_table_5 : vm_at s5 F' pt E T'.
Proof using HwOk Hrun Hfm Hm23 Hm34 Hm45 Hcontext.
  pose proof (fm_vm _ _ _ _ _ _ _ _ _ _ _ _ _ _ _ _ _ _ _ _ Hfm) as Hat. pose proof Hat as (_ & Hp & _).
  assert (Hk : forall a, vm_bytes F' T' a -> rd8 (mem s5) a = rd8 (mem s2) a).
  { intros a Ha. apply keep_25; [by intros [? _]%touched_apart|by intros (_ & ? & _)%word_apart]. }
  apply (vm_at_frame s2 s5 F' F' pt E T' Hat).
  - intros a Ha. apply Hk. by right; right.
  - intros a Ha HF'. by destruct (vm_table_apart _ _ _ _ _ _ Hat Ha).
  - apply (pool_owns_frame _ _ _ Hp). intros a [?|?]; apply Hk; [by left|by right; left].
Qed.

(** The program. *)
Lemma image_5 : elf_at (mem s0) init_program size sgs entry -> program_end sgs + 2 * PGSIZE <= SHARED_MEMORY - PGSIZE ->
  user_image (mem s0) (mem s5) init_program sgs E tf sh page stack ps.
Proof using HwOk Hrun Hfm Hm23 Hm34 Hm45 Hcontext.
  intros Helf Hend. apply (user_image_keep _ (mem s2) _ init_program size entry sgs E tf sh page stack ks ps); [|done|done|..].
  - exact (fm_image _ _ _ _ _ _ _ _ _ _ _ _ _ _ _ _ _ _ _ _ Hfm).
  - exact (fm_nodup _ _ _ _ _ _ _ _ _ _ _ _ _ _ _ _ _ _ _ _ Hfm).
  - apply Forall_forall. intros p Hp. by apply frame_good.
  - intros a Ha Hn. apply keep_25; [|done]. by intros (_ & ? & _)%touched_apart.
Qed.

Lemma queues_5 : list_rep (mem s5) (glob s4 runnable_tasks) [] /\ list_rep (mem s5) (glob s4 all_tasks) [(x1, t)].
Proof using HwOk Hfm Hrun Hm23 Hm34 Hm45 Hrep3 Hg3 Hg4 Hcontext.
  pose proof sched_4 as [HR _ Hl _ _ _ _ _]. split.
  - rewrite HR. apply (list_keep (mem s4)); [done|]. intros a Ha. apply Hm45. intros (_ & _ & Hn)%word_apart. apply Hn.
    destruct Ha as [Ha|(x & Hx & _)]; [by left|]. by apply not_elem_of_nil in Hx.
  - rewrite Hg4, Hg3, fn_lookup_insert_ne by done. apply (list_keep (mem s2)); [exact (fm_all _ _ _ _ _ _ _ _ _ _ _ _ _ _ _ _ _ _ _ _ Hfm)|].
    intros a Ha. destruct (fm_apart _ _ _ _ _ _ _ _ _ _ _ _ _ _ _ _ _ _ _ _ Hfm a (or_introl Ha)) as (HF & _ & Hf). apply keep_25.
    + intros [Ht|Hc]; [by apply (fm_all_apart _ _ _ _ _ _ _ _ _ _ _ _ _ _ _ _ _ _ _ _ Hfm a)|].
      destruct (context_low a Hc). apply (kr_free _ _ _ _ _ _ Hrun) in HF. unfold ram in HF. lia.
    + intros Hk. apply Hf. exists tf. split; [apply elem_of_app; right; in_list|]. unfold kernel_word, tf_epc, PGSIZE in *. lia.
Qed.

Lemma state_5 : state_of (mem s5) t = RUNNING.
Proof using Hfm Hrun Hm34 Hm45 Hrep3 Hg4 Hcontext.
  pose proof sched_4 as [_ _ _ _ _ Hst _ _]. rewrite <-Hst. apply (rd_ext 4). intros b Hb. apply Hm45. intros (_ & _ & Hn)%word_apart.
  apply Hn. right. right. exists t. split; [by left|]. unfold sizeof_task_struct, t_state in *. simpl in Hb. lia.
Qed.

(** A register of the trap frame above the words of the kernel. *)
Lemma register_5 o : tf_epc <= o -> o + 8 <= PGSIZE -> rd64 (mem s5) (tf + o) = rd64 (mem s2) (tf + o).
Proof using HwOk Hfm Hrun Hm23 Hm34 Hm45 Hcontext.
  intros Ho1 Ho2. apply rd_ext. intros b Hb. simpl in Hb. apply keep_25; [|unfold kernel_word; lia].
  intros (_ & Hf & _)%touched_apart. apply Hf. exists tf. split; [apply elem_of_app; right; in_list|]. unfold tf_epc in *. lia.
Qed.

End Fifth.

Hypothesis Helf : elf_at (mem s0) init_program size sgs entry.
Hypothesis Hend : program_end sgs + 2 * PGSIZE <= SHARED_MEMORY - PGSIZE.
Hypothesis Hentry : fields (mem s2) tf (entry_fields entry).
Hypothesis Hsatp : csr_val s4 satp = MAKE_SATP root.

Lemma reaches_user : leaves user_trap_return (fun target v s5 =>
  target = TRAMPOLINE +w (user_return -w trampoline) /\ v = MAKE_SATP pt /\
  first_instruction (mem s0) s5 root t pt tf sh ks entry sgs E page stack ps) s4.
Proof using All.
  eapply leaves_mono; [apply (user_trap_return_ok s4 t tf pt on_cpu_4)|].
  intros target v s5 (H1 & H2 & Hst & Hpc & Hmode & Hk1 & Hk2 & Hk3 & Hg5 & _ & Hm45). split; [done|]. split; [done|].
  unfold entry_fields, fields in Hentry. rewrite !Forall_cons in Hentry. destruct Hentry as (Hsp & Hepc & _).
  pose proof (queues_5 s5 Hm45) as [Hq1 Hq2]. split.
  - rewrite Hpc. etransitivity; [|exact Hepc]. by apply (register_5 s4).
  - done.
  - done.
  - by apply image_5.
  - etransitivity; [|exact Hsp]. by apply (register_5 s5 Hm45 tf_sp).
  - exists F', T'. split; [by apply kernel_table_5|by apply user_table_5].
  - rewrite Hsatp in Hk1. constructor; [exact Hk1|]. constructor; [|constructor; [exact Hk3|constructor]]. simpl. change (rd 8) with rd64. rewrite Hk2.
    f_equal. f_equal. apply (task_word t_kernel_stack 8); [apply elem_of_app; right; right; unfold task_fields; in_list|done|done|task_unfold; lia].
  - by apply state_5.
  - rewrite Hg5. split; [done|]. by exists x1.
Qed.

End First.

(** C38: From the image that boot leaves ([boot_image]: cleared globals, the ELF file
    of init with segments that start on a page and share none, a UART that
    answers, and memory enough), [main] brings up the machine and starts the
    first program.  The page allocator gets the RAM above the image, the page
    table of the kernel goes to satp, the devices are told, and [init_scheduler]
    makes the process of the ELF file [init_program]; then the scheduler switches
    from [now_context] to the context of that process, which returns to
    [user_trap_return] on its own kernel stack.  From there the kernel leaves to
    user mode by the trampoline, with the page table of the process, at the
    entry point of the file: segments, zeroed stack and arguments are in memory
    as the program will see them, the registers point to them, both page tables
    are valid, and the next trap will find the page table, stack and handler of
    the kernel. *)
Theorem main_starts_user size entry sgs s : boot_image s size entry sgs ->
  switches main (fun old new s1 _ => old = now_context /\ exists root t pt tf sh ks E page stack ps,
    new = t + t_context /\
    fields (mem s1) t [(t_context + context_ra, 8%nat, user_trap_return_addr); (t_context + context_sp, 8%nat, ks +w PGSIZE)] /\
    forall s2, saved s1 s2 -> leaves user_trap_return (fun target v s3 =>
      target = TRAMPOLINE +w (user_return -w trampoline) /\ v = MAKE_SATP pt /\
      first_instruction (mem s) s3 root t pt tf sh ks entry sgs E page stack ps) s2) s.
Proof.
  intros [Htext Hresp Hglob Hpid Hret Hctx Helf Hplace Hap [Hlen Hnd] Hend Hmem]. set (np := length (segment_pages (mem s) init_program sgs)) in *.
  rewrite !Forall_cons in Hglob. destruct Hglob as (Hpan & Hbh & Hbt & Hrun & _). destruct Hctx as (Hcx1 & Hcx2 & Hcx3).
  apply (start_up (20 + 3 * np)); [done|done|done|apply ram_capacity; by replace (S (20 + 3 * np + 73)) with (94 + 3 * np)%nat by lia|].
  intros s1 root F T Hk. pose proof Hk as [Hat Hcap HF Hsatp Hg1 Hm1].
  assert (Hlow : forall a, init_program <= a < init_program + size -> ~ heap_touch ram None a).
  { intros a Ha [Ht|[Ht|[]]]; [by apply (Hap a)|unfold ram in Ht; lia]. }
  assert (Hkeep : keeps (fun a => init_program <= a < init_program + size) (mem s) (mem s1)) by (by apply (keeps_modifies _ _ _ _ Hm1)).
  pose proof kernel_end_range as Hke.
  assert (Hram : ram_range init_program size) by (unfold ram_range; lia).
  pose proof (segment_pages_mem (mem s1) (mem s) init_program sgs) as Hpages.
  pose proof (vm_root s1 F root kernel_entry T Hat) as Hroot.
  assert (Hn1 : forall g, g <> kernel_pagetable -> glob s1 g = glob s g) by (intros g Hg; by rewrite Hg1, fn_lookup_insert_ne).
  apply switches_bind. eapply wp_mono.
  { apply (init_scheduler_ok F size entry sgs s1).
    - pose proof Hat as (_ & Hp & _). split; [exact Hp|]. by rewrite !Hn1 by done.
    - by rewrite Hpages.
    - split; rewrite ?Hn1 by done; [done|done| |done|].
      + rewrite Hg1, fn_lookup_insert. unfold PHYSTOP, KERNBASE in *. lia.
      + destruct Htext as [_ Hr _ Ht]. unfold PHYSTOP, KERNBASE in *. lia.
    - by apply (elf_at_keep (mem s)).
    - done.
    - intros a Ha [Ht|[Ht|[]]]; [by apply (Hap a)|]. apply HF in Ht. unfold ram in Ht. lia.
    - done.
    - by rewrite Hpages.
    - done. }
  intros [] s2 (_ & Hc2 & Hg2 & Hm2 & pt & tf & sh & ks & Hfp). set (t := glob s2 init_task_ptr) in *.
  destruct (first_process_keep s s1 s2 F F init_program size entry sgs t pt tf sh ks Hfp) as [Hfields _ Hentry (F' & B & E & T' & l & page & stack & ps & x1 & x2 & Hfm)];
    [by apply Hn1|exact (el_segments _ _ _ _ _ Helf)|done|done|].
  assert (Hidle : idle_rep s2 (glob s2 runnable_tasks) [(x2, t)]).
  { split; [done| |exact (fm_run _ _ _ _ _ _ _ _ _ _ _ _ _ _ _ _ _ _ _ _ Hfm)| |exact (fm_layout _ _ _ _ _ _ _ _ _ _ _ _ _ _ _ _ _ _ _ _ Hfm)].
    - rewrite Hg2, Hn1 by set_solver. done.
    - intros u ->%list_elem_of_singleton. apply (proj1 (Forall_forall _ _) Hfields (t_state, 4%nat, RUNNABLE)).
      apply elem_of_app; right; right; unfold task_fields; in_list. }
  apply switches_bind_l. eapply switches_mono; [exact (scheduler_first _ _ _ _ _ Hidle)|].
  intros old new s3 k (-> & -> & Hrep3 & Hm3 & Hg3 & Hc3). split; [done|].
  exists root, t, pt, tf, sh, ks, E, page, stack, ps. split; [done|]. split.
  - assert (Hword : forall o v, (o, 8%nat, v) ∈ task_fields (glob s next_pid) NULL ks tf pt sh -> 0 <= o -> o + 8 <= sizeof_task_struct ->
      o + 8 <= t_state \/ t_state + 4 <= o -> rd64 (mem s3) (t + o) = v).
    { intros o v Hin Ho1 Ho2 Ho3. change (rd 8 (mem s3) (t + o) = v). eapply (task_word s s1 s2 s3 s3); try done. apply elem_of_app. right. by right. }
    apply Forall_cons; split; [|apply Forall_cons; split; [|by apply Forall_nil]]; apply Hword; try (unfold task_fields; in_list); task_unfold; simpl; lia.
  - intros s4 (m4 & -> & Hm4). eapply (reaches_user s s1 s2 s3 _ _ root F T size); try done.
    + rewrite <-Hsatp, <-(Hc2 satp), <-(Hc3 satp) by done. done.
Qed.

End Main.

(** ** An instance: power-on with the program of TaskElfTheorems.v in the image *)

Section Witnesses.
#[local] Existing Instances board board_ok.

Definition image_state : state := set_mem (elf_mem ∅) power_on.

Lemma image_boots : boot_image image_state 512 0x1004 elf_segments.
Proof.
  split; [exact board_text|exact board_responsive|by repeat constructor|by vm_compute|by vm_compute| | | | | |by vm_compute|].
  - split; [done|]. split; [done|]. intros a Ha Hh. unfold heads in Hh. change buddy_pool with 0x80010000 in Hh.
    change now_context with 0x80010100 in Ha. lia.
  - apply (elf_image power_on). by right; right.
  - by vm_compute.
  - change init_program with 0x80013000. intros a Ha Hh. unfold heads in Hh. change buddy_pool with 0x80010000 in Hh. lia.
  - split; [simpl; lia|]. apply (bool_decide_unpack _). by vm_compute.
  - by vm_compute.
Qed.

Lemma main_starts_user_witness :
  switches main (fun old new s1 _ => old = now_context /\ exists root t pt tf sh ks E page stack ps, new = t + t_context /\
    forall s2, saved s1 s2 -> leaves user_trap_return (fun target v s3 =>
      target = TRAMPOLINE + 0x100 /\ v = MAKE_SATP pt /\ csr_val s3 sepc = 0x1004 /\ user_byte (mem s3) E 0x1004 = 0x93 /\
      first_instruction (mem image_state) s3 root t pt tf sh ks 0x1004 elf_segments E page stack ps) s2) image_state.
Proof.
  eapply switches_mono; [apply (main_starts_user 512 0x1004 elf_segments image_state image_boots)|].
  intros old new s1 k (-> & root & t & pt & tf & sh & ks & E & page & stack & ps & -> & _ & Hu). split; [done|].
  exists root, t, pt, tf, sh, ks, E, page, stack, ps. split; [done|]. intros s2 Hs.
  eapply leaves_mono; [exact (Hu s2 Hs)|]. intros target v s3 (-> & -> & Hf). split; [by vm_compute|]. split; [done|].
  split; [exact (fi_pc _ _ _ _ _ _ _ _ _ _ _ _ _ _ Hf)|]. split; [|exact Hf].
  pose proof (ui_segments _ _ _ _ _ _ _ _ _ _ (fi_image _ _ _ _ _ _ _ _ _ _ _ _ _ _ Hf)) as Hall.
  apply Forall_cons in Hall as [Hs0 _]. destruct (Hs0 0 ltac:(by vm_compute)) as (_ & _ & H0).
  etransitivity; [exact (H0 4 ltac:(by vm_compute))|by vm_compute].
Defined.

End Witnesses.
