(* ===== verification/UserMachine.v ===== *)
(** * User programs: the machine they run on

    A user program (src/user) runs in its own address space, the image and the
    stack that the kernel has mapped, and gets everything else from system
    calls.  The kernel is a parameter here, the class [UserWorld]: what a system
    call returns, what it does to the user memory, or that it does not return.
    Its laws for the console are the
    class [Terminal] of UserProof.v. *)

From S2P Require Import Prelude Machine.

Class UserWorld := {
  ker : Type;                    (** the kernel, as this program sees it *)
  (** [serve id args m k]: the result, the user memory and the kernel after
      system call [id]; [None] if the call does not return. *)
  serve : Z -> list Z -> gmap Z Z -> ker -> option (Z * gmap Z Z * ker);
  mapped : Z -> bool;            (** the addresses the program may access *)
  program_envp : Z;              (** sh.c: the arrays of the shell *)
  path : Z;
  tmp_argv : Z;
  local_line : Z;                (** locals whose addresses are taken *)
  local_int : Z
}.

Record ustate `{UserWorld} := mkU {
  umem : gmap Z Z;               (** user memory, by byte *)
  ulast : Z;                     (** ulib.h: the static of [strtok] *)
  uker : ker
}.

#[global] Arguments mkU {_}.
#[global] Arguments umem {_}.
#[global] Arguments ulast {_}.
#[global] Arguments uker {_}.

(** A computation returns, does not come back from a system call, accesses an
    address it may not, spins, or runs a loop for 2^64 iterations. *)
Inductive uoutcome `{UserWorld} (A : Type) : Type :=
  | UOk (a : A) (s : ustate)
  | UEnds (s : ustate)
  | UFault (a : Z) (s : ustate)
  | USpin (s : ustate)
  | UTimeout (s : ustate).
Arguments UOk {_ A}. Arguments UEnds {_ A}. Arguments UFault {_ A}.
Arguments USpin {_ A}. Arguments UTimeout {_ A}.

Definition U `{UserWorld} (A : Type) : Type := ustate -> uoutcome A.

#[export] Instance U_ret `{UserWorld} : MRet U := fun A a s => UOk a s.
#[export] Instance U_bind `{UserWorld} : MBind U := fun A B f m s =>
  match m s with
  | UOk a s => f a s
  | UEnds s => UEnds s
  | UFault a s => UFault a s
  | USpin s => USpin s
  | UTimeout s => UTimeout s
  end.

Section Code.
Context `{UW : UserWorld}.

Definition set_umem (m : gmap Z Z) (s : ustate) : ustate := mkU m (ulast s) (uker s).

Fixpoint uiterate {X A} (d : nat) (body : X -> U (X + A)) (x : X) : U (X + A) :=
  match d with
  | O => body x
  | S d => r ← uiterate d body x;
           match r with
           | inl x' => uiterate d body x'
           | inr a => mret (inr a)
           end
  end.
Definition utimeout {A} : U A := fun s => UTimeout s.
Definition uloop {X A} (body : X -> U (X + A)) (x : X) : U A :=
  r ← uiterate 64 body x;
  match r with
  | inr a => mret a
  | inl _ => utimeout
  end.

(** All bytes of the access are mapped. *)
Definition umapped (a : Z) (n : nat) : bool := forallb (fun i => mapped (a + Z.of_nat i)) (seq 0 n).
Definition uload (n : nat) (a : Z) : U Z := fun s =>
  if umapped a n then UOk (rd n (umem s) a) s else UFault a s.
Definition ustore (n : nat) (a v : Z) : U unit := fun s =>
  if umapped a n then UOk tt (set_umem (wr n (umem s) a v) s) else UFault a s.

Definition get_last : U Z := fun s => UOk (ulast s) s.
Definition put_last (v : Z) : U unit := fun s => UOk tt (mkU (umem s) v (uker s)).

(** Undefined behaviour of C, and an empty endless loop. *)
Definition undefined {A} : U A := fun s => UFault 0 s.
Definition uspin {A} : U A := fun s => USpin s.

(** syscall.S: the arguments are in a0 to a6, the number in a7. *)
Definition syscall (arg1 arg2 arg3 arg4 arg5 arg6 arg7 id : Z) : U Z := fun s =>
  match serve id [arg1; arg2; arg3; arg4; arg5; arg6; arg7] (umem s) (uker s) with
  | Some (r, m, k) => UOk r (mkU m (ulast s) k)
  | None => UEnds s
  end.

(** ** Total correctness *)

(** [uwp m Q s]: from [s], [m] returns, with a value and a state that satisfy
    [Q].  [uends m Q s]: [m] makes a system call that does not return, in a
    state that satisfies [Q]. *)
Definition uwp {A} (m : U A) (Q : A -> ustate -> Prop) (s : ustate) : Prop :=
  match m s with UOk a s' => Q a s' | _ => False end.
Definition uends {A} (m : U A) (Q : ustate -> Prop) (s : ustate) : Prop :=
  match m s with UEnds s' => Q s' | _ => False end.

Lemma uwp_ret {A} (a : A) (Q : A -> ustate -> Prop) s : Q a s -> uwp (mret a) Q s.
Proof. done. Qed.

Lemma uwp_bind {A B} (m : U A) (f : A -> U B) Q s :
  uwp m (fun a s' => uwp (f a) Q s') s -> uwp (m ≫= f) Q s.
Proof. unfold uwp, mbind, U_bind. by destruct (m s). Qed.

Lemma uwp_mono {A} (m : U A) (P Q : A -> ustate -> Prop) s :
  uwp m P s -> (forall a s', P a s' -> Q a s') -> uwp m Q s.
Proof. unfold uwp. destruct (m s); naive_solver. Qed.

Lemma uends_bind {A B} (m : U A) (f : A -> U B) Q s :
  uwp m (fun a s' => uends (f a) Q s') s -> uends (m ≫= f) Q s.
Proof. unfold uends, uwp, mbind, U_bind. by destruct (m s). Qed.

Lemma uends_bind_l {A B} (m : U A) (f : A -> U B) Q s : uends m Q s -> uends (m ≫= f) Q s.
Proof. unfold uends, mbind, U_bind. by destruct (m s). Qed.

Lemma uwp_load n a (Q : Z -> ustate -> Prop) s :
  umapped a n = true -> Q (rd n (umem s) a) s -> uwp (uload n a) Q s.
Proof. unfold uwp, uload. by intros ->. Qed.

Lemma uwp_store n a v (Q : unit -> ustate -> Prop) s :
  umapped a n = true -> Q tt (set_umem (wr n (umem s) a v) s) -> uwp (ustore n a v) Q s.
Proof. unfold uwp, ustore. by intros ->. Qed.

Lemma uwp_get_last (Q : Z -> ustate -> Prop) s : Q (ulast s) s -> uwp get_last Q s.
Proof. done. Qed.

Lemma uwp_put_last v (Q : unit -> ustate -> Prop) s :
  Q tt (mkU (umem s) v (uker s)) -> uwp (put_last v) Q s.
Proof. done. Qed.

Lemma uwp_iterate {X A} (body : X -> U (X + A)) (I : Z -> X -> ustate -> Prop)
    (Q : A -> ustate -> Prop) :
  (forall n x s, I n x s -> 0 <= n /\
     uwp (body x) (fun r s' => match r with
       | inl x' => exists n', n' < n /\ I n' x' s'
       | inr a => Q a s' end) s) ->
  forall d n x s, I n x s ->
  uwp (uiterate d body x) (fun r s' => match r with
       | inl x' => exists n', n' + 2 ^ Z.of_nat d <= n /\ I n' x' s'
       | inr a => Q a s' end) s.
Proof.
  intros Hbody. induction d as [|d IH]; intros n x s HI; simpl uiterate.
  - destruct (Hbody n x s HI) as [_ H]. eapply uwp_mono; [exact H|].
    intros [x'|a] s'; [|done]. intros (n' & ? & ?). exists n'. simpl. split; [lia|done].
  - apply uwp_bind. eapply uwp_mono; [exact (IH n x s HI)|].
    intros [x'|a] s'; [|done]. intros (n' & Hn' & HI').
    eapply uwp_mono; [exact (IH n' x' s' HI')|].
    intros [x''|a] s''; [|done]. intros (n'' & Hn'' & HI'').
    exists n''. rewrite Nat2Z.inj_succ, Z.pow_succ_r by lia. split; [lia|done].
Qed.

(** The loop rule: a measure below 2^64 that decreases. *)
Lemma uwp_loop {X A} (I : Z -> X -> ustate -> Prop) n (body : X -> U (X + A)) x
    (Q : A -> ustate -> Prop) s :
  I n x s -> n < 2 ^ 64 ->
  (forall n x s, I n x s -> 0 <= n /\
     uwp (body x) (fun r s' => match r with
       | inl x' => exists n', n' < n /\ I n' x' s'
       | inr a => Q a s' end) s) ->
  uwp (uloop body x) Q s.
Proof.
  intros HI Hn Hbody. unfold uloop. apply uwp_bind.
  eapply uwp_mono; [exact (uwp_iterate body I Q Hbody 64 n x s HI)|].
  intros [x'|a] s'; [|done]. intros (n' & Hn' & HI').
  destruct (Hbody _ _ _ HI') as [? _]. change (Z.of_nat 64) with 64 in Hn'. lia.
Qed.

End Code.

Abbreviation uload8 := (uload 1).
Abbreviation uload32 := (uload 4).
Abbreviation uload64 := (uload 8).
Abbreviation ustore8 := (ustore 1).
Abbreviation ustore32 := (ustore 4).
Abbreviation ustore64 := (ustore 8).

Ltac uwp_step :=
  lazymatch goal with
  | |- uwp (mret _) _ _ => apply uwp_ret
  | |- uwp (if true then ?m else _) ?Q ?s => change (uwp m Q s)
  | |- uwp (if false then _ else ?m) ?Q ?s => change (uwp m Q s)
  | |- uwp (_ ≫= _) _ _ => apply uwp_bind
  | |- uwp (uload _ _) _ _ => apply uwp_load; [try done|]
  | |- uwp (ustore _ _ _) _ _ => apply uwp_store; [try done|]
  | |- uwp get_last _ _ => apply uwp_get_last
  | |- uwp (put_last _) _ _ => apply uwp_put_last
  end.
Ltac uwp_steps := repeat uwp_step.
