(* ===== verification/System.v ===== *)
(** * System calls of user programs: system.c

    The wrappers around [ecall], and the layout of the page that [exec] shares
    with the kernel. *)

From S2P Require Import Prelude Machine UserMachine.

Definition SYSCALL_FORK : Z := 1.
Definition SYSCALL_EXEC : Z := 2.
Definition SYSCALL_EXIT : Z := 3.
Definition SYSCALL_WAIT : Z := 4.
Definition SYSCALL_WAIT_PID : Z := 5.
Definition SYSCALL_SEND_SIGNAL : Z := 6.
Definition SYSCALL_YIELD : Z := 7.
Definition SYSCALL_POWER_OFF : Z := 8.
Definition SYSCALL_PUT_CHAR : Z := 9.
Definition SYSCALL_GET_CHAR : Z := 10.

Section Code.
Context `{UW : UserWorld}.

Definition fork : U Z := syscall 0 0 0 0 0 0 0 SYSCALL_FORK.

(** The variables of the loop of [exec]. *)
Record marshal := mkMarshal {
  ma_i : Z; ma_state : Z; ma_count1 : Z; ma_count2 : Z; ma_argv_size : Z; ma_envp_size : Z
}.

(** A character of the strings at [vec]: cases 1 and 2 copy it alike. *)
Definition marshal_char (vec i count1 count2 : Z) : U (Z * Z) :=
  p ← uload64 (vec +w 8 * count1);
  c ← uload8 (p +w count2);
  ustore8 (SHARED_MEMORY + i) c;;
  p ← uload64 (vec +w 8 * count1);
  c ← uload8 (p +w count2);
  mret (if c =? 0 then (count1 + 1, 0) else (count1, count2 + 1)).

(** The body of the loop, [++i] included. *)
Definition marshal_step (name argv envp : Z) (x : marshal) : U marshal :=
  let '(mkMarshal i state count1 count2 argv_size envp_size) := x in
  if state =? 0 then
    c ← uload8 (name +w i);
    ustore8 (SHARED_MEMORY + i) c;;
    c ← uload8 (name +w i);
    mret (mkMarshal (i + 1) (if c =? 0 then 1 else 0) count1 count2 argv_size envp_size)
  else if state =? 1 then
    p ← uload64 (argv +w 8 * count1);
    if p =? NULL then mret (mkMarshal i 2 0 0 count1 envp_size)
    else
      cc ← marshal_char argv i count1 count2;
      mret (mkMarshal (i + 1) 1 cc.1 cc.2 argv_size envp_size)
  else
    p ← uload64 (envp +w 8 * count1);
    if p =? NULL then
      ustore8 (SHARED_MEMORY + i) 0;;
      mret (mkMarshal (i + 1) 2 count1 count2 argv_size count1)
    else
      cc ← marshal_char envp i count1 count2;
      mret (mkMarshal (i + 1) 2 cc.1 cc.2 argv_size envp_size).

Definition exec (name argv envp : Z) : U Z :=
  x ← uloop (fun x =>
    if ma_i x <? 4096 then x ← marshal_step name argv envp x; mret (inl x)
    else mret (inr x)) (mkMarshal 0 0 0 0 0 0);
  ustore8 (SHARED_MEMORY + (PGSIZE - 1)) 0;;
  r ← syscall name argv envp (w64 (ma_argv_size x)) (w64 (ma_envp_size x)) 0 0 SYSCALL_EXEC;
  mret (s32 r).

Definition exit {A} (status : Z) : U A :=
  syscall (w64 status) 0 0 0 0 0 0 SYSCALL_EXIT;;
  uspin.

(** What [wait] and [wait_pid] do with the result of the call. *)
Definition fetch_status (return_val status : Z) : U Z :=
  (if negb (return_val =? NULL) then
     v ← uload32 SHARED_MEMORY;
     ustore32 status v
   else mret tt);;
  mret return_val.

Definition wait (status : Z) : U Z :=
  r ← syscall status 0 0 0 0 0 0 SYSCALL_WAIT;
  fetch_status (s32 r) status.

Definition wait_pid (pid status : Z) : U Z :=
  r ← syscall pid status 0 0 0 0 0 SYSCALL_WAIT_PID;
  return_val ← fetch_status (s32 r) status;
  mret (w64 return_val).

Definition send_signal (pid sig : Z) : U Z :=
  r ← syscall pid (w64 sig) 0 0 0 0 0 SYSCALL_SEND_SIGNAL;
  mret (s32 r).

Definition yield : U unit := syscall 0 0 0 0 0 0 0 SYSCALL_YIELD;; mret tt.

Definition power_off : U Z := r ← syscall 0 0 0 0 0 0 0 SYSCALL_POWER_OFF; mret (s32 r).

Definition put_char (character : Z) : U unit :=
  syscall (w64 character) 0 0 0 0 0 0 SYSCALL_PUT_CHAR;; mret tt.

(** [char] is unsigned. *)
Definition get_char : U Z := r ← syscall 0 0 0 0 0 0 0 SYSCALL_GET_CHAR; mret (w8 r).

Definition _start (main : Z -> Z -> Z -> U Z) (argc argv envp : Z) : U unit :=
  r ← main argc argv envp; exit r.

End Code.
