(* ===== verification/Ulib.v ===== *)
(** * The user library: ulib.h and ulib.c

    Strings, line input and formatted output of user programs.  A string is a
    literal of the program or a pointer ([cstr]). *)

From S2P Require Import Prelude Machine Utility UserMachine System.

Section Code.
Context `{UW : UserWorld}.

(** [s[i]]. *)
Definition uchar_at (str : cstr) (i : Z) : U Z :=
  match str with
  | Ptr a => uload8 (a +w i)
  | Lit l =>
      match String.get (Z.to_nat i) l with
      | Some c => mret (code c)
      | None => if i =? Z.of_nat (String.length l) then mret 0 else undefined
      end
  end.

(** ** ulib.h *)

(** The counters [n--] of [memset] and [memcpy] run down to zero. *)
Definition memset (dst c n : Z) : U Z :=
  uloop (fun '(pos, n) =>
    if n =? 0 then mret (inr tt)
    else ustore8 pos (w8 c);; mret (inl (pos +w 1, n - 1))) (dst, n);;
  mret dst.

Definition memcpy (dst src n : Z) : U Z :=
  uloop (fun '(pos_dst, pos_src, n) =>
    if n =? 0 then mret (inr tt)
    else c ← uload8 pos_src; ustore8 pos_dst c;; mret (inl (pos_dst +w 1, pos_src +w 1, n - 1)))
    (dst, src, n);;
  mret dst.

Definition strlen (str : cstr) : U Z :=
  uloop (fun n =>
    c ← uchar_at str n;
    if truth c then mret (inl (n + 1)) else mret (inr n)) 0.

(** The two pointers advance together. *)
Definition strcmp (s1 s2 : cstr) : U Z :=
  i ← uloop (fun i =>
        c1 ← uchar_at s1 i;
        if truth c1 then
          c1 ← uchar_at s1 i;
          c2 ← uchar_at s2 i;
          if c1 =? c2 then mret (inl (i +w 1)) else mret (inr i)
        else mret (inr i)) 0;
  c1 ← uchar_at s1 i;
  c2 ← uchar_at s2 i;
  mret (c1 - c2).

Definition strcpy (dest : Z) (src : cstr) (size : Z) : U unit :=
  uloop (fun i =>
    if i <? size then
      c ← uchar_at src i; ustore8 (dest +w i) c;; mret (inl (i +w 1))
    else mret (inr tt)) 0;;
  ustore8 (dest +w size) 0.

Definition string_includes (str : cstr) (c : Z) : U bool :=
  uloop (fun i =>
    d ← uchar_at str i;
    if truth d then
      d ← uchar_at str i;
      if d =? c then mret (inr true) else mret (inl (i +w 1))
    else mret (inr false)) 0.

(** The static variable of the function is [ulast]. *)
Definition skip_delimiters (delim : cstr) : U unit :=
  uloop (fun _ : unit =>
    last ← get_last;
    c ← uload8 last;
    hit ← (if truth c then last ← get_last; c ← uload8 last; string_includes delim c else mret false);
    if (hit : bool) then last ← get_last; put_last (last +w 1);; mret (inl tt) else mret (inr tt)) tt.

Definition strtok (str : Z) (delim : cstr) : U Z :=
  (if negb (str =? NULL) then put_last str else mret tt);;
  last ← get_last;
  if last =? NULL then mret NULL
  else
    skip_delimiters delim;;
    ret ← get_last;
    found ← uloop (fun _ : unit =>
      last ← get_last;
      c ← uload8 last;
      if truth c then
        last ← get_last;
        c ← uload8 last;
        hit ← string_includes delim c;
        if (hit : bool) then
          last ← get_last;
          ustore8 last 0;;
          put_last (last +w 1);;
          mret (inr true)
        else last ← get_last; put_last (last +w 1);; mret (inl tt)
      else mret (inr false)) tt;
    if (found : bool) then mret ret
    else
      put_last NULL;;
      c ← uload8 ret;
      mret (if c =? 0 then NULL else ret).

(** The counter stays below [max_length], an [int]. *)
Definition read_until (buffer max_length : Z) (end_ : Z) : U Z :=
  r ← uloop (fun i =>
    if i + 1 <? max_length then
      c ← get_char;
      if c =? 127 then
        if 0 <? i then
          put_char 8;; put_char (code " ");; put_char 8;; mret (inl (i - 1))
        else mret (inl i)
      else
        put_char c;;
        ustore8 (buffer +w i) c;;
        let i := i + 1 in
        if (c =? end_) || (c =? 0) then
          ustore8 (buffer +w i) 0;; mret (inr None)
        else mret (inl i)
    else mret (inr (Some i))) 0;
  match r with
  | None => mret 0
  | Some i => ustore8 (buffer +w i) 0;; mret (-1)
  end.

(** ** ulib.c *)

(** [int] addition: the counters of characters are 32 bits wide, and C leaves
    their overflow undefined.  (The counts of digits below are at most 66.) *)
Definition int_add (a b : Z) : U Z :=
  if (- 2 ^ 31 <=? a + b) && (a + b <? 2 ^ 31) then mret (a + b) else undefined.

Definition print_char (c : Z) : U Z := put_char c;; mret 1.

Definition print_string (str : cstr) : U Z :=
  uloop (fun i =>
    c ← uchar_at str i;
    if negb (c =? 0) then c ← uchar_at str i; put_char c;; i ← int_add i 1; mret (inl i)
    else mret (inr i)) 0.

(** The three recursive functions print the digits of [n] in base [b]; [digit]
    is what they print for one.  A 64-bit number has at most 64 digits. *)
Fixpoint print_digits (fuel : nat) (b : Z) (digit : Z -> Z) (n : Z) : U Z :=
  match fuel with
  | O => utimeout
  | S fuel =>
      if n =? 0 then put_char (code "0");; mret 1
      else
        length ← (if b <=? n then print_digits fuel b digit (n / b) else mret 0);
        put_char (digit (n mod b));;
        mret (length + 1)
  end.

Definition print_unsigned_int (n : Z) : U Z := print_digits 64 10 (fun d => code "0" + d) n.
Definition print_int_oct_without_header (n : Z) : U Z := print_digits 64 8 (fun d => code "0" + d) n.
Definition print_int_hex_without_header (n : Z) : U Z :=
  print_digits 64 16 (fun digit => if digit <? 10 then code "0" + digit else code "a" + digit - 10) n.

(** [n] is an [int64]; its negation wraps. *)
Definition print_int_dec (n : Z) (sign : bool) : U Z :=
  if sign && (n <? 0) then
    put_char (code "-");;
    length ← print_unsigned_int (w64 (- n));
    mret (1 + length)
  else print_unsigned_int (w64 n).

Definition print_int_hex (n : Z) : U Z :=
  print_string (Lit "0x");;
  length ← print_int_hex_without_header n;
  mret (length + 2).

Definition print_int_oct (n : Z) : U Z :=
  put_char (code "0");;
  if n =? 0 then mret 1
  else length ← print_int_oct_without_header n; mret (length + 1).

Definition print_int (n : Z) (sign : bool) (base : Z) : U Z :=
  if base =? 16 then print_int_hex (w64 n)
  else if base =? 10 then print_int_dec n sign
  else if base =? 8 then print_int_oct (w64 n)
  else mret (-1).

(** [va_arg]: reading past the arguments is undefined. *)
Definition va_arg (args : list Z) : U (Z * list Z) :=
  match args with [] => undefined | x :: args => mret (x, args) end.

(** The [switch] on the conversion character; [None] is [return -1]. *)
Definition conversion (c : Z) (args : list Z) : U (option (Z * list Z)) :=
  if c =? code "c" then
    '(x, args) ← va_arg args;
    print_char (w8 x);;
    mret (Some (1, args))
  else if (c =? code "d") || (c =? code "i") then
    '(x, args) ← va_arg args;
    n ← print_int (s32 x) true 10;
    mret (Some (n, args))
  else if c =? code "o" then
    '(x, args) ← va_arg args;
    n ← print_int_oct x;
    mret (Some (n, args))
  else if c =? code "p" then
    '(x, args) ← va_arg args;
    n ← print_int_hex x;
    mret (Some (n, args))
  else if c =? code "s" then
    '(x, args) ← va_arg args;
    n ← print_string (Ptr x);
    mret (Some (n, args))
  else if c =? code "u" then
    '(x, args) ← va_arg args;
    n ← print_int (s64 x) false 10;
    mret (Some (n, args))
  else if c =? code "x" then
    '(x, args) ← va_arg args;
    n ← print_int (s64 x) false 16;
    mret (Some (n, args))
  else if c =? code "%" then
    print_char (code "%");;
    mret (Some (1, args))
  else mret None.

(** [i] is the position of [format], [c] the character there. *)
Definition vprintf (format : cstr) (args : list Z) : U Z :=
  c ← uchar_at format 0;
  uloop (fun '(i, c, args, length) =>
    if c =? 0 then mret (inr length)
    else
      r ← (if c =? code "%" then
             c ← uchar_at format (i + 1);
             if c =? 0 then mret None
             else
               c ← uchar_at format (i + 1);
               r ← conversion c args;
               match r with
               | None => mret None
               | Some (n, args) => length ← int_add length n; mret (Some (i + 1, args, length))
               end
           else print_char c;; length ← int_add length 1; mret (Some (i, args, length)));
      match r with
      | None => mret (inr (-1))
      | Some (i, args, length) =>
          c ← uchar_at format (i + 1);
          mret (inl (i + 1, c, args, length))
      end) (0, c, args, 0).

Definition printf (format : cstr) (args : list Z) : U Z := vprintf format args.

End Code.
