(* ===== verification/Shell.v ===== *)
(** * The user programs: sh.c, echo.c and the test programs

    [main] of each program, and the command line of the shell. *)

From S2P Require Import Prelude Machine Utility UserMachine System Ulib.

Definition MAX_LINE_LENGTH : Z := 4096.

Inductive builtin := HELP | EXIT | POWEROFF | NON_BUILTIN.

Definition newline_chars : string := String (Ascii.ascii_of_nat 10) EmptyString.
Definition parameter_delimiters : string :=
  String " " (String (Ascii.ascii_of_nat 9) (String (Ascii.ascii_of_nat 13) newline_chars)).

Section Code.
Context `{UW : UserWorld}.

Definition program_type (program : Z) : U builtin :=
  r ← strcmp (Ptr program) (Lit "help");
  if r =? 0 then mret HELP
  else
    r ← strcmp (Ptr program) (Lit "exit");
    if r =? 0 then mret EXIT
    else
      r ← strcmp (Ptr program) (Lit "poweroff");
      if r =? 0 then mret POWEROFF else mret NON_BUILTIN.

(** One parameter of the line: the body of the parsing loop. *)
Definition add_parameter (parameter argc : Z) (b : builtin) : U (Z * builtin) :=
  first ← uload8 path;
  b ← (if first =? 0 then
         b ← program_type parameter;
         ustore8 path (code "/");;
         n ← strlen (Ptr parameter);
         strcpy (path + 1) (Ptr parameter) n;;
         mret b
       else mret b);
  ustore64 (tmp_argv + 8 * argc) parameter;;
  let argc := argc + 1 in
  ustore64 (tmp_argv + 8 * argc) NULL;;
  mret (argc, b).

(** The part of [execute_line] that parses the line. *)
Definition parse_line (line : Z) : U builtin :=
  parameter ← strtok line (Lit parameter_delimiters);
  uloop (fun '(parameter, argc, b) =>
    if parameter =? NULL then mret (inr b)
    else
      ab ← add_parameter parameter argc b;
      parameter ← strtok NULL (Lit parameter_delimiters);
      mret (inl (parameter, ab.1, ab.2))) (parameter, 0, NON_BUILTIN).

(** The loop that looks for the end of the environment; the result is not used. *)
Definition skip_environment : U unit :=
  uloop (fun old_envp =>
    e ← uload64 old_envp;
    if e =? NULL then mret (inr tt) else mret (inl (old_envp +w 8))) program_envp.

Definition run_program : U Z :=
  pid ← fork;
  if s32 pid =? 0 then
    exec path tmp_argv program_envp;;
    printf (Lit (String.append "execve failed!" newline_chars)) [];;
    exit (-1)
  else
    wait local_int;;
    exit_code ← uload32 local_int;
    mret (s32 exit_code).

Definition execute_line (line : Z) : U Z :=
  ustore64 tmp_argv NULL;;
  ustore8 path 0;;
  skip_environment;;
  b ← parse_line line;
  match b with
  | HELP =>
      print_string (Lit (String.append "help:     print this message" newline_chars));;
      print_string (Lit (String.append "exit:     exit shell" newline_chars));;
      print_string (Lit (String.append "poweroff: power off" newline_chars));;
      mret 0
  | EXIT => exit 0
  | POWEROFF => power_off;; mret 0
  | NON_BUILTIN =>
      first ← uload8 path;
      if negb (first =? 0) then run_program else mret 0
  end.

(** One round of the shell: prompt, line, command. *)
Definition sh_round : U unit :=
  r ← read_until local_line MAX_LINE_LENGTH 13;
  if negb (r =? 0) then
    printf (Lit (String.append "Too many characters in a line!" (String.append newline_chars "#"))) [];;
    mret tt
  else
    put_char 10;;
    exit_code ← execute_line local_line;
    if negb (exit_code =? 0) then printf (Lit "%d # ") [w64 exit_code];; mret tt
    else printf (Lit "# ") [];; mret tt.

Definition sh_main : U Z :=
  ustore64 program_envp NULL;;
  print_string (Lit (String.append "Welcome to sh!" (String.append newline_chars "# ")));;
  uloop (fun _ : unit => sh_round;; mret (inl tt)) tt.

(** ** echo.c *)

Definition echo_main (argc argv envp : Z) : U Z :=
  uloop (fun i =>
    if i <? argc then
      p ← uload64 (argv +w 8 * i);
      printf (Lit "%s ") [p];;
      mret (inl (i + 1))
    else mret (inr tt)) 1;;
  printf (Lit newline_chars) [];;
  mret 0.

(** ** hello.c, output.c, test_*.c *)

Definition hello_main : U Z :=
  uloop (fun i =>
    if i <? 14 then
      c ← uchar_at (Lit (String.append "Hello, world!" newline_chars)) i;
      put_char c;;
      mret (inl (i + 1))
    else mret (inr tt)) 0;;
  exit 0.

Definition output_main : U Z :=
  put_char (code "H");; put_char (code "e");; put_char (code "l");; put_char (code "l");;
  put_char (code "o");; mret 0.

(** [for (;;) put_char(c)]. *)
Definition put_forever (c : Z) : U Z :=
  uloop (fun _ : unit => put_char c;; mret (inl tt)) tt.

Definition test_fork_main : U Z :=
  pid ← fork;
  if truth pid then put_forever (code "1") else put_forever (code "2").

Definition test_get_char_main : U Z := c ← get_char; put_forever c.

Definition test_wait_main : U Z :=
  ustore32 local_int 0x32;;
  pid ← fork;
  if truth pid then
    wait local_int;;
    status ← uload32 local_int;
    put_char (s32 status);;
    uspin
  else exit 0x31.

Definition test_yield_main : U Z :=
  ustore32 local_int 0x32;;
  pid ← fork;
  if truth pid then
    yield;;
    wait local_int;;
    status ← uload32 local_int;
    put_char (s32 status);;
    uspin
  else exit 0x31.

Definition test_poweroff_main : U Z :=
  pid ← fork;
  if truth pid then
    yield;;
    power_off;;
    put_char (code "F");; put_char (code "A");; put_char (code "I");; put_char (code "L");;
    mret 0
  else
    r ← power_off;
    (if r =? -1 then put_char (code "a") else mret tt);;
    exit 0.

(** null.c: the store faults, since nothing is mapped at 0. *)
Definition null_main : U Z :=
  ustore32 0 10;;
  put_char (code "F");; put_char (code "a");; put_char (code "i");; put_char (code "l");;
  uspin.

End Code.
