(* ===== verification/UserProof.v ===== *)
(** * Console input and output of user programs

    The kernel's promise about the console as a class, and proofs about the
    printing functions and the line editor of the user library against it. *)

From S2P Require Import Prelude Machine Utility Uart UserMachine System Ulib.

(** What the kernel promises about characters: [shown] has been printed so far,
    [delivered] is what the calls of [get_char] that are still to come return.
    That need not be what was typed: [sys_get_char] of process.c polls the UART
    again after a poll that found a character, and drops that character
    ([ProcessTheorems.sys_get_char_drops]). *)
Class Terminal (W : UserWorld) := {
  shown : ker -> list Z;
  delivered : ker -> list Z;
  put_char_law c m k : exists k', serve SYSCALL_PUT_CHAR [c; 0; 0; 0; 0; 0; 0] m k = Some (0, m, k') /\
    shown k' = shown k ++ [w8 c] /\ delivered k' = delivered k;
  get_char_law c r m k : delivered k = c :: r -> exists k',
    serve SYSCALL_GET_CHAR [0; 0; 0; 0; 0; 0; 0] m k = Some (c, m, k') /\
    shown k' = shown k /\ delivered k' = r
}.

Section Output.
Context `{UW : UserWorld} {TT : Terminal UW}.

(** From [s] to [s'] the text [l] was printed, and nothing else happened. *)
Definition prints (s : ustate) (l : list Z) (s' : ustate) : Prop :=
  umem s' = umem s /\ ulast s' = ulast s /\ shown (uker s') = shown (uker s) ++ l /\
  delivered (uker s') = delivered (uker s).

Lemma prints_nil s : prints s [] s.
Proof. split_and!; [done..|by rewrite app_nil_r|done]. Qed.

Lemma prints_app s l s1 l' s2 : prints s l s1 -> prints s1 l' s2 -> prints s (l ++ l') s2.
Proof.
  intros (Hm & Hl & Hs & Ht) (Hm' & Hl' & Hs' & Ht'). unfold prints.
  rewrite Hs', Hs, <-app_assoc. split_and!; congruence.
Qed.

Lemma w8_w64 c : w8 (w64 c) = w8 c.
Proof.
  unfold w8, w64. rewrite <-Znumtheory.Zmod_div_mod; [done|lia|lia|]. by exists (2 ^ 56).
Qed.

Lemma put_char_ok c s (Q : unit -> ustate -> Prop) :
  (forall s', prints s [w8 c] s' -> Q tt s') -> uwp (put_char c) Q s.
Proof.
  intros HQ. unfold put_char. apply uwp_bind. unfold uwp, syscall.
  destruct (put_char_law (w64 c) (umem s) (uker s)) as (k & -> & Hs & Ht). apply HQ.
  split; [done|]. split; [done|]. split; [|done]. simpl. by rewrite Hs, w8_w64.
Qed.

Lemma get_char_ok c r s (Q : Z -> ustate -> Prop) :
  delivered (uker s) = c :: r -> 0 <= c < 256 ->
  (forall k, shown k = shown (uker s) -> delivered k = r -> Q c (mkU (umem s) (ulast s) k)) ->
  uwp get_char Q s.
Proof.
  intros Hc Hr HQ. unfold get_char. apply uwp_bind. unfold uwp, syscall.
  destruct (get_char_law c r (umem s) (uker s) Hc) as (k & -> & Hs & Ht).
  unfold mret, U_ret. rewrite w8_small by (change (2 ^ 8) with 256; lia). by apply HQ.
Qed.

(** ** Strings in user memory *)

(** [utext m str l]: at [str] is the terminated string [l], in mapped memory. *)
Definition utext (m : gmap Z Z) (str : cstr) (l : list Z) : Prop :=
  Forall (fun c => 0 < c < 256) l /\
  match str with
  | Lit t => codes t = l
  | Ptr a => bytes_at m a (l ++ [0]) /\ 0 <= a /\ a + Z.of_nat (length l) < 2 ^ 64 /\
      forall i, 0 <= i <= Z.of_nat (length l) -> mapped (a + i) = true
  end.

Lemma umapped_1 a : mapped a = true -> umapped a 1 = true.
Proof. intros H. unfold umapped. simpl. by rewrite Z.add_0_r, H. Qed.

(** The character at position [i]; the terminator is 0. *)
Lemma uchar_at_ok str l i s (Q : Z -> ustate -> Prop) :
  utext (umem s) str l -> 0 <= i <= Z.of_nat (length l) ->
  Q (default 0 (l !! Z.to_nat i)) s -> uwp (uchar_at str i) Q s.
Proof.
  intros [_ Hs] Hi HQ. destruct str as [t|a]; simpl.
  - pose proof (code_get t (Z.to_nat i)) as Hg. rewrite Hs in Hg.
    destruct (String.get (Z.to_nat i) t) as [c|]; simpl in Hg.
    + rewrite <-Hg in HQ. by apply uwp_ret.
    + rewrite <-Hg in HQ. rewrite <-(codes_length t), Hs.
      assert (length l <= Z.to_nat i)%nat by (by apply lookup_ge_None).
      rewrite (proj2 (Z.eqb_eq i _)) by lia. by apply uwp_ret.
  - destruct Hs as (Hb & Ha & Hlen & Hmap). rewrite w64_small by lia.
    apply uwp_load; [by apply umapped_1, Hmap|]. rewrite rd_1.
    replace (rd8 (umem s) (a + i)) with (default 0 (l !! Z.to_nat i)); [done|].
    assert (Hl : (l ++ [0]) !! Z.to_nat i = Some (default 0 (l !! Z.to_nat i))).
    { destruct (decide (Z.to_nat i < length l)%nat) as [Hlt|Hge].
      - rewrite lookup_app_l by done. destruct (lookup_lt_is_Some_2 l _ Hlt) as [c Hc]. by rewrite Hc.
      - rewrite lookup_app_r by lia. rewrite (lookup_ge_None_2 l) by lia.
        by replace (Z.to_nat i - length l)%nat with 0%nat by lia. }
    rewrite <-(bytes_at_lookup _ _ _ _ _ Hb Hl). f_equal. lia.
Qed.

Lemma utext_char m str l i : utext m str l -> 0 <= i < Z.of_nat (length l) ->
  exists c, l !! Z.to_nat i = Some c /\ 0 < c < 256.
Proof.
  intros [Hc _] Hi. destruct (lookup_lt_is_Some_2 l (Z.to_nat i)) as [c E]; [lia|].
  exists c. split; [done|]. rewrite Forall_lookup in Hc. by eapply Hc.
Qed.

Lemma utext_end (l : list Z) i : i = Z.of_nat (length l) -> l !! Z.to_nat i = None.
Proof. intros ->. apply lookup_ge_None_2. lia. Qed.

Lemma take_step (l : list Z) i c : 0 <= i -> l !! Z.to_nat i = Some c ->
  take (Z.to_nat (i + 1)) l = take (Z.to_nat i) l ++ [c].
Proof.
  intros Hi H. replace (Z.to_nat (i + 1)) with (S (Z.to_nat i)) by lia. by apply take_S_r.
Qed.

Lemma int_add_ok a b (Q : Z -> ustate -> Prop) s : - 2 ^ 31 <= a + b < 2 ^ 31 -> Q (a + b) s -> uwp (int_add a b) Q s.
Proof. intros H HQ. unfold int_add. rewrite (proj2 (Z.leb_le _ _)), (proj2 (Z.ltb_lt _ _)) by lia. by apply uwp_ret. Qed.

Lemma uprint_string_ok str l s (Q : Z -> ustate -> Prop) :
  utext (umem s) str l -> Z.of_nat (length l) < 2 ^ 31 ->
  (forall s', prints s l s' -> Q (Z.of_nat (length l)) s') -> uwp (print_string str) Q s.
Proof.
  intros Hs Hlen HQ. unfold print_string.
  apply (uwp_loop (fun n i s' => n = Z.of_nat (length l) - i /\ 0 <= i <= Z.of_nat (length l) /\
    prints s (take (Z.to_nat i) l) s') (Z.of_nat (length l))); [|lia|].
  { split; [lia|]. split; [lia|]. apply prints_nil. }
  intros n i s' (-> & Hi & Hp). split; [lia|]. pose proof Hp as (Hm & _).
  assert (Hs' : utext (umem s') str l) by (by rewrite Hm).
  uwp_step. apply (uchar_at_ok str l); [done|lia|].
  destruct (decide (i = Z.of_nat (length l))) as [E|Hne].
  - rewrite (utext_end l i E). simpl. uwp_step. rewrite E in *. apply HQ.
    rewrite take_ge in Hp by lia. done.
  - destruct (utext_char _ _ _ i Hs') as (c & Hc & Hr); [lia|]. rewrite Hc. simpl default.
    rewrite (proj2 (Z.eqb_neq c 0)) by lia. simpl negb. uwp_step. uwp_step.
    apply (uchar_at_ok str l); [done|lia|]. rewrite Hc. simpl default. uwp_step.
    apply put_char_ok. intros s'' Hp'. uwp_step. apply int_add_ok; [lia|]. uwp_step. exists (Z.of_nat (length l) - (i + 1)).
    split; [lia|]. split; [lia|]. split; [lia|]. rewrite (take_step l i c) by (done || lia).
    eapply prints_app; [exact Hp|]. rewrite w8_small in Hp' by (change (2 ^ 8) with 256; lia). done.
Qed.

(** ** Numbers *)

Lemma print_digits_ok fuel b digit n s (Q : Z -> ustate -> Prop) :
  2 <= b -> (0 < fuel)%nat -> 0 <= n < 2 ^ Z.of_nat fuel ->
  (forall d, 0 <= d < b -> w8 (digit d) = digit_char d) ->
  (forall s', prints s (digit_char <$> digits_rec fuel b n) s' ->
     Q (Z.of_nat (length (digits_rec fuel b n))) s') ->
  uwp (print_digits fuel b digit n) Q s.
Proof.
  intros Hb. revert n s Q. induction fuel as [|fuel IH]; intros n s Q Hf Hn Hd HQ; [lia|].
  simpl print_digits. destruct (Z.eqb_spec n 0) as [->|Hne].
  - uwp_step. apply put_char_ok. intros s' Hp. uwp_step. rewrite digits_zero in HQ by done. by apply HQ.
  - pose proof (Z.mod_pos_bound n b ltac:(lia)) as Hm. simpl digits_rec in HQ.
    uwp_step. destruct (Z.leb_spec b n) as [Hge|Hlt].
    + apply IH; [|by apply digit_step|done|].
      { destruct fuel; [|lia]. simpl in Hn. change (2 ^ 1) with 2 in Hn. lia. }
      intros s1 Hp1. uwp_step. apply put_char_ok. intros s2 Hp2. uwp_step.
      rewrite length_app in HQ. simpl length in HQ. rewrite Nat2Z.inj_add in HQ. apply HQ.
      rewrite fmap_app. eapply prints_app; [exact Hp1|]. by rewrite Hd in Hp2.
    + uwp_step. uwp_step. apply put_char_ok. intros s2 Hp2. uwp_step. rewrite Hd in Hp2 by done.
      by apply HQ.
Qed.

End Output.
