(* ===== verification/UserBoard.v ===== *)
(** * A concrete world for user programs

    An address space of two regions and a kernel that serves the console; the
    theorems on user programs hold in every world and are instantiated here in
    this one. *)

From S2P Require Import Prelude Machine Utility Uart UserMachine System Ulib UserProof.

(** The kernel of this world: what was printed, and the input to come. *)
Definition terminal_serve (id : Z) (args : list Z) (m : gmap Z Z) (k : list Z * list Z) :
    option (Z * gmap Z Z * (list Z * list Z)) :=
  if id =? SYSCALL_PUT_CHAR then Some (0, m, (k.1 ++ [w8 (default 0 (head args))], k.2))
  else if id =? SYSCALL_GET_CHAR then
    match k.2 with
    | c :: r => Some (c, m, (k.1, r))
    | [] => None
    end
  else None.

Definition user_ram : Z := 0x10000.
Definition user_mapped (a : Z) : bool :=
  ((user_ram <=? a) && (a <? user_ram + 0x20000)) ||
  ((SHARED_MEMORY <=? a) && (a <? SHARED_MEMORY + PGSIZE)).

Definition user_world : UserWorld := {|
  ker := list Z * list Z;
  serve := terminal_serve;
  mapped := user_mapped;
  program_envp := user_ram + 0x8000;
  path := user_ram + 0x10000;
  tmp_argv := user_ram + 0x11000;
  local_line := user_ram + 0x1a000;
  local_int := user_ram + 0x1b000
|}.

#[export] Instance user_terminal : Terminal user_world.
Proof.
  refine {| shown := (fst : @ker user_world -> list Z); delivered := (snd : @ker user_world -> list Z) |}.
  - intros c m k. eexists. split; [reflexivity|done].
  - intros c r m [sh ty] Ht. simpl in Ht. subst ty. eexists. split; [reflexivity|done].
Defined.

(** Memory with the bytes [l] from [a] on. *)
Fixpoint put_bytes (a : Z) (l : list Z) (m : gmap Z Z) : gmap Z Z :=
  match l with
  | [] => m
  | c :: r => wr8 (put_bytes (a + 1) r m) a c
  end.

Definition ustate_with (m : gmap Z Z) (input : list Z) : @ustate user_world :=
  @mkU user_world m 0 ([], input).

Lemma user_ram_mapped a : user_ram <= a < user_ram + 0x20000 -> user_mapped a = true.
Proof.
  intros Ha. unfold user_mapped. apply orb_true_iff. left.
  apply andb_true_iff. rewrite Z.leb_le, Z.ltb_lt. lia.
Qed.

Lemma rd8_put_bytes_out l m a b : b < a \/ a + Z.of_nat (length l) <= b -> rd8 (put_bytes a l m) b = rd8 m b.
Proof.
  revert a. induction l as [|c l IH]; intros a H; [done|]. simpl in *.
  rewrite rd8_wr8, decide_False by lia. apply IH. lia.
Qed.

Lemma put_bytes_at l m a : Forall (fun c => 0 <= c < 256) l -> bytes_at (put_bytes a l m) a l.
Proof.
  revert a. induction l as [|c l IH]; intros a H; [done|]. apply Forall_cons in H as [Hc H]. simpl. split.
  - rewrite rd8_wr8, decide_True by done. by apply w8_small.
  - eapply bytes_at_ext; [|by apply IH]. intros b Hb. rewrite rd8_wr8, decide_False by lia. done.
Qed.

(** Cleared memory is NULs. *)
Lemma zeros_at m a n : (forall b, a <= b < a + Z.of_nat n -> rd8 m b = 0) -> bytes_at m a (replicate n 0).
Proof.
  revert a. induction n as [|n IH]; intros a H; [done|]. simpl. split; [apply H; lia|].
  apply IH. intros b Hb. apply H. lia.
Qed.
