(* ===== verification/UserTheorems.v ===== *)
(** * Theorems on user programs

    Formatted output and line input of the user library. *)

From S2P Require Import Prelude Machine Utility Uart UserMachine System Ulib Shell UserProof UserBoard.

(** The text of numbers, and what a conversion of [printf] makes of its
    argument. *)
Definition based (b x : Z) : list Z := digit_char <$> digits_rec 64 b x.
Definition decimal (x : Z) : list Z := if x <? 0 then code "-" :: based 10 (- x) else based 10 x.
Definition hexadecimal (x : Z) : list Z := codes "0x" ++ based 16 x.
Definition octal (x : Z) : list Z := code "0" :: if x =? 0 then [] else based 8 x.

Section Printf.
Context `{UW : UserWorld} {TT : Terminal UW}.

(** [converts m c args out args']: conversion [c] prints [out] and leaves the
    arguments [args']. *)
Inductive converts (m : gmap Z Z) : Z -> list Z -> list Z -> list Z -> Prop :=
  | conv_char x args : converts m (code "c") (x :: args) [w8 x] args
  | conv_int c x args : c = code "d" \/ c = code "i" ->
      converts m c (x :: args) (decimal (s32 x)) args
  | conv_octal x args : 0 <= x < 2 ^ 64 -> converts m (code "o") (x :: args) (octal x) args
  | conv_pointer x args : 0 <= x < 2 ^ 64 -> converts m (code "p") (x :: args) (hexadecimal x) args
  | conv_string x l args : utext m (Ptr x) l -> converts m (code "s") (x :: args) l args
  | conv_unsigned x args : 0 <= x < 2 ^ 64 -> converts m (code "u") (x :: args) (based 10 x) args
  | conv_hex x args : 0 <= x < 2 ^ 64 -> converts m (code "x") (x :: args) (hexadecimal x) args
  | conv_percent args : converts m (code "%") args [code "%"] args.

(** The characters that are conversions. *)
Definition conversions : list Z := codes "cdiopsux%".

(** [renders m f args out ok]: the format [f] prints [out]; [ok] is false if that
    ends at an unknown or incomplete conversion. *)
Inductive renders (m : gmap Z Z) : list Z -> list Z -> list Z -> bool -> Prop :=
  | render_end args : renders m [] args [] true
  | render_char c f args out ok : c <> code "%" -> renders m f args out ok ->
      renders m (c :: f) args (c :: out) ok
  | render_conv c f args out1 args' out ok : converts m c args out1 args' ->
      renders m f args' out ok -> renders m (code "%" :: c :: f) args (out1 ++ out) ok
  | render_unknown c f args : c ∉ conversions -> renders m (code "%" :: c :: f) args [] false
  | render_incomplete args : renders m [code "%"] args [] false.

Lemma digit_dec d b : 0 <= d < b -> b <= 10 -> w8 (code "0" + d) = digit_char d.
Proof.
  intros Hd Hb. unfold digit_char. destruct (Z.ltb_spec d 10); [|lia].
  apply w8_small. change (code "0") with 48. change (2 ^ 8) with 256. lia.
Qed.

Lemma digit_hex d : 0 <= d < 16 -> w8 (if d <? 10 then code "0" + d else code "a" + d - 10) = digit_char d.
Proof.
  intros Hd. unfold digit_char. change (code "0") with 48. change (code "a") with 97.
  destruct (Z.ltb_spec d 10); apply w8_small; change (2 ^ 8) with 256; lia.
Qed.

Lemma w64_s64 x : 0 <= x < 2 ^ 64 -> w64 (s64 x) = x.
Proof.
  intros Hx. unfold s64. rewrite (w64_small x) by lia. cbv zeta. destruct (Z.ltb_spec x (2 ^ 63)).
  - apply w64_small. lia.
  - unfold w64. replace (x - 2 ^ 64) with (x + (-1) * 2 ^ 64) by lia. rewrite Z.mod_add by lia.
    by apply Z.mod_small.
Qed.

Lemma s32_range x : - 2 ^ 31 <= s32 x < 2 ^ 31.
Proof.
  unfold s32, w32. pose proof (Z.mod_pos_bound x (2 ^ 32) ltac:(lia)).
  destruct (Z.ltb_spec (x mod 2 ^ 32) (2 ^ 31)); lia.
Qed.

(** The result of a printing function is the number of characters. *)
Definition prints_text (m : U Z) (l : list Z) (s : ustate) : Prop :=
  uwp m (fun r s' => r = Z.of_nat (length l) /\ prints s l s') s.

Lemma uprint_unsigned_ok n s : 0 <= n < 2 ^ 64 -> prints_text (print_unsigned_int n) (based 10 n) s.
Proof.
  intros Hn. apply print_digits_ok; [done|lia|done|intros d Hd; by apply (digit_dec d 10)|].
  intros s' Hp. unfold based. by rewrite length_fmap.
Qed.

Lemma uprint_dec_ok n s : - 2 ^ 63 < n < 2 ^ 63 -> prints_text (print_int_dec n true) (decimal n) s.
Proof.
  intros Hn. unfold prints_text, print_int_dec, decimal. simpl andb. destruct (Z.ltb_spec n 0).
  - uwp_step. apply put_char_ok. intros s1 Hp1. uwp_step. rewrite w64_small by lia.
    eapply uwp_mono; [apply (uprint_unsigned_ok (- n)); lia|]. intros r s2 [-> Hp2]. uwp_step.
    split; [rewrite length_cons; lia|]. by apply (prints_app s [code "-"] s1).
  - rewrite w64_small by lia. apply uprint_unsigned_ok. lia.
Qed.

Lemma uprint_hex_ok n s : 0 <= n < 2 ^ 64 -> prints_text (print_int_hex n) (hexadecimal n) s.
Proof.
  intros Hn. unfold prints_text, print_int_hex. uwp_step.
  apply (uprint_string_ok _ (codes "0x")); [split; [by repeat constructor|done]|done|]. intros s1 Hp1.
  uwp_step. unfold print_int_hex_without_header. apply print_digits_ok; [done|lia|done|exact digit_hex|].
  intros s2 Hp2. uwp_step. unfold hexadecimal, based. rewrite length_app, length_fmap.
  change (length (codes "0x")) with 2%nat. split; [lia|]. by eapply prints_app.
Qed.

Lemma uprint_oct_ok n s : 0 <= n < 2 ^ 64 -> prints_text (print_int_oct n) (octal n) s.
Proof.
  intros Hn. unfold prints_text, print_int_oct, octal. uwp_step. apply put_char_ok. intros s1 Hp1.
  destruct (Z.eqb_spec n 0) as [->|Hne]; [by uwp_step|]. uwp_step. unfold print_int_oct_without_header.
  apply print_digits_ok; [done|lia|done|intros d Hd; by apply (digit_dec d 8)|].
  intros s2 Hp2. uwp_step. unfold based. rewrite length_cons, length_fmap. split; [lia|].
  by apply (prints_app s [code "0"] s1).
Qed.

(** The branch of a known conversion character. *)
Ltac pick_branch :=
  unfold conversion;
  repeat match goal with
  | |- context [?a =? ?b] => is_ground a; let v := eval vm_compute in (a =? b) in change (a =? b) with v
  end;
  cbn [orb]; cbv iota.

Lemma take_arg_ok {A} x args (f : Z * list Z -> U A) Q s :
  uwp (f (x, args)) Q s -> uwp (pr ← va_arg (x :: args); f pr) Q s.
Proof. intros H. apply uwp_bind. exact H. Qed.

Lemma conversion_ok c args out args' s :
  converts (umem s) c args out args' -> Z.of_nat (length out) < 2 ^ 31 ->
  uwp (conversion c args) (fun r s' => r = Some (Z.of_nat (length out), args') /\ prints s out s') s.
Proof.
  assert (Hk : forall (m : U Z) l s, prints_text m l s ->
    uwp (n ← m; mret (Some (n, args'))) (fun r s' => r = Some (Z.of_nat (length l), args') /\ prints s l s') s).
  { intros m l s0 H. uwp_step. eapply uwp_mono; [exact H|]. intros r s' [-> Hp]. by uwp_step. }
  intros H Hlen. destruct H as [x args|c x args Hc|x args Hx|x args Hx|x l args Hl|x args Hx|x args Hx|args].
  - pick_branch. apply take_arg_ok. unfold print_char. uwp_step. uwp_step. apply put_char_ok.
    intros s' Hp. uwp_step. uwp_step. split; [done|].
    unfold w8 in Hp. by rewrite Z.mod_mod in Hp by done.
  - assert (Hint : prints_text (print_int (s32 x) true 10) (decimal (s32 x)) s).
    { apply uprint_dec_ok. pose proof (s32_range x). lia. }
    destruct Hc as [-> | ->]; pick_branch; apply take_arg_ok; by apply Hk.
  - pick_branch. apply take_arg_ok, Hk. by apply uprint_oct_ok.
  - pick_branch. apply take_arg_ok, Hk. by apply uprint_hex_ok.
  - pick_branch. apply take_arg_ok, Hk. apply (uprint_string_ok _ l); [done|done|]. by intros s' Hp.
  - pick_branch. apply take_arg_ok, Hk.
    change (print_int (s64 x) false 10) with (print_unsigned_int (w64 (s64 x))).
    rewrite w64_s64 by done. by apply uprint_unsigned_ok.
  - pick_branch. apply take_arg_ok, Hk. change (print_int (s64 x) false 16) with (print_int_hex (w64 (s64 x))).
    rewrite w64_s64 by done. by apply uprint_hex_ok.
  - pick_branch. unfold print_char. uwp_step. uwp_step. apply put_char_ok.
    intros s' Hp. uwp_step. by uwp_step.
Qed.

(** Reading on in the format: [f] is the rest of it from position [i]. *)
Lemma format_char fmt f0 f i s (Q : Z -> ustate -> Prop) :
  utext (umem s) fmt f0 -> 0 <= i -> drop (Z.to_nat i) f0 = f -> (Z.to_nat i <= length f0)%nat ->
  Q (default 0 (head f)) s -> uwp (uchar_at fmt i) Q s.
Proof.
  intros Hf Hi Hd Hlen HQ. apply (uchar_at_ok fmt f0); [done|lia|]. rewrite <-Hd in HQ.
  by rewrite head_lookup, lookup_drop, Nat.add_0_r in HQ.
Qed.

Lemma drop_next (f0 : list Z) i c f : 0 <= i -> drop (Z.to_nat i) f0 = c :: f ->
  drop (Z.to_nat (i + 1)) f0 = f /\ (Z.to_nat (i + 1) <= length f0)%nat /\ c ∈ f0.
Proof.
  intros Hi Hd. replace (Z.to_nat (i + 1)) with (S (Z.to_nat i)) by lia.
  assert (Hl : f0 !! Z.to_nat i = Some c) by (by rewrite <-(Nat.add_0_r (Z.to_nat i)), <-lookup_drop, Hd).
  rewrite (drop_S _ _ _ Hl) in Hd. injection Hd as Hd. split; [done|].
  split; [apply lookup_lt_Some in Hl; lia|by eapply list_elem_of_lookup_2].
Qed.

Lemma unknown_conversion c args s (Q : option (Z * list Z) -> ustate -> Prop) :
  c ∉ conversions -> Q None s -> uwp (conversion c args) Q s.
Proof.
  intros Hc HQ. assert (Hn : forall d, d ∈ conversions -> (c =? d) = false).
  { intros d Hd. apply Z.eqb_neq. by intros ->. }
  unfold conversion. rewrite !Hn by (vm_compute; set_solver). by apply uwp_ret.
Qed.

(** C24: [printf] prints what its format says: characters as they are and, for each
    conversion, the text of the next argument, and returns the number of
    characters, which fits an [int] as the text is shorter than 2^31; at an
    unknown or incomplete conversion it stops with -1.  Memory is not changed and
    no input is consumed. *)
Theorem printf_renders fmt f args out ok s :
  utext (umem s) fmt f -> Z.of_nat (length f) < 2 ^ 64 -> Z.of_nat (length out) < 2 ^ 31 ->
  renders (umem s) f args out ok ->
  uwp (printf fmt args) (fun r s' => prints s out s' /\
    r = if (ok : bool) then Z.of_nat (length out) else -1) s.
Proof.
  intros Hf Hlen Hout Hr. unfold printf, vprintf. uwp_step.
  apply (format_char fmt f f); [done|done|done|lia|].
  apply (uwp_loop (fun n '(i, c, args, length') s' => 0 <= i /\ (Z.to_nat i <= length f)%nat /\
    exists f1 done_out out1, drop (Z.to_nat i) f = f1 /\ c = default 0 (head f1) /\
      n = Z.of_nat (length f1) /\ out = done_out ++ out1 /\ length' = Z.of_nat (length done_out) /\
      renders (umem s) f1 args out1 ok /\ prints s done_out s') (Z.of_nat (length f))); [|lia|].
  { split; [done|]. split; [lia|]. exists f, [], out. split_and!; [done..|apply prints_nil]. }
  clear args Hr. intros n [[[i c] args] len] s1 (Hi & Hil & f1 & o1 & o2 & Hd & -> & -> & -> & -> & Hr & Hp).
  split; [lia|]. pose proof Hp as (Hm & _). assert (Hf1 : utext (umem s1) fmt f) by (by rewrite Hm).
  assert (Hchars : forall c, c ∈ f -> 0 < c < 256) by (apply Forall_forall, Hf).
  destruct Hr as [args|c f2 args o2 ok Hne Hr|c f2 args x1 args' o2 ok Hcv Hr|c f2 args Hun|args];
    simpl default; simpl (_ =? 0); cbv iota.
  - uwp_step. by rewrite app_nil_r in *.
  - destruct (drop_next _ _ _ _ Hi Hd) as (Hd2 & Hl2 & Hin). specialize (Hchars c Hin).
    rewrite (proj2 (Z.eqb_neq c 0)) by lia. rewrite (proj2 (Z.eqb_neq c _) Hne).
    uwp_step. unfold print_char. uwp_step. uwp_step. apply put_char_ok. intros s2 Hp2. uwp_step. uwp_step.
    rewrite !length_app in Hout. simpl length in Hout. apply int_add_ok; [lia|]. uwp_step. uwp_step.
    rewrite w8_small in Hp2 by (change (2 ^ 8) with 256; lia). pose proof Hp2 as (Hm2 & _).
    apply (format_char fmt f f2); [by rewrite Hm2|lia|done|done|]. uwp_step.
    exists (Z.of_nat (length f2)). simpl length. split; [lia|]. split; [lia|]. split; [done|].
    exists f2, (o1 ++ [c]), o2. rewrite <-app_assoc, length_app. simpl length.
    split_and!; [done..|lia|done|by eapply prints_app].
  - destruct (drop_next _ _ _ _ Hi Hd) as (Hd2 & Hl2 & _).
    destruct (drop_next _ (i + 1) _ _ ltac:(lia) Hd2) as (Hd3 & Hl3 & Hin). specialize (Hchars c Hin).
    uwp_step. rewrite Z.eqb_refl. uwp_step. apply (format_char fmt f (c :: f2)); [done|lia|done|done|]. simpl default.
    rewrite (proj2 (Z.eqb_neq c 0)) by lia. uwp_step.
    apply (format_char fmt f (c :: f2)); [done|lia|done|done|]. simpl default. uwp_step.
    rewrite <-Hm in Hcv. rewrite !length_app in Hout.
    eapply uwp_mono; [apply (conversion_ok c args x1 args' s1 Hcv); lia|]. intros r s2 [-> Hp2].
    uwp_step. apply int_add_ok; [lia|]. uwp_step. uwp_step. pose proof Hp2 as (Hm2 & _).
    apply (format_char fmt f f2); [by rewrite Hm2|lia|done|done|]. uwp_step.
    exists (Z.of_nat (length f2)). simpl length. split; [lia|]. split; [lia|]. split; [done|].
    exists f2, (o1 ++ x1), o2. rewrite <-app_assoc, length_app.
    split_and!; [done..|lia|done|by eapply prints_app].
  - destruct (drop_next _ _ _ _ Hi Hd) as (Hd2 & Hl2 & _).
    destruct (drop_next _ (i + 1) _ _ ltac:(lia) Hd2) as (_ & _ & Hin). specialize (Hchars c Hin).
    uwp_step. rewrite Z.eqb_refl. uwp_step. apply (format_char fmt f (c :: f2)); [done|lia|done|done|]. simpl default.
    rewrite (proj2 (Z.eqb_neq c 0)) by lia. uwp_step.
    apply (format_char fmt f (c :: f2)); [done|lia|done|done|]. simpl default. uwp_step.
    apply unknown_conversion; [done|]. uwp_step. uwp_step. by rewrite app_nil_r in *.
  - destruct (drop_next _ _ _ _ Hi Hd) as (Hd2 & Hl2 & _).
    uwp_step. rewrite Z.eqb_refl. uwp_step. apply (format_char fmt f []); [done|lia|done|done|].
    simpl default. simpl (0 =? 0). cbv iota. uwp_step. uwp_step. by rewrite app_nil_r in *.
Qed.

End Printf.

(** ** Line input *)

(** The line editor as a function of the text [cur] so far and the input: the
    line, the echo, whether it was ended, and the rest of the input; [None] if
    more input is needed.  DEL takes back a character. *)
Fixpoint edit (max end_ : Z) (cur input : list Z) : option (list Z * list Z * bool * list Z) :=
  if Z.of_nat (length cur) + 1 <? max then
    match input with
    | [] => None
    | c :: input =>
        if c =? 127 then
          let echo := match cur with [] => [] | _ => [8; code " "; 8] end in
          '(line, shown_, ok, rest) ← edit max end_ (take (length cur - 1) cur) input;
          Some (line, echo ++ shown_, ok, rest)
        else if (c =? end_) || (c =? 0) then Some (cur ++ [c], [c], true, input)
        else
          '(line, shown_, ok, rest) ← edit max end_ (cur ++ [c]) input;
          Some (line, c :: shown_, ok, rest)
    end
  else Some (cur, [], false, input).

Lemma edit_unfold max end_ cur input : edit max end_ cur input =
  if Z.of_nat (length cur) + 1 <? max then
    match input with
    | [] => None
    | c :: input =>
        if c =? 127 then
          let echo := match cur with [] => [] | _ => [8; code " "; 8] end in
          '(line, shown_, ok, rest) ← edit max end_ (take (length cur - 1) cur) input;
          Some (line, echo ++ shown_, ok, rest)
        else if (c =? end_) || (c =? 0) then Some (cur ++ [c], [c], true, input)
        else
          '(line, shown_, ok, rest) ← edit max end_ (cur ++ [c]) input;
          Some (line, c :: shown_, ok, rest)
    end
  else Some (cur, [], false, input).
Proof. by destruct input. Qed.

Section Input.
Context `{UW : UserWorld} {TT : Terminal UW}.

(** Reading and echoing: the state after some input. *)
Definition reads (s : ustate) (buffer n : Z) (echo rest : list Z) (s' : ustate) : Prop :=
  modifies (range buffer n) (umem s) (umem s') /\ ulast s' = ulast s /\
  shown (uker s') = shown (uker s) ++ echo /\ delivered (uker s') = rest.

(** Storing the next character of the line. *)
Lemma store_next buffer n cur c s (Q : unit -> ustate -> Prop) :
  0 <= buffer -> buffer + n <= 2 ^ 64 -> (forall i, 0 <= i < n -> mapped (buffer + i) = true) ->
  Z.of_nat (length cur) < n -> 0 <= c < 256 -> bytes_at (umem s) buffer cur ->
  (forall m, bytes_at m buffer (cur ++ [c]) -> modifies (range buffer n) (umem s) m -> Q tt (set_umem m s)) ->
  uwp (ustore8 (buffer +w Z.of_nat (length cur)) c) Q s.
Proof.
  intros Hb Hmax Hmap Hlen Hc Hcur HQ. rewrite w64_small by lia.
  apply uwp_store; [apply umapped_1, Hmap; lia|]. apply HQ.
  - apply bytes_at_app. split.
    + eapply bytes_at_ext; [|exact Hcur]. intros b Hin. apply rd8_wr_out. simpl. lia.
    + simpl. split; [|done]. rewrite rd8_wr1, decide_True by done. by apply w8_small.
  - apply modifies_wr. unfold range. simpl. lia.
Qed.

Lemma put_chars3 a b c s (m : U (Z + option Z)) (P : Z + option Z -> ustate -> Prop) :
  Forall (fun x => 0 <= x < 256) [a; b; c] ->
  (forall s', prints s [a; b; c] s' -> uwp m P s') ->
  uwp (put_char a;; put_char b;; put_char c;; m) P s.
Proof.
  intros Hr HQ. rewrite !Forall_cons in Hr. destruct Hr as (Ha & Hb & Hc & _).
  uwp_step. apply put_char_ok. intros s1 H1. uwp_step. apply put_char_ok. intros s2 H2.
  uwp_step. apply put_char_ok. intros s3 H3. rewrite w8_small in H1, H2, H3 by (change (2 ^ 8) with 256; lia).
  apply HQ. apply (prints_app s [a] s1); [done|]. by apply (prints_app s1 [b] s2).
Qed.

Lemma reads_get s buffer n echo c rest s1 k : reads s buffer n echo (c :: rest) s1 ->
  shown k = shown (uker s1) -> delivered k = rest ->
  reads s buffer n echo rest (mkU (umem s1) (ulast s1) k).
Proof. intros (Hm & Hl & Hs & _) Hk Ht. split_and!; [done..|by simpl; rewrite Hk|done]. Qed.

Lemma reads_prints s buffer n echo rest s1 l s2 :
  reads s buffer n echo rest s1 -> prints s1 l s2 -> reads s buffer n (echo ++ l) rest s2.
Proof.
  intros (Hm & Hl & Hs & Ht) (Hm' & Hl' & Hs' & Ht'). split_and!; [by rewrite Hm'|congruence| |congruence].
  by rewrite Hs', Hs, app_assoc.
Qed.

Lemma reads_store s buffer n echo rest s1 m :
  reads s buffer n echo rest s1 -> modifies (range buffer n) (umem s1) m ->
  reads s buffer n echo rest (set_umem m s1).
Proof. intros (Hm & Hl & Hs & Ht) Hm'. split_and!; [by eapply modifies_trans|done..]. Qed.

(** The state in the middle of a line. *)
Definition editing (s : ustate) (buffer max end_ : Z) (line echo : list Z) (ok : bool) (rest : list Z)
    (n i : Z) (s' : ustate) : Prop :=
  exists cur input echo1 echo2, i = Z.of_nat (length cur) /\ n = Z.of_nat (length input) /\
    Z.of_nat (length cur) < max /\ Forall (fun c => 0 <= c < 256) input /\
    bytes_at (umem s') buffer cur /\ reads s buffer max echo1 input s' /\
    edit max end_ cur input = Some (line, echo2, ok, rest) /\ echo = echo1 ++ echo2.

(** C29: [read_until] is a line editor on the characters that [get_char]
    delivers: it echoes them up to the end of the line or until the buffer is
    full, DEL takes back the last character, the buffer ends up with the
    terminated line, and nothing outside it changes; it returns 0 when it has
    met the end character (or a NUL) and -1 when the buffer is full. (Which
    characters get here is up to the kernel, which may drop some that were
    typed.) *)
Theorem read_until_edits buffer max end_ input line echo ok rest s :
  delivered (uker s) = input -> edit max end_ [] input = Some (line, echo, ok, rest) ->
  Forall (fun c => 0 <= c < 256) input -> Z.of_nat (length input) < 2 ^ 64 ->
  0 < max < 2 ^ 31 -> 0 <= buffer -> buffer + max <= 2 ^ 64 ->
  (forall i, 0 <= i < max -> mapped (buffer + i) = true) ->
  uwp (read_until buffer max end_) (fun r s' => r = (if (ok : bool) then 0 else -1) /\
    bytes_at (umem s') buffer (line ++ [0]) /\ reads s buffer max echo rest s') s.
Proof.
  intros Hty Hed Hch Hlen [Hmax _] Hb Hbm Hmap. unfold read_until. uwp_step.
  apply (uwp_loop (editing s buffer max end_ line echo ok rest) (Z.of_nat (length input))); [|done|].
  { exists [], input, [], echo. split_and!; try done. unfold reads. rewrite app_nil_r. by split_and!. }
  intros n i s1 (cur & input' & echo1 & echo2 & -> & -> & Hcur & Hch' & Hba & Hrd & Hed' & ->).
  split; [lia|]. clear Hed Hty Hch Hlen. rewrite edit_unfold in Hed'.
  destruct (Z.ltb_spec (Z.of_nat (length cur) + 1) max) as [Hroom|Hfull].
  2:{ injection Hed' as -> <- <- <-. rewrite app_nil_r. uwp_step. uwp_step.
      apply (store_next buffer max line 0); [done..|]. intros m Hm Hmod. uwp_step.
      split; [done|]. split; [done|by apply reads_store]. }
  destruct input' as [|c input']; [done|]. apply Forall_cons in Hch' as [Hc Hch'].
  uwp_step. apply (get_char_ok c input'); [by destruct Hrd as (_ & _ & _ & ?)|done|]. intros k Hks Hkt.
  pose proof (reads_get _ _ _ _ _ _ _ k Hrd Hks Hkt) as Hrk. set (sk := mkU _ _ k) in *.
  destruct (Z.eqb_spec c 127) as [->|Hdel].
  - destruct (edit max end_ (take (length cur - 1) cur) input') as [[[[l' e'] ok'] r']|] eqn:E; [|done].
    simpl in Hed'. injection Hed' as -> <- -> ->.
    assert (Hnext : forall s2, bytes_at (umem s2) buffer cur ->
      reads s buffer max (echo1 ++ match cur with [] => [] | _ => [8; code " "; 8] end) input' s2 ->
      editing s buffer max end_ line (echo1 ++ match cur with [] => [] | _ => [8; code " "; 8] end ++ e')
        ok rest (Z.of_nat (length input')) (Z.of_nat (length (take (length cur - 1) cur))) s2).
    { intros s2 Hb2 Hr2. exists (take (length cur - 1) cur), input', (echo1 ++ match cur with [] => [] | _ => [8; code " "; 8] end), e'.
      rewrite <-app_assoc. split_and!; try done; [rewrite length_take; lia|by apply bytes_at_take]. }
    rewrite length_take in Hnext. destruct cur as [|d cur].
    + change (0 <? Z.of_nat (length [])) with false. uwp_step. uwp_step. exists (Z.of_nat (length input')). simpl length. split; [lia|]. apply Hnext; [done|].
      by rewrite app_nil_r.
    + rewrite (proj2 (Z.ltb_lt 0 _)) by (simpl; lia). apply put_chars3; [by repeat constructor|]. intros s2 Hp2. pose proof Hp2 as (Hm2 & _). uwp_step.
      exists (Z.of_nat (length input')). simpl length in *. split; [lia|].
      replace (Z.of_nat (S (length cur)) - 1) with (Z.of_nat ((S (length cur) - 1) `min` S (length cur))) by lia.
      apply Hnext; [by rewrite Hm2|]. by eapply reads_prints.
  - uwp_step. apply put_char_ok. intros s2 Hp2. pose proof Hp2 as (Hm2 & _).
    rewrite w8_small in Hp2 by (change (2 ^ 8) with 256; lia).
    uwp_step. apply (store_next buffer max cur c); [done..|by rewrite Hm2|]. intros m Hm Hmod.
    pose proof (reads_store _ _ _ _ _ _ m (reads_prints _ _ _ _ _ _ _ _ Hrk Hp2) Hmod) as Hr2.
    destruct ((c =? end_) || (c =? 0)).
    + injection Hed' as <- <- <- <-. uwp_step.
      replace (Z.of_nat (length cur) + 1) with (Z.of_nat (length (cur ++ [c]))) by (rewrite length_app; simpl; lia).
      apply (store_next buffer max (cur ++ [c]) 0); [done..|rewrite length_app; simpl; lia|done|done|].
      intros m' Hm' Hmod'. uwp_step. uwp_step. split; [done|]. split; [done|by apply (reads_store _ _ _ _ _ (set_umem m s2))].
    + destruct (edit max end_ (cur ++ [c]) input') as [[[[l' e'] ok'] r']|] eqn:E; [|done].
      simpl in Hed'. injection Hed' as -> <- -> ->. uwp_step.
      exists (Z.of_nat (length input')). simpl length. split; [lia|].
      exists (cur ++ [c]), input', (echo1 ++ [c]), e'. rewrite length_app, <-app_assoc. simpl length.
      split_and!; try done; lia.
Qed.

End Input.

(** ** Witnesses *)

#[local] Existing Instance user_world.

Lemma printf_renders_witness :
  let s := ustate_with (put_bytes user_ram (codes "ok" ++ [0]) ∅) [] in
  uwp (printf (Lit "%s: %d%%") [user_ram; 2 ^ 64 - 42])
    (fun r s' => shown (uker s') = codes "ok: -42%" /\ r = 8) s.
Proof.
  intros s.
  assert (Ht : utext (umem s) (Ptr user_ram) (codes "ok")).
  { split; [by repeat constructor|]. split; [by apply put_bytes_at; repeat constructor|].
    split; [done|]. split; [done|]. intros i Hi. apply user_ram_mapped. change (Z.of_nat (length (codes "ok"))) with 2 in Hi. lia. }
  eapply uwp_mono; [apply (printf_renders (Lit "%s: %d%%") (codes "%s: %d%%") [user_ram; 2 ^ 64 - 42]
    (codes "ok: -42%") true s)|].
  - by split; [repeat constructor|].
  - done.
  - done.
  - apply (render_conv _ (code "s") (codes ": %d%%") _ (codes "ok") [2 ^ 64 - 42] (codes ": -42%")); [by apply conv_string|].
    apply render_char; [done|]. apply render_char; [done|].
    apply (render_conv _ (code "d") (codes "%%") _ (codes "-42") [] (codes "%")).
    { apply (conv_int _ (code "d") (2 ^ 64 - 42) []). by left. }
    apply (render_conv _ (code "%") [] _ [code "%"] [] []); [apply conv_percent|apply render_end].
  - intros r s' [(_ & _ & Hs & _) Hr]. split; [exact Hs|exact Hr].
Defined.

Lemma read_until_edits_witness :
  let s := ustate_with ∅ (codes "hi" ++ [127; code "a"; 13; code "z"]) in
  uwp (read_until user_ram 10 13) (fun r s' => r = 0 /\
    bytes_at (umem s') user_ram (codes "ha" ++ [13; 0]) /\ delivered (uker s') = [code "z"]) s.
Proof.
  intros s.
  eapply uwp_mono; [apply (read_until_edits user_ram 10 13 (codes "hi" ++ [127; code "a"; 13; code "z"])
    (codes "ha" ++ [13]) (codes "hi" ++ [8; code " "; 8; code "a"; 13]) true [code "z"] s)|].
  - done.
  - vm_compute. reflexivity.
  - by repeat constructor.
  - done.
  - done.
  - done.
  - done.
  - intros i Hi. apply user_ram_mapped. lia.
  - intros r s' (Hr & Hb & _ & _ & _ & Ht). split; [exact Hr|]. split; [exact Hb|exact Ht].
Defined.
