(* ===== verification/ExecProof.v ===== *)
(** * The arguments of [exec] in the shared page

    Proofs about the loop of [exec] in system.c: the name of the program, the
    arguments and the environment, one string after the other, fill the page
    that the kernel reads. *)

From S2P Require Import Prelude Machine Utility Uart UserMachine System Ulib UserProof UserBoard UserTheorems.

(** The strings, each with its terminator. *)
Definition image (ls : list (list Z)) : list Z := concat ((fun l => l ++ [0]) <$> ls).

Lemma image_app l1 l2 : image (l1 ++ l2) = image l1 ++ image l2.
Proof. unfold image. by rewrite fmap_app, concat_app. Qed.

(** The text of [ls] up to character [c2] of string [c1]. *)
Definition string_at (ls : list (list Z)) (c1 : Z) : list Z := default [] (ls !! Z.to_nat c1).
Record cursor (ls : list (list Z)) (c1 c2 : Z) (t : list Z) : Prop := {
  cu_string : 0 <= c1 <= Z.of_nat (length ls);
  cu_char : 0 <= c2 <= Z.of_nat (length (string_at ls c1));
  cu_text : t = image (take (Z.to_nat c1) ls) ++ take (Z.to_nat c2) (string_at ls c1)
}.

Lemma cursor_start ls : cursor ls 0 0 [].
Proof. split; [lia|lia|done]. Qed.

(** The next character is that of the string, or its terminator. *)
Lemma cursor_step ls c1 c2 t : cursor ls c1 c2 t -> c1 < Z.of_nat (length ls) ->
  Forall (Forall (fun c => 0 < c < 256)) ls ->
  let b := default 0 (string_at ls c1 !! Z.to_nat c2) in
  0 <= b < 256 /\ cursor ls (if b =? 0 then c1 + 1 else c1) (if b =? 0 then 0 else c2 + 1) (t ++ [b]).
Proof.
  intros [H1 H2 ->] Hlt Hls b. unfold string_at in *.
  destruct (lookup_lt_is_Some_2 ls (Z.to_nat c1)) as [l Hl]; [lia|]. rewrite Hl in *. simpl default in *.
  rewrite Forall_lookup in Hls. pose proof (Hls _ _ Hl) as Hc. rewrite Forall_lookup in Hc.
  unfold b; clear b. rewrite Hl. change (default [] (Some l)) with l.
  destruct (l !! Z.to_nat c2) as [c|] eqn:Ec; simpl default.
  - pose proof (Hc _ _ Ec) as Hr. pose proof (lookup_lt_Some _ _ _ Ec). split; [lia|].
    rewrite (proj2 (Z.eqb_neq c 0)) by lia. split; [lia| |]; unfold string_at; rewrite Hl; simpl default; [lia|].
    rewrite <-app_assoc. f_equal. symmetry. apply take_step; [lia|done].
  - apply lookup_ge_None in Ec. split; [done|]. rewrite Z.eqb_refl. split; [lia|lia|].
    replace (Z.to_nat (c1 + 1)) with (S (Z.to_nat c1)) by lia. rewrite (take_S_r _ _ _ Hl), image_app.
    rewrite (take_ge l) by lia. change (Z.to_nat 0) with 0%nat. rewrite take_0, app_nil_r.
    unfold image at 3. simpl. by rewrite app_nil_r, app_assoc.
Qed.

Lemma cursor_end ls c2 t c1 : cursor ls c1 c2 t -> c1 = Z.of_nat (length ls) -> c2 = 0 /\ t = image ls.
Proof.
  intros [_ H2 ->] ->. unfold string_at in *. rewrite (lookup_ge_None_2 ls) in * by lia. simpl in *.
  split; [lia|]. rewrite take_nil, app_nil_r, take_ge by lia. done.
Qed.

Section Exec.
Context `{UW : UserWorld}.

(** Memory apart from the shared page. *)
Definition off_page (a n : Z) : Prop := a + n <= SHARED_MEMORY \/ SHARED_MEMORY + PGSIZE <= a.

(** A string, and a NULL-terminated vector of strings, off the shared page. *)
Definition ustring (m : gmap Z Z) (p : Z) (l : list Z) : Prop :=
  utext m (Ptr p) l /\ off_page p (Z.of_nat (length l) + 1).
Record uvector (m : gmap Z Z) (vec : Z) (ls : list (list Z)) : Prop := {
  uv_range : 0 <= vec /\ vec + 8 * (Z.of_nat (length ls) + 1) < 2 ^ 64;
  uv_off : off_page vec (8 * (Z.of_nat (length ls) + 1));
  uv_mapped : forall i, 0 <= i <= Z.of_nat (length ls) -> umapped (vec + 8 * i) 8 = true;
  uv_string : forall i l, ls !! Z.to_nat i = Some l -> 0 <= i ->
    rd64 m (vec + 8 * i) <> NULL /\ ustring m (rd64 m (vec + 8 * i)) l;
  uv_end : rd64 m (vec + 8 * Z.of_nat (length ls)) = NULL
}.

Lemma ustring_frame m m' p l : ustring m p l ->
  modifies (range SHARED_MEMORY PGSIZE) m m' -> ustring m' p l.
Proof.
  intros [[Hc (Hb & Hp & Hlen & Hmap)] Hoff] Hm. split; [|done]. split; [done|]. split; [|done].
  eapply bytes_at_ext; [|exact Hb]. rewrite length_app. simpl. intros b Hin. apply Hm.
  unfold range, off_page in *. lia.
Qed.

Lemma uvector_frame m m' vec ls : uvector m vec ls ->
  modifies (range SHARED_MEMORY PGSIZE) m m' -> uvector m' vec ls.
Proof.
  intros [Hr Ho Hmap Hs He] Hm.
  assert (Hw : forall i, 0 <= i <= Z.of_nat (length ls) -> rd64 m' (vec + 8 * i) = rd64 m (vec + 8 * i)).
  { intros i Hi. apply (modifies_rd _ 8 _ _ _ Hm). intros b Hb. unfold range, off_page in *. simpl in Hb. lia. }
  split; [done|done|done| |].
  - intros i l Hl Hi. pose proof (lookup_lt_Some _ _ _ Hl). rewrite Hw by lia.
    destruct (Hs i l Hl Hi) as [? ?]. split; [done|by eapply ustring_frame].
  - by rewrite Hw by lia.
Qed.

(** The shared page is mapped. *)
Definition page_mapped : Prop := forall i, 0 <= i < PGSIZE -> mapped (SHARED_MEMORY + i) = true.

(** Writing the next byte of the page. *)
Definition wrote (w : list Z) (s s' : ustate) : Prop :=
  ulast s' = ulast s /\ uker s' = uker s /\ modifies (range SHARED_MEMORY PGSIZE) (umem s) (umem s') /\
  bytes_at (umem s') SHARED_MEMORY w.

Lemma store_shared w b s s1 i (Q : unit -> ustate -> Prop) :
  page_mapped -> wrote w s s1 -> i = Z.of_nat (length w) -> i < PGSIZE -> 0 <= b < 256 ->
  (forall s2, wrote (w ++ [b]) s s2 -> modifies (range SHARED_MEMORY PGSIZE) (umem s1) (umem s2) -> Q tt s2) ->
  uwp (ustore8 (SHARED_MEMORY + i) b) Q s1.
Proof.
  intros Hmap (Hl & Hk & Hm & Hb) -> Hi Hr HQ. apply uwp_store; [apply umapped_1, Hmap; lia|].
  assert (Hm1 : modifies (range SHARED_MEMORY PGSIZE) (umem s1) (wr 1 (umem s1) (SHARED_MEMORY + Z.of_nat (length w)) b)).
  { apply modifies_wr. unfold range. simpl. lia. }
  apply HQ; [|done]. split; [done|]. split; [done|]. split; [by eapply modifies_trans|].
  apply bytes_at_app. split.
  - eapply bytes_at_ext; [|exact Hb]. intros a Ha. apply rd8_wr_out. simpl. lia.
  - simpl. split; [|done]. rewrite rd8_wr1, decide_True by done. by apply w8_small.
Qed.

Lemma ustring_char m p l i s (Q : Z -> ustate -> Prop) : umem s = m -> ustring m p l ->
  0 <= i <= Z.of_nat (length l) -> Q (default 0 (l !! Z.to_nat i)) s -> uwp (uload8 (p +w i)) Q s.
Proof. intros <- [Ht _] Hi HQ. by apply (uchar_at_ok (Ptr p) l i s). Qed.

Lemma marshal_char_ok vec ls c1 c2 t w s s1 i (Q : Z * Z -> ustate -> Prop) :
  page_mapped -> uvector (umem s) vec ls -> cursor ls c1 c2 t -> c1 < Z.of_nat (length ls) ->
  wrote w s s1 -> i = Z.of_nat (length w) -> i < PGSIZE ->
  (forall c1' c2' b s2, cursor ls c1' c2' (t ++ [b]) -> wrote (w ++ [b]) s s2 -> Q (c1', c2') s2) ->
  uwp (marshal_char vec i c1 c2) Q s1.
Proof.
  intros Hmap Huv Hcu Hlt Hw Hi Hi2 HQ. pose proof Hw as (_ & _ & Hm & _).
  pose proof (uvector_frame _ _ _ _ Huv Hm) as [Hr Ho Hmp Hs _].
  destruct (cu_string _ _ _ _ Hcu) as [H1 _]. pose proof (cu_char _ _ _ _ Hcu) as H2.
  destruct (lookup_lt_is_Some_2 ls (Z.to_nat c1)) as [l Hl]; [lia|].
  assert (Hsl : string_at ls c1 = l) by (unfold string_at; by rewrite Hl). rewrite Hsl in H2.
  assert (Hall : Forall (Forall (fun c => 0 < c < 256)) ls).
  { apply Forall_lookup_2. intros k x Hx. destruct (Hs (Z.of_nat k) x) as [_ [[Hc _] _]]; [by rewrite Nat2Z.id|lia|done]. }
  destruct (Hs c1 l Hl H1) as [Hne Hstr].
  destruct (cursor_step ls c1 c2 t Hcu Hlt Hall) as [Hb Hcu']. rewrite Hsl in Hb, Hcu'.
  unfold marshal_char. rewrite w64_small by lia.
  uwp_step. apply uwp_load; [apply Hmp; lia|]. uwp_step.
  apply (ustring_char (umem s1) _ l c2 s1); [reflexivity|done|lia|]. uwp_step.
  apply (store_shared w _ s s1 i); [done|done|done|done|done|]. intros s2 Hw2 Hm2.
  pose proof Hw2 as (_ & _ & Hm02 & _). pose proof (uvector_frame _ _ _ _ Huv Hm02) as [_ _ _ Hs2 _].
  destruct (Hs2 c1 l Hl H1) as [_ Hstr2].
  uwp_step. apply uwp_load; [apply Hmp; lia|]. uwp_step.
  apply (ustring_char (umem s2) _ l c2 s2); [reflexivity|done|lia|]. uwp_step.
  set (b := default 0 (l !! Z.to_nat c2)) in *.
  destruct (b =? 0); by apply (HQ _ _ b).
Qed.

(** ** The loop *)

Section Loop.
Context (name argv envp : Z) (l : list Z) (A E : list (list Z)).

(** The text for the kernel, and how far the loop has come with it. *)
Definition message : list Z := (l ++ [0]) ++ image A ++ image E.

Inductive progress : marshal -> list Z -> Prop :=
  | in_name i w : 0 <= i <= Z.of_nat (length l) -> w = take (Z.to_nat i) l ->
      progress (mkMarshal i 0 0 0 0 0) w
  | in_argv i c1 c2 t w : cursor A c1 c2 t -> w = (l ++ [0]) ++ t -> i = Z.of_nat (length w) ->
      progress (mkMarshal i 1 c1 c2 0 0) w
  | in_envp i c1 c2 t w : cursor E c1 c2 t -> w = (l ++ [0]) ++ image A ++ t -> i = Z.of_nat (length w) ->
      progress (mkMarshal i 2 c1 c2 (Z.of_nat (length A)) 0) w
  | in_padding i k w : w = message ++ replicate (S k) 0 -> i = Z.of_nat (length w) ->
      progress (mkMarshal i 2 (Z.of_nat (length E)) 0 (Z.of_nat (length A)) (Z.of_nat (length E))) w.

Lemma progress_length x w : progress x w -> ma_i x = Z.of_nat (length w).
Proof. intros [i w' Hi ->|i c1 c2 t w' _ _ ->|i c1 c2 t w' _ _ ->|i k w' _ ->]; simpl; [|done..]. rewrite length_take. lia. Qed.

(** The turns that are left. *)
Definition turns_left (x : marshal) : Z := 2 * (4096 - ma_i x) + (if ma_state x =? 2 then 0 else 1).

Context (s : ustate).
Hypothesis Hmap : page_mapped.
Hypothesis Hname : ustring (umem s) name l.
Hypothesis HA : uvector (umem s) argv A.
Hypothesis HE : uvector (umem s) envp E.

(** What one turn does: a byte at most, and the loop comes closer to its end. *)
Definition turn (x : marshal) (Q : marshal -> ustate -> Prop) : Prop := forall x' w' s2,
  progress x' w' -> wrote w' s s2 -> ma_i x' <= ma_i x + 1 -> turns_left x' < turns_left x -> Q x' s2.

(** The pointer at the cursor is NULL exactly at the end of the vector. *)
Lemma vector_entry vec ls c1 c2 t s1 (Q : Z -> ustate -> Prop) :
  uvector (umem s1) vec ls -> cursor ls c1 c2 t ->
  (c1 = Z.of_nat (length ls) -> Q NULL s1) ->
  (forall p, c1 < Z.of_nat (length ls) -> (p =? NULL) = false -> Q p s1) ->
  uwp (uload64 (vec +w 8 * c1)) Q s1.
Proof.
  intros [Hr Ho Hmp Hs Hend] Hcu HQe HQ. pose proof (cu_string _ _ _ _ Hcu) as Hc1. rewrite w64_small by lia.
  apply uwp_load; [by apply Hmp|]. destruct (decide (c1 = Z.of_nat (length ls))) as [Heq|Hne].
  - rewrite Heq, Hend. by apply HQe.
  - destruct (lookup_lt_is_Some_2 ls (Z.to_nat c1)) as [la Hla]; [lia|].
    destruct (Hs c1 la Hla ltac:(lia)) as [Hnn _]. apply HQ; [lia|by apply Z.eqb_neq].
Qed.

Lemma step_name i s1 (Q : marshal -> ustate -> Prop) :
  0 <= i <= Z.of_nat (length l) -> wrote (take (Z.to_nat i) l) s s1 -> i < PGSIZE ->
  turn (mkMarshal i 0 0 0 0 0) Q -> uwp (marshal_step name argv envp (mkMarshal i 0 0 0 0 0)) Q s1.
Proof.
  intros Hir Hw Hi HQ. unfold turn, turns_left in HQ. simpl in *.
  pose proof Hw as (_ & _ & Hm & _). pose proof (ustring_frame _ _ _ _ Hname Hm) as Hn1.
  pose proof Hname as [[Hc _] _]. rewrite Forall_lookup in Hc.
  uwp_step. apply (ustring_char (umem s1) _ l i s1); [done|done|done|]. uwp_step.
  assert (Hb : 0 <= default 0 (l !! Z.to_nat i) < 256).
  { destruct (l !! Z.to_nat i) as [c|] eqn:Ec; simpl; [specialize (Hc _ _ Ec)|]; lia. }
  assert (Hiw : i = Z.of_nat (length (take (Z.to_nat i) l))) by (rewrite length_take; lia).
  apply (store_shared (take (Z.to_nat i) l) _ s s1 i); [done..|]. intros s2 Hw2 Hm2.
  pose proof Hw2 as (_ & _ & Hm02 & _). pose proof (ustring_frame _ _ _ _ Hname Hm02) as Hn2.
  uwp_step. apply (ustring_char (umem s2) _ l i s2); [done|done|done|]. uwp_step.
  destruct (l !! Z.to_nat i) as [c|] eqn:Ec; simpl in *.
  - pose proof (Hc _ _ Ec). pose proof (lookup_lt_Some _ _ _ Ec).
    rewrite (proj2 (Z.eqb_neq c 0)) by lia. eapply HQ; [|exact Hw2|simpl; lia|simpl; lia].
    apply in_name; [lia|]. symmetry. apply take_step; [lia|done].
  - apply lookup_ge_None in Ec. rewrite take_ge in * by lia.
    eapply HQ; [|exact Hw2|simpl; lia|simpl; lia].
    apply (in_argv _ 0 0 [] (l ++ [0])); [apply cursor_start|by rewrite app_nil_r|]. rewrite length_app. simpl. lia.
Qed.

Lemma step_argv i c1 c2 t w s1 (Q : marshal -> ustate -> Prop) :
  cursor A c1 c2 t -> w = (l ++ [0]) ++ t -> i = Z.of_nat (length w) -> wrote w s s1 -> i < PGSIZE ->
  turn (mkMarshal i 1 c1 c2 0 0) Q -> uwp (marshal_step name argv envp (mkMarshal i 1 c1 c2 0 0)) Q s1.
Proof.
  intros Hcu Hwt Hiw Hw Hi HQ. unfold turn, turns_left in HQ. simpl in *.
  pose proof Hw as (_ & _ & Hm & _). uwp_step.
  apply (vector_entry argv A c1 c2 t); [by eapply uvector_frame|done| |].
  - intros Heq. change (NULL =? NULL) with true. uwp_step.
    destruct (cursor_end _ _ _ _ Hcu Heq) as [_ ->]. eapply HQ; [|exact Hw|simpl; lia|simpl; lia].
    rewrite Heq. apply (in_envp _ 0 0 []); [apply cursor_start|by rewrite app_nil_r|done].
  - intros p Hlt ->. uwp_step. apply (marshal_char_ok argv A c1 c2 t w s s1 i _ Hmap HA Hcu Hlt Hw Hiw Hi).
    intros c1' c2' b s2 Hcu' Hw2. uwp_step. eapply HQ; [|exact Hw2|simpl; lia|simpl; lia].
    apply (in_argv _ _ _ (t ++ [b])); [done|by rewrite Hwt, !app_assoc|].
    rewrite Hiw, !length_app. simpl. lia.
Qed.

Lemma step_envp i c1 c2 t w s1 (Q : marshal -> ustate -> Prop) :
  cursor E c1 c2 t -> w = (l ++ [0]) ++ image A ++ t -> i = Z.of_nat (length w) -> wrote w s s1 -> i < PGSIZE ->
  turn (mkMarshal i 2 c1 c2 (Z.of_nat (length A)) 0) Q ->
  uwp (marshal_step name argv envp (mkMarshal i 2 c1 c2 (Z.of_nat (length A)) 0)) Q s1.
Proof.
  intros Hcu Hwt Hiw Hw Hi HQ. unfold turn, turns_left in HQ. simpl in *.
  pose proof Hw as (_ & _ & Hm & _). uwp_step.
  apply (vector_entry envp E c1 c2 t); [by eapply uvector_frame|done| |].
  - intros Heq. change (NULL =? NULL) with true. uwp_step.
    destruct (cursor_end _ _ _ _ Hcu Heq) as [-> ->].
    uwp_step. apply (store_shared w 0 s s1 i _ Hmap Hw Hiw Hi ltac:(lia)). intros s2 Hw2 _. uwp_step.
    eapply HQ; [|exact Hw2|simpl; lia|simpl; lia]. rewrite Heq.
    apply (in_padding _ 0); [by rewrite Hwt|]. rewrite length_app. simpl. lia.
  - intros p Hlt ->. uwp_step. apply (marshal_char_ok envp E c1 c2 t w s s1 i _ Hmap HE Hcu Hlt Hw Hiw Hi).
    intros c1' c2' b s2 Hcu' Hw2. uwp_step. eapply HQ; [|exact Hw2|simpl; lia|simpl; lia].
    apply (in_envp _ _ _ (t ++ [b])); [done|by rewrite Hwt, !app_assoc|].
    rewrite Hiw, !length_app. simpl. lia.
Qed.

Lemma step_padding i k w s1 (Q : marshal -> ustate -> Prop) :
  let x := mkMarshal i 2 (Z.of_nat (length E)) 0 (Z.of_nat (length A)) (Z.of_nat (length E)) in
  w = message ++ replicate (S k) 0 -> i = Z.of_nat (length w) -> wrote w s s1 -> i < PGSIZE ->
  turn x Q -> uwp (marshal_step name argv envp x) Q s1.
Proof.
  intros x Hwt Hiw Hw Hi HQ. unfold turn, turns_left in HQ. subst x. simpl in *.
  pose proof Hw as (_ & _ & Hm & _). pose proof (uvector_frame _ _ _ _ HE Hm) as [Hr Ho Hmp Hs Hend].
  uwp_step. rewrite w64_small by lia. apply uwp_load; [apply Hmp; lia|]. rewrite Hend.
  change (NULL =? NULL) with true.
  uwp_step. uwp_step. apply (store_shared w 0 s s1 i _ Hmap Hw Hiw Hi ltac:(lia)). intros s2 Hw2 _. uwp_step.
  eapply HQ; [|exact Hw2|simpl; lia|simpl; lia]. apply (in_padding _ (S k)).
  - rewrite Hwt, <-app_assoc. f_equal. by rewrite (replicate_S_end (S k)).
  - rewrite Hiw, length_app. simpl. lia.
Qed.

Lemma marshal_step_ok s1 x w (Q : marshal -> ustate -> Prop) :
  wrote w s s1 -> progress x w -> ma_i x < PGSIZE -> turn x Q -> uwp (marshal_step name argv envp x) Q s1.
Proof.
  intros Hw Hpr Hi HQ.
  destruct Hpr as [i w Hir Hwt|i c1 c2 t w Hcu Hwt Hiw|i c1 c2 t w Hcu Hwt Hiw|i k w Hwt Hiw]; simpl in Hi.
  - subst. by apply step_name.
  - by eapply step_argv.
  - by eapply step_envp.
  - by eapply step_padding.
Qed.

(** The loop ends within the padding if the text is shorter than the page. *)
Lemma cursor_length ls c1 c2 t : cursor ls c1 c2 t -> (length t <= length (image ls))%nat.
Proof.
  intros [H1 H2 ->]. replace (image ls) with (image (take (Z.to_nat c1) ls ++ drop (Z.to_nat c1) ls)) by (by rewrite take_drop).
  rewrite image_app, !length_app, length_take.
  unfold string_at in *. destruct (ls !! Z.to_nat c1) as [x|] eqn:Ex; simpl in *; [|lia].
  rewrite (drop_S _ _ _ Ex). unfold image at 3. simpl. rewrite !length_app. simpl. lia.
Qed.

Lemma length_image ls : (length ls <= length (image ls))%nat.
Proof.
  induction ls as [|x ls IH]; [done|]. change (image (x :: ls)) with ((x ++ [0]) ++ image ls).
  rewrite !length_app. simpl. lia.
Qed.

Definition padded : list Z := message ++ replicate (4096 - length message) 0.

Lemma progress_end x w : (length message < 4096)%nat -> progress x w -> ma_i x = 4096 ->
  w = padded /\ ma_argv_size x = Z.of_nat (length A) /\ ma_envp_size x = Z.of_nat (length E).
Proof.
  unfold message, padded. intros Hlen Hpr Hi. rewrite !length_app in Hlen. simpl in Hlen.
  destruct Hpr as [i w Hir Hwt|i c1 c2 t w Hcu -> Hiw|i c1 c2 t w Hcu -> Hiw|i k w -> Hiw]; simpl in *; [lia| | |].
  1,2: pose proof (cursor_length _ _ _ _ Hcu); rewrite !length_app in Hiw; simpl in Hiw; lia.
  split; [|done]. f_equal. change (0 :: replicate k 0) with (replicate (S k) 0). f_equal.
  rewrite length_app in Hiw. simpl in Hiw. rewrite length_replicate in Hiw. lia.
Qed.

(** The last byte of the page is NUL already. *)
Lemma last_byte m : (length message < 4096)%nat -> bytes_at m SHARED_MEMORY padded ->
  bytes_at (wr 1 m (SHARED_MEMORY + (PGSIZE - 1)) 0) SHARED_MEMORY padded.
Proof.
  intros Hlen Hb. eapply bytes_at_ext; [|exact Hb]. intros a _. rewrite rd8_wr1.
  destruct (decide _) as [<-|]; [|done].
  assert (H : padded !! Z.to_nat (PGSIZE - 1) = Some 0).
  { unfold padded. change (Z.to_nat (PGSIZE - 1)) with (4095%nat). rewrite lookup_app_r by lia.
    apply lookup_replicate. split; [done|lia]. }
  pose proof (bytes_at_lookup _ _ _ _ _ Hb H) as Hr. rewrite Z2Nat.id in Hr by done. by rewrite Hr.
Qed.

Lemma exec_loop_ok (Q : marshal -> ustate -> Prop) :
  (length message < 4096)%nat ->
  (forall x s', wrote padded s s' -> ma_argv_size x = Z.of_nat (length A) ->
    ma_envp_size x = Z.of_nat (length E) -> Q x s') ->
  uwp (uloop (fun x =>
    if ma_i x <? 4096 then x ← marshal_step name argv envp x; mret (inl x)
    else mret (inr x)) (mkMarshal 0 0 0 0 0 0)) Q s.
Proof.
  intros Hlen HQ.
  apply (uwp_loop (fun n x s1 => n = turns_left x /\ ma_i x <= 4096 /\
    exists w, progress x w /\ wrote w s s1) (2 * 4096 + 1)); [|done|].
  { split; [done|]. split; [done|]. exists []. split; [by apply (in_name 0); [lia|]|].
    split; [done|]. split; [done|]. split; [apply modifies_refl|done]. }
  intros n x s1 (-> & Hi & w & Hpr & Hw). split; [unfold turns_left; destruct (_ =? _); lia|].
  destruct (Z.ltb_spec (ma_i x) 4096) as [Hlt|Hge].
  - uwp_step. apply (marshal_step_ok s1 x w _ Hw Hpr Hlt). intros x' w' s2 Hpr' Hw' Hi' Ht. uwp_step.
    exists (turns_left x'). split; [done|]. split; [done|]. split; [lia|by exists w'].
  - uwp_step. destruct (progress_end x w Hlen Hpr ltac:(lia)) as (-> & HAs & HEs). by apply HQ.
Qed.
End Loop.

Lemma uwp_run {A} (m : U A) (Q : A -> ustate -> Prop) s : uwp m Q s -> exists a s', m s = UOk a s' /\ Q a s'.
Proof. unfold uwp. destruct (m s); naive_solver. Qed.

(** The call of [exec]. *)
Lemma exec_call_ok name argv envp l A E s :
  page_mapped -> ustring (umem s) name l -> uvector (umem s) argv A -> uvector (umem s) envp E ->
  (length (message l A E) < 4096)%nat ->
  exists s', wrote (padded l A E) s s' /\ exec name argv envp s =
    (r ← syscall name argv envp (Z.of_nat (length A)) (Z.of_nat (length E)) 0 0 SYSCALL_EXEC;
     mret (s32 r)) s'.
Proof.
  intros Hmap Hname HA HE Hlen.
  pose proof (length_image A) as HlA. pose proof (length_image E) as HlE.
  assert (Hlen' : (length (image A) + length (image E) < 4096)%nat).
  { unfold message in Hlen. rewrite !length_app in Hlen. lia. }
  destruct (uwp_run _ _ _ (exec_loop_ok name argv envp l A E s Hmap Hname HA HE (fun x s' =>
    wrote (padded l A E) s s' /\ ma_argv_size x = Z.of_nat (length A) /\ ma_envp_size x = Z.of_nat (length E))
    Hlen ltac:(done))) as (x & s1 & Hrun & Hw & HAs & HEs).
  pose proof Hw as (Hl & Hk & Hm & Hb).
  exists (set_umem (wr 1 (umem s1) (SHARED_MEMORY + (PGSIZE - 1)) 0) s1). split.
  - split; [done|]. split; [done|]. split; [|by apply last_byte].
    eapply modifies_trans; [exact Hm|]. apply modifies_wr. unfold range. simpl. change PGSIZE with 4096. lia.
  - unfold exec. unfold mbind at 1, U_bind at 1. rewrite Hrun. rewrite HAs, HEs, !w64_small by lia.
    unfold mbind at 1, U_bind at 1. unfold ustore at 1. by rewrite umapped_1 by (by apply Hmap).
Qed.

(** C25: [exec] sends the kernel the name, the arguments and the environment: it
    makes the system call with the sizes of both vectors, and at that moment the
    shared page holds the strings one after the other, each with its terminator,
    and is padded with NULs; no other memory has changed. *)
Theorem exec_marshals name argv envp l A E s :
  page_mapped -> ustring (umem s) name l -> uvector (umem s) argv A -> uvector (umem s) envp E ->
  (length (message l A E) < 4096)%nat ->
  exists s', wrote (padded l A E) s s' /\ exec name argv envp s =
    (r ← syscall name argv envp (Z.of_nat (length A)) (Z.of_nat (length E)) 0 0 SYSCALL_EXEC;
     mret (s32 r)) s'.
Proof. apply exec_call_ok. Qed.

(** The strings of a vector have no NULs. *)
Lemma uvector_strings m vec ls : uvector m vec ls -> Forall (Forall (fun c => 0 < c < 256)) ls.
Proof.
  intros [_ _ _ Hs _]. apply Forall_lookup_2. intros k x Hx.
  destruct (Hs (Z.of_nat k) x) as [_ [[Hc _] _]]; [by rewrite Nat2Z.id|lia|done].
Qed.
End Exec.

(** ** Witness: exec("sh", {"hi", NULL}, {NULL}) *)

#[local] Existing Instance user_world.

Definition exec_memory : gmap Z Z :=
  wr 8 (put_bytes user_ram (codes "sh" ++ [0]) (put_bytes (user_ram + 32) (codes "hi" ++ [0]) ∅))
    (user_ram + 16) (user_ram + 32).

Lemma exec_string a t : a = user_ram /\ t = codes "sh" \/ a = user_ram + 32 /\ t = codes "hi" ->
  ustring exec_memory a t.
Proof.
  intros H. assert (user_ram <= a <= user_ram + 32 /\ length t = 2%nat) as [Ha Hl] by naive_solver lia.
  unfold user_ram in *. split; [split; [by destruct H as [[_ ->]|[_ ->]]; repeat constructor|]|left; rewrite Hl; change SHARED_MEMORY with (2 ^ 38 - 3 * 4096); lia].
  split; [destruct H as [[-> ->]|[-> ->]]; vm_compute; done|]. split; [lia|]. rewrite Hl. split; [lia|].
  intros i Hi. apply user_ram_mapped. unfold user_ram. lia.
Qed.

Lemma exec_vector vec ls : vec = user_ram + 16 /\ ls = [codes "hi"] \/ vec = user_ram + 64 /\ ls = [] ->
  uvector exec_memory vec ls.
Proof.
  intros H. assert (user_ram <= vec <= user_ram + 64 /\ (length ls <= 1)%nat) as [Ha Hl] by (simpl in *; naive_solver lia).
  unfold user_ram in Ha. split.
  - lia.
  - left. change SHARED_MEMORY with (2 ^ 38 - 3 * 4096). lia.
  - intros i Hi. unfold umapped. apply forallb_forall. intros x Hx%in_seq. apply user_ram_mapped. unfold user_ram. lia.
  - intros i l Hi H0. destruct H as [[-> ->]|[-> ->]]; [|done].
    destruct (Z.to_nat i) as [|[|?]] eqn:Ei; [|done..]. replace i with 0 by lia. injection Hi as <-.
    split; [done|]. apply (exec_string (user_ram + 32)). by right.
  - by destruct H as [[-> ->]|[-> ->]].
Qed.

Lemma exec_marshals_witness :
  let s := ustate_with exec_memory [] in
  exists s', bytes_at (umem s') SHARED_MEMORY (codes "sh" ++ [0] ++ codes "hi" ++ [0; 0]) /\
    exec user_ram (user_ram + 16) (user_ram + 64) s =
    (r ← syscall user_ram (user_ram + 16) (user_ram + 64) 1 0 0 0 SYSCALL_EXEC; mret (s32 r)) s'.
Proof.
  intros s. destruct (exec_marshals user_ram (user_ram + 16) (user_ram + 64) (codes "sh") [codes "hi"] [] s)
    as (s' & (_ & _ & _ & Hb) & Heq).
  - intros i Hi. unfold mapped. simpl. apply orb_true_iff. right. apply andb_true_iff.
    rewrite Z.leb_le, Z.ltb_lt. lia.
  - apply exec_string. by left.
  - apply exec_vector. by left.
  - apply exec_vector. by right.
  - vm_compute. lia.
  - exists s'. split; [|exact Heq]. unfold padded in Hb.
    change (codes "sh" ++ [0] ++ codes "hi" ++ [0; 0]) with (message (codes "sh") [codes "hi"] [] ++ [0]).
    apply bytes_at_app. apply bytes_at_app in Hb as [Hb1 Hb2]. split; [exact Hb1|].
    by apply (bytes_at_take _ _ _ 1) in Hb2.
Defined.
