(* ===== verification/ExecTheorems.v ===== *)
(** * exec across the system call

    What the kernel makes of the page that [exec] of the user library fills
    (ExecProof.v): [exec_strings] and [exec_vectors], the parts of [exec_process]
    in process.c that look for the strings and set up the vectors. *)

From S2P Require Import Prelude Machine Board Utility BuddySpec PageAlloc Kmalloc LinkedList LinkedListProof Task Process TaskTable UserStack UserMemory TaskCreate TaskFill FirstProcess UserMachine System UserProof UserBoard ExecProof.

(** Strings without NULs. *)
Definition strings (ls : list (list Z)) : Prop := Forall (Forall (fun c => 0 < c < 256)) ls.

Lemma image_cons l ls : image (l :: ls) = (l ++ [0]) ++ image ls.
Proof. done. Qed.

Lemma image_take_S ls i l : ls !! i = Some l ->
  length (image (take (S i) ls)) = (length (image (take i ls)) + length l + 1)%nat.
Proof.
  intros Hl. rewrite (take_S_r _ _ _ Hl), image_app, length_app, image_cons, !length_app. simpl. lia.
Qed.

Lemma image_take_le ls i : (length (image (take i ls)) <= length (image ls))%nat.
Proof.
  rewrite <-(take_drop i ls) at 2. rewrite image_app, length_app. lia.
Qed.

(** A string of the text. *)
Lemma image_string m p ls i l : bytes_at m p (image ls) -> ls !! i = Some l ->
  bytes_at m (p + Z.of_nat (length (image (take i ls)))) (l ++ [0]).
Proof.
  intros Hb Hl. rewrite <-(take_drop i ls), image_app in Hb. apply bytes_at_app in Hb as [_ Hb].
  rewrite (drop_S _ _ _ Hl), image_cons in Hb. by apply bytes_at_app in Hb as [Hb _].
Qed.

(** The text from any position on is again a text. *)
Lemma image_drop ls n : strings ls -> (n <= length (image ls))%nat ->
  exists B, image B = drop n (image ls) /\ strings B.
Proof.
  revert n. induction ls as [|l ls IH]; intros n Hs Hn.
  - exists []. simpl in Hn. by replace n with 0%nat by lia.
  - apply Forall_cons in Hs as [Hl Hs]. rewrite image_cons in *. rewrite !length_app in Hn. simpl in Hn.
    destruct (decide (n <= length l)%nat) as [Hle|Hgt].
    + exists (drop n l :: ls). rewrite image_cons, <-!app_assoc. split; [by rewrite drop_app_le|].
      apply Forall_cons. split; [by apply Forall_drop|done].
    + destruct (IH (n - (length l + 1))%nat Hs ltac:(lia)) as (B & HB & HsB). exists B. split; [|done].
      rewrite HB, drop_app_ge by (rewrite length_app; simpl; lia). by rewrite length_app.
Qed.

Section KernelExec.
Context `{Hw : Platform} {HwOk : PlatformOk Hw} {Ops : PageOps}.

(** The character [i] of a text in RAM. *)
Lemma load_text m p w i (Q : Z -> state -> Prop) s : mem s = m ->
  bytes_at m p w -> ram_range p (Z.of_nat (length w)) -> 0 <= i < Z.of_nat (length w) ->
  Q (default 0 (w !! Z.to_nat i)) s -> wp (load8 (p + i)) Q s.
Proof.
  intros <- Hb Hr Hi HQ. destruct (ram_byte p _ i Hr Hi) as [_ Hram]. apply wp_load; [done|]. rewrite rd_1.
  destruct (lookup_lt_is_Some_2 w (Z.to_nat i)) as [c Hc]; [lia|]. rewrite Hc in HQ.
  pose proof (bytes_at_lookup _ _ _ _ _ Hb Hc) as Hrd. rewrite Z2Nat.id in Hrd by lia. by rewrite Hrd.
Qed.

Lemma ram_add p n i : ram_range p n -> 0 <= i < n -> p +w i = p + i.
Proof. intros Hr Hi. by apply (ram_byte p n i Hr). Qed.

(** [while ( *ptr != NUL) ptr++] ends at the terminator. *)
Lemma skip_chars_ok p l s (Q : Z -> state -> Prop) :
  Forall (fun c => 0 < c < 256) l -> bytes_at (mem s) p (l ++ [0]) ->
  ram_range p (Z.of_nat (length l) + 1) -> Q (p + Z.of_nat (length l)) s -> wp (skip_chars p) Q s.
Proof.
  intros Hl Hb Hr HQ. unfold skip_chars.
  apply (wp_loop (fun n q s' => s' = s /\ exists i, q = p + i /\ 0 <= i <= Z.of_nat (length l) /\
    n = Z.of_nat (length l) - i) (Z.of_nat (length l))); [| |].
  { split; [done|]. exists 0. lia. }
  { unfold ram_range, PHYSTOP, KERNBASE in Hr. lia. }
  intros n q s' (-> & i & -> & Hi & ->). split; [lia|]. wp_step.
  apply (load_text (mem s) p (l ++ [0])); [done|done|rewrite length_app; simpl; by rewrite Nat2Z.inj_add|rewrite length_app; simpl; lia|].
  destruct (l !! Z.to_nat i) as [c|] eqn:Ec.
  - rewrite lookup_app_l by (by apply lookup_lt_Some in Ec). rewrite Ec. simpl default.
    rewrite Forall_lookup in Hl. specialize (Hl _ _ Ec). apply lookup_lt_Some in Ec.
    unfold truth. rewrite (proj2 (Z.eqb_neq c 0)) by lia. simpl negb. wp_step.
    exists (Z.of_nat (length l) - (i + 1)). split; [lia|]. split; [done|]. exists (i + 1).
    split; [|lia]. rewrite <-(Z.add_assoc p i 1). apply (ram_add p _ (i + 1) Hr). lia.
  - apply lookup_ge_None in Ec. rewrite lookup_app_r by lia.
    replace (Z.to_nat i - length l)%nat with 0%nat by lia. simpl. wp_step.
    by replace i with (Z.of_nat (length l)) by lia.
Qed.

(** [while ( *ptr == NUL) ptr++] after a single terminator. *)
Lemma skip_nuls_ok p c s (Q : Z -> state -> Prop) :
  0 < c < 256 -> bytes_at (mem s) p [0; c] -> ram_range p 2 -> Q (p + 1) s -> wp (skip_nuls p) Q s.
Proof.
  intros Hc Hb Hr HQ. unfold skip_nuls.
  apply (wp_loop (fun n q s' => s' = s /\ exists i, q = p + i /\ 0 <= i <= 1 /\ n = 1 - i) 1); [|lia|].
  { split; [done|]. exists 0. lia. }
  intros n q s' (-> & i & -> & Hi & ->). split; [lia|]. wp_step.
  apply (load_text (mem s) p [0; c]); [done..|simpl; lia|].
  assert (i = 0 \/ i = 1) as [-> | ->] by lia; simpl default.
  - change (truth 0) with false. wp_step. exists 0. split; [lia|]. split; [done|]. exists 1.
    split; [|lia]. rewrite Z.add_0_r. apply (ram_add p _ 1 Hr). lia.
  - unfold truth. rewrite (proj2 (Z.eqb_neq c 0)) by lia. simpl negb. by wp_step.
Qed.

(** Slot [i] of the vector has the address of string [i] of [ls], counted from
    [va] on like the text from [shared] on. *)
Definition slots (m : gmap Z Z) (vec base : Z) (ls : list (list Z)) (n : Z) : Prop :=
  forall i, 0 <= i < n -> rd64 m (vec + 8 * i) = base + Z.of_nat (length (image (take (Z.to_nat i) ls))).

Lemma fill_vector_ok vec str va shared ls k s (Q : unit -> state -> Prop) :
  strings ls -> bytes_at (mem s) str (image ls) -> ram_range str (Z.of_nat (length (image ls))) ->
  (k <= length ls)%nat -> ram_range vec (8 * Z.of_nat k) ->
  (vec + 8 * Z.of_nat k <= str \/ str + Z.of_nat (length (image ls)) <= vec) ->
  shared <= str -> 0 <= va -> va + (str - shared) + Z.of_nat (length (image ls)) < 2 ^ 64 ->
  (forall m, modifies (range vec (8 * Z.of_nat k)) (mem s) m ->
     slots m vec (va + (str - shared)) ls (Z.of_nat k) -> Q tt (set_mem m s)) ->
  wp (fill_vector vec (Z.of_nat k) str va shared) Q s.
Proof.
  intros Hls Hb Hr Hk Hrv Hdis Hsh Hva Hmax HQ. unfold fill_vector.
  pose proof Hr as (Hr1 & Hr2 & _). pose proof Hrv as (Hv1 & Hv2 & _). unfold PHYSTOP, KERNBASE in *.
  apply (wp_loop (fun n '(i, p) s' => n = Z.of_nat k - i /\ 0 <= i <= Z.of_nat k /\
    p = str + Z.of_nat (length (image (take (Z.to_nat i) ls))) /\ exists m, s' = set_mem m s /\
    modifies (range vec (8 * Z.of_nat k)) (mem s) m /\ slots m vec (va + (str - shared)) ls i) (Z.of_nat k)); [|lia|].
  { split; [lia|]. split; [lia|]. split; [simpl; lia|]. exists (mem s).
    split; [by destruct s|]. split; [apply modifies_refl|intros i Hi; lia]. }
  intros n [i p] s' (-> & Hi & -> & m & -> & Hm & Hsl). split; [lia|].
  destruct (Z.ltb_spec i (Z.of_nat k)) as [Hlt|Hge].
  2:{ wp_step. replace i with (Z.of_nat k) in Hsl by lia. by apply HQ. }
  destruct (lookup_lt_is_Some_2 ls (Z.to_nat i)) as [l Hl]; [lia|].
  pose proof (image_take_S _ _ _ Hl) as HS. pose proof (image_take_le ls (S (Z.to_nat i))) as Hle.
  set (off := length (image (take (Z.to_nat i) ls))) in *.
  set (m' := wr 8 m (vec + 8 * i) (va + (str - shared) + Z.of_nat off)).
  assert (Hm' : modifies (range vec (8 * Z.of_nat k)) (mem s) m').
  { eapply modifies_trans; [exact Hm|]. apply modifies_wr. unfold range. simpl. lia. }
  assert (Hb' : bytes_at m' (str + Z.of_nat off) (l ++ [0])).
  { apply image_string; [|done]. eapply bytes_at_ext; [|exact Hb]. intros b Hin. apply Hm'. unfold range. lia. }
  wp_step. rewrite (w64_small (vec + 8 * i)) by lia. rewrite (w64_small (str + _ - shared)), (w64_small (va + _)) by lia.
  apply wp_store; [apply in_ram_true; unfold PHYSTOP, KERNBASE; simpl; lia|].
  replace (va + (str + Z.of_nat off - shared)) with (va + (str - shared) + Z.of_nat off) by lia.
  simpl mem. fold m'. wp_step. apply (skip_chars_ok _ l); [by eapply Forall_lookup_1|done| |].
  { unfold ram_range, PHYSTOP, KERNBASE. lia. }
  wp_step. exists (Z.of_nat k - (i + 1)). rewrite w64_small by lia.
  split; [lia|]. split; [lia|]. split; [lia|]. replace (Z.to_nat (i + 1)) with (S (Z.to_nat i)) by lia.
  split; [lia|]. exists m'. split; [done|]. split; [done|]. intros j Hj.
  destruct (decide (j = i)) as [->|Hne].
  - unfold m'. by rewrite rd64_wr64_same by lia.
  - unfold m'. rewrite rd64_wr64_out by lia. apply Hsl. lia.
Qed.

(** Text in the shared page, [off] bytes from its start. *)
Definition text_in (m : gmap Z Z) (shared off : Z) (ls : list (list Z)) : Prop :=
  strings ls /\ bytes_at m (shared + off) (image ls) /\ 0 <= off /\ off + Z.of_nat (length (image ls)) <= PGSIZE.

Lemma slots_frame m m' vec base ls n : slots m vec base ls n ->
  (forall b, vec <= b < vec + 8 * n -> rd8 m' b = rd8 m b) -> slots m' vec base ls n.
Proof. intros Hs Hm i Hi. rewrite <-Hs by done. apply rd_ext. intros b Hb. apply Hm. simpl in Hb. lia. Qed.

(** The task that calls exec, after it was loaded: [page] is the block of the
    vectors, which take [n] bytes of it after the copy of the shared page. *)
Definition exec_registers (tf a : Z) : Prop := tf + tf_a0 <= a < tf + tf_a0 + 24.
Record exec_task (s : state) (t page shared tf n : Z) (secs : list (Z * Z)) : Prop := {
  et_shared : rd64 (mem s) (t + t_shared_memory) = shared;
  et_frame : rd64 (mem s) (t + t_trap_frame) = tf;
  et_task : ram_range t sizeof_task_struct;
  et_ram : ram_range shared PGSIZE /\ ram_range page (PGSIZE + n) /\ ram_range tf PGSIZE;
  et_sections : exists l, list_rep (mem s) (t + t_mem_sections) l /\ sections_at (mem s) l.*2 secs /\
    (forall d, d ∈ l.*2 -> KERNBASE <= d /\ d + sizeof_memory_section <= PHYSTOP) /\
    (forall x d, (x, d) ∈ l -> sep page (PGSIZE + n) x sizeof_node /\ sep page (PGSIZE + n) d sizeof_memory_section);
  et_section_bounds : Forall (fun sec => 0 <= sec.1 /\ 0 <= sec.2 /\ sec.1 + sec.2 < 2 ^ 64) secs;
  et_va : sections_end secs + PGSIZE + n < 2 ^ 64;
  et_apart : sep page (PGSIZE + n) shared PGSIZE /\ sep page (PGSIZE + n) t sizeof_task_struct /\
    sep page (PGSIZE + n) tf PGSIZE
}.


(** What [exec_vectors] leaves: the copy of the page, the vectors behind it, each
    with its end, and the registers. *)
Record vectors_built (m m' : gmap Z Z) (page shared tf va oa oe : Z) (LA : list (list Z)) (na : Z)
    (LE : list (list Z)) (ne : Z) : Prop := {
  vb_copy : forall i, 0 <= i < PGSIZE -> rd8 m' (page + i) = rd8 m (shared + i);
  vb_argv : slots m' (page + PGSIZE) (va + oa) LA na;
  vb_argv_end : rd64 m' (page + PGSIZE + 8 * na) = NULL;
  vb_envp : slots m' (page + PGSIZE + 8 * (na + 1)) (va + oe) LE ne;
  vb_envp_end : rd64 m' (page + PGSIZE + 8 * (na + 1) + 8 * ne) = NULL;
  vb_registers : fields m' tf [(tf_a0, 8%nat, na); (tf_a1, 8%nat, va + PGSIZE); (tf_a2, 8%nat, va + PGSIZE + 8 * (na + 1))]
}.

Section Vectors.
Context (s : state) (t page shared tf oa oe : Z) (LA LE : list (list Z)) (ka ke : nat) (secs : list (Z * Z)).
Abbreviation na := (Z.of_nat ka).
Abbreviation ne := (Z.of_nat ke).
Abbreviation n := (8 * (na + ne + 2)).
Abbreviation va := (sections_end secs).
Abbreviation written := (range page (PGSIZE + n)).
Hypothesis Htask : exec_task s t page shared tf n secs.

(** Fields of the structure and the text stay while the block is written. *)
Lemma task_field m o : modifies written (mem s) m -> 0 <= o -> o + 8 <= sizeof_task_struct ->
  rd64 m (t + o) = rd64 (mem s) (t + o).
Proof using Htask.
  intros Hm H1 H2. destruct (et_apart _ _ _ _ _ _ _ Htask) as (_ & Hn & _).
  apply (modifies_rd _ 8 _ _ _ Hm). intros b Hb Hin. unfold range, sep in *. simpl in Hb. lia.
Qed.

Lemma text_kept m o L : modifies written (mem s) m -> text_in (mem s) shared o L -> bytes_at m (shared + o) (image L).
Proof using Htask.
  intros Hm (_ & Hb & H1 & H2). destruct (et_apart _ _ _ _ _ _ _ Htask) as (Hn & _).
  eapply bytes_at_ext; [|exact Hb]. intros b Hin. apply Hm. unfold range, sep in *. lia.
Qed.

Lemma vector_at m vec o L k (Q : unit -> state -> Prop) :
  modifies written (mem s) m -> text_in (mem s) shared o L -> (k <= length L)%nat ->
  page + PGSIZE <= vec -> vec + 8 * Z.of_nat k <= page + PGSIZE + n ->
  (forall m', modifies (range vec (8 * Z.of_nat k)) m m' -> modifies written (mem s) m' ->
     slots m' vec (va + o) L (Z.of_nat k) -> Q tt (set_mem m' s)) ->
  wp (fill_vector vec (Z.of_nat k) (shared + o) va shared) Q (set_mem m s).
Proof using Htask.
  intros Hm HL Hk H1 H2 HQ. pose proof HL as (Hs & _ & Ho1 & Ho2). pose proof (text_kept m o L Hm HL) as Hb.
  destruct Htask as [_ _ _ ((Hr1 & Hr2 & _) & (Hp1 & Hp2 & _) & _) _ _ Hva (Hap & _)].
  pose proof (sections_end_ge secs) as [Hv0 _]. unfold sep, PGSIZE in *.
  apply (fill_vector_ok vec _ va shared L k); [done|done|unfold ram_range, PHYSTOP, KERNBASE in *; lia|done|
    unfold ram_range, PHYSTOP, KERNBASE in *; lia|lia|lia|lia|lia|].
  intros m' Hm' Hsl. simpl mem in Hm'. replace (shared + o - shared) with o in Hsl by lia. apply (HQ m'); [done| |done].
  eapply modifies_trans; [exact Hm|]. eapply modifies_weaken; [|exact Hm']. intros a. unfold range. lia.
Qed.

(** The end of a vector. *)
Lemma vector_end m a (Q : unit -> state -> Prop) :
  modifies written (mem s) m -> page + PGSIZE <= a -> a + 8 <= page + PGSIZE + n ->
  (forall m', modifies (range a 8) m m' -> modifies written (mem s) m' -> rd64 m' a = NULL -> Q tt (set_mem m' s)) ->
  wp (store64 a NULL) Q (set_mem m s).
Proof using Htask.
  intros Hm H1 H2 HQ. destruct Htask as [_ _ _ (_ & (Hp1 & Hp2 & _) & _) _ _ _ _]. unfold PGSIZE, PHYSTOP, KERNBASE in *.
  apply wp_store; [apply in_ram_true; unfold PHYSTOP, KERNBASE; simpl; lia|].
  assert (Hwr : modifies (range a 8) m (wr 8 m a NULL)) by (apply modifies_wr; unfold range; simpl; lia).
  apply (HQ (wr 8 m a NULL)); [exact Hwr| |by apply rd64_wr64_same].
  eapply modifies_trans; [exact Hm|]. eapply modifies_weaken; [|exact Hwr]. intros b. unfold range. lia.
Qed.

Lemma exec_vectors_ok (Q : Z -> state -> Prop) :
  text_in (mem s) shared oa LA -> text_in (mem s) shared oe LE -> (ka <= length LA)%nat -> (ke <= length LE)%nat ->
  (forall m, modifies (fun a => written a \/ exec_registers tf a) (mem s) m ->
     vectors_built (mem s) m page shared tf va oa oe LA na LE ne -> Q va (set_mem m s)) ->
  wp (exec_vectors t page (shared + oa) na (shared + oe) ne) Q s.
Proof using Htask HwOk.
  intros HA HE Hka Hke HQ. destruct Htask as [Hsh Htf [Ht1 [Ht2 _]] (Hrs & Hrp & Hrt) (l & Hl & Hsec & Hds & Hsl) Hb Hva (Hap1 & Hap2 & Hap3)].
  pose proof Hrp as (Hp1 & Hp2 & _). pose proof Hrt as (Hf1 & Hf2 & _). pose proof (sections_end_ge secs) as [Hv0 _].
  unfold exec_vectors. wp_step. apply wp_load; [apply in_ram_true; unfold t_shared_memory, sizeof_task_struct, PHYSTOP, KERNBASE in *; simpl; lia|].
  rewrite Hsh. wp_step. apply memcpy_ok; [unfold ram_range, PGSIZE in *; lia|done|unfold sep, PGSIZE in *; lia|].
  intros m1 Hc1 Hm1.
  assert (Hw1 : modifies written (mem s) m1) by (eapply modifies_weaken; [|exact Hm1]; intros a; unfold range; lia).
  wp_step. eapply wp_mono; [apply (available_from_ok t l secs (set_mem m1 s)); [..|exact Hds|exact Hb]|].
  { apply (rep_frame _ _ _ Hl); [intros a Ha|intros x a Hx Ha]; apply Hw1; unfold range, sep, t_mem_sections, sizeof_task_struct in *; [lia|].
    apply list_elem_of_fmap in Hx as ([x' d] & -> & Hxd). destruct (Hsl x' d Hxd) as [Hs1 _]. unfold sizeof_node in *. simpl in Ha. lia. }
  { apply (sections_at_keep _ _ _ _ Hsec). intros a (d & Hd & Ha). apply Hw1. apply list_elem_of_fmap in Hd as ([x d'] & -> & Hxd).
    destruct (Hsl x d' Hxd) as [_ Hs2]. unfold range, sep, sizeof_memory_section in *. simpl in Ha. lia. }
  intros r s' [-> ->]. cbv zeta. assert (Hpa : page + PGSIZE + n < 2 ^ 64) by (unfold PGSIZE, PHYSTOP, KERNBASE in *; lia).
  rewrite (w64_small (page + PGSIZE)), (w64_small (page + PGSIZE + 8 * na)), (w64_small (page + PGSIZE + 8 * (na + 1))),
    (w64_small (page + PGSIZE + 8 * (na + 1) + 8 * ne)) by (unfold PGSIZE, KERNBASE in *; lia).
  wp_step. apply wp_load; [apply in_ram_true; unfold t_shared_memory, sizeof_task_struct, PHYSTOP, KERNBASE in *; simpl; lia|].
  simpl mem. rewrite (task_field m1 t_shared_memory Hw1), Hsh by done.
  wp_step. apply (vector_at m1 (page + PGSIZE) oa LA ka); [done|done|done|lia|lia|]. intros m2 Hm2 Hw2 Hs2.
  wp_step. apply (vector_end m2 (page + PGSIZE + 8 * na)); [done|lia|lia|]. intros m3 Hm3 Hw3 He3.
  wp_step. apply (vector_at m3 (page + PGSIZE + 8 * (na + 1)) oe LE ke); [done|done|done|lia|lia|]. intros m4 Hm4 Hw4 Hs4.
  wp_step. apply (vector_end m4 (page + PGSIZE + 8 * (na + 1) + 8 * ne)); [done|lia|lia|]. intros m5 Hm5 Hw5 He5.
  wp_step. apply wp_load; [apply in_ram_true; unfold t_trap_frame, sizeof_task_struct, PHYSTOP, KERNBASE in *; simpl; lia|].
  simpl mem. rewrite (task_field m5 t_trap_frame Hw5), Htf by done.
  do 3 (wp_step; apply wp_store; [apply in_ram_true; unfold tf_a0, tf_a1, tf_a2, PGSIZE, PHYSTOP, KERNBASE in *; simpl; lia|]).
  wp_step. simpl mem. replace (page + PGSIZE - page) with PGSIZE by lia.
  replace (page + PGSIZE + 8 * (na + 1) - page) with (PGSIZE + 8 * (na + 1)) by lia.
  assert (Hn : na < 2 ^ 60) by (unfold PGSIZE, PHYSTOP, KERNBASE in *; lia).
  rewrite (w64_small na), (w64_small PGSIZE), (w64_small (PGSIZE + _)), (w64_small (va + PGSIZE)), (w64_small (va + (PGSIZE + _)))
    by (unfold PGSIZE in *; lia).
  match goal with |- Q va (set_mem ?m _) => set (m6 := m) end.
  assert (Hm6 : modifies (exec_registers tf) m5 m6).
  { unfold m6, exec_registers, tf_a0, tf_a1, tf_a2. repeat (eapply modifies_trans; [|apply modifies_wr; simpl; lia]). apply modifies_refl. }
  assert (Hkeep : forall a, page <= a < page + (PGSIZE + n) -> rd8 m6 a = rd8 m5 a).
  { intros a Ha. apply Hm6. unfold exec_registers, sep, tf_a0, PGSIZE in *. lia. }
  change (Q va (set_mem m6 s)). apply HQ.
  { eapply modifies_trans; [eapply modifies_weaken; [|exact Hw5]; intros a Ha; by left|].
    eapply modifies_weaken; [|exact Hm6]. intros a Ha. by right. }
  split.
  - intros i Hi. rewrite Hkeep, Hm5, Hm4, Hm3, Hm2 by (unfold range, PGSIZE in *; lia). by apply Hc1.
  - eapply slots_frame; [exact Hs2|]. intros b Hb'. rewrite Hkeep, Hm5, Hm4, Hm3 by (unfold range, PGSIZE in *; lia). done.
  - rewrite <-He3. apply rd_ext. intros b Hb'. simpl in Hb'. rewrite Hkeep, Hm5, Hm4 by (unfold range, PGSIZE in *; lia). done.
  - eapply slots_frame; [exact Hs4|]. intros b Hb'. rewrite Hkeep, Hm5 by (unfold range, PGSIZE in *; lia). done.
  - rewrite <-He5. apply rd_ext. intros b Hb'. simpl in Hb'. by rewrite Hkeep by (unfold PGSIZE in *; lia).
  - unfold m6, fields, tf_a0, tf_a1, tf_a2. repeat constructor; simpl fst; simpl snd;
      repeat first [rewrite rd64_wr64_same by (unfold PGSIZE in *; lia) | rewrite rd64_wr64_out by lia]; lia.
Qed.

End Vectors.

(** A vector at [vec] of pointers to the strings [ls], which are in the page at
    [page] that is mapped at [va], and its end. *)
Definition vector_built (m : gmap Z Z) (vec va page : Z) (ls : list (list Z)) : Prop :=
  (forall i l, ls !! i = Some l -> let p := rd64 m (vec + 8 * Z.of_nat i) in
     va <= p < va + PGSIZE /\ bytes_at m (page + (p - va)) (l ++ [0])) /\
  rd64 m (vec + 8 * Z.of_nat (length ls)) = NULL.

Lemma slots_vector m vec va page off ls k : text_in m page off ls -> (k <= length ls)%nat ->
  slots m vec (va + off) ls (Z.of_nat k) -> rd64 m (vec + 8 * Z.of_nat k) = NULL ->
  vector_built m vec va page (take k ls).
Proof.
  intros (_ & Hb & H1 & H2) Hk Hs He. split; [|by rewrite length_take, Nat.min_l].
  intros i l Hl p. pose proof (lookup_lt_Some _ _ _ Hl) as Hi. rewrite length_take in Hi.
  rewrite lookup_take_lt in Hl by lia. unfold p. rewrite Hs, Nat2Z.id by lia.
  pose proof (image_take_S _ _ _ Hl) as HS. pose proof (image_take_le ls (S i)). split; [lia|].
  replace (page + _) with (page + off + Z.of_nat (length (image (take i ls)))) by lia. by apply image_string.
Qed.

(** The page as the user library leaves it; the first argument is not empty. *)
Record exec_page (m : gmap Z Z) (shared : Z) (l : list Z) (A E : list (list Z)) : Prop := {
  ep_text : bytes_at m shared (padded l A E);
  ep_ram : ram_range shared PGSIZE;
  ep_name : Forall (fun c => 0 < c < 256) l;
  ep_argv : strings A;
  ep_envp : strings E;
  ep_fits : (length (message l A E) < 4096)%nat;
  ep_first : exists c a A', A = (c :: a) :: A'
}.

(** The parts of the page. *)
Lemma exec_page_text m shared l A E : exec_page m shared l A E ->
  bytes_at m shared (l ++ [0]) /\ text_in m shared (Z.of_nat (length l) + 1) (A ++ E).
Proof.
  intros [Hb _ _ HA HE Hf _]. unfold padded, message, text_in in *.
  apply bytes_at_app in Hb as [Hb _]. apply bytes_at_app in Hb as [Hb1 Hb2].
  rewrite image_app. rewrite !length_app in *. simpl in *. change PGSIZE with 4096. split; [done|].
  split; [by apply Forall_app|]. split; [|lia].
  replace (shared + (Z.of_nat (length l) + 1)) with (shared + Z.of_nat (length l + 1)) by lia. done.
Qed.

(** The place where the environment is looked for is in the arguments. *)
Lemma exec_page_environment m shared l A E : exec_page m shared l A E ->
  exists B, image B = drop (length A) (image A) /\ B <> [] /\
    text_in m shared (Z.of_nat (length l) + 1 + Z.of_nat (length A)) (B ++ E).
Proof.
  intros Hep. destruct (exec_page_text _ _ _ _ _ Hep) as (_ & (_ & Hb & _ & Hlen)).
  destruct Hep as [_ _ _ HA HE _ (c & a & A' & Heq)]. rewrite image_app, length_app in Hlen.
  assert (HlA : (length A < length (image A))%nat).
  { rewrite Heq, image_cons, !length_app. simpl. pose proof (length_image A'). lia. }
  destruct (image_drop A (length A) HA ltac:(lia)) as (B & HB & HsB).
  assert (HlB : (length (image B) = length (image A) - length A)%nat) by (by rewrite HB, length_drop).
  exists B. split; [done|]. split; [intros ->; simpl in HlB; lia|].
  split; [by apply Forall_app|]. rewrite image_app, length_app. split; [|lia]. rewrite HB.
  rewrite image_app, <-(take_drop (length A) (image A)), <-app_assoc in Hb.
  apply bytes_at_app in Hb as [_ Hb]. rewrite length_take, Nat.min_l in Hb by lia. by rewrite Z.add_assoc.
Qed.

Lemma exec_strings_ok shared l A E s (Q : Z * Z -> state -> Prop) : exec_page (mem s) shared l A E ->
  Q (shared + (Z.of_nat (length l) + 1), shared + (Z.of_nat (length l) + 1 + Z.of_nat (length A))) s ->
  wp (exec_strings shared (Z.of_nat (length A))) Q s.
Proof.
  intros Hep HQ. destruct (exec_page_text _ _ _ _ _ Hep) as (Hb1 & (_ & Hb2 & _ & Hlen)).
  destruct Hep as [_ Hr Hl HA _ Hf (c & a & A' & Heq)]. unfold ram_range in Hr.
  assert (HlA : Z.of_nat (length A) < PGSIZE).
  { pose proof (length_image A). unfold message in Hf. rewrite !length_app in Hf. change PGSIZE with 4096. lia. }
  assert (Himg : image (A ++ E) = ((c :: a) ++ [0]) ++ image (A' ++ E)) by (by rewrite Heq).
  rewrite Himg in Hb2, Hlen. rewrite !length_app in Hlen. simpl length in Hlen. unfold exec_strings.
  wp_step. apply (skip_chars_ok shared l); [done|done|unfold ram_range; lia|].
  wp_step. apply (skip_nuls_ok _ c); [rewrite Heq in HA; apply Forall_cons in HA as [HA _]; apply Forall_cons in HA as [HA _]; exact HA| |unfold ram_range; lia|].
  { apply bytes_at_app in Hb1 as [_ [Hb1 _]]. split; [done|]. split; [|done]. destruct Hb2 as [Hb2 _].
    by rewrite <-Z.add_assoc. }
  wp_step. rewrite w64_small by (unfold PHYSTOP, KERNBASE, PGSIZE in *; lia).
  replace (shared + Z.of_nat (length l) + 1) with (shared + (Z.of_nat (length l) + 1)) by lia. by rewrite <-(Z.add_assoc shared).
Qed.

(** The page at [page] holds what the program sees of the shared page. *)
Definition same_page (um m : gmap Z Z) (page : Z) : Prop :=
  forall i, 0 <= i < PGSIZE -> rd8 m (page + i) = rd8 um (SHARED_MEMORY + i).

Lemma bytes_at_shift m m' p q w : bytes_at m p w ->
  (forall i, 0 <= i < Z.of_nat (length w) -> rd8 m' (q + i) = rd8 m (p + i)) -> bytes_at m' q w.
Proof.
  revert p q. induction w as [|c w IH]; intros p q Hb Hm; [done|]. destruct Hb as [Hc Hb]. simpl length in Hm. split.
  - specialize (Hm 0 ltac:(lia)). rewrite !Z.add_0_r in Hm. by rewrite Hm.
  - apply (IH (p + 1)); [done|]. intros i Hi. rewrite <-!Z.add_assoc. apply Hm. lia.
Qed.

Lemma length_padded l A E : (length (message l A E) < 4096)%nat -> Z.of_nat (length (padded l A E)) = PGSIZE.
Proof. intros H. unfold padded. rewrite length_app, length_replicate. change PGSIZE with 4096. lia. Qed.

(** What the kernel makes of a page that holds the message of [exec]. *)
Definition exec_built (um m m' : gmap Z Z) (page tf va : Z) (l : list Z) (A E : list (list Z)) : Prop :=
  let na := Z.of_nat (length A) in let ne := Z.of_nat (length E) in
  let argv := page + PGSIZE in let envp := argv + 8 * (na + 1) in
  modifies (fun a => range page (PGSIZE + 8 * (na + ne + 2)) a \/ exec_registers tf a) m m' /\
  same_page um m' page /\ vector_built m' argv va page A /\
  fields m' tf [(tf_a0, 8%nat, na); (tf_a1, 8%nat, va + PGSIZE); (tf_a2, 8%nat, va + PGSIZE + 8 * (na + 1))] /\
  exists B, B <> [] /\ image B = drop (length A) (image A) /\ vector_built m' envp va page (take (length E) (B ++ E)) /\
    (E <> [] -> rd64 m' envp = va + Z.of_nat (length (l ++ [0])) + na /\ rd64 m' envp < va + Z.of_nat (length (l ++ [0] ++ image A))).

Lemma exec_vectors_built um s t page shared tf l A E secs (Q : Z -> state -> Prop) :
  exec_page (mem s) shared l A E -> same_page um (mem s) shared ->
  exec_task s t page shared tf (8 * (Z.of_nat (length A) + Z.of_nat (length E) + 2)) secs ->
  (forall m, exec_built um (mem s) m page tf (sections_end secs) l A E -> Q (sections_end secs) (set_mem m s)) ->
  wp (exec_vectors t page (shared + (Z.of_nat (length l) + 1)) (Z.of_nat (length A))
    (shared + (Z.of_nat (length l) + 1 + Z.of_nat (length A))) (Z.of_nat (length E))) Q s.
Proof using HwOk.
  intros Hep Hum Htask HQ. destruct (exec_page_text _ _ _ _ _ Hep) as (_ & HAt).
  destruct (exec_page_environment _ _ _ _ _ Hep) as (B & HB & HneB & HBt).
  apply (exec_vectors_ok s t page shared tf _ _ (A ++ E) (B ++ E) (length A) (length E) secs); [done..| | |].
  { rewrite length_app. lia. }
  { rewrite length_app. lia. }
  intros m Hm [Hcopy Hs1 He1 Hs2 He2 Hregs]. apply HQ. unfold exec_built. split; [done|].
  split; [intros i Hi; rewrite Hcopy by done; by apply Hum|].
  assert (Htext : forall o L, text_in (mem s) shared o L -> text_in m page o L).
  { intros o L (H1 & H2 & H3 & H4). split; [done|]. split; [|done]. apply (bytes_at_shift _ _ _ _ _ H2).
    intros i Hi. rewrite <-!Z.add_assoc. apply Hcopy. lia. }
  split; [rewrite <-(take_app_length A E) at 1; apply (slots_vector _ _ _ _ _ _ _ (Htext _ _ HAt)); [rewrite length_app; lia|done..]|].
  split; [done|]. exists B. split; [done|]. split; [done|].
  split; [apply (slots_vector _ _ _ _ _ _ _ (Htext _ _ HBt)); [rewrite length_app; lia|done..]|].
  intros HneE. assert (0 < length E)%nat by (by destruct E; [done|simpl; lia]).
  specialize (Hs2 0 ltac:(lia)). rewrite Z.mul_0_r, Z.add_0_r, take_0 in Hs2. simpl in Hs2.
  assert (HlB : (0 < length (image B))%nat) by (pose proof (length_image B); destruct B; [done|simpl in *; lia]).
  rewrite HB, length_drop in HlB. rewrite Hs2, !length_app. simpl length. lia.
Qed.

(** C26: [exec] from the call in the program to the vectors of the new program:
    the system call of [exec] carries the sizes of [argv] and [envp], and from
    the shared page that it has filled the kernel copies the page, makes an
    argument vector whose pointers lead to the strings of [argv] in the copy,
    in order and with a NULL behind them, and hands over the size and both
    vectors in a0, a1 and a2, writing nothing else. The environment it gets
    wrong: [exec_process] looks for it as many bytes after the first argument as
    there are arguments, so the environment vector has the right size and end,
    but its first pointer leads into the text of the arguments, and its strings
    are the rest of that text and then the first strings of the environment.
    This is for a first argument that is not empty, as the kernel skips empty
    strings before the arguments, for strings that fit the page, and for a block
    of the vectors apart from the task and its pages. The kernel does not check
    that the vectors fit their page: they take what the frame condition says. *)
Theorem exec_builds_vectors `{UW : UserWorld} name argv envp l A E (u : ustate) :
  page_mapped -> ustring (umem u) name l -> uvector (umem u) argv A -> uvector (umem u) envp E ->
  (length (message l A E) < 4096)%nat -> (exists c a A', A = (c :: a) :: A') ->
  let na := Z.of_nat (length A) in let ne := Z.of_nat (length E) in
  exists u', wrote (padded l A E) u u' /\
    exec name argv envp u = (r ← syscall name argv envp na ne 0 0 SYSCALL_EXEC; mret (s32 r)) u' /\
    forall s shared, ram_range shared PGSIZE -> same_page (umem u') (mem s) shared ->
    wp (exec_strings shared na) (fun strs s1 => s1 = s /\
      forall s2 t page tf secs, same_page (umem u') (mem s2) shared ->
      exec_task s2 t page shared tf (8 * (na + ne + 2)) secs ->
      wp (exec_vectors t page strs.1 na strs.2 ne) (fun va s3 => va = sections_end secs /\ s3 = set_mem (mem s3) s2 /\
        exec_built (umem u') (mem s2) (mem s3) page tf va l A E) s2) s.
Proof using HwOk.
  intros Hmap Hname HA HE Hlen Hfirst na ne.
  destruct (exec_call_ok name argv envp l A E u Hmap Hname HA HE Hlen) as (u' & Hwr & Heq).
  exists u'. split; [done|]. split; [done|]. destruct Hwr as (_ & _ & _ & Hb). intros s shared Hr Hum.
  assert (Hep : forall m, same_page (umem u') m shared -> exec_page m shared l A E).
  { intros m Hm. split; [|done|by destruct Hname as [[Hc _] _]|by eapply uvector_strings|by eapply uvector_strings|done|done].
    apply (bytes_at_shift _ _ _ _ _ Hb). intros i Hi. rewrite length_padded in Hi by done. by apply Hm. }
  apply (exec_strings_ok shared l A E); [by apply Hep|]. split; [done|].
  intros s2 t page tf secs Hum2 Htask. simpl fst. simpl snd.
  apply (exec_vectors_built (umem u') s2 t page shared tf l A E secs); [by apply Hep|done|done|].
  intros m Hm. split; [done|]. split; [by destruct s2|done].
Qed.

End KernelExec.

(** ** Witness: exec("sh", {"hi", "x", NULL}, {"k=v", NULL}) *)

Section Witness.
#[local] Existing Instances board board_ok user_world.

Definition sent_argv : list (list Z) := [codes "hi"; codes "x"].
Definition sent_envp : list (list Z) := [codes "k=v"].

(** The program: the strings, and the vectors behind them. *)
Definition sending : gmap Z Z :=
  wr 8 (wr 8 (wr 8 (put_bytes user_ram (codes "sh" ++ [0]) (put_bytes (user_ram + 8) (codes "hi" ++ [0])
    (put_bytes (user_ram + 16) (codes "x" ++ [0]) (put_bytes (user_ram + 24) (codes "k=v" ++ [0]) ∅))))
    (user_ram + 32) (user_ram + 8)) (user_ram + 40) (user_ram + 16)) (user_ram + 64) (user_ram + 24).

Lemma sending_string a t : (a, t) ∈ [(user_ram, codes "sh"); (user_ram + 8, codes "hi"); (user_ram + 16, codes "x"); (user_ram + 24, codes "k=v")] ->
  ustring sending a t.
Proof.
  intros H. assert (user_ram <= a <= user_ram + 24 /\ (length t <= 3)%nat) as [Ha Hl].
  { rewrite !elem_of_cons in H. destruct H as [H|[H|[H|[H|H%not_elem_of_nil]]]]; [..|done]; injection H as -> ->; simpl; lia. }
  unfold user_ram in Ha. split; [|left; change SHARED_MEMORY with (2 ^ 38 - 3 * 4096); lia].
  assert (Hm : forall i, 0 <= i < Z.of_nat (length t) + 1 -> user_mapped (a + i) = true).
  { intros i Hi. apply user_ram_mapped. unfold user_ram. lia. }
  rewrite !elem_of_cons in H. split.
  - destruct H as [H|[H|[H|[H|H%not_elem_of_nil]]]]; [..|done]; injection H as -> ->; by repeat constructor.
  - split; [|split; [lia|]; split; [lia|intros i Hi; apply Hm; lia]].
    destruct H as [H|[H|[H|[H|H%not_elem_of_nil]]]]; [..|done]; injection H as -> ->; vm_compute; done.
Qed.

Lemma sending_vector vec ls : (vec, ls) = (user_ram + 32, sent_argv) \/ (vec, ls) = (user_ram + 64, sent_envp) ->
  uvector sending vec ls.
Proof.
  intros H. assert (user_ram + 32 <= vec <= user_ram + 64 /\ (length ls <= 2)%nat) as [Ha Hl].
  { destruct H as [H|H]; injection H as -> ->; simpl; lia. }
  unfold user_ram in Ha. split.
  - lia.
  - left. change SHARED_MEMORY with (2 ^ 38 - 3 * 4096). lia.
  - intros i Hi. unfold umapped. apply forallb_forall. intros x Hx%in_seq. apply user_ram_mapped. unfold user_ram. lia.
  - intros i l Hi H0.
    assert (Hn : Z.to_nat i = 0%nat \/ Z.to_nat i = 1%nat).
    { apply lookup_lt_Some in Hi. lia. }
    destruct H as [H|H]; injection H as -> ->.
    + destruct Hn as [Hn|Hn]; rewrite Hn in Hi; injection Hi as <-; [replace i with 0 by lia|replace i with 1 by lia];
        (split; [done|]); [apply (sending_string (user_ram + 8))|apply (sending_string (user_ram + 16))]; set_solver.
    + destruct Hn as [Hn|Hn]; rewrite Hn in Hi; [|done]. injection Hi as <-. replace i with 0 by lia.
      split; [done|]. apply (sending_string (user_ram + 24)). set_solver.
  - destruct H as [H|H]; injection H as -> ->; vm_compute; done.
Qed.

(** The kernel: the page of the message, a task with one section, its trap frame
    and a block for the vectors. *)
Definition sent_page : Z := 0x80030000.
Definition sent_task : Z := 0x80040000.
Definition sent_frame : Z := 0x80050000.
Definition sent_block : Z := 0x80060000.
Definition sent_memory : gmap Z Z :=
  foldl (fun m c => wr 8 m c.1 c.2) (put_bytes sent_page (message (codes "sh") sent_argv sent_envp) ∅)
    [(sent_task + t_shared_memory, sent_page); (sent_task + t_trap_frame, sent_frame);
     (sent_task + t_mem_sections, sent_task + 0x1000); (sent_task + t_mem_sections + 8, sent_task + 0x1000);
     (sent_task + t_mem_sections + 16, 1); (sent_task + 0x1008, sent_task + 0x1010);
     (sent_task + 0x1010, 0x10000); (sent_task + 0x1018, 0x10000)].
Definition sent : state := set_mem sent_memory power_on.

Lemma sent_text : bytes_at (mem sent) sent_page (padded (codes "sh") sent_argv sent_envp).
Proof.
  assert (H : forallb (fun i => rd8 sent_memory (sent_page + i) =?
    default 0 (padded (codes "sh") sent_argv sent_envp !! Z.to_nat i)) (seqZ 0 4096) = true) by (vm_compute; reflexivity).
  rewrite forallb_forall in H. apply bytes_at_intro. intros i c Hc. pose proof (lookup_lt_Some _ _ _ Hc) as Hi.
  assert (Hlen : Z.of_nat (length (padded (codes "sh") sent_argv sent_envp)) = 4096) by (apply length_padded; vm_compute; lia).
  assert (Hin : In (Z.of_nat i) (seqZ 0 4096)) by (apply list_elem_of_In, elem_of_seqZ; lia).
  specialize (H _ Hin). apply Z.eqb_eq in H. rewrite Nat2Z.id, Hc in H. exact H.
Qed.

Lemma sent_exec_task : exec_task sent sent_task sent_block sent_page sent_frame (8 * (2 + 1 + 2)) [(0x10000, 0x10000)].
Proof.
  split.
  - vm_compute. reflexivity.
  - vm_compute. reflexivity.
  - done.
  - done.
  - exists [(sent_task + 0x1000, sent_task + 0x1010)]. split; [|split; [|split]].
    + split; [|vm_compute; auto|vm_compute; reflexivity|vm_compute; reflexivity|by repeat constructor].
      split; [done|intros x ->%list_elem_of_singleton; done|intros x ->%list_elem_of_singleton; by left| |apply NoDup_singleton].
      by intros x y ->%list_elem_of_singleton ->%list_elem_of_singleton.
    + by repeat constructor.
    + intros d ->%list_elem_of_singleton. done.
    + intros x d [= -> ->]%list_elem_of_singleton. split; by right.
  - by repeat constructor.
  - done.
  - split; [by right|]. split; by right.
Qed.

Lemma sent_page_ram : ram_range sent_page PGSIZE.
Proof. done. Qed.

Lemma sent_envp_some : sent_envp <> [].
Proof. done. Qed.

#[local] Opaque sent_memory.

Lemma exec_builds_vectors_witness : exists u', bytes_at (umem u') SHARED_MEMORY (codes "sh" ++ [0] ++ codes "hi" ++ [0] ++ codes "x" ++ [0] ++ codes "k=v" ++ [0]) /\
  exec user_ram (user_ram + 32) (user_ram + 64) (ustate_with sending []) =
    (r ← syscall user_ram (user_ram + 32) (user_ram + 64) 2 1 0 0 SYSCALL_EXEC; mret (s32 r)) u' /\
  wp (strs ← exec_strings sent_page 2; exec_vectors sent_task sent_block strs.1 2 strs.2 1) (fun va s' => va = 0x20000 /\
    bytes_at (mem s') (sent_block + (rd64 (mem s') (sent_block + PGSIZE) - va)) (codes "hi" ++ [0]) /\
    bytes_at (mem s') (sent_block + (rd64 (mem s') (sent_block + PGSIZE + 8) - va)) (codes "x" ++ [0]) /\
    rd64 (mem s') (sent_block + PGSIZE + 16) = NULL /\ rd64 (mem s') (sent_block + PGSIZE + 24) < va + 8) sent.
Proof.
  destruct (exec_builds_vectors user_ram (user_ram + 32) (user_ram + 64) (codes "sh") sent_argv sent_envp
    (ustate_with sending [])) as (u' & Hw & Heq & H).
  - intros i Hi. unfold mapped. simpl. apply orb_true_iff. right. apply andb_true_iff.
    rewrite Z.leb_le, Z.ltb_lt. lia.
  - apply sending_string. by left.
  - apply sending_vector. by left.
  - apply sending_vector. by right.
  - vm_compute. lia.
  - by exists (code "h"), (codes "i"), [codes "x"].
  - exists u'. destruct Hw as (_ & _ & _ & Hb). split; [|split; [exact Heq|]].
    { unfold padded in Hb. apply bytes_at_app in Hb as [Hb _]. exact Hb. }
    assert (Hsame : same_page (umem u') (mem sent) sent_page).
    { intros i Hi. pose proof (length_padded (codes "sh") sent_argv sent_envp ltac:(vm_compute; lia)) as Hlen.
      destruct (lookup_lt_is_Some_2 (padded (codes "sh") sent_argv sent_envp) (Z.to_nat i)) as [c Hc]; [lia|].
      pose proof (bytes_at_lookup _ _ _ _ _ Hb Hc) as H1. pose proof (bytes_at_lookup _ _ _ _ _ sent_text Hc) as H2.
      rewrite Z2Nat.id in H1, H2 by lia. by rewrite H2, H1. }
    pose proof (H sent sent_page sent_page_ram Hsame) as Hst.
    change (Z.of_nat (length sent_argv)) with 2 in Hst. change (Z.of_nat (length sent_envp)) with 1 in Hst.
    apply wp_bind. eapply wp_mono; [exact Hst|]. cbv beta.
    intros strs s1 [-> Hvec]. cbv beta. pose proof (Hvec sent sent_task sent_block sent_frame _ Hsame sent_exec_task) as Hwp.
    eapply wp_mono; [exact Hwp|]. cbv beta.
    intros va s3 (Hva & _ & _ & _ & [Hv He] & _ & B & _ & _ & _ & Henv). change (sections_end [(65536, 65536)]) with 0x20000 in Hva.
    pose proof (proj2 (Hv 0%nat (codes "hi") eq_refl)) as H0. pose proof (proj2 (Hv 1%nat (codes "x") eq_refl)) as H1.
    destruct (Henv sent_envp_some) as [_ H2]. split; [exact Hva|]. split; [|split; [exact H1|split; [exact He|exact H2]]].
    change (8 * Z.of_nat 0) with 0 in H0. rewrite Z.add_0_r in H0. exact H0.
Defined.
End Witness.
