(* ===== verification/ShellProof.v ===== *)
(** * The shell's command line: proofs

    [strtok] and the string functions the shell uses, against lists of
    characters; [words] is the reference tokenizer. *)

From S2P Require Import Prelude Machine Utility Uart UserMachine System Ulib Shell UserProof.

(** ** Words of a line *)

Section Words.
Variable D : list Z.

Definition delimiter (c : Z) : bool := existsb (fun d => d =? c) D.

(** The pieces between delimiters, empty ones included, and the words. *)
Fixpoint split (l : list Z) : list (list Z) :=
  match l with
  | [] => [[]]
  | c :: l =>
      if delimiter c then [] :: split l
      else match split l with [] => [[c]] | w :: ws => (c :: w) :: ws end
  end.
Definition words (l : list Z) : list (list Z) := filter (fun w => w <> []) (split l).

Definition delimiters (l : list Z) : Prop := Forall (fun c => delimiter c = true) l.
Definition letters (l : list Z) : Prop := Forall (fun c => delimiter c = false) l.

Lemma words_skip ds l : delimiters ds -> words (ds ++ l) = words l.
Proof.
  induction 1 as [|d ds Hd _ IH]; [done|]. unfold words in *. simpl. rewrite Hd. rewrite filter_cons_False; [done|].
  intros H. by apply H.
Qed.

Lemma split_letters w : letters w -> split w = [w].
Proof. induction 1 as [|c w Hc _ IH]; [done|]. simpl. by rewrite Hc, IH. Qed.

Lemma split_word w d l : letters w -> delimiter d = true -> split (w ++ d :: l) = w :: split l.
Proof.
  intros Hw Hd. induction Hw as [|c w Hc _ IH]; simpl; [by rewrite Hd|]. by rewrite Hc, IH.
Qed.

(** A word, then the end of the line or a delimiter. *)
Definition word_end (l : list Z) : Prop := match l with [] => True | d :: _ => delimiter d = true end.

Lemma words_word w l : letters w -> w <> [] -> word_end l -> words (w ++ l) = w :: words (tail l).
Proof.
  intros Hw Hne Hl. unfold words. destruct l as [|d l]; simpl in *.
  - rewrite app_nil_r, split_letters by done. by rewrite filter_cons_True.
  - rewrite split_word by done. by rewrite filter_cons_True.
Qed.

(** How a line begins. *)
Lemma letters_span l : exists w l2, l = w ++ l2 /\ letters w /\ word_end l2.
Proof.
  induction l as [|c l (w & l2 & -> & Hw & He)]; [exists [], []; by repeat split; constructor|]. destruct (delimiter c) eqn:Hc.
  - exists [], (c :: w ++ l2). split; [done|]. by split; [constructor|].
  - exists (c :: w), l2. split; [done|]. split; [by constructor|done].
Qed.

Lemma line_cases l :
  (delimiters l /\ words l = []) \/
  exists ds w l2, l = ds ++ w ++ l2 /\ delimiters ds /\ letters w /\ w <> [] /\ word_end l2 /\
    words l = w :: words (tail l2).
Proof.
  induction l as [|c l IH]; [by left; split; [constructor|]|]. destruct (delimiter c) eqn:Hc.
  - assert (Hs : words (c :: l) = words l) by (apply (words_skip [c]); by constructor). rewrite Hs.
    destruct IH as [[Hd Hn]|(ds & w & l2 & -> & Hds & H)]; [left; split; [by constructor|done]|right].
    exists (c :: ds), w, l2. split; [done|]. split; [by constructor|done].
  - right. destruct (letters_span l) as (w & l2 & -> & Hw & He). exists [], (c :: w), l2.
    split; [done|]. split; [by constructor|]. split; [by constructor|]. split; [done|]. split; [done|].
    apply (words_word (c :: w)); [by constructor|done|done].
Qed.

Lemma words_length l : (length (words l) <= length l)%nat.
Proof.
  induction l as [l IH] using (induction_ltof1 _ (@length Z)). unfold ltof in IH.
  destruct (line_cases l) as [[_ ->]|(ds & w & l2 & -> & _ & _ & Hne & _ & ->)]; simpl; [lia|].
  rewrite !length_app. destruct w as [|c w]; [done|]. simpl length. destruct l2 as [|d l2]; simpl; [lia|].
  specialize (IH l2). rewrite !length_app in IH. simpl in IH. lia.
Qed.

End Words.

(** ** String functions *)

Section Strings.
Context `{UW : UserWorld}.

(** The state after writing memory and the static of [strtok]. *)
Definition with_last (s : ustate) (v : Z) : ustate := mkU (umem s) v (uker s).

Lemma with_last_id s : with_last s (ulast s) = s.
Proof. by destruct s. Qed.

Lemma utext_ptr m p l : utext m (Ptr p) l -> 0 <= p /\ p + Z.of_nat (length l) < 2 ^ 64.
Proof. by intros [_ (_ & ? & ? & _)]. Qed.

(** A character at an address of the string. *)
Lemma load_char p l i s (Q : Z -> ustate -> Prop) :
  utext (umem s) (Ptr p) l -> 0 <= i <= Z.of_nat (length l) ->
  Q (default 0 (l !! Z.to_nat i)) s -> uwp (uload8 (p + i)) Q s.
Proof.
  intros Ht Hi HQ. destruct (utext_ptr _ _ _ Ht). pose proof (uchar_at_ok (Ptr p) l i s Q Ht Hi HQ) as Hu.
  simpl in Hu. by rewrite w64_small in Hu by lia.
Qed.

Lemma utext_suffix m p l1 l2 : utext m (Ptr p) (l1 ++ l2) -> utext m (Ptr (p + Z.of_nat (length l1))) l2.
Proof.
  intros [Hc (Hb & Hp & Hlen & Hmap)]. rewrite length_app in *. apply Forall_app in Hc as [_ Hc]. split; [done|].
  rewrite <-app_assoc in Hb. apply bytes_at_app in Hb as [_ Hb]. split; [done|]. split; [lia|]. split; [lia|].
  intros i Hi. rewrite <-Z.add_assoc. apply Hmap. lia.
Qed.

(** Cutting the string with a NUL. *)
Lemma utext_cut m p l1 c l2 : utext m (Ptr p) (l1 ++ c :: l2) ->
  let m' := wr 1 m (p + Z.of_nat (length l1)) 0 in
  utext m' (Ptr p) l1 /\ utext m' (Ptr (p + Z.of_nat (length l1) + 1)) l2.
Proof.
  intros Ht m'. pose proof Ht as [Hc (Hb & Hp & Hlen & Hmap)]. rewrite length_app in *. simpl in *.
  apply Forall_app in Hc as [Hc1 Hc2]. apply Forall_cons in Hc2 as [_ Hc2]. rewrite <-app_assoc in Hb.
  apply bytes_at_app in Hb as [Hb1 Hb2]. simpl in Hb2. destruct Hb2 as [_ Hb2]. split; (split; [done|]).
  - split; [|split; [lia|split; [lia|intros i Hi; apply Hmap; lia]]]. apply bytes_at_app. split.
    + eapply bytes_at_ext; [|exact Hb1]. intros b Hin. apply rd8_wr_out. simpl. lia.
    + simpl. split; [|done]. unfold m'. by rewrite rd8_wr1, decide_True.
  - split; [|split; [lia|split; [lia|]]].
    + eapply bytes_at_ext; [|exact Hb2]. intros b Hin. apply rd8_wr_out. simpl. lia.
    + intros i Hi. replace (p + Z.of_nat (length l1) + 1 + i) with (p + (Z.of_nat (length l1) + 1 + i)) by lia.
      apply Hmap. lia.
Qed.

Lemma utext_frame m m' p l : utext m (Ptr p) l ->
  (forall a, p <= a <= p + Z.of_nat (length l) -> rd8 m' a = rd8 m a) -> utext m' (Ptr p) l.
Proof.
  intros [Hc (Hb & H)] Hm. split; [done|]. split; [|done]. eapply bytes_at_ext; [|exact Hb].
  intros a Ha. rewrite length_app in Ha. simpl in Ha. apply Hm. lia.
Qed.

(** The scan through the delimiters. *)
Lemma string_includes_ok str D c s (Q : bool -> ustate -> Prop) :
  utext (umem s) str D -> Z.of_nat (length D) < 2 ^ 63 -> Q (delimiter D c) s -> uwp (string_includes str c) Q s.
Proof.
  intros Hs Hlen HQ. unfold string_includes.
  apply (uwp_loop (fun n i s' => n = Z.of_nat (length D) - i /\ 0 <= i <= Z.of_nat (length D) /\ s' = s /\
    delimiter (drop (Z.to_nat i) D) c = delimiter D c) (Z.of_nat (length D))); [|lia|].
  { split; [lia|]. split; [lia|done]. }
  intros n i s' (-> & Hi & -> & Hd). split; [lia|]. uwp_step. apply (uchar_at_ok str D); [done|lia|].
  destruct (D !! Z.to_nat i) as [d|] eqn:Ed; simpl default.
  - pose proof (lookup_lt_Some _ _ _ Ed). rewrite (drop_S _ _ _ Ed) in Hd. simpl in Hd.
    destruct Hs as [Hc Hs]. pose proof (proj1 (Forall_lookup _ _) Hc _ _ Ed) as Hr. simpl in Hr.
    unfold truth. rewrite (proj2 (Z.eqb_neq d 0)) by lia. simpl negb. uwp_step. uwp_step.
    apply (uchar_at_ok str D); [done|lia|]. rewrite Ed. simpl default. destruct (d =? c); simpl orb in Hd; uwp_step.
    + by rewrite Hd.
    + exists (Z.of_nat (length D) - (i + 1)). rewrite w64_small by lia. split; [lia|]. split; [lia|]. split; [lia|]. split; [done|].
      by replace (Z.to_nat (i + 1)) with (S (Z.to_nat i)) by lia.
  - apply lookup_ge_None in Ed. rewrite drop_ge in Hd by lia. simpl default. change (truth 0) with false. uwp_step. uwp_step. by rewrite <-Hd in HQ.
Qed.

Lemma ustrlen_ok str l s (Q : Z -> ustate -> Prop) :
  utext (umem s) str l -> Z.of_nat (length l) < 2 ^ 64 -> Q (Z.of_nat (length l)) s -> uwp (strlen str) Q s.
Proof.
  intros Hs Hlen HQ. unfold strlen.
  apply (uwp_loop (fun n i s' => n = Z.of_nat (length l) - i /\ 0 <= i <= Z.of_nat (length l) /\ s' = s) (Z.of_nat (length l))); [|lia|].
  { split; [lia|]. split; [lia|done]. }
  intros n i s' (-> & Hi & ->). split; [lia|]. uwp_step. apply (uchar_at_ok str l); [done|lia|].
  destruct (decide (i = Z.of_nat (length l))) as [->|Hne].
  - rewrite utext_end by done. simpl. by uwp_step.
  - destruct (utext_char _ _ _ i Hs) as (c & Hc & Hr); [lia|]. rewrite Hc. simpl default. unfold truth.
    rewrite (proj2 (Z.eqb_neq c 0)) by lia. simpl negb. uwp_step. uwp_step. exists (Z.of_nat (length l) - (i + 1)). split; [lia|]. split; [lia|]. split; [lia|done].
Qed.

(** [strcmp] is 0 on equal strings only. *)
Lemma ustrcmp_ok s1 s2 l1 l2 s (Q : Z -> ustate -> Prop) :
  utext (umem s) s1 l1 -> utext (umem s) s2 l2 -> Z.of_nat (length l1) < 2 ^ 63 ->
  (forall r, (r = 0 <-> l1 = l2) -> Q r s) -> uwp (strcmp s1 s2) Q s.
Proof.
  intros H1 H2 Hlen HQ. unfold strcmp. uwp_step.
  apply (uwp_loop (fun n i s' => n = Z.of_nat (length l1) - i /\ 0 <= i <= Z.of_nat (length l1) /\
    i <= Z.of_nat (length l2) /\ s' = s /\ take (Z.to_nat i) l1 = take (Z.to_nat i) l2) (Z.of_nat (length l1))); [|lia|].
  { split; [lia|]. split; [lia|]. split; [lia|done]. }
  intros n i s' (-> & Hi & Hi2 & -> & Htk). split; [lia|]. uwp_step. apply (uchar_at_ok s1 l1); [done|lia|].
  assert (Hend : forall r, (r = 0 <-> l1 !! Z.to_nat i = l2 !! Z.to_nat i) -> (l1 !! Z.to_nat i = None -> True) ->
    (r = 0 -> l1 !! Z.to_nat i = None) -> Q r s).
  { intros r Hr _ Hn. apply HQ. split.
    - intros Hz. pose proof (Hn Hz) as En. pose proof (proj1 Hr Hz) as E. rewrite En in E. symmetry in E.
      apply lookup_ge_None in En, E. by rewrite !take_ge in Htk by lia.
    - intros ->. by apply Hr. }
  destruct (l1 !! Z.to_nat i) as [c1|] eqn:E1; simpl default.
  - destruct (proj1 (Forall_lookup _ _) (proj1 H1) _ _ E1) as [Hc1 _]. unfold truth.
    rewrite (proj2 (Z.eqb_neq c1 0)) by lia. simpl negb. uwp_step. uwp_step. apply (uchar_at_ok s1 l1); [done|lia|]. rewrite E1. simpl default.
    uwp_step. apply (uchar_at_ok s2 l2); [done|lia|].
    destruct (l2 !! Z.to_nat i) as [c2|] eqn:E2; simpl default.
    + destruct (Z.eqb_spec c1 c2) as [->|Hne]; uwp_step.
      * pose proof (lookup_lt_Some _ _ _ E1). pose proof (lookup_lt_Some _ _ _ E2).
        exists (Z.of_nat (length l1) - (i + 1)). rewrite w64_small by lia. split; [lia|]. split; [lia|]. split; [lia|].
        split; [lia|]. split; [done|]. by rewrite (take_step l1 i c2), (take_step l2 i c2), Htk by (done || lia).
      * uwp_step. apply (uchar_at_ok s1 l1); [done|lia|]. uwp_step. apply (uchar_at_ok s2 l2); [done|lia|]. uwp_step.
        rewrite E1, E2. simpl default. apply Hend; [|done|lia]. split; [lia|]. by intros [=].
    + rewrite (proj2 (Z.eqb_neq c1 0)) by lia. uwp_step. uwp_step. apply (uchar_at_ok s1 l1); [done|lia|]. uwp_step.
      apply (uchar_at_ok s2 l2); [done|lia|]. uwp_step. rewrite E1, E2. simpl default. apply Hend; [|done|lia]. split; [lia|done].
  - change (truth 0) with false. uwp_step. uwp_step. uwp_step. apply (uchar_at_ok s1 l1); [done|lia|]. uwp_step. apply (uchar_at_ok s2 l2); [done|lia|].
    uwp_step. rewrite E1. apply Hend; [|done|done]. destruct (l2 !! Z.to_nat i) as [c2|] eqn:E2; simpl default; [|done].
    destruct (proj1 (Forall_lookup _ _) (proj1 H2) _ _ E2). split; [lia|done].
Qed.

(** [strcpy] of a whole string to other memory. *)
Lemma ustrcpy_ok dest p l s (Q : unit -> ustate -> Prop) :
  utext (umem s) (Ptr p) l -> 0 <= dest -> dest + Z.of_nat (length l) < 2 ^ 64 ->
  (forall i, 0 <= i <= Z.of_nat (length l) -> mapped (dest + i) = true) ->
  (dest + Z.of_nat (length l) < p \/ p + Z.of_nat (length l) < dest) ->
  (forall m, utext m (Ptr dest) l -> modifies (range dest (Z.of_nat (length l) + 1)) (umem s) m -> Q tt (set_umem m s)) ->
  uwp (strcpy dest (Ptr p) (Z.of_nat (length l))) Q s.
Proof.
  intros Ht Hd Hmax Hmap Hap HQ. destruct (utext_ptr _ _ _ Ht) as [Hp Hpm].
  unfold strcpy. set (len := Z.of_nat (length l)) in *. uwp_step.
  apply (uwp_loop (fun n i s' => n = len - i /\ 0 <= i <= len /\ exists m, s' = set_umem m s /\
    bytes_at m dest (take (Z.to_nat i) l) /\ modifies (range dest (len + 1)) (umem s) m) len); [|lia|].
  { split; [lia|]. split; [lia|]. exists (umem s). split; [by destruct s|]. split; [done|apply modifies_refl]. }
  intros n i s' (-> & Hi & m & -> & Hb & Hm). split; [lia|].
  assert (Ht' : utext (umem (set_umem m s)) (Ptr p) l).
  { apply (utext_frame (umem s)); [done|]. intros a Ha. apply Hm. unfold range. fold len in Ha. lia. }
  destruct (Z.ltb_spec i len) as [Hlt|Hge].
  - uwp_step. apply (uchar_at_ok (Ptr p) l); [done|fold len; lia|].
    destruct (utext_char _ _ _ i Ht') as (c & Hc & Hr); [fold len; lia|]. rewrite Hc. simpl default. uwp_step.
    rewrite (w64_small (dest + i)) by lia. apply uwp_store; [apply umapped_1, Hmap; lia|]. uwp_step.
    rewrite w64_small by lia. exists (len - (i + 1)). split; [lia|]. split; [lia|]. split; [lia|].
    eexists. split; [reflexivity|]. rewrite (take_step l i c) by (done || lia). split.
    + apply bytes_at_app. rewrite length_take. replace (Z.of_nat (Z.to_nat i `min` length l)) with i by lia. split.
      * eapply bytes_at_ext; [|exact Hb]. intros b Hin. rewrite length_take in Hin. apply rd8_wr_out. simpl. lia.
      * simpl. split; [|done]. rewrite rd8_wr1, decide_True by done. apply w8_small. change (2 ^ 8) with 256. lia.
    + eapply modifies_trans; [exact Hm|]. apply modifies_wr. unfold range. simpl. lia.
  - uwp_step. assert (i = len) as -> by lia. rewrite take_ge in Hb by lia.
    rewrite (w64_small (dest + len)) by lia. apply uwp_store; [apply umapped_1, Hmap; lia|].
    apply (HQ (wr 1 m (dest + len) 0)).
    + split; [apply Ht|]. split; [|split; [done|split; [fold len; lia|intros j Hj; by apply Hmap]]].
      apply bytes_at_app. split.
      * eapply bytes_at_ext; [|exact Hb]. intros b Hin. apply rd8_wr_out. simpl. fold len in Hin. lia.
      * simpl. split; [|done]. fold len. by rewrite rd8_wr1, decide_True.
    + eapply modifies_trans; [exact Hm|]. apply modifies_wr. unfold range. simpl. lia.
Qed.

(** ** strtok *)

Variable delim : cstr.
Variable D : list Z.

Definition delims_ok : Prop :=
  (forall m, utext m delim D) /\ Z.of_nat (length D) < 2 ^ 63.

(** The rest of the line at which [strtok] goes on: NULL after the last word. *)
Definition remaining (m : gmap Z Z) (last : Z) (l : list Z) : Prop :=
  (last = NULL /\ l = []) \/ (last <> NULL /\ utext m (Ptr last) l).

Lemma skip_delimiters_ok p ds l s (Q : unit -> ustate -> Prop) :
  delims_ok -> utext (umem s) (Ptr p) (ds ++ l) -> ulast s = p -> delimiters D ds ->
  match l with [] => True | c :: _ => delimiter D c = false end ->
  Q tt (with_last s (p + Z.of_nat (length ds))) -> uwp (skip_delimiters delim) Q s.
Proof.
  intros [Hdl HD] Ht Hla Hds Hl HQ. destruct (utext_ptr _ _ _ Ht) as [Hp Hpm]. rewrite length_app in Hpm. unfold skip_delimiters.
  apply (uwp_loop (fun n (_ : unit) s' => exists k : Z, n = Z.of_nat (length ds) - k /\ 0 <= k <= Z.of_nat (length ds) /\
    s' = with_last s (p + k)) (Z.of_nat (length ds))); [|lia|].
  { exists 0. split; [lia|]. split; [lia|]. rewrite Z.add_0_r, <-Hla. by rewrite with_last_id. }
  intros n [] s' (k & -> & Hk & ->). split; [lia|]. uwp_step. uwp_step. uwp_step. simpl ulast.
  apply (load_char p (ds ++ l)); [done|rewrite length_app; lia|]. uwp_step.
  assert (Hcase : forall (P : bool -> ustate -> Prop) c, default 0 ((ds ++ l) !! Z.to_nat k) = c ->
    P (truth c && delimiter D c) (with_last s (p + k)) ->
    uwp (if truth c then last ← get_last; c ← uload8 last; string_includes delim c else mret false) P (with_last s (p + k))).
  { intros P c Hc HP. destruct (truth c); [|by uwp_step]. uwp_step. uwp_step. uwp_step. simpl ulast.
    apply (load_char p (ds ++ l)); [done|rewrite length_app; lia|]. rewrite Hc.
    apply (string_includes_ok delim D); [apply Hdl|done|done]. }
  apply (Hcase _ _ eq_refl). destruct (decide (k = Z.of_nat (length ds))) as [->|Hne].
  - rewrite lookup_app_r, Nat2Z.id, Nat.sub_diag by lia. destruct l as [|c l]; simpl default.
    + change (truth 0) with false. simpl andb. by uwp_step.
    + simpl in Hl. rewrite Hl, andb_false_r. by uwp_step.
  - destruct (lookup_lt_is_Some_2 ds (Z.to_nat k)) as [c Hc]; [lia|].
    rewrite (lookup_app_l_Some _ _ _ _ Hc). simpl default.
    assert (delimiter D c = true) as -> by (by apply (proj1 (Forall_lookup _ _) Hds _ _ Hc)).
    assert (0 < c < 256) as Hr.
    { apply (proj1 (Forall_lookup _ _) (proj1 Ht) (Z.to_nat k)). by apply lookup_app_l_Some. }
    unfold truth. rewrite (proj2 (Z.eqb_neq c 0)) by lia. simpl andb. uwp_step. uwp_step. uwp_step. uwp_step. uwp_step. uwp_step.
    exists (Z.of_nat (length ds) - (k + 1)). split; [lia|]. exists (k + 1). split; [lia|]. split; [lia|].
    simpl ulast. rewrite w64_small by lia. unfold with_last. simpl. f_equal. lia.
Qed.

(** The scan to the end of the word [w] at [r]. *)
Lemma word_loop_ok r w l s (Q : bool -> ustate -> Prop) :
  delims_ok -> utext (umem s) (Ptr r) (w ++ l) -> ulast s = r -> letters D w -> word_end D l ->
  match l with
  | [] => Q false (with_last s (r + Z.of_nat (length w)))
  | _ :: _ => Q true (with_last (set_umem (wr 1 (umem s) (r + Z.of_nat (length w)) 0) s) (r + Z.of_nat (length w) + 1))
  end ->
  uwp (uloop (fun _ : unit =>
      last ← get_last;
      c ← uload8 last;
      if truth c then
        last ← get_last;
        c ← uload8 last;
        hit ← string_includes delim c;
        if (hit : bool) then
          last ← get_last;
          ustore8 last 0;;
          put_last (last +w 1);;
          mret (inr true)
        else last ← get_last; put_last (last +w 1);; mret (inl tt)
      else mret (inr false)) tt) Q s.
Proof.
  intros [Hdl HD] Ht Hla Hw Hl HQ. destruct (utext_ptr _ _ _ Ht) as [Hp Hpm]. pose proof Hpm as Hpm'. rewrite length_app in Hpm.
  apply (uwp_loop (fun n (_ : unit) s' => exists k : Z, n = Z.of_nat (length w) - k /\ 0 <= k <= Z.of_nat (length w) /\
    s' = with_last s (r + k)) (Z.of_nat (length w))); [|lia|].
  { exists 0. split; [lia|]. split; [lia|]. rewrite Z.add_0_r, <-Hla. by rewrite with_last_id. }
  intros n [] s' (k & -> & Hk & ->). split; [lia|]. uwp_step. uwp_step. uwp_step. simpl ulast.
  apply (load_char r (w ++ l)); [done|rewrite length_app; lia|].
  assert (Hin : forall c, (w ++ l) !! Z.to_nat k = Some c -> forall P,
    uwp (if delimiter D c then
           last ← get_last; ustore8 last 0;; put_last (last +w 1);; mret (inr true)
         else last ← get_last; put_last (last +w 1);; mret (inl tt)) P (with_last s (r + k)) ->
    uwp (if truth c then
        last ← get_last; c ← uload8 last; hit ← string_includes delim c;
        if (hit : bool) then last ← get_last; ustore8 last 0;; put_last (last +w 1);; mret (inr true)
        else last ← get_last; put_last (last +w 1);; mret (inl tt)
      else mret (inr false)) P (with_last s (r + k))).
  { intros c Hc P HP. pose proof (proj1 (Forall_lookup _ _) (proj1 Ht) _ _ Hc) as Hr. simpl in Hr.
    unfold truth at 1. rewrite (proj2 (Z.eqb_neq c 0)) by lia. simpl negb. uwp_step. uwp_step. uwp_step. uwp_step. simpl ulast.
    apply (load_char r (w ++ l)); [done|rewrite length_app; lia|]. rewrite Hc. simpl default. uwp_step.
    by apply (string_includes_ok delim D). }
  destruct (decide (k = Z.of_nat (length w))) as [->|Hne].
  - rewrite Nat2Z.id in *. rewrite lookup_app_r, Nat.sub_diag in * by lia. destruct l as [|d l]; simpl default.
    + change (truth 0) with false. by uwp_step.
    + apply (Hin d eq_refl). simpl in Hl. rewrite Hl. uwp_step. uwp_step. uwp_step. simpl ulast.
      apply uwp_store; [apply umapped_1, Ht; rewrite length_app; simpl; lia|]. uwp_step. uwp_step. uwp_step.
      simpl in Hpm. by rewrite w64_small by lia.
  - destruct (lookup_lt_is_Some_2 w (Z.to_nat k)) as [c Hc]; [lia|].
    pose proof (lookup_app_l_Some _ l _ _ Hc) as Hc'. rewrite Hc'. simpl default. apply (Hin c Hc').
    assert (delimiter D c = false) as -> by (by apply (proj1 (Forall_lookup _ _) Hw _ _ Hc)).
    uwp_step. uwp_step. uwp_step. uwp_step. uwp_step.
    exists (Z.of_nat (length w) - (k + 1)). split; [lia|]. exists (k + 1). split; [lia|]. split; [lia|].
    simpl ulast. rewrite w64_small by lia. unfold with_last. simpl. f_equal. lia.
Qed.

(** [strtok] on the line [l] at [p] returns the word [w] at [r]; [ws] follow. *)
Record token_at (s : ustate) (p : Z) (l w : list Z) (ws : list (list Z)) (r : Z) (s' : ustate) : Prop := {
  ta_place : p <= r /\ r + Z.of_nat (length w) <= p + Z.of_nat (length l);
  ta_word : utext (umem s') (Ptr r) w;
  ta_mem : modifies (range (r + Z.of_nat (length w)) 1) (umem s) (umem s');
  ta_rest : exists l', words D l' = ws /\ remaining (umem s') (ulast s') l' /\
    (ulast s' <> NULL -> r + Z.of_nat (length w) < ulast s' /\ ulast s' + Z.of_nat (length l') = p + Z.of_nat (length l));
  ta_ker : uker s' = uker s
}.

Lemma strtok_done s (Q : Z -> ustate -> Prop) : ulast s = NULL -> Q NULL s -> uwp (strtok NULL delim) Q s.
Proof.
  intros Hl HQ. unfold strtok. uwp_step. change (negb (NULL =? NULL)) with false. do 4 uwp_step. rewrite Hl.
  change (NULL =? NULL) with true. by uwp_step.
Qed.

Lemma ustrtok_ok str p l s (Q : Z -> ustate -> Prop) :
  delims_ok -> utext (umem s) (Ptr p) l -> p <> NULL -> str = p \/ str = NULL /\ ulast s = p ->
  match words D l with
  | [] => Q NULL (with_last s NULL)
  | w :: ws => forall r s', token_at s p l w ws r s' -> Q r s'
  end -> uwp (strtok str delim) Q s.
Proof.
  intros Hd Ht Hne Hstr HQ. destruct (utext_ptr _ _ _ Ht) as [Hp Hpm].
  assert (Hstart : forall (k : U Z) (s0 := with_last s p), uwp k Q s0 ->
    uwp ((if negb (str =? NULL) then put_last str else mret tt);; k) Q s).
  { intros k s0 Hk. uwp_step. destruct Hstr as [->|[-> Hla]].
    - rewrite (proj2 (Z.eqb_neq p NULL) Hne). simpl negb. uwp_step. by uwp_step.
    - change (negb (NULL =? NULL)) with false. uwp_step. uwp_step. unfold s0 in Hk. rewrite <-Hla in Hk. by rewrite with_last_id in Hk. }
  unfold strtok. apply Hstart. uwp_step. uwp_step. simpl ulast. rewrite (proj2 (Z.eqb_neq p NULL) Hne).
  uwp_step. destruct (line_cases D l) as [[Hds Hn]|(ds & w & l2 & -> & Hds & Hw & Hwne & Hwe & Hn)]; rewrite Hn in HQ.
  - apply (skip_delimiters_ok p l []); [done|by rewrite app_nil_r|done|done|done|]. uwp_step. uwp_step. simpl ulast.
    set (q := p + Z.of_nat (length l)). uwp_step.
    pose proof (utext_suffix (umem s) p l [] ltac:(by rewrite app_nil_r)) as Htq. fold q in Htq.
    apply (word_loop_ok q [] []); [done|done|done|constructor|done|]. uwp_step. uwp_step. uwp_step.
    rewrite <-(Z.add_0_r q). apply (load_char q []); [done|simpl; lia|]. simpl default. by uwp_step.
  - pose proof (utext_suffix _ _ _ _ Ht) as Htr. set (r := p + Z.of_nat (length ds)) in *.
    rewrite !length_app in *. destruct w as [|c w]; [done|].
    apply (skip_delimiters_ok p ds ((c :: w) ++ l2)); [done|done|done|done|by inversion Hw|].
    uwp_step. uwp_step. simpl ulast. fold r. uwp_step.
    apply (word_loop_ok r (c :: w) l2); [done|done|done|done|done|]. destruct l2 as [|d l2]; simpl tail in *.
    + rewrite app_nil_r in Htr. uwp_step. uwp_step. uwp_step. rewrite <-(Z.add_0_r r) at 1.
      apply (load_char r (c :: w)); [done|simpl; lia|]. simpl default. uwp_step.
      destruct (proj1 (Forall_cons _ _ _) (proj1 Htr)) as [Hc _]. rewrite (proj2 (Z.eqb_neq c 0)) by lia.
      apply HQ. split; [rewrite !length_app; lia|done|apply modifies_refl| |done].
      exists []. split; [done|]. split; [by left|done].
    + uwp_step. destruct (utext_cut _ _ _ _ _ Htr) as [Hw1 Hl2].
      apply HQ. split; [rewrite !length_app; lia|done| | |done].
      * apply modifies_wr. unfold range. simpl. lia.
      * exists l2. split; [done|]. split; [right; split; [simpl; unfold NULL; lia|done]|].
        simpl ulast. intros _. rewrite !length_app. simpl. lia.
Qed.

End Strings.
