(* ===== verification/ShellTheorems.v ===== *)
(** * Theorems on the shell

    The command line of sh.c: what the parser makes of a line, and what
    [execute_line] does with it. *)

From S2P Require Import Prelude Machine Utility Uart UserMachine System Ulib Shell UserProof UserBoard UserTheorems ExecProof ShellProof.

Definition blanks : list Z := codes parameter_delimiters.

(** The reference: the words of a line and the command they name. *)
Definition line_words (l : list Z) : list (list Z) := words blanks l.
Definition builtin_of (w : list Z) : builtin :=
  if decide (w = codes "help") then HELP
  else if decide (w = codes "exit") then EXIT
  else if decide (w = codes "poweroff") then POWEROFF
  else NON_BUILTIN.
Definition command (ws : list (list Z)) : builtin :=
  match ws with [] => NON_BUILTIN | w :: _ => builtin_of w end.

Section Parse.
Context `{UW : UserWorld}.

Lemma blanks_ok : delims_ok (Lit parameter_delimiters) blanks.
Proof. split; [intros m; split; [by repeat constructor|done]|done]. Qed.

(** The arrays of sh.c, as the linker and the compiler place them. *)
Definition region (a n : Z) : Prop :=
  0 < a /\ a + n < 2 ^ 64 /\ forall i, 0 <= i < n -> mapped (a + i) = true.
Definition apart (a n b k : Z) : Prop := a + n <= b \/ b + k <= a.
Record shell_layout : Prop := {
  sl_path : region path 4096;
  sl_argv : region tmp_argv 32768;
  sl_envp : region program_envp 32768;
  sl_line : region local_line 4096;
  sl_path_argv : apart path 4096 tmp_argv 32768;
  sl_path_line : apart path 4096 local_line 4096;
  sl_argv_line : apart tmp_argv 32768 local_line 4096;
  sl_envp_path : apart program_envp 32768 path 4096;
  sl_envp_argv : apart program_envp 32768 tmp_argv 32768;
  sl_envp_line : apart program_envp 32768 local_line 4096;
  sl_shared : path + 4096 <= SHARED_MEMORY /\ tmp_argv + 32768 <= SHARED_MEMORY /\
    program_envp + 32768 <= SHARED_MEMORY /\ local_line + 4096 <= SHARED_MEMORY
}.

(** What the parser has made so far: the words in the line, the vector of
    pointers to them, and the path of the program. *)
Definition texts_at (m : gmap Z Z) (ps : list Z) (ws : list (list Z)) (bound : Z) : Prop :=
  length ps = length ws /\ forall i p w, ps !! i = Some p -> ws !! i = Some w ->
    local_line <= p /\ p + Z.of_nat (length w) < bound /\ utext m (Ptr p) w.
Definition argv_at (m : gmap Z Z) (ps : list Z) : Prop :=
  (forall i p, ps !! i = Some p -> rd64 m (tmp_argv + 8 * Z.of_nat i) = p) /\
  rd64 m (tmp_argv + 8 * Z.of_nat (length ps)) = NULL.
Definition path_at (m : gmap Z Z) (ws : list (list Z)) : Prop :=
  match ws with [] => rd8 m path = 0 | w :: _ => utext m (Ptr path) (code "/" :: w) end.

(** The next word, and the rest of the line; [e] is the end of the line. *)
Definition pending (e : Z) (m : gmap Z Z) (last : Z) (ws : list (list Z)) (parameter bound : Z) : Prop :=
  match ws with
  | [] => parameter = NULL
  | w :: ws => bound <= parameter /\ parameter + Z.of_nat (length w) <= e /\ utext m (Ptr parameter) w /\
      exists l', line_words l' = ws /\ remaining m last l' /\
        (last <> NULL -> parameter + Z.of_nat (length w) < last /\ last + Z.of_nat (length l') = e)
  end.

Lemma next_word str p l e bound s :
  utext (umem s) (Ptr p) l -> 0 < bound <= p -> p + Z.of_nat (length l) = e ->
  str = p \/ str = NULL /\ ulast s = p ->
  uwp (strtok str (Lit parameter_delimiters)) (fun r s' => uker s' = uker s /\
    modifies (fun a => bound <= a <= e) (umem s) (umem s') /\
    pending e (umem s') (ulast s') (line_words l) r bound) s.
Proof.
  intros Ht Hb He Hstr. apply (ustrtok_ok _ blanks str p l s); [exact blanks_ok|done|unfold NULL; lia|done|].
  unfold line_words. destruct (words blanks l) as [|w ws].
  - split; [done|]. split; [apply modifies_refl|done].
  - intros r s' [Hr Hw Hm (l' & Hl' & Hrem & Hpos) Hk]. split; [done|]. split.
    + eapply modifies_weaken; [|exact Hm]. unfold range. intros a Ha. lia.
    + split; [lia|]. split; [lia|]. split; [done|]. exists l'. split; [done|]. split; [done|].
      intros Hn. destruct (Hpos Hn). lia.
Qed.

Lemma program_type_ok p w s (Q : builtin -> ustate -> Prop) :
  utext (umem s) (Ptr p) w -> Z.of_nat (length w) < 2 ^ 63 -> Q (builtin_of w) s -> uwp (program_type p) Q s.
Proof.
  intros Ht Hlen HQ. unfold program_type, builtin_of in *.
  assert (Hcmp : forall t (P : Z -> ustate -> Prop), Forall (fun c => 0 < c < 256) (codes t) ->
    (forall r, (r =? 0) = bool_decide (w = codes t) -> P r s) -> uwp (strcmp (Ptr p) (Lit t)) P s).
  { intros t P Hc HP. apply (ustrcmp_ok _ _ w (codes t)); [done|by split|done|]. intros r Hr. apply HP.
    destruct (Z.eqb_spec r 0); case_bool_decide; tauto. }
  uwp_step. apply Hcmp; [by repeat constructor|]. intros r1 ->. case_bool_decide; [rewrite decide_True in HQ by done; by uwp_step|].
  rewrite decide_False in HQ by done. uwp_step. apply Hcmp; [by repeat constructor|]. intros r2 ->.
  case_bool_decide; [rewrite decide_True in HQ by done; by uwp_step|].
  rewrite decide_False in HQ by done. uwp_step. apply Hcmp; [by repeat constructor|]. intros r3 ->.
  case_bool_decide; [rewrite decide_True in HQ by done; by uwp_step|]. rewrite decide_False in HQ by done. by uwp_step.
Qed.

(** The word is in the line. *)
Definition in_line (p : Z) (w : list Z) : Prop :=
  local_line <= p /\ p + Z.of_nat (length w) < local_line + 4096 /\ (length w < 4095)%nat.

Lemma store_byte a v s (Q : unit -> ustate -> Prop) : mapped a = true ->
  Q tt (set_umem (wr 1 (umem s) a v) s) -> uwp (ustore8 a v) Q s.
Proof. intros Hm HQ. by apply uwp_store; [apply umapped_1|]. Qed.

Lemma store_slot i v s (Q : unit -> ustate -> Prop) : shell_layout -> 0 <= i < 4096 ->
  Q tt (set_umem (wr 8 (umem s) (tmp_argv + 8 * i) v) s) -> uwp (ustore64 (tmp_argv + 8 * i) v) Q s.
Proof.
  intros Hl Hi HQ. apply uwp_store; [|done]. destruct (sl_argv Hl) as (_ & _ & Hmap). unfold umapped.
  apply forallb_forall. intros x Hx%in_seq. rewrite <-Z.add_assoc. apply Hmap. lia.
Qed.

(** The name of the program, when the word is the first one. *)
Lemma program_name_ok ws p w s (Q : builtin -> ustate -> Prop) :
  shell_layout -> path_at (umem s) ws -> utext (umem s) (Ptr p) w -> in_line p w ->
  (forall m, modifies (range path 4096) (umem s) m -> path_at m (ws ++ [w]) -> Q (command (ws ++ [w])) (set_umem m s)) ->
  uwp (first ← uload8 path;
       if first =? 0 then
         b ← program_type p; ustore8 path (code "/");; n ← strlen (Ptr p); strcpy (path + 1) (Ptr p) n;; mret b
       else mret (command ws)) Q s.
Proof.
  intros Hl Hpath Ht (Hp1 & Hp2 & Hw) HQ. destruct (sl_path Hl) as (Hp0 & Hpm & Hmap).
  pose proof (sl_path_line Hl) as Hap. unfold apart in Hap. uwp_step. apply uwp_load.
  { apply umapped_1. rewrite <-(Z.add_0_r path). apply Hmap. lia. }
  rewrite rd_1. destruct ws as [|w0 ws].
  - simpl in Hpath. rewrite Hpath. simpl (0 =? 0). uwp_step. uwp_step. apply (program_type_ok p w); [done|lia|].
    uwp_step. apply store_byte; [rewrite <-(Z.add_0_r path); apply Hmap; lia|].
    set (m1 := wr 1 (umem s) path (code "/")). assert (Ht1 : utext m1 (Ptr p) w).
    { apply (utext_frame (umem s)); [done|]. intros a Ha. apply rd8_wr_out. simpl. lia. }
    uwp_step. apply (ustrlen_ok (Ptr p) w); [done|lia|]. uwp_step.
    apply (ustrcpy_ok (path + 1) p w); [done|lia|lia| |lia|].
    { intros i Hi. rewrite <-Z.add_assoc. apply Hmap. lia. }
    intros m2 Ht2 Hm2. uwp_step. apply (HQ m2).
    + eapply modifies_trans; [|eapply modifies_weaken; [|exact Hm2]]; [apply modifies_wr|]; unfold range; simpl; lia.
    + simpl. destruct Ht2 as [Hc (Hb & _ & _ & Hmp)]. split; [by constructor|].
      split; [split; [|done]|split; [lia|split; [simpl; lia|intros i Hi; apply Hmap; simpl in Hi; lia]]].
      rewrite Hm2 by (unfold range; lia). simpl umem. unfold m1. by rewrite rd8_wr1, decide_True.
  - simpl in Hpath. destruct Hpath as [Hc (Hb & Hrest)]. simpl in Hb. destruct Hb as [Hb1 Hb2]. rewrite Hb1.
    change (code "/" =? 0) with false. uwp_step. specialize (HQ (umem s) (modifies_refl _ _)).
    destruct s. apply HQ. split; [done|]. split; [by split|done].
Qed.

Lemma argv_at_snoc m ps p : 0 <= p < 2 ^ 64 -> argv_at m ps ->
  let n := Z.of_nat (length ps) in
  argv_at (wr 8 (wr 8 m (tmp_argv + 8 * n) p) (tmp_argv + 8 * (n + 1)) NULL) (ps ++ [p]).
Proof.
  intros Hp [Hps _] n. split.
  - intros i q [Hi|[Hi Hq]]%lookup_app_Some.
    + pose proof (lookup_lt_Some _ _ _ Hi). rewrite !rd64_wr64_out by lia. by apply Hps.
    + apply list_lookup_singleton_Some in Hq as [Hi' <-]. replace (Z.of_nat i) with n by lia.
      rewrite rd64_wr64_out by lia. by rewrite rd64_wr64_same.
  - rewrite length_app. simpl. replace (Z.of_nat (length ps + 1)) with (n + 1) by lia. by rewrite rd64_wr64_same.
Qed.

Lemma argv_at_frame m m' ps : argv_at m ps ->
  (forall a, tmp_argv <= a < tmp_argv + 8 * (Z.of_nat (length ps) + 1) -> rd8 m' a = rd8 m a) -> argv_at m' ps.
Proof.
  intros [Hps He] Hm. split.
  - intros i p Hi. rewrite <-(Hps i p Hi). pose proof (lookup_lt_Some _ _ _ Hi). apply rd_ext. intros b Hb. apply Hm. simpl in Hb. lia.
  - rewrite <-He. apply rd_ext. intros b Hb. apply Hm. simpl in Hb. lia.
Qed.

Lemma texts_at_frame m m' ps ws bound : texts_at m ps ws bound ->
  (forall a, local_line <= a < bound -> rd8 m' a = rd8 m a) -> texts_at m' ps ws bound.
Proof.
  intros [Hlen Hw] Hm. split; [done|]. intros i p w Hp Hwi. destruct (Hw i p w Hp Hwi) as (H1 & H2 & H3).
  split; [done|]. split; [done|]. apply (utext_frame m); [done|]. intros a Ha. apply Hm. lia.
Qed.

Lemma path_at_frame m m' ws : path_at m ws -> (Forall (fun w => (length w < 4095)%nat) ws) ->
  (forall a, path <= a < path + 4096 -> rd8 m' a = rd8 m a) -> path_at m' ws.
Proof.
  intros Hp Hws Hm. destruct ws as [|w ws]; simpl in *; [by rewrite Hm by lia|].
  apply Forall_cons in Hws as [Hw _]. apply (utext_frame m); [done|]. intros a Ha. apply Hm. simpl in Ha. lia.
Qed.

Definition outside_line (a : Z) : Prop := range path 4096 a \/ range tmp_argv 32768 a.

Lemma add_parameter_ok ps ws p w s (Q : Z * builtin -> ustate -> Prop) :
  shell_layout -> length ps = length ws -> argv_at (umem s) ps -> path_at (umem s) ws ->
  utext (umem s) (Ptr p) w -> in_line p w -> Forall (fun w => (length w < 4095)%nat) ws -> (length ws < 4095)%nat ->
  (forall m, modifies outside_line (umem s) m -> argv_at m (ps ++ [p]) -> path_at m (ws ++ [w]) ->
     Q (Z.of_nat (length ws) + 1, command (ws ++ [w])) (set_umem m s)) ->
  uwp (add_parameter p (Z.of_nat (length ws)) (command ws)) Q s.
Proof.
  intros Hl Hlen Hav Hpath Ht Hin Hws Hn HQ. pose proof (sl_path_argv Hl) as Hap. unfold apart in Hap.
  destruct (utext_ptr _ _ _ Ht) as [Hp Hpm]. destruct (sl_argv Hl) as (Ha0 & Ham & _).
  assert (Hadd : forall (k : builtin -> U (Z * builtin)) P,
    uwp ((first ← uload8 path; if first =? 0 then
         b ← program_type p; ustore8 path (code "/");; n ← strlen (Ptr p); strcpy (path + 1) (Ptr p) n;; mret b
       else mret (command ws)) ≫= k) P s ->
    uwp (first ← uload8 path; b ← (if first =? 0 then
         b ← program_type p; ustore8 path (code "/");; n ← strlen (Ptr p); strcpy (path + 1) (Ptr p) n;; mret b
       else mret (command ws)); k b) P s).
  { intros k P. unfold uwp, mbind, U_bind. by destruct (uload8 path s). }
  unfold add_parameter. apply Hadd. uwp_step. apply (program_name_ok ws p w); [done..|]. intros m1 Hm1 Hp1.
  uwp_step. apply store_slot; [done|lia|]. uwp_step. apply store_slot; [done|lia|]. uwp_step. simpl umem.
  apply HQ; clear HQ.
  - eapply modifies_trans; [eapply modifies_weaken; [|exact Hm1]; by left|].
    eapply modifies_trans; apply modifies_wr; unfold outside_line, range; simpl; lia.
  - rewrite <-Hlen. apply argv_at_snoc; [lia|]. apply (argv_at_frame (umem s)); [done|]. intros a Ha. apply Hm1. unfold range. lia.
  - apply (path_at_frame m1); [done| |].
    + apply Forall_app. split; [done|]. constructor; [apply Hin|done].
    + intros a Ha. rewrite !rd8_wr_out by (simpl; lia). done.
Qed.

(** The state of the parsing loop: [ws1] are in the vector, [ws2] still to come. *)
Record parsing (l : list Z) (s : ustate) (n parameter argc : Z) (b : builtin) (s1 : ustate)
    (ps : list Z) (ws1 ws2 : list (list Z)) (bound : Z) : Prop := {
  pg_words : line_words l = ws1 ++ ws2;
  pg_measure : n = Z.of_nat (length ws2);
  pg_argc : argc = Z.of_nat (length ws1);
  pg_command : b = command ws1;
  pg_bound : local_line <= bound <= local_line + 4096;
  pg_texts : texts_at (umem s1) ps ws1 bound;
  pg_argv : argv_at (umem s1) ps;
  pg_path : path_at (umem s1) ws1;
  pg_pending : pending (local_line + Z.of_nat (length l)) (umem s1) (ulast s1) ws2 parameter bound;
  pg_ker : uker s1 = uker s;
  pg_mem : modifies (fun a => outside_line a \/ range local_line 4096 a) (umem s) (umem s1)
}.

(** A line that [read_until] can have read. *)
Definition line_ok (l : list Z) : Prop :=
  (length l < 4096)%nat /\ Forall (fun w => (length w < 4095)%nat) (line_words l).

Lemma texts_at_snoc m ps ws bound p w : texts_at m ps ws bound -> local_line <= p -> bound <= p ->
  utext m (Ptr p) w -> texts_at m (ps ++ [p]) (ws ++ [w]) (p + Z.of_nat (length w) + 1).
Proof.
  intros [Hlen Hw] Hp Hb Ht. split; [rewrite !length_app; simpl; lia|].
  intros i q v [Hi|[Hi Hq]]%lookup_app_Some Hv.
  - rewrite lookup_app_l in Hv by (apply lookup_lt_Some in Hi; lia). destruct (Hw i q v Hi Hv) as (? & ? & ?).
    split; [done|]. split; [lia|done].
  - apply list_lookup_singleton_Some in Hq as [Hi' <-]. replace i with (length ws) in Hv by lia.
    rewrite list_lookup_middle in Hv by done. injection Hv as <-. split; [done|]. split; [lia|done].
Qed.

(** A turn of the loop that has a word. *)
Lemma parse_turn_ok l s n parameter argc b s1 ps ws1 w ws2 bound (Q : Z * Z * builtin + builtin -> ustate -> Prop) :
  shell_layout -> line_ok l -> parsing l s n parameter argc b s1 ps ws1 (w :: ws2) bound ->
  (forall r s2, parsing l s (n - 1) r (argc + 1) (command (ws1 ++ [w])) s2 (ps ++ [parameter]) (ws1 ++ [w]) ws2
     (parameter + Z.of_nat (length w) + 1) -> Q (inl (r, argc + 1, command (ws1 ++ [w]))) s2) ->
  uwp (ab ← add_parameter parameter argc b;
       r ← strtok NULL (Lit parameter_delimiters);
       mret (inl (r, ab.1, ab.2))) Q s1.
Proof.
  intros Hl [Hlen Hlw] [Hws -> -> -> Hbl Htx Hav Hpa (Hpb & Hpe & Hpt & l' & Hl' & Hrem & Hpos) Hk Hm] HQ.
  pose proof (words_length blanks l) as Hwl. fold (line_words l) in Hwl. rewrite Hws in Hlw, Hwl.
  apply Forall_app in Hlw as [Hlw1 Hlw2]. apply Forall_cons in Hlw2 as [Hlw _]. rewrite length_app in Hwl. simpl in Hwl.
  pose proof (sl_path_line Hl) as Hap1. pose proof (sl_argv_line Hl) as Hap2. unfold apart in Hap1, Hap2.
  uwp_step. apply (add_parameter_ok ps ws1 parameter w s1); try done; [apply Htx|split; [lia|split; [lia|done]]|lia|].
  intros m Hmo Hav2 Hpa2. uwp_step. set (s2 := set_umem m s1). set (e := local_line + Z.of_nat (length l)) in *.
  assert (Hline : forall a, local_line <= a < local_line + 4096 -> rd8 m a = rd8 (umem s1) a).
  { intros a Ha. apply Hmo. unfold outside_line, range. lia. }
  assert (Hpt2 : utext m (Ptr parameter) w) by (apply (utext_frame (umem s1)); [done|]; intros a Ha; apply Hline; lia).
  assert (Htx2 : texts_at m (ps ++ [parameter]) (ws1 ++ [w]) (parameter + Z.of_nat (length w) + 1)).
  { apply (texts_at_snoc _ _ _ bound); [|lia|done|done]. apply (texts_at_frame (umem s1)); [done|]. intros a Ha. apply Hline. lia. }
  assert (Hm2 : modifies (fun a => outside_line a \/ range local_line 4096 a) (umem s) m).
  { eapply modifies_trans; [exact Hm|]. eapply modifies_weaken; [|exact Hmo]. by left. }
  assert (Hdone : forall r s3, uker s3 = uker s1 ->
    modifies (fun a => parameter + Z.of_nat (length w) + 1 <= a <= e) m (umem s3) ->
    pending e (umem s3) (ulast s3) ws2 r (parameter + Z.of_nat (length w) + 1) ->
    Q (inl (r, Z.of_nat (length ws1) + 1, command (ws1 ++ [w]))) s3).
  { intros r s3 Hk3 Hm3 Hpend. apply HQ. split; try done.
    - by rewrite Hws, <-app_assoc.
    - simpl. lia.
    - rewrite length_app. simpl. lia.
    - lia.
    - apply (texts_at_frame m); [done|]. intros a Ha. apply Hm3. lia.
    - apply (argv_at_frame m); [done|]. intros a Ha. apply Hm3. rewrite length_app in Ha. simpl in Ha.
      destruct Htx as [Htl _]. lia.
    - apply (path_at_frame m); [done|apply Forall_app; split; [done|by constructor]|]. intros a Ha. apply Hm3. lia.
    - by rewrite Hk3.
    - eapply modifies_trans; [exact Hm2|]. eapply modifies_weaken; [|exact Hm3]. intros a Ha. right. unfold range, e in *. lia. }
  destruct (decide (ulast s1 = NULL)) as [Hn|Hn].
  - apply (strtok_done _ s2); [done|]. uwp_step. apply Hdone; [done|apply modifies_refl|].
    destruct Hrem as [[_ ->]|[? _]]; [|done]. by rewrite <-Hl'.
  - destruct Hrem as [[? _]|[_ Hrt]]; [done|]. destruct (Hpos Hn) as [Hp1 Hp2].
    eapply uwp_mono; [apply (next_word NULL (ulast s1) l' e (parameter + Z.of_nat (length w) + 1) s2)|].
    + apply (utext_frame (umem s1)); [done|]. intros a Ha. apply Hline. lia.
    + destruct (sl_line Hl). lia.
    + done.
    + by right.
    + intros r s3 (Hk3 & Hm3 & Hpend). uwp_step. rewrite Hl' in Hpend. by apply Hdone.
Qed.

(** What the parser leaves: the vector points to the words, in order, and ends with
    NULL; the path is that of the first word. *)
Record parsed (l : list Z) (s s' : ustate) : Prop := {
  pd_argv : exists ps, texts_at (umem s') ps (line_words l) (local_line + 4096) /\ argv_at (umem s') ps;
  pd_path : path_at (umem s') (line_words l);
  pd_ker : uker s' = uker s;
  pd_mem : modifies (fun a => outside_line a \/ range local_line 4096 a) (umem s) (umem s')
}.

(** C27: the parser of the shell is the reference tokenizer: from a line it makes the
    vector of pointers to its words, in order, with NULL at the end, the path
    made of "/" and the first word, and the builtin that the first word names;
    nothing else than the line, the path and the vector changes. *)
Theorem parse_line_tokenizes l s :
  shell_layout -> line_ok l -> utext (umem s) (Ptr local_line) l -> rd8 (umem s) path = 0 ->
  rd64 (umem s) tmp_argv = NULL ->
  uwp (parse_line local_line) (fun b s' => b = command (line_words l) /\ parsed l s s') s.
Proof.
  intros Hl Hok Ht Hpath Hargv. destruct (sl_line Hl) as (Hl0 & Hlm & _). pose proof Hok as [Hlen Hlw].
  pose proof (sl_path_line Hl) as Hap1. pose proof (sl_argv_line Hl) as Hap2. unfold apart in Hap1, Hap2.
  pose proof (words_length blanks l) as Hwl. fold (line_words l) in Hwl.
  unfold parse_line. uwp_step.
  eapply uwp_mono; [apply (next_word local_line local_line l (local_line + Z.of_nat (length l)) local_line s); [done|lia|done|by left]|].
  intros parameter s1 (Hk & Hm & Hpend).
  apply (uwp_loop (fun n '(parameter, argc, b) s1 => exists ps ws1 ws2 bound,
    parsing l s n parameter argc b s1 ps ws1 ws2 bound) (Z.of_nat (length (line_words l)))); [|lia|].
  - exists [], [], (line_words l), local_line. split; try done.
    + lia.
    + split; [intros i p Hi; by rewrite lookup_nil in Hi|]. simpl length. rewrite <-Hargv. replace (tmp_argv + 8 * Z.of_nat 0) with tmp_argv by lia.
      apply rd_ext. intros b Hb. apply Hm. simpl in Hb. lia.
    + simpl. rewrite <-Hpath. apply Hm. lia.
    + eapply modifies_weaken; [|exact Hm]. intros a Ha. right. unfold range in *. lia.
  - clear parameter s1 Hk Hm Hpend. intros n [[parameter argc] b] s1 (ps & ws1 & ws2 & bound & Hpg).
    split; [rewrite (pg_measure _ _ _ _ _ _ _ _ _ _ _ Hpg); lia|]. destruct ws2 as [|w ws2].
    + pose proof (pg_pending _ _ _ _ _ _ _ _ _ _ _ Hpg) as Hp. simpl in Hp. rewrite Hp. change (NULL =? NULL) with true.
      uwp_step. destruct Hpg as [Hws _ -> -> Hbd [Htl Htx] Hav Hpa _ Hk Hm]. rewrite app_nil_r in Hws. rewrite <-Hws in *.
      split; [done|]. split; [|done|done|done]. exists ps. split; [|done]. split; [done|].
      intros i p w Hp' Hw. destruct (Htx i p w Hp' Hw) as (? & ? & Htw). split; [done|]. split; [lia|done].
    + pose proof (pg_pending _ _ _ _ _ _ _ _ _ _ _ Hpg) as (Hpb & _). pose proof (pg_bound _ _ _ _ _ _ _ _ _ _ _ Hpg).
      rewrite (proj2 (Z.eqb_neq parameter NULL)) by (unfold NULL; lia).
      apply (parse_turn_ok l s n parameter argc b s1 ps ws1 w ws2 bound); [done..|].
      intros r s2 Hpg2. exists (n - 1). split; [lia|]. eexists _, _, _, _. exact Hpg2.
Qed.

(** ** Running the command *)

(** The vector of the parser is one that [exec] can send. *)
Lemma parsed_vector l s s' : shell_layout -> line_ok l -> parsed l s s' -> uvector (umem s') tmp_argv (line_words l).
Proof.
  intros Hl [Hlen Hlw] [(ps & [Htl Htx] & Hps & Hend) _ _ _].
  destruct (sl_argv Hl) as (Ha0 & Ham & Hmap). destruct (sl_line Hl) as (Hl0 & _). destruct (sl_shared Hl) as (_ & Hs1 & _ & Hs2).
  pose proof (words_length blanks l) as Hwl. fold (line_words l) in Hwl. split.
  - lia.
  - left. lia.
  - intros i Hi. unfold umapped. apply forallb_forall. intros x Hx%in_seq. rewrite <-Z.add_assoc. apply Hmap. lia.
  - intros i w Hw Hi. pose proof (lookup_lt_Some _ _ _ Hw). destruct (lookup_lt_is_Some_2 ps (Z.to_nat i)) as [p Hp]; [lia|].
    destruct (Htx _ p w Hp Hw) as (Hp1 & Hp2 & Ht). pose proof (Hps _ p Hp) as Hr. rewrite Z2Nat.id in Hr by lia. rewrite Hr.
    split; [unfold NULL; lia|]. split; [done|]. left. lia.
  - by rewrite <-Htl.
Qed.

(** [execute_line] up to the choice of the command, and from there. *)
Definition parse_command : U builtin :=
  ustore64 tmp_argv NULL;; ustore8 path 0;; skip_environment;; parse_line local_line.
Definition run_command (b : builtin) : U Z :=
  match b with
  | HELP =>
      print_string (Lit (String.append "help:     print this message" newline_chars));;
      print_string (Lit (String.append "exit:     exit shell" newline_chars));;
      print_string (Lit (String.append "poweroff: power off" newline_chars));;
      mret 0
  | EXIT => exit 0
  | POWEROFF => power_off;; mret 0
  | NON_BUILTIN => first ← uload8 path; if negb (first =? 0) then run_program else mret 0
  end.

Lemma execute_line_parses l s : shell_layout -> line_ok l -> utext (umem s) (Ptr local_line) l ->
  rd64 (umem s) program_envp = NULL ->
  uwp parse_command
    (fun b s' => b = command (line_words l) /\ parsed l s s' /\ rd64 (umem s') program_envp = NULL) s.
Proof.
  intros Hl Hok Ht He. unfold parse_command. destruct (sl_path Hl) as (Hp0 & Hpm & Hpmap). destruct (sl_argv Hl) as (Ha0 & Ham & _).
  destruct (sl_line Hl) as (Hl0 & Hlm & _). destruct Hok as [Hlen Hlw].
  pose proof (sl_path_argv Hl) as A1. pose proof (sl_path_line Hl) as A2. pose proof (sl_argv_line Hl) as A3.
  pose proof (sl_envp_path Hl) as A4. pose proof (sl_envp_argv Hl) as A5. pose proof (sl_envp_line Hl) as A6. unfold apart in *.
  uwp_step. replace tmp_argv with (tmp_argv + 8 * 0) at 1 by lia. apply store_slot; [done|lia|].
  replace (tmp_argv + 8 * 0) with tmp_argv by lia. uwp_step.
  apply store_byte; [rewrite <-(Z.add_0_r path); apply Hpmap; lia|]. simpl umem.
  set (m := wr 1 (wr 8 (umem s) tmp_argv NULL) path 0).
  assert (Hm : modifies outside_line (umem s) m).
  { eapply modifies_trans; apply modifies_wr; unfold outside_line, range; simpl; lia. }
  assert (Hem : rd64 m program_envp = NULL).
  { rewrite <-He. apply rd_ext. intros b Hb. apply Hm. unfold outside_line, range. simpl in Hb. lia. }
  uwp_step. unfold skip_environment.
  apply (uwp_loop (fun n x s' => n = 0 /\ x = program_envp /\ s' = set_umem m s) 0); [done|done|].
  intros n x s' (-> & -> & ->). split; [done|]. uwp_step. apply uwp_load.
  { unfold umapped. apply forallb_forall. intros x Hx%in_seq. apply (sl_envp Hl). lia. }
  simpl umem. rewrite Hem. change (NULL =? NULL) with true. uwp_step. uwp_step.
  eapply uwp_mono; [apply (parse_line_tokenizes l (set_umem m s))|]; [done|by split| | | |].
  - apply (utext_frame (umem s)); [done|]. intros a Ha. apply Hm. unfold outside_line, range. lia.
  - simpl. unfold m. by rewrite rd8_wr1, decide_True.
  - simpl. unfold m. rewrite (rd_wr_out 1 8) by (simpl; lia). by rewrite rd64_wr64_same.
  - intros b s2 (-> & [Hd1 Hd2 Hd3 Hd4]). split; [done|]. split.
    + split; [done|done|done|]. eapply modifies_trans; [|exact Hd4]. eapply modifies_weaken; [|exact Hm]. by left.
    + rewrite <-Hem. apply rd_ext. intros b Hb. apply Hd4. unfold outside_line, range. simpl in Hb. lia.
Qed.

Lemma execute_line_split s : execute_line local_line s = (b ← parse_command; run_command b) s.
Proof.
  unfold execute_line, parse_command, run_command, mbind, U_bind. destruct (ustore64 tmp_argv NULL s) as [? s0| | | |]; [|done..].
  destruct (ustore8 path 0 s0) as [? s1| | | |]; [|done..]. by destruct (skip_environment s1).
Qed.

Lemma uends_ext {A} (m m' : U A) Q s : m s = m' s -> uends m' Q s -> uends m Q s.
Proof. unfold uends. by intros ->. Qed.

(** The program of a line runs with the line's words. *)
Lemma path_first m w ws : path_at m (w :: ws) -> rd8 m path = code "/".
Proof. intros [_ [Hb _]]. apply Hb. Qed.

(** C28: in the child, the shell runs the program that the line names: unless the
    line is empty or starts with a builtin, [execute_line] forks, and where fork
    has returned 0 it calls exec with the shared page filled with the path of the
    program, the words of the line as its arguments, and an empty environment. *)
Theorem execute_line_execs l w ws s k1 :
  shell_layout -> page_mapped -> line_ok l -> utext (umem s) (Ptr local_line) l ->
  rd64 (umem s) program_envp = NULL ->
  line_words l = w :: ws -> builtin_of w = NON_BUILTIN ->
  (length (message (code "/" :: w) (w :: ws) []) < 4096)%nat ->
  (forall m, serve SYSCALL_FORK [0; 0; 0; 0; 0; 0; 0] m (uker s) = Some (0, m, k1)) ->
  (forall args m, serve SYSCALL_EXEC args m k1 = None) ->
  uends (execute_line local_line) (fun s' => uker s' = k1 /\
    bytes_at (umem s') SHARED_MEMORY (padded (code "/" :: w) (w :: ws) [])) s.
Proof.
  intros Hl Hpm Hok Ht He Hws Hb Hmsg Hfork Hexec.
  apply (uends_ext _ _ _ _ (execute_line_split s)).
  apply uends_bind. eapply uwp_mono; [exact (execute_line_parses l s Hl Hok Ht He)|].
  intros b s1 (-> & Hpd & He1). pose proof (parsed_vector l s s1 Hl Hok Hpd) as Hvec. rewrite Hws in *.
  unfold command. rewrite Hb. unfold run_command. destruct Hpd as [_ Hpath Hker _]. rewrite Hws in Hpath.
  destruct (sl_path Hl) as (Hp0 & Hpmm & Hpmap).
  apply uends_bind. apply uwp_load; [apply umapped_1; rewrite <-(Z.add_0_r path); apply Hpmap; lia|].
  rewrite rd_1, (path_first _ _ _ Hpath). change (negb (code "/" =? 0)) with true. cbv iota.
  unfold run_program. apply uends_bind. unfold fork, uwp, syscall. rewrite Hker, Hfork.
  change (s32 0 =? 0) with true. cbv iota. apply uends_bind_l.
  set (s2 := mkU (umem s1) (ulast s1) k1).
  destruct (exec_call_ok path tmp_argv program_envp (code "/" :: w) (w :: ws) [] s2) as (s3 & (Hl3 & Hk3 & _ & Hb3) & Heq);
    [done| |done| |done|].
  - split; [exact Hpath|]. left. destruct (sl_shared Hl) as (Hs1 & _). destruct Hok as [Hlen Hlw]. rewrite Hws in Hlw.
    apply Forall_cons in Hlw as [Hlw _]. simpl length. lia.
  - destruct (sl_envp Hl) as (He0 & Hem & Hemap). destruct (sl_shared Hl) as (_ & _ & Hs3 & _). split; simpl length.
    + lia.
    + left. lia.
    + intros i Hi. unfold umapped. apply forallb_forall. intros x Hx%in_seq. rewrite <-Z.add_assoc. apply Hemap. lia.
    + intros i l' Hi. by rewrite lookup_nil in Hi.
    + rewrite Z.mul_0_r, Z.add_0_r. exact He1.
  - unfold uends. rewrite Heq. unfold mbind, U_bind, syscall. rewrite Hk3. simpl uker. rewrite Hexec. by split.
Qed.

End Parse.

(** ** An instance: a child of the shell that runs "ls -a" *)

Definition shell_serve (id : Z) (args : list Z) (m : gmap Z Z) (k : list Z * list Z) :
    option (Z * gmap Z Z * (list Z * list Z)) :=
  if id =? SYSCALL_FORK then Some (0, m, k) else terminal_serve id args m k.

Definition shell_world : UserWorld := {|
  ker := list Z * list Z;
  serve := shell_serve;
  mapped := user_mapped;
  program_envp := user_ram + 0x8000;
  path := user_ram + 0x10000;
  tmp_argv := user_ram + 0x11000;
  local_line := user_ram + 0x1a000;
  local_int := user_ram + 0x1b000
|}.

Section Witnesses.
#[local] Existing Instance shell_world.

Definition ls_line : list Z := codes "ls -a" ++ [13].
Definition shell_memory : gmap Z Z := put_bytes local_line (ls_line ++ [0]) ∅.
Definition shell_state : ustate := mkU shell_memory 0 ([], []).

Lemma ls_layout : shell_layout.
Proof.
  assert (Hr : forall a n, user_ram <= a -> a + n <= user_ram + 0x20000 -> region a n).
  { intros a n H1 H2. unfold user_ram in *. split; [lia|]. split; [lia|]. intros i Hi. apply user_ram_mapped. unfold user_ram. lia. }
  split; try (apply Hr; vm_compute; congruence).
  1-6: unfold apart; vm_compute; (left; congruence) || (right; congruence).
  vm_compute. repeat split; congruence.
Qed.

Lemma ls_text : utext shell_memory (Ptr local_line) ls_line.
Proof.
  split; [by repeat constructor|]. split; [apply put_bytes_at; by repeat constructor|]. split; [done|]. split; [done|].
  intros i Hi. change (Z.of_nat (length ls_line)) with 6 in Hi. apply user_ram_mapped. change local_line with (user_ram + 0x1a000).
  unfold user_ram. lia.
Qed.

Lemma ls_ok : line_ok ls_line.
Proof. split; [vm_compute; lia|]. change (line_words ls_line) with [codes "ls"; codes "-a"].
  apply Forall_forall. intros w [->|[->|[]%not_elem_of_nil]%elem_of_cons]%elem_of_cons; vm_compute; lia.
Qed.

Lemma parse_line_tokenizes_witness :
  uwp (parse_line local_line) (fun b s' => b = NON_BUILTIN /\ rd8 (umem s') path = code "/") shell_state.
Proof.
  eapply uwp_mono; [apply (parse_line_tokenizes ls_line shell_state ls_layout ls_ok ls_text); reflexivity|].
  intros b s' (-> & [_ Hp _ _]). change (line_words ls_line) with [codes "ls"; codes "-a"] in *.
  split; [reflexivity|]. destruct Hp as (_ & Hb & _). exact (proj1 Hb).
Defined.

Lemma execute_line_execs_witness :
  uends (execute_line local_line) (fun s' =>
    bytes_at (umem s') SHARED_MEMORY (codes "/ls" ++ [0] ++ codes "ls" ++ [0] ++ codes "-a" ++ [0])) shell_state.
Proof.
  assert (Hu : forall m (P Q : ustate -> Prop) s, uends (A := Z) m P s -> (forall s', P s' -> Q s') -> uends m Q s).
  { intros m P Q s. unfold uends. destruct (m s); naive_solver. }
  eapply Hu; [apply (execute_line_execs ls_line (codes "ls") [codes "-a"] shell_state ([], []) ls_layout)|].
  - intros i Hi. unfold mapped. simpl. apply orb_true_iff. right. apply andb_true_iff. rewrite Z.leb_le, Z.ltb_lt. lia.
  - exact ls_ok.
  - exact ls_text.
  - reflexivity.
  - reflexivity.
  - reflexivity.
  - vm_compute. lia.
  - reflexivity.
  - reflexivity.
  - intros s' [_ Hb]. unfold padded in Hb. apply bytes_at_app in Hb as [Hb _]. exact Hb.
Defined.

End Witnesses.
